(** * Pokemon-DSA: battle engine and roster containers

    A shallow embedding of [pokemon_base.py], [poke_team.py] and
    [battle.py].  Python objects live in a store addressed by references,
    so that the aliasing between a team's container, its [original_team]
    array and the local variables of a clash is the aliasing of the
    program.  Methods run in a state-and-exception monad over that store.

    Numbers: Python mixes [int] and [float].  Both are embedded as exact
    rationals ([Q]); the stats of the catalogue are integers and the
    program only halves, quarters, and multiplies by 1.5, which binary
    floating point does without rounding at these magnitudes.  The one
    place that rounds is the quotient of two pokedex completions in
    [attack_and_defend]: each completion is rounded to two decimals, as
    in the code, and their quotient is kept exact here.  Python divides
    the two floats, and its quotient can lie a hair above the exact one
    (13 * (0.07 / 0.13) is 7.000000000000001), so that [math.ceil] can
    give the code one point of damage more than this model.  With equal
    completions the quotient is 1 in both. *)

From Stdlib Require Import ZArith QArith Qround String List Bool Lia.
From Stdlib Require Import Sorted Permutation Lqa.
Import ListNotations.

(* ------------------------------------------------------------------ *)
(** ** Numbers *)

Definition Qlt_bool (x y : Q) : bool := negb (Qle_bool y x).

(** [math.ceil]: the least integer not below its argument. *)
Definition ceil (x : Q) : Z := Qceiling x.

(* ------------------------------------------------------------------ *)
(** ** [pokemon_base.py]: types and the type table *)

Inductive PokeType :=
| FIRE | WATER | GRASS | BUG | DRAGON | ELECTRIC | FIGHTING | FLYING
| GHOST | GROUND | ICE | NORMAL | POISON | PSYCHIC | ROCK.

Definition poketype_value (t : PokeType) : N :=
  match t with
  | FIRE => 0 | WATER => 1 | GRASS => 2 | BUG => 3 | DRAGON => 4
  | ELECTRIC => 5 | FIGHTING => 6 | FLYING => 7 | GHOST => 8
  | GROUND => 9 | ICE => 10 | NORMAL => 11 | POISON => 12
  | PSYCHIC => 13 | ROCK => 14
  end%N.

(** [len(PokeType)] *)
Definition len_PokeType : Z := 15.

Record Pokemon := mkPokemon {
  health : Q;
  level : Z;
  poketype : PokeType;
  battle_power : Q;
  evolution_line : list string;
  name : string;
  experience : Z;
  defence : Q;
  speed : Q
}.

Definition with_health (h : Q) (p : Pokemon) : Pokemon :=
  mkPokemon h (level p) (poketype p) (battle_power p) (evolution_line p)
            (name p) (experience p) (defence p) (speed p).

Definition with_level (l : Z) (p : Pokemon) : Pokemon :=
  mkPokemon (health p) l (poketype p) (battle_power p) (evolution_line p)
            (name p) (experience p) (defence p) (speed p).

(** [list.index]: position of the first occurrence, [None] where Python
    raises [ValueError]. *)
Fixpoint list_index (x : string) (l : list string) : option nat :=
  match l with
  | [] => None
  | y :: l' => if String.eqb y x then Some O
               else option_map S (list_index x l')
  end.

(** [Pokemon.is_alive] *)
Definition is_alive (p : Pokemon) : bool := Qlt_bool 0 (health p).

(* ------------------------------------------------------------------ *)
(** ** The object store and the monad of methods *)

(** A reference to a [Pokemon] object. *)
Definition ref := nat.

(** A Python value held by a container slot: a Pokemon or [None]. *)
Definition pyobj := option ref.

Inductive exn :=
| ValueError (msg : string)
| Exception_ (msg : string)
| IndexError
| AttributeError
| TypeError
| ZeroDivisionError
| UnboundLocalError.

(** Modelled from the spec: [ArrayStack] of [data_structures.stack_adt],
    a fixed-capacity LIFO sequence whose front is the most recently pushed
    element.  [stack_items] lists the elements top first. *)
Record ArrayStack := mkStack {
  stack_capacity : nat;
  stack_items : list pyobj
}.

(** Modelled from the spec: [CircularQueue] of [data_structures.queue_adt],
    a fixed-capacity FIFO sequence whose front is the oldest element.
    [queue_items] lists the elements front first; the position of the
    front inside the ring buffer is not represented. *)
Record CircularQueue := mkQueue {
  queue_capacity : nat;
  queue_items : list pyobj
}.

(** A sort key: a number ([assemble_team]) or a pair of a number and an
    index ([assign_team]). *)
Inductive Key :=
| KNum (x : Q)
| KPair (x : Q) (i : Z).

(** Modelled from the spec: [ListItem] of [data_structures.sorted_list_adt]. *)
Record ListItem := mkItem {
  value : ref;
  key : Key
}.

(** Modelled from the spec: [ArrayR] of
    [data_structures.referential_array] and [ArraySortedList] of
    [data_structures.array_sorted_list], as the first and the last of the
    four kinds of object [PokeTeam.team] is bound to.  An array is the
    list of its slots; a sorted list, a sequence kept in ascending key
    order that grows on demand, is the list of its items, first to
    last. *)
Inductive TeamADT :=
| TArrayR (array : list pyobj)
| TArrayStack (s : ArrayStack)
| TCircularQueue (q : CircularQueue)
| TArraySortedList (items : list ListItem).

Record PokeTeam := mkPokeTeam {
  team : TeamADT;
  team_count : nat;
  special_called : bool;
  criterion : option string;
  original_team : list pyobj
}.

(** Modelled from the spec: [BSet] of [data_structures.bset], the type of
    [Trainer.pokedex]: a set of positive integers, kept as a bit vector
    in which bit [i-1] stands for [i].  The other fields are those of
    [Trainer]. *)
Record Trainer := mkTrainer {
  trainer_name : string;
  trainer_team : PokeTeam;
  pokedex : N
}.

(** Modelled from the spec: [BattleMode] of [battle_mode.py], whose
    values 0, 1, 2 select the set, rotate and optimised battles. *)
Inductive BattleMode := SET | ROTATE | OPTIMISE.

Definition battle_mode_value (m : BattleMode) : Z :=
  match m with SET => 0 | ROTATE => 1 | OPTIMISE => 2 end.

(** The two trainers of a [Battle]: [self.trainer_1], [self.trainer_2]. *)
Inductive Side := Side1 | Side2.

(** What [print] writes; a team or a Pokemon is recorded as the object
    printed, not as its rendering. *)
Inductive event :=
| PrintAssembled (mode : BattleMode) (s : Side) (t : PokeTeam)
| PrintRound (i : Z)
| PrintVersus (p1 p2 : option Pokemon)
| PrintFainted (dead : string)
| PrintEvolve (old_name evolved_name : string)
| PrintWinner (s : Side) (left : Z) (t : PokeTeam)
| PrintDraw.

Record World := mkWorld {
  store : ref -> Pokemon;
  next_ref : ref;
  trainer_1 : Trainer;
  trainer_2 : Trainer;
  stdout : list event
}.

(** The outcome of running a method: a value, an exception (both with the
    state reached), or a loop that used up its rounds. *)
Inductive result (A : Type) :=
| Ok (a : A) (w : World)
| Raise (e : exn) (w : World)
| Timeout.

Arguments Ok {A} a w.
Arguments Raise {A} e w.
Arguments Timeout {A}.

Definition M (A : Type) := World -> result A.

Definition ret {A} (a : A) : M A := fun w => Ok a w.

Definition bind {A B} (m : M A) (k : A -> M B) : M B :=
  fun w => match m w with
           | Ok a w' => k a w'
           | Raise e w' => Raise e w'
           | Timeout => Timeout
           end.

Definition raise {A} (e : exn) : M A := fun w => Raise e w.

Definition gets {A} (f : World -> A) : M A := fun w => Ok (f w) w.

Definition modify (f : World -> World) : M unit := fun w => Ok tt (f w).

Definition lift_exn {A} (x : exn + A) : M A :=
  match x with inl e => raise e | inr a => ret a end.

Declare Scope monad_scope.
Delimit Scope monad_scope with monad.
Notation "x <- m ;; k" := (bind m (fun x => k))
  (at level 100, m at next level, right associativity) : monad_scope.
Notation "' pat <- m ;; k" := (bind m (fun x => match x with pat => k end))
  (at level 100, pat pattern, m at next level, right associativity) : monad_scope.
Notation "m ;; k" := (bind m (fun _ => k))
  (at level 100, right associativity) : monad_scope.
Open Scope monad_scope.

Definition print (e : event) : M unit :=
  modify (fun w => mkWorld (store w) (next_ref w) (trainer_1 w) (trainer_2 w)
                           (stdout w ++ [e])).

(** Dereference: calling a method on [None] raises [AttributeError]. *)
Definition deref (o : pyobj) : M ref :=
  match o with Some r => ret r | None => raise AttributeError end.

Definition update_store (r : ref) (p : Pokemon) (st : ref -> Pokemon)
  : ref -> Pokemon :=
  fun r' => if Nat.eqb r' r then p else st r'.

Definition set_pokemon (r : ref) (p : Pokemon) : M unit :=
  modify (fun w => mkWorld (update_store r p (store w)) (next_ref w)
                           (trainer_1 w) (trainer_2 w) (stdout w)).

Definition get_pokemon (r : ref) : M Pokemon := gets (fun w => store w r).

(* ------------------------------------------------------------------ *)
(** ** [Pokemon]: attack, defence, evolution *)

Section Engine.

(** [TypeEffectiveness.EFFECT_TABLE] is read from [type_effectiveness.csv],
    which is not part of the sources: the table is a parameter. *)
Variable EFFECT_TABLE : PokeType -> PokeType -> Q.

(** [PokeTeam.POKE_LIST = get_all_pokemon_types()] comes from
    [pokemon.py], which is not part of the sources: the catalogue is a
    parameter, each class given as the object its constructor builds. *)
Variable POKE_LIST : list Pokemon.

Definition get_effectiveness (attack_type defend_type : PokeType) : Q :=
  EFFECT_TABLE attack_type defend_type.

(** [Pokemon.attack]: the body, on the two objects it reads. *)
Definition attack_damage (self other_pokemon : Pokemon) : Q :=
  let defence := defence other_pokemon in
  let battle_power := battle_power self in
  let damage :=
    if Qlt_bool defence (battle_power / 2) then battle_power - defence
    else if Qlt_bool defence battle_power then
      inject_Z (ceil ((battle_power * 5 / 8) - (defence / 4)))
    else inject_Z (ceil (battle_power / 4)) in
  damage * get_effectiveness (poketype self) (poketype other_pokemon).

(** [Pokemon.defend]: the new object. *)
Definition defend_pokemon (damage : Z) (self : Pokemon) : Pokemon :=
  let effective_damage :=
    if Qlt_bool (inject_Z damage) (defence self)
    then inject_Z damage / 2 else inject_Z damage in
  with_health (health self - effective_damage) self.

(** [Pokemon._evolve], given the position of the current name. *)
Definition evolve_pokemon (evolved_name : string) (self : Pokemon) : Pokemon :=
  mkPokemon (health self * 1.5) (level self) (poketype self)
            (battle_power self * 1.5) (evolution_line self) evolved_name
            (experience self) (defence self * 1.5) (speed self * 1.5).

(* ------------------------------------------------------------------ *)
(** ** [Pokemon] methods on references *)

Definition attack (self other_pokemon : ref) : M Q :=
  a <- get_pokemon self ;;
  d <- get_pokemon other_pokemon ;;
  ret (attack_damage a d).

Definition defend (self : ref) (damage : Z) : M unit :=
  p <- get_pokemon self ;;
  set_pokemon self (defend_pokemon damage p).

Definition _evolve (self : ref) : M unit :=
  p <- get_pokemon self ;;
  match list_index (name p) (evolution_line p) with
  | None => raise (ValueError "is not in list")
  | Some i =>
      match nth_error (evolution_line p) (i + 1) with
      | None => raise IndexError
      | Some evolved_name =>
          print (PrintEvolve (name p) evolved_name) ;;
          set_pokemon self (evolve_pokemon evolved_name p)
      end
  end.

Definition level_up (self : ref) : M unit :=
  p <- get_pokemon self ;;
  set_pokemon self (with_level (level p + 1) p) ;;
  if (0 <? length (evolution_line p))%nat then
    match list_index (name p) (evolution_line p) with
    | None => raise (ValueError "is not in list")
    | Some i =>
        if negb (Nat.eqb i (length (evolution_line p) - 1))
        then _evolve self else ret tt
    end
  else ret tt.

Definition pokemon_is_alive (self : ref) : M bool :=
  p <- get_pokemon self ;; ret (is_alive p).


(* ------------------------------------------------------------------ *)
(** ** The containers of [data_structures] *)

(** Modelled from the spec: the operations of [ArrayStack].  A stack is
    created with room for at least one element; [push] on a full stack
    and [pop] or [peek] on an empty one raise. *)
Definition new_stack (max_capacity : nat) : ArrayStack :=
  mkStack (Nat.max 1 max_capacity) [].

(** Modelled from the spec: [ArrayStack.push]. *)
Definition stack_push (item : pyobj) (s : ArrayStack) : exn + ArrayStack :=
  if (length (stack_items s) <? stack_capacity s)%nat
  then inr (mkStack (stack_capacity s) (item :: stack_items s))
  else inl (Exception_ "Stack is full").

(** Modelled from the spec: [ArrayStack.pop]. *)
Definition stack_pop (s : ArrayStack) : exn + (pyobj * ArrayStack) :=
  match stack_items s with
  | [] => inl (Exception_ "Stack is empty")
  | x :: rest => inr (x, mkStack (stack_capacity s) rest)
  end.

(** Modelled from the spec: [ArrayStack.peek]. *)
Definition stack_peek (s : ArrayStack) : exn + pyobj :=
  match stack_items s with
  | [] => inl (Exception_ "Stack is empty")
  | x :: _ => inr x
  end.

(** Modelled from the spec: the constructor of [CircularQueue]. *)
Definition new_queue (max_capacity : nat) : CircularQueue :=
  mkQueue (Nat.max 1 max_capacity) [].

(** Modelled from the spec: [CircularQueue.append]. *)
Definition queue_append (item : pyobj) (q : CircularQueue)
  : exn + CircularQueue :=
  if (length (queue_items q) <? queue_capacity q)%nat
  then inr (mkQueue (queue_capacity q) (queue_items q ++ [item]))
  else inl (Exception_ "Queue is full").

(** Modelled from the spec: [CircularQueue.serve]. *)
Definition queue_serve (q : CircularQueue) : exn + (pyobj * CircularQueue) :=
  match queue_items q with
  | [] => inl (Exception_ "Queue is empty")
  | x :: rest => inr (x, mkQueue (queue_capacity q) rest)
  end.

(** Python's [<] and [>] on keys: numbers by value, tuples
    lexicographically; [None] where Python raises [TypeError]. *)
Definition key_compare (a b : Key) : option comparison :=
  match a, b with
  | KNum x, KNum y => Some (x ?= y)%Q
  | KPair x i, KPair y j =>
      Some (match (x ?= y)%Q with Eq => (i ?= j)%Z | c => c end)
  | _, _ => None
  end.

(** Modelled from the spec: [ArraySortedList._index_to_add], the binary
    search for the position of a new item.  The interval shrinks at every
    step, so one more step than there are items is enough. *)
Fixpoint _index_to_add (steps : nat) (items : list ListItem) (item : ListItem)
         (low high : Z) : exn + Z :=
  match steps with
  | O => inr low
  | S steps' =>
      if (low <=? high)%Z then
        let mid := ((low + high) / 2)%Z in
        match nth_error items (Z.to_nat mid) with
        | None => inl IndexError
        | Some x =>
            match key_compare (key x) (key item) with
            | None => inl TypeError
            | Some Lt => _index_to_add steps' items item (mid + 1)%Z high
            | Some Gt => _index_to_add steps' items item low (mid - 1)%Z
            | Some Eq => inr mid
            end
        end
      else inr low
  end.

(** Modelled from the spec: [ArraySortedList.add], which inserts at the
    position found and shifts the items behind it. *)
Definition sorted_add (item : ListItem) (items : list ListItem)
  : exn + list ListItem :=
  match _index_to_add (S (length items)) items item 0%Z
                      (Z.of_nat (length items) - 1)%Z with
  | inl e => inl e
  | inr position =>
      inr (firstn (Z.to_nat position) items
           ++ item :: skipn (Z.to_nat position) items)
  end.

(** Modelled from the spec: [ArrayR.__getitem__]. *)
Definition array_getitem (array : list pyobj) (index : Z) : exn + pyobj :=
  if ((index <? 0) || (Z.of_nat (length array) <=? index))%Z
  then inl IndexError
  else match nth_error array (Z.to_nat index) with
       | Some x => inr x
       | None => inl IndexError
       end.

Fixpoint list_set {A} (l : list A) (i : nat) (x : A) : list A :=
  match l, i with
  | [], _ => []
  | _ :: l', O => x :: l'
  | y :: l', S i' => y :: list_set l' i' x
  end.

(** Modelled from the spec: [ArrayR.__setitem__]. *)
Definition array_setitem (array : list pyobj) (index : Z) (x : pyobj)
  : exn + list pyobj :=
  if ((index <? 0) || (Z.of_nat (length array) <=? index))%Z
  then inl IndexError
  else inr (list_set array (Z.to_nat index) x).

(* ------------------------------------------------------------------ *)
(** ** [poke_team.py]: [PokeTeam] *)

Definition TEAM_LIMIT : nat := 6.

Definition CRITERION_LIST : list string :=
  ["health"; "defence"; "battle_power"; "speed"; "level"]%string.

Definition get_trainer (s : Side) (w : World) : Trainer :=
  match s with Side1 => trainer_1 w | Side2 => trainer_2 w end.

Definition set_trainer (s : Side) (t : Trainer) (w : World) : World :=
  match s with
  | Side1 => mkWorld (store w) (next_ref w) t (trainer_2 w) (stdout w)
  | Side2 => mkWorld (store w) (next_ref w) (trainer_1 w) t (stdout w)
  end.

(** [Trainer.get_team] *)
Definition get_team (s : Side) (w : World) : PokeTeam :=
  trainer_team (get_trainer s w).

Definition set_team (s : Side) (t : PokeTeam) (w : World) : World :=
  set_trainer s (mkTrainer (trainer_name (get_trainer s w)) t
                           (pokedex (get_trainer s w))) w.

Definition with_team (adt : TeamADT) (t : PokeTeam) : PokeTeam :=
  mkPokeTeam adt (team_count t) (special_called t) (criterion t)
             (original_team t).

(** [self.team = adt] in the [PokeTeam] of trainer [self]. *)
Definition bind_team (self : Side) (adt : TeamADT) : M unit :=
  modify (fun w => set_team self (with_team adt (get_team self w)) w).

Definition modify_team (self : Side) (f : PokeTeam -> PokeTeam) : M unit :=
  modify (fun w => set_team self (f (get_team self w)) w).

(** [self.team.pop()], [.push], [.serve], [.append] on the object bound
    to [team]; a container without the method raises [AttributeError]. *)
Definition team_pop (self : Side) : M pyobj :=
  t <- gets (get_team self) ;;
  match team t with
  | TArrayStack s =>
      r <- lift_exn (stack_pop s) ;;
      bind_team self (TArrayStack (snd r)) ;;
      ret (fst r)
  | _ => raise AttributeError
  end.

Definition team_push (self : Side) (item : pyobj) : M unit :=
  t <- gets (get_team self) ;;
  match team t with
  | TArrayStack s =>
      s' <- lift_exn (stack_push item s) ;;
      bind_team self (TArrayStack s')
  | _ => raise AttributeError
  end.

Definition team_serve (self : Side) : M pyobj :=
  t <- gets (get_team self) ;;
  match team t with
  | TCircularQueue q =>
      r <- lift_exn (queue_serve q) ;;
      bind_team self (TCircularQueue (snd r)) ;;
      ret (fst r)
  | _ => raise AttributeError
  end.

Definition team_append (self : Side) (item : pyobj) : M unit :=
  t <- gets (get_team self) ;;
  match team t with
  | TCircularQueue q =>
      q' <- lift_exn (queue_append item q) ;;
      bind_team self (TCircularQueue q')
  | _ => raise AttributeError
  end.

(** [for _ in range(n)] over a body that updates its local variables. *)
Fixpoint for_range {L} (n : nat) (body : L -> M L) (locals : L) : M L :=
  match n with
  | O => ret locals
  | S n' => l' <- body locals ;; for_range n' body l'
  end.

(** [PokeTeam.__len__] *)
Definition PokeTeam_len (self : Side) : M nat :=
  t <- gets (get_team self) ;;
  match team t with
  | TArrayR _ => ret (team_count t)
  | TArrayStack s => ret (length (stack_items s))
  | TCircularQueue q => ret (length (queue_items q))
  | TArraySortedList items => ret (length items)
  end.

(** First loop of [__getitem__] on a stack: pop into [temp_stack] until
    iteration [index], where the loop breaks with [pokemon] bound. *)
Fixpoint getitem_stack_search (self : Side) (n : nat) (i index : Z)
         (temp_stack : ArrayStack) : M (ArrayStack * option pyobj) :=
  match n with
  | O => ret (temp_stack, None)
  | S n' =>
      x <- team_pop self ;;
      temp_stack' <- lift_exn (stack_push x temp_stack) ;;
      if (i =? index)%Z then
        pokemon <- lift_exn (stack_peek temp_stack') ;;
        ret (temp_stack', Some pokemon)
      else getitem_stack_search self n' (i + 1)%Z index temp_stack'
  end.

(** Second loop: push everything back. *)
Definition getitem_stack_restore (self : Side) (temp_stack : ArrayStack)
  : M ArrayStack :=
  for_range (length (stack_items temp_stack))
            (fun temp => r <- lift_exn (stack_pop temp) ;;
                         team_push self (fst r) ;;
                         ret (snd r))
            temp_stack.

(** The loop of [__getitem__] on a queue: serve, remember, append. *)
Fixpoint getitem_queue_cycle (self : Side) (n : nat) (i index : Z)
         (found_pokemon : option pyobj) : M (option pyobj) :=
  match n with
  | O => ret found_pokemon
  | S n' =>
      pokemon <- team_serve self ;;
      let found := if (i =? index)%Z then Some pokemon else found_pokemon in
      team_append self pokemon ;;
      getitem_queue_cycle self n' (i + 1)%Z index found
  end.

(** Reading a local variable that was never assigned. *)
Definition read_local {A} (x : option A) : M A :=
  match x with Some a => ret a | None => raise UnboundLocalError end.

(** Modelled from the spec: [ArraySortedList.__getitem__], on the items
    in use.  Beyond them the backing array holds stale or empty slots,
    which this development does not represent: such an index raises
    [IndexError] here. *)
Definition sorted_getitem (items : list ListItem) (index : Z)
  : exn + ListItem :=
  if ((index <? 0) || (Z.of_nat (length items) <=? index))%Z
  then inl IndexError
  else match nth_error items (Z.to_nat index) with
       | Some x => inr x
       | None => inl IndexError
       end.

(** [PokeTeam.__getitem__] *)
Definition PokeTeam_getitem (self : Side) (index : Z) : M pyobj :=
  t <- gets (get_team self) ;;
  match team t with
  | TArrayStack s =>
      let temp_stack := new_stack (length (stack_items s)) in
      r <- getitem_stack_search self (length (stack_items s)) 0%Z index
                                temp_stack ;;
      getitem_stack_restore self (fst r) ;;
      read_local (snd r)
  | TCircularQueue q =>
      found_pokemon <- getitem_queue_cycle self (length (queue_items q))
                                           0%Z index None ;;
      read_local found_pokemon
  | TArraySortedList items =>
      item <- lift_exn (sorted_getitem items index) ;;
      ret (Some (value item))
  | TArrayR array => lift_exn (array_getitem array index)
  end.

(** [PokeTeam.remove_pokemon] *)
Definition remove_pokemon (self : Side) : M unit :=
  t <- gets (get_team self) ;;
  match team t with
  | TArrayStack _ => team_pop self ;; ret tt
  | TCircularQueue _ => team_serve self ;; ret tt
  | TArraySortedList items =>
      match items with
      | [] => raise IndexError
      | _ :: rest => bind_team self (TArraySortedList rest)
      end
  | TArrayR _ => ret tt
  end.

(** [PokeTeam.rotate_pokemon] *)
Definition rotate_pokemon (self : Side) : M unit :=
  pokemon <- team_serve self ;;
  team_append self pokemon.

Definition in_CRITERION_LIST (c : option string) : bool :=
  match c with
  | Some s => existsb (String.eqb s) CRITERION_LIST
  | None => false
  end.

(** [getattr(pokemon, 'get_' + criterion)()] *)
Definition getattr_get (c : string) (p : Pokemon) : option Q :=
  if String.eqb c "health" then Some (health p)
  else if String.eqb c "defence" then Some (defence p)
  else if String.eqb c "battle_power" then Some (battle_power p)
  else if String.eqb c "speed" then Some (speed p)
  else if String.eqb c "level" then Some (inject_Z (level p))
  else None.

Definition criterion_value (c : option string) (p : Pokemon) : exn + Q :=
  match c with
  | Some s => match getattr_get s p with
              | Some v => inr v
              | None => inl AttributeError
              end
  | None => inl TypeError
  end.

Definition not_in_criterion_list : exn :=
  ValueError "criterion is not in CRITERION_LIST".

(** The loop of [assign_team]: iterations [i], [i+1], ... re-key the
    items of the current list into [assembled_team]. *)
Fixpoint assign_team_loop (st : ref -> Pokemon) (items : list ListItem)
         (order : Z) (c : option string) (n : nat) (i : Z)
         (assembled_team : list ListItem) : exn + list ListItem :=
  match n with
  | O => inr assembled_team
  | S n' =>
      match sorted_getitem items i with
      | inl e => inl e
      | inr it =>
          let pokemon := value it in
          if in_CRITERION_LIST c then
            match criterion_value c (st pokemon) with
            | inl e => inl e
            | inr v =>
                match sorted_add
                        (mkItem pokemon (KPair (inject_Z order * v)
                                               (order * i)%Z))
                        assembled_team with
                | inl e => inl e
                | inr assembled_team' =>
                    assign_team_loop st items order c n' (i + 1)%Z
                                     assembled_team'
                end
            end
          else inl not_in_criterion_list
      end
  end.

(** [PokeTeam.assign_team] *)
Definition assign_team (self : Side) (c : option string) : M unit :=
  t <- gets (get_team self) ;;
  match team t with
  | TArraySortedList items =>
      let order := if special_called t then (-1)%Z else 1%Z in
      st <- gets store ;;
      assembled_team <- lift_exn (assign_team_loop st items order c
                                    (length items) 0%Z []) ;;
      bind_team self (TArraySortedList assembled_team)
  | _ => raise (ValueError
                  "Initial team must be assembled as an ArraySortedList")
  end.


(** [self.team[i]] inside [assemble_team].  A stack or a queue is not
    subscriptable.  A sorted list would hand out its [ListItem] wrappers;
    [assemble_team] is only reached with the array that
    [choose_randomly] and [regenerate_team] bind to [team], and the
    sorted-list case is rendered as [TypeError] as well. *)
Definition team_subscript (adt : TeamADT) (i : Z) : exn + pyobj :=
  match adt with
  | TArrayR array => array_getitem array i
  | _ => inl TypeError
  end.

Fixpoint assemble_stack_loop (adt : TeamADT) (n : nat) (i : Z)
         (assembled_team : ArrayStack) : exn + ArrayStack :=
  match n with
  | O => inr assembled_team
  | S n' =>
      match team_subscript adt i with
      | inl e => inl e
      | inr x =>
          match stack_push x assembled_team with
          | inl e => inl e
          | inr s => assemble_stack_loop adt n' (i + 1)%Z s
          end
      end
  end.

Fixpoint assemble_queue_loop (adt : TeamADT) (n : nat) (i : Z)
         (assembled_team : CircularQueue) : exn + CircularQueue :=
  match n with
  | O => inr assembled_team
  | S n' =>
      match team_subscript adt i with
      | inl e => inl e
      | inr x =>
          match queue_append x assembled_team with
          | inl e => inl e
          | inr q => assemble_queue_loop adt n' (i + 1)%Z q
          end
      end
  end.

Fixpoint assemble_sorted_loop (st : ref -> Pokemon) (adt : TeamADT)
         (c : option string) (n : nat) (i : Z)
         (assembled_team : list ListItem) : exn + list ListItem :=
  match n with
  | O => inr assembled_team
  | S n' =>
      if in_CRITERION_LIST c then
        match team_subscript adt i with
        | inl e => inl e
        | inr None => inl AttributeError
        | inr (Some r) =>
            match criterion_value c (st r) with
            | inl e => inl e
            | inr v =>
                match sorted_add (mkItem r (KNum v)) assembled_team with
                | inl e => inl e
                | inr l => assemble_sorted_loop st adt c n' (i + 1)%Z l
                end
            end
        end
      else inl not_in_criterion_list
  end.

(** [PokeTeam.assemble_team] *)
Definition assemble_team (self : Side) (battle_mode : BattleMode)
           (c : option string) : M unit :=
  t <- gets (get_team self) ;;
  st <- gets store ;;
  assembled_team <-
    match battle_mode with
    | SET =>
        s <- lift_exn (assemble_stack_loop (team t) (team_count t) 0%Z
                         (new_stack (team_count t))) ;;
        ret (TArrayStack s)
    | ROTATE =>
        q <- lift_exn (assemble_queue_loop (team t) (team_count t) 0%Z
                         (new_queue (team_count t))) ;;
        ret (TCircularQueue q)
    | OPTIMISE =>
        l <- lift_exn (assemble_sorted_loop st (team t) c (team_count t)
                         0%Z []) ;;
        ret (TArraySortedList l)
    end ;;
  modify_team self (fun t => mkPokeTeam assembled_team (team_count t)
                               (special_called t) c (original_team t)).

(** [PokeTeam.special] *)
Definition special (self : Side) (battle_mode : BattleMode) : M unit :=
  t <- gets (get_team self) ;;
  let half := (team_count t / 2)%nat in
  match battle_mode with
  | SET =>
      temp_stack_1 <-
        for_range half
          (fun temp => x <- team_pop self ;; lift_exn (stack_push x temp))
          (new_stack half) ;;
      temps <-
        for_range half
          (fun temps => r <- lift_exn (stack_pop (fst temps)) ;;
                        s2 <- lift_exn (stack_push (fst r) (snd temps)) ;;
                        ret (snd r, s2))
          (temp_stack_1, new_stack half) ;;
      for_range half
        (fun temp => r <- lift_exn (stack_pop temp) ;;
                     team_push self (fst r) ;;
                     ret (snd r))
        (snd temps) ;;
      ret tt
  | ROTATE =>
      for_range (team_count t - half)
        (fun _ => x <- team_serve self ;; team_append self x) tt ;;
      temp_stack <-
        for_range half
          (fun temp => x <- team_serve self ;; lift_exn (stack_push x temp))
          (new_stack half) ;;
      for_range (length (stack_items temp_stack))
        (fun temp => r <- lift_exn (stack_pop temp) ;;
                     team_append self (fst r) ;;
                     ret (snd r))
        temp_stack ;;
      ret tt
  | OPTIMISE =>
      modify_team self (fun t => mkPokeTeam (team t) (team_count t)
                                   (negb (special_called t)) (criterion t)
                                   (original_team t)) ;;
      assign_team self (criterion t)
  end.

(** A fresh object. *)
Definition alloc (p : Pokemon) : M ref :=
  fun w => Ok (next_ref w)
              (mkWorld (update_store (next_ref w) p (store w))
                       (S (next_ref w)) (trainer_1 w) (trainer_2 w)
                       (stdout w)).

(** [self.team[i] = x] *)
Definition team_setitem (self : Side) (i : Z) (x : pyobj) : M unit :=
  t <- gets (get_team self) ;;
  match team t with
  | TArrayR array =>
      array' <- lift_exn (array_setitem array i x) ;;
      bind_team self (TArrayR array')
  | _ => raise TypeError
  end.

(** [PokeTeam.choose_randomly]; [draws i] is what [random.randint]
    returns in iteration [i]. *)
Definition choose_randomly (self : Side) (draws : nat -> nat) : M unit :=
  let all_pokemon := POKE_LIST in
  modify_team self (fun t => mkPokeTeam (team t) 0 (special_called t)
                               (criterion t) (original_team t)) ;;
  for_range TEAM_LIMIT
    (fun i =>
       (if (length all_pokemon =? 0)%nat
        then raise (ValueError "empty range for randrange()")
        else ret tt) ;;
       let rand_int := draws i in
       match nth_error all_pokemon rand_int with
       | None => raise IndexError
       | Some p =>
           r <- alloc p ;;
           team_setitem self (Z.of_nat i) (Some r) ;;
           modify_team self
             (fun t => mkPokeTeam (team t) (team_count t + 1)
                         (special_called t) (criterion t) (original_team t)) ;;
           ret (S i)
       end)
    O ;;
  t <- gets (get_team self) ;;
  match team t with
  | TArrayR array =>
      modify_team self (fun t => mkPokeTeam (team t) (team_count t)
                                   (special_called t) (criterion t) array)
  | _ => raise TypeError
  end.

(** [Pokemon.set_health] *)
Definition set_health (self : ref) (h : Q) : M unit :=
  p <- get_pokemon self ;;
  set_pokemon self (with_health h p).

(** Inner loop of [regenerate_team]: every class of the catalogue whose
    evolution line equals the Pokemon's sets the health. *)
Fixpoint regenerate_match (original_pokemon : pyobj)
         (catalogue : list Pokemon) : M unit :=
  match catalogue with
  | [] => ret tt
  | p :: rest =>
      r <- deref original_pokemon ;;
      o <- get_pokemon r ;;
      (if list_eq_dec string_dec (evolution_line o) (evolution_line p)
       then set_health r (health p) else ret tt) ;;
      regenerate_match original_pokemon rest
  end.

Fixpoint regenerate_loop (slots : list pyobj) : M unit :=
  match slots with
  | [] => ret tt
  | original_pokemon :: rest =>
      regenerate_match original_pokemon POKE_LIST ;;
      regenerate_loop rest
  end.

(** [PokeTeam.regenerate_team] *)
Definition regenerate_team (self : Side) (battle_mode : BattleMode)
           (c : option string) : M unit :=
  t <- gets (get_team self) ;;
  regenerate_loop (original_team t) ;;
  bind_team self (TArrayR (original_team t)) ;;
  assemble_team self battle_mode c.

(* ------------------------------------------------------------------ *)
(** ** [poke_team.py]: [Trainer] *)

Fixpoint pos_popcount (p : positive) : nat :=
  match p with
  | xH => 1
  | xO q => pos_popcount q
  | xI q => S (pos_popcount q)
  end.

(** Modelled from the spec: [BSet.__len__], the number of elements. *)
Definition bset_len (elems : N) : nat :=
  match elems with N0 => 0 | Npos p => pos_popcount p end.

(** Modelled from the spec: [BSet.add]. *)
Definition bset_add (item : N) (elems : N) : N :=
  N.lor elems (N.shiftl 1 (item - 1)).

(** [Trainer.register_pokemon] *)
Definition register_pokemon (self : Side) (pokemon : pyobj) : M unit :=
  r <- deref pokemon ;;
  p <- get_pokemon r ;;
  modify (fun w =>
    set_trainer self
      (mkTrainer (trainer_name (get_trainer self w))
                 (trainer_team (get_trainer self w))
                 (bset_add (poketype_value (poketype p) + 1)
                           (pokedex (get_trainer self w)))) w).

(** [round(x, 2)]: to the nearest hundredth, a tie to the even one. *)
Definition round2 (x : Q) : Q :=
  let f := Qfloor (x * 100) in
  let r := x * 100 - inject_Z f in
  let n := if Qlt_bool r (1 # 2) then f
           else if Qlt_bool (1 # 2) r then (f + 1)%Z
           else if Z.even f then f else (f + 1)%Z in
  inject_Z n / 100.

(** [Trainer.get_pokedex_completion] *)
Definition get_pokedex_completion (self : Side) : M Q :=
  t <- gets (get_trainer self) ;;
  ret (round2 (inject_Z (Z.of_nat (bset_len (pokedex t)))
               / inject_Z len_PokeType)).


(* ------------------------------------------------------------------ *)
(** ** [battle.py]: [Battle] *)

(** A [Battle] object; its two trainers are those of the world. *)
Record Battle := mkBattle {
  battle_mode : BattleMode;
  battle_criterion : option string
}.

Definition other_side (s : Side) : Side :=
  match s with Side1 => Side2 | Side2 => Side1 end.

(** [Battle.killed] *)
Definition killed (winner_pokemon dead_pokemon : ref) (dead_trainer : Side)
           (together_dead : bool) : M unit :=
  d <- get_pokemon dead_pokemon ;;
  print (PrintFainted (name d)) ;;
  remove_pokemon dead_trainer ;;
  if negb together_dead then level_up winner_pokemon else ret tt.

(** [Battle.attack_and_defend] *)
Definition attack_and_defend (attacker defender : ref)
           (trainer_attacker trainer_defender : Side) : M unit :=
  effective_damage <- attack attacker defender ;;
  ca <- get_pokedex_completion trainer_attacker ;;
  cd <- get_pokedex_completion trainer_defender ;;
  (if Qeq_bool cd 0 then raise ZeroDivisionError else ret tt) ;;
  let effective_damage := effective_damage * (ca / cd) in
  defend defender (ceil effective_damage) ;;
  alive <- pokemon_is_alive defender ;;
  if negb alive then killed attacker defender trainer_defender false
  else ret tt.

(** [Battle.deduct_two] *)
Definition deduct_two (p1 p2 : ref) : M unit :=
  defend p1 2 ;;
  defend p2 2 ;;
  a1 <- pokemon_is_alive p1 ;;
  a2 <- pokemon_is_alive p2 ;;
  if negb a1 && negb a2 then
    killed p1 p2 Side2 true ;;
    killed p2 p1 Side1 true
  else if negb a1 then killed p2 p1 Side1 false
  else if negb a2 then killed p1 p2 Side2 false
  else ret tt.

(** The snapshot that [print(f"{p1} vs {p2}")] renders. *)
Definition snapshot (o : pyobj) : M (option Pokemon) :=
  match o with
  | None => ret None
  | Some r => p <- get_pokemon r ;; ret (Some p)
  end.

(** [Battle.fight] *)
Definition fight (p1 p2 : pyobj) : M unit :=
  s1 <- snapshot p1 ;;
  s2 <- snapshot p2 ;;
  print (PrintVersus s1 s2) ;;
  register_pokemon Side1 p2 ;;
  register_pokemon Side2 p1 ;;
  r1 <- deref p1 ;;
  r2 <- deref p2 ;;
  o1 <- get_pokemon r1 ;;
  o2 <- get_pokemon r2 ;;
  (if negb (Qeq_bool (speed o1) (speed o2)) then
     let first_attacker :=
       if Qlt_bool (speed o2) (speed o1) then r1 else r2 in
     let second_attacker :=
       if Qlt_bool (speed o2) (speed o1) then r2 else r1 in
     let first_trainer :=
       if Nat.eqb first_attacker r1 then Side1 else Side2 in
     let second_trainer :=
       if Nat.eqb first_attacker r1 then Side2 else Side1 in
     attack_and_defend first_attacker second_attacker
                       first_trainer second_trainer ;;
     alive <- pokemon_is_alive second_attacker ;;
     if alive then
       attack_and_defend second_attacker first_attacker
                         second_trainer first_trainer
     else ret tt
   else
     attack_and_defend r1 r2 Side1 Side2 ;;
     attack_and_defend r2 r1 Side2 Side1) ;;
  a1 <- pokemon_is_alive r1 ;;
  a2 <- pokemon_is_alive r2 ;;
  if a1 && a2 then deduct_two r1 r2 else ret tt.

(** [Battle.fight_enemy_pokemon] *)
Definition fight_enemy_pokemon : M (pyobj * pyobj) :=
  p1 <- PokeTeam_getitem Side1 0 ;;
  p2 <- PokeTeam_getitem Side2 0 ;;
  fight p1 p2 ;;
  ret (p1, p2).

(** [Battle.battle_result]: the winning team, named by its trainer, or
    [None]. *)
Definition battle_result : M (option Side) :=
  l1 <- PokeTeam_len Side1 ;;
  l2 <- PokeTeam_len Side2 ;;
  if (l1 =? 0)%nat && (l2 =? 0)%nat then ret None
  else if (l1 =? 0)%nat then ret (Some Side2)
  else ret (Some Side1).

(** A [while] loop of one of the three battles; [rounds] bounds the
    number of times its condition is tested. *)
Fixpoint battle_loop (after_fight : pyobj * pyobj -> M unit)
         (rounds : nat) (i : Z) : M unit :=
  match rounds with
  | O => fun _ => Timeout
  | S rounds' =>
      l1 <- PokeTeam_len Side1 ;;
      l2 <- PokeTeam_len Side2 ;;
      if (0 <? l1)%nat && (0 <? l2)%nat then
        let i := (i + 1)%Z in
        print (PrintRound i) ;;
        ps <- fight_enemy_pokemon ;;
        after_fight ps ;;
        battle_loop after_fight rounds' i
      else ret tt
  end.

Definition print_assembled (mode : BattleMode) : M unit :=
  t1 <- gets (get_team Side1) ;;
  print (PrintAssembled mode Side1 t1) ;;
  t2 <- gets (get_team Side2) ;;
  print (PrintAssembled mode Side2 t2).

(** [Battle.set_battle] *)
Definition set_battle (rounds : nat) : M (option Side) :=
  print_assembled SET ;;
  battle_loop (fun _ => ret tt) rounds 0 ;;
  battle_result.

(** [Battle.rotate_battle] *)
Definition rotate_battle (rounds : nat) : M (option Side) :=
  print_assembled ROTATE ;;
  battle_loop
    (fun ps =>
       r1 <- deref (fst ps) ;;
       a1 <- pokemon_is_alive r1 ;;
       (if a1 then rotate_pokemon Side1 else ret tt) ;;
       r2 <- deref (snd ps) ;;
       a2 <- pokemon_is_alive r2 ;;
       if a2 then rotate_pokemon Side2 else ret tt)
    rounds 0 ;;
  battle_result.

(** [Battle.optimise_battle] *)
Definition optimise_battle (b : Battle) (rounds : nat) : M (option Side) :=
  print_assembled OPTIMISE ;;
  battle_loop
    (fun _ =>
       assign_team Side1 (battle_criterion b) ;;
       assign_team Side2 (battle_criterion b))
    rounds 0 ;;
  battle_result.

Definition no_teams : exn :=
  ValueError "Both trainers must have teams to commence battle".

(** [Battle.commence_battle]: the winning trainer, or [None] for a draw. *)
Definition commence_battle (b : Battle) (rounds : nat) : M (option Side) :=
  l1 <- PokeTeam_len Side1 ;;
  l2 <- PokeTeam_len Side2 ;;
  (if (l1 <=? 0)%nat || (l2 <=? 0)%nat then raise no_teams else ret tt) ;;
  win_team <- match battle_mode b with
              | SET => set_battle rounds
              | ROTATE => rotate_battle rounds
              | OPTIMISE => optimise_battle b rounds
              end ;;
  match win_team with
  | Some Side1 =>
      t <- gets (get_team Side1) ;;
      n <- PokeTeam_len Side1 ;;
      print (PrintWinner Side1 (Z.of_nat n) t) ;;
      ret (Some Side1)
  | Some Side2 =>
      t <- gets (get_team Side2) ;;
      n <- PokeTeam_len Side2 ;;
      print (PrintWinner Side2 (Z.of_nat n) t) ;;
      ret (Some Side2)
  | None =>
      print PrintDraw ;;
      ret None
  end.


(* ------------------------------------------------------------------ *)
(** ** Vocabulary of the statements *)

(** The elements of a team, front first. *)
Definition team_order (adt : TeamADT) : list pyobj :=
  match adt with
  | TArrayR array => array
  | TArrayStack s => stack_items s
  | TCircularQueue q => queue_items q
  | TArraySortedList items => map (fun it => Some (value it)) items
  end.

(** The representation invariant of the fixed-capacity containers. *)
Definition adt_wf (adt : TeamADT) : Prop :=
  match adt with
  | TArrayStack s => (length (stack_items s) <= stack_capacity s)%nat
  | TCircularQueue q => (length (queue_items q) <= queue_capacity q)%nat
  | _ => True
  end.

(** The world in which [self.team] is bound to [adt]. *)
Definition put_team (self : Side) (adt : TeamADT) (w : World) : World :=
  set_team self (with_team adt (get_team self w)) w.

(** The damage tiers in the words of the specification. *)
Inductive Tier := FirstTier | MiddleTier | LastTier.

Definition spec_tier (power defence : Q) : Tier :=
  if Qlt_bool defence (power / 2) then FirstTier
  else if Qle_bool (power / 2) defence && Qlt_bool defence power
       then MiddleTier
       else LastTier.

Definition spec_damage (power defence : Q) : Q :=
  match spec_tier power defence with
  | FirstTier => power - defence
  | MiddleTier => inject_Z (ceil (power * 5 / 8 - defence / 4))
  | LastTier => inject_Z (ceil (power / 4))
  end.

(** Strict order of keys and of items, as [_index_to_add] tests it. *)
Definition key_lt (a b : Key) : Prop := key_compare a b = Some Lt.

Definition item_lt (a b : ListItem) : Prop := key_lt (key a) (key b).

(** The sorting direction of [assign_team]. *)
Definition direction (t : PokeTeam) : Z :=
  if special_called t then (-1)%Z else 1%Z.

(** The stat a recognised criterion names. *)
Definition stat_of (c : string) (p : Pokemon) : Q :=
  match getattr_get c p with Some v => v | None => 0 end.

(** The item that [assign_team] builds for the item at position [i]. *)
Definition rekey (st : ref -> Pokemon) (order : Z) (c : string) (i : nat)
           (it : ListItem) : ListItem :=
  mkItem (value it)
         (KPair (inject_Z order * stat_of c (st (value it)))
                (order * Z.of_nat i)%Z).

Fixpoint rekeyed_from (st : ref -> Pokemon) (order : Z) (c : string)
         (i : nat) (items : list ListItem) : list ListItem :=
  match items with
  | [] => []
  | it :: rest => rekey st order c i it :: rekeyed_from st order c (S i) rest
  end.

(** [a] was re-keyed from position [i] of [items]. *)
Definition rekeyed_at (st : ref -> Pokemon) (order : Z) (c : string)
           (items : list ListItem) (i : nat) (a : ListItem) : Prop :=
  exists it, nth_error items i = Some it /\ a = rekey st order c i it.

(** [special] called [n] times in a row. *)
Definition special_times (self : Side) (mode : BattleMode) (n : nat) : M unit :=
  for_range n (fun _ => special self mode) tt.

(** [x] comes before [y] in [l]. *)
Definition precedes (x y : ref) (l : list ref) : Prop :=
  exists l1 l2 l3, l = l1 ++ x :: l2 ++ y :: l3.

(** The tie rule as the specification words it: whatever the direction,
    two Pokemon with equal stat keep the relative order they had before
    [assign_team]. *)
Definition ties_keep_order (self : Side) (c : string) (w : World) : Prop :=
  forall w' items items' x y,
    assign_team self (Some c) w = Ok tt w' ->
    team (get_team self w) = TArraySortedList items ->
    team (get_team self w') = TArraySortedList items' ->
    (stat_of c (store w x) == stat_of c (store w y))%Q ->
    precedes x y (map value items) ->
    precedes x y (map value items').

(** [m] keeps the invariant [I] of the world, whether it returns or
    raises, and raises only exceptions in [X]. *)
Definition preserved (I : World -> Prop) (X : exn -> Prop) {A} (m : M A)
  : Prop :=
  forall w, I w ->
    match m w with
    | Ok _ w' => I w'
    | Raise e w' => I w' /\ X e
    | Timeout => True
    end.

(** An exception other than the one [commence_battle] raises at entry. *)
Definition not_no_teams {A} (x : exn + A) : Prop :=
  match x with inl e => e <> no_teams | inr _ => True end.

(** The world a run ends in, if it ends. *)
Definition final_world {A} (r : result A) : option World :=
  match r with
  | Ok _ w => Some w
  | Raise _ w => Some w
  | Timeout => None
  end.

(** The world a run ends in, [w] itself if it does not end. *)
Definition outcome_world {A} (r : result A) (w : World) : World :=
  match final_world r with Some w' => w' | None => w end.

(** The pure content of [PokeTeam.__len__]. *)
Definition team_len (t : PokeTeam) : nat :=
  match team t with
  | TArrayR _ => team_count t
  | adt => length (team_order adt)
  end.

(** [original_team] of trainer [self] is the array [original]. *)
Definition original_team_is (self : Side) (original : list pyobj)
           (w : World) : Prop :=
  original_team (get_team self w) = original.

(** What is seen of the stats through [original_team]. *)
Definition snapshot_stats (self : Side) (w : World) : list (option Pokemon) :=
  map (option_map (store w)) (original_team (get_team self w)).

(** The snapshot rule as the specification words it: the stats recorded
    by [original_team] are what they were before the battle. *)
Definition snapshot_stats_kept (self : Side) (b : Battle) (rounds : nat)
           (w : World) : Prop :=
  forall w',
    final_world (commence_battle b rounds w) = Some w' ->
    snapshot_stats self w' = snapshot_stats self w.

(** A team that has been assembled into a stack, a queue or a sorted
    list; [remove_pokemon] leaves a raw array alone. *)
Definition is_assembled (adt : TeamADT) : Prop :=
  match adt with TArrayR _ => False | _ => True end.

(** The level rule as the specification words it: a defender that faints
    from a direct attack leaves the attacker's level unchanged. *)
Definition direct_faint_keeps_level (attacker defender : ref)
           (trainer_attacker trainer_defender : Side) (w : World) : Prop :=
  forall w',
    attack_and_defend attacker defender trainer_attacker trainer_defender w
    = Ok tt w' ->
    is_alive (store w' defender) = false ->
    level (store w' attacker) = level (store w attacker).

(** The world in which trainer [s] has registered the type of [r]. *)
Definition registered (s : Side) (r : ref) (w : World) : World :=
  set_trainer s
    (mkTrainer (trainer_name (get_trainer s w))
               (trainer_team (get_trainer s w))
               (bset_add (poketype_value (poketype (store w r)) + 1)
                         (pokedex (get_trainer s w)))) w.

(** The world in which the attacks of a clash begin: the pairing has
    been printed and each trainer has registered the opponent. *)
Definition clash_start (r1 r2 : ref) (w : World) : World :=
  registered Side2 r1
    (registered Side1 r2
       (mkWorld (store w) (next_ref w) (trainer_1 w) (trainer_2 w)
                (stdout w ++ [PrintVersus (Some (store w r1))
                                          (Some (store w r2))]))).

(** The end of [fight]: the chip damage when both are still alive. *)
Definition after_clash (r1 r2 : ref) : M unit :=
  a1 <- pokemon_is_alive r1 ;;
  a2 <- pokemon_is_alive r2 ;;
  if a1 && a2 then deduct_two r1 r2 else ret tt.

(** The last class of the catalogue whose evolution line is that of [o]:
    the one whose health [regenerate_team] leaves behind. *)
Fixpoint last_match (catalogue : list Pokemon) (o : Pokemon)
  : option Pokemon :=
  match catalogue with
  | [] => None
  | p :: rest =>
      match last_match rest o with
      | Some q => Some q
      | None =>
          if list_eq_dec string_dec (evolution_line o) (evolution_line p)
          then Some p else None
      end
  end.

(** A Pokemon after the first loop of [regenerate_team]. *)
Definition regenerated (catalogue : list Pokemon) (o : Pokemon) : Pokemon :=
  match last_match catalogue o with
  | Some q => with_health (health q) o
  | None => o
  end.

(** The round trip as the specification words it: after
    [regenerate_team] a combatant has the health of the unevolved class
    of its evolution line and bears the name of that first stage. *)
Definition regeneration_round_trip (self : Side) (mode : BattleMode)
           (c : option string) (w : World) : Prop :=
  forall w' r,
    regenerate_team self mode c w = Ok tt w' ->
    In (Some r) (original_team (get_team self w)) ->
    (forall p, In p POKE_LIST ->
               evolution_line p = evolution_line (store w r) ->
               hd_error (evolution_line p) = Some (name p) ->
               (health (store w' r) == health p)%Q)
    /\ hd_error (evolution_line (store w' r)) = Some (name (store w' r)).

(* ------------------------------------------------------------------ *)
(** ** Sample data *)

(** A type table in which every attack is normally effective. *)
Definition unit_table : PokeType -> PokeType -> Q := fun _ _ => 1.

Definition charmander : Pokemon :=
  mkPokemon 10 1 FIRE 20 ["Charmander"; "Charmeleon"; "Charizard"]%string
            "Charmander" 0 1 10.

Definition eevee : Pokemon :=
  mkPokemon 10 1 NORMAL 5 ["Eevee"]%string "Eevee" 0 1 5.

(** A Charmander that evolved in battle and was hurt since. *)
Definition charmeleon_hurt : Pokemon :=
  mkPokemon 3 2 FIRE 30 ["Charmander"; "Charmeleon"; "Charizard"]%string
            "Charmeleon" 0 1.5 15.

Definition sample_catalogue : list Pokemon := [charmander; eevee].

(** A team of one, as [choose_manually] leaves its arrays, assembled
    into [adt]. *)
Definition team_of_one (r : ref) (adt : TeamADT) (flag : bool) : PokeTeam :=
  mkPokeTeam adt 1%nat flag (Some "health"%string)
             [Some r; None; None; None; None; None].

Definition stack_of (l : list pyobj) : TeamADT :=
  TArrayStack (mkStack (Nat.max 1 (length l)) l).

(** Ash's Charmander (object 0) against Gary's Eevee (object 1); each
    trainer has registered the type of his own Pokemon. *)
Definition duel : World :=
  mkWorld (fun r => match r with O => charmander | _ => eevee end) 2%nat
          (mkTrainer "Ash" (team_of_one 0%nat (stack_of [Some 0%nat]) false) 1%N)
          (mkTrainer "Gary" (team_of_one 1%nat (stack_of [Some 1%nat]) false)
                     2048%N)
          [].

(** Two Charmanders face each other: equal speed, and each attack is
    lethal to the other. *)
Definition twins : World :=
  mkWorld (fun _ => charmander) 2%nat
          (mkTrainer "Ash" (team_of_one 0%nat (stack_of [Some 0%nat]) false) 1%N)
          (mkTrainer "Gary" (team_of_one 1%nat (stack_of [Some 1%nat]) false) 1%N)
          [].

(** A priority team of two Pokemon of equal health, sorted in reversed
    direction: object 1 in front of object 0. *)
Definition tied : World :=
  mkWorld (fun _ => charmander) 2%nat
          (mkTrainer "Ash"
             (mkPokeTeam
                (TArraySortedList [mkItem 1%nat (KPair (-10) (-1));
                                   mkItem 0%nat (KPair (-10) 0)])
                2%nat true (Some "health"%string)
                [Some 0%nat; Some 1%nat; None; None; None; None]) 1%N)
          (mkTrainer "Gary" (team_of_one 1%nat (stack_of []) false) 1%N)
          [].

(** A full team of six hurt Charmeleons, after a battle. *)
Definition veterans : World :=
  mkWorld (fun _ => charmeleon_hurt) 6%nat
          (mkTrainer "Ash"
             (mkPokeTeam (TCircularQueue (mkQueue 6%nat [])) 6%nat false None
                [Some 0%nat; Some 1%nat; Some 2%nat; Some 3%nat;
                 Some 4%nat; Some 5%nat]) 1%N)
          (mkTrainer "Gary" (team_of_one 6%nat (stack_of []) false) 1%N)
          [].

(* ------------------------------------------------------------------ *)
(** ** Vocabulary of termination *)

(** The members of a trainer's team, front first. *)
Definition members (s : Side) (w : World) : list pyobj :=
  team_order (team (get_team s w)).

(** A world in which a battle can be fought: both teams are assembled
    containers within their capacity, and no battle power is negative. *)
Definition battle_ready (w : World) : Prop :=
  (forall s, is_assembled (team (get_team s w))
             /\ adt_wf (team (get_team s w)))
  /\ (forall r, (0 <= battle_power (store w r))%Q).

(** Whole hit points, none for a fainted Pokemon. *)
Definition hit_points (p : Pokemon) : nat := Z.to_nat (Qceiling (health p)).

Definition vitality_of (st : ref -> Pokemon) (l : list pyobj) : nat :=
  list_sum (map (fun o => match o with
                          | Some r => hit_points (st r)
                          | None => O
                          end) l).

(** The two quantities a round of battle brings down. *)
Definition roster_size (w : World) : nat :=
  (length (members Side1 w) + length (members Side2 w))%nat.

Definition vitality (w : World) : nat :=
  vitality_of (store w) (members Side1 w ++ members Side2 w).

(** Nobody fainted between [w] and [w']: the teams are the same and no
    health went up. *)
Definition quiet (w w' : World) : Prop :=
  (forall s, team (get_team s w') = team (get_team s w))
  /\ (forall r, (health (store w' r) <= health (store w r))%Q).

(** Somebody fainted between [w] and [w']: a team lost a member and none
    gained one. *)
Definition shrunk (w w' : World) : Prop :=
  (forall s, (length (members s w') <= length (members s w))%nat)
  /\ (exists s, (length (members s w') < length (members s w))%nat).

(** The teams of [w'] are those of [w] in another order, with the same
    objects behind the references. *)
Definition reordered (w w' : World) : Prop :=
  (forall r, store w' r = store w r)
  /\ (forall s, Permutation (members s w') (members s w)).

(** [m] always comes back, with a value or an exception. *)
Definition returns {A} (m : M A) : Prop := forall w, m w <> Timeout.

(** One round of a battle loop. *)
Definition battle_round (after_fight : pyobj * pyobj -> M unit) (i : Z)
  : M unit :=
  print (PrintRound i) ;;
  ps <- fight_enemy_pokemon ;;
  after_fight ps.

(** What the three battles run after each fight. *)
Definition after_fight_of (b : Battle) : pyobj * pyobj -> M unit :=
  match battle_mode b with
  | SET => fun _ => ret tt
  | ROTATE =>
      fun ps =>
        r1 <- deref (fst ps) ;;
        a1 <- pokemon_is_alive r1 ;;
        (if a1 then rotate_pokemon Side1 else ret tt) ;;
        r2 <- deref (snd ps) ;;
        a2 <- pokemon_is_alive r2 ;;
        if a2 then rotate_pokemon Side2 else ret tt
  | OPTIMISE =>
      fun _ =>
        assign_team Side1 (battle_criterion b) ;;
        assign_team Side2 (battle_criterion b)
  end.

(** The order in which rounds bring a battle down: fewer members, or as
    many members and less vitality. *)
Definition closer_to_end (w' w : World) : Prop :=
  (roster_size w' < roster_size w)%nat
  \/ (roster_size w' = roster_size w /\ (vitality w' < vitality w)%nat).

(** The end of [commence_battle]: the winner is printed and returned. *)
Definition announce (win_team : option Side) : M (option Side) :=
  match win_team with
  | Some Side1 =>
      t <- gets (get_team Side1) ;;
      n <- PokeTeam_len Side1 ;;
      print (PrintWinner Side1 (Z.of_nat n) t) ;;
      ret (Some Side1)
  | Some Side2 =>
      t <- gets (get_team Side2) ;;
      n <- PokeTeam_len Side2 ;;
      print (PrintWinner Side2 (Z.of_nat n) t) ;;
      ret (Some Side2)
  | None =>
      print PrintDraw ;;
      ret None
  end.

(** The world in which the loop of a battle starts: the two teams have
    been printed. *)
Definition assembled_world (mode : BattleMode) (w : World) : World :=
  outcome_world (print_assembled mode w) w.

(* ------------------------------------------------------------------ *)
(** ** Further sample data *)

(** A Pokemon whose name is not a stage of its evolution line. *)
Definition misnamed : Pokemon :=
  mkPokemon 10 1 NORMAL 5 ["Eevee"]%string "Pikachu" 0 1 5.

(** The duel with a misnamed Pokemon as object 1. *)
Definition duel_misnamed : World :=
  mkWorld (fun r => match r with O => charmander | _ => misnamed end) 2%nat
          (trainer_1 duel) (trainer_2 duel) [].

(** The duel after a few rounds: Charmander is down to one hit point. *)
Definition duel_late : World :=
  mkWorld (fun r => match r with
                    | O => with_health 1 charmander
                    | _ => eevee
                    end) 2%nat
          (trainer_1 duel) (trainer_2 duel) [].

(** Ash with four Pokemon on a stack, object 0 on top. *)
Definition squad_set : World :=
  mkWorld (fun _ => charmander) 4%nat
          (mkTrainer "Ash"
             (mkPokeTeam
                (TArrayStack
                   (mkStack 4%nat [Some 0%nat; Some 1%nat; Some 2%nat;
                                   Some 3%nat]))
                4%nat false None
                [Some 3%nat; Some 2%nat; Some 1%nat; Some 0%nat; None; None])
             1%N)
          (trainer_2 duel) [].

(** Ash with five Pokemon in a queue, object 0 in front. *)
Definition squad_rotate : World :=
  mkWorld (fun _ => charmander) 5%nat
          (mkTrainer "Ash"
             (mkPokeTeam
                (TCircularQueue
                   (mkQueue 5%nat [Some 0%nat; Some 1%nat; Some 2%nat;
                                   Some 3%nat; Some 4%nat]))
                5%nat false None
                [Some 0%nat; Some 1%nat; Some 2%nat; Some 3%nat; Some 4%nat;
                 None])
             1%N)
          (trainer_2 duel) [].

(* ------------------------------------------------------------------ *)
(** ** Vocabulary of assembling *)

(** The world [assemble_team] leaves behind: the team is bound to [adt]
    and the criterion is recorded. *)
Definition assembled_as (self : Side) (adt : TeamADT) (c : option string)
           (w : World) : World :=
  set_team self
    (mkPokeTeam adt (team_count (get_team self w))
                (special_called (get_team self w)) c
                (original_team (get_team self w)))
    w.

(** Order of the items of a list keyed by one number, ties allowed. *)
Definition item_le (a b : ListItem) : Prop :=
  match key a, key b with
  | KNum x, KNum y => (x <= y)%Q
  | _, _ => False
  end.

Definition is_num (it : ListItem) : Prop :=
  match key it with KNum _ => True | KPair _ _ => False end.

(** Ash has chosen three Pokemon, objects 0, 1 and 2, and has not
    assembled them yet. *)
Definition recruits : World :=
  mkWorld (fun r => match r with
                    | O => charmander
                    | S O => eevee
                    | _ => charmeleon_hurt
                    end) 3%nat
          (mkTrainer "Ash"
             (mkPokeTeam
                (TArrayR [Some 0%nat; Some 1%nat; Some 2%nat; None; None;
                          None])
                3%nat false None
                [Some 0%nat; Some 1%nat; Some 2%nat; None; None; None])
             1%N)
          (trainer_2 duel) [].

(* ------------------------------------------------------------------ *)
(** ** Vocabulary of choosing a team *)

(** What choosing a team leaves alone between [w] and [w']: the other
    trainer, the name and the pokedex of the trainer, the settings of
    the team, the output, and every object that existed in [w]. *)
Definition chosen_within (self : Side) (w w' : World) : Prop :=
  get_trainer (other_side self) w' = get_trainer (other_side self) w
  /\ trainer_name (get_trainer self w') = trainer_name (get_trainer self w)
  /\ pokedex (get_trainer self w') = pokedex (get_trainer self w)
  /\ special_called (get_team self w') = special_called (get_team self w)
  /\ criterion (get_team self w') = criterion (get_team self w)
  /\ stdout w' = stdout w
  /\ (forall r, (r < next_ref w)%nat -> store w' r = store w r).

(** One iteration of the loop of [choose_randomly]. *)
Definition choose_randomly_body (self : Side) (draws : nat -> nat)
           (i : nat) : M nat :=
  (if (length POKE_LIST =? 0)%nat
   then raise (ValueError "empty range for randrange()")
   else ret tt) ;;
  match nth_error POKE_LIST (draws i) with
  | None => raise IndexError
  | Some p =>
      r <- alloc p ;;
      team_setitem self (Z.of_nat i) (Some r) ;;
      modify_team self
        (fun t => mkPokeTeam (team t) (team_count t + 1)
                    (special_called t) (criterion t) (original_team t)) ;;
      ret (S i)
  end.

(* ------------------------------------------------------------------ *)
(** ** Vocabulary of the pokedex *)

(** A pokedex that holds nothing but type numbers: elements 1 to 15. *)
Definition pokedex_in_range (elems : N) : Prop := (elems < 2 ^ 15)%N.

(** The world after [register_pokemon] of a Pokemon of type [t]. *)
Definition with_registered (self : Side) (t : PokeType) (w : World) : World :=
  set_trainer self
    (mkTrainer (trainer_name (get_trainer self w))
               (trainer_team (get_trainer self w))
               (bset_add (poketype_value t + 1)
                         (pokedex (get_trainer self w)))) w.

(** Both trainers have registered at least one type. *)
Definition pokedexes_started (w : World) : Prop :=
  pokedex (trainer_1 w) <> 0%N /\ pokedex (trainer_2 w) <> 0%N.

Definition not_zero_division (e : exn) : Prop := e <> ZeroDivisionError.

(* ------------------------------------------------------------------ *)
(** ** [poke_team.py]: rendering a team *)

(** [self.team.peek()] on the object bound to [team]. *)
Definition team_peek (self : Side) : M pyobj :=
  t <- gets (get_team self) ;;
  match team t with
  | TArrayStack s => lift_exn (stack_peek s)
  | _ => raise AttributeError
  end.

(** [PokeTeam.__str__].  The text is kept as the list of its lines, each
    line as the object [str] renders: a Pokemon in the state it is in,
    or [None]. *)
Definition PokeTeam_str (self : Side) : M (list (option Pokemon)) :=
  t <- gets (get_team self) ;;
  match team t with
  | TArrayStack s =>
      r <- for_range (length (stack_items s))
             (fun acc : list (option Pokemon) * ArrayStack =>
                x <- team_peek self ;;
                line <- snapshot x ;;
                y <- team_pop self ;;
                temp_stack <- lift_exn (stack_push y (snd acc)) ;;
                ret (fst acc ++ [line], temp_stack))
             ([], new_stack (length (stack_items s))) ;;
      getitem_stack_restore self (snd r) ;;
      ret (fst r)
  | TCircularQueue q =>
      for_range (length (queue_items q))
        (fun team_str : list (option Pokemon) =>
           pokemon <- team_serve self ;;
           line <- snapshot pokemon ;;
           team_append self pokemon ;;
           ret (team_str ++ [line]))
        []
  | TArraySortedList items =>
      r <- for_range (length items)
             (fun acc : list (option Pokemon) * Z =>
                item <- lift_exn (sorted_getitem items (snd acc)) ;;
                line <- snapshot (Some (value item)) ;;
                ret (fst acc ++ [line], (snd acc + 1)%Z))
             ([], 0%Z) ;;
      ret (fst r)
  | TArrayR array =>
      r <- for_range (team_count t)
             (fun acc : list (option Pokemon) * Z =>
                x <- lift_exn (array_getitem array (snd acc)) ;;
                line <- snapshot x ;;
                ret (fst acc ++ [line], (snd acc + 1)%Z))
             ([], 0%Z) ;;
      ret (fst r)
  end.

(** What [str] renders for the members [l] in the world [w]. *)
Definition rendered (w : World) (l : list pyobj) : list (option Pokemon) :=
  map (fun o => match o with
                | Some r => Some (store w r)
                | None => None
                end) l.

(* ------------------------------------------------------------------ *)
(** ** The session around the battles: console, keyboard, tower *)

(** What the program writes besides the events of a battle: the prompts
    of [input] and the lines of [_create_teams] and of [next_battle]. *)
Inductive note :=
| AskTeamSize
| AskTeamSizeAgain
| AskPokemonName (number : Z)
| PrintTrainerTeam (trainer : string) (lines : list (option Pokemon))
| PrintPlayer (player : string) (lives : Z)
| PrintEnemy (enemy : string) (lives : Z).

(** An enemy trainer of the tower, with the attribute [life] that
    [generate_enemy_trainers] sets on the object. *)
Record Enemy := mkEnemy {
  enemy_trainer : Trainer;
  life : Z
}.

(** Modelled from the spec: [CircularQueue] of
    [data_structures.queue_adt], here holding the enemy trainers, front
    first. *)
Record TrainerQueue := mkTrainerQueue {
  enemies_capacity : nat;
  enemies : list Enemy
}.

(** [BattleTower].  [my_trainer] is [None] ([false]) or the first
    trainer of the world: the player's trainer is that object
    throughout.  [enemy_teams] is [None] until the enemies are
    generated. *)
Record BattleTower := mkTower {
  my_trainer : bool;
  enemy_teams : option TrainerQueue;
  enemy_lives : Z;
  player_lives : Z;
  enemies_defeated_count : Z
}.

(** The state of a session: the world of the battles, whose second
    trainer is the enemy or opponent at hand; the tower; what was
    written besides the battle events, each note with the number of
    battle events written before it; and the number of lines read from
    the keyboard. *)
Record Session := mkSession {
  world : World;
  tower : BattleTower;
  notes : list (nat * note);
  typed : nat
}.

Inductive answer {A : Type} : Type :=
| Done (a : A) (s : Session)
| Failed (e : exn) (s : Session)
| Unfinished.

Definition T (A : Type) := Session -> @answer A.

Definition tret {A} (a : A) : T A := fun s => Done a s.

Definition tbind {A B} (m : T A) (k : A -> T B) : T B :=
  fun s => match m s with
           | Done a s' => k a s'
           | Failed e s' => Failed e s'
           | Unfinished => Unfinished
           end.

Definition traise {A} (e : exn) : T A := fun s => Failed e s.

Definition tgets {A} (f : Session -> A) : T A := fun s => Done (f s) s.

Definition tmodify (f : Session -> Session) : T unit :=
  fun s => Done tt (f s).

Definition with_world (w : World) (s : Session) : Session :=
  mkSession w (tower s) (notes s) (typed s).

Definition with_tower (t : BattleTower) (s : Session) : Session :=
  mkSession (world s) t (notes s) (typed s).

(** A method of the battle engine, run inside the session. *)
Definition lift {A} (m : M A) : T A :=
  fun s => match m (world s) with
           | Ok a w => Done a (with_world w s)
           | Raise e w => Failed e (with_world w s)
           | Timeout => Unfinished
           end.

Declare Scope session_scope.
Delimit Scope session_scope with session.
Notation "x <- m ;; k" := (tbind m (fun x => k))
  (at level 100, m at next level, right associativity) : session_scope.
Notation "m ;; k" := (tbind m (fun _ => k))
  (at level 100, right associativity) : session_scope.

(** [print] of a line that is not a battle event. *)
Definition say (n : note) : T unit :=
  tmodify (fun s => mkSession (world s) (tower s)
                      (notes s ++ [(length (stdout (world s)), n)])
                      (typed s)).

(** [input(prompt)]: the prompt is written and the next line of the
    keyboard is read; [keyboard n] is line [n] of what will be typed. *)
Definition input (keyboard : nat -> string) (prompt : note) : T string :=
  (say prompt ;;
   n <- tgets typed ;;
   tmodify (fun s => mkSession (world s) (tower s) (notes s) (S (typed s))) ;;
   tret (keyboard n))%session.

Fixpoint tfor_range {L} (n : nat) (body : L -> T L) (locals : L) : T L :=
  match n with
  | O => tret locals
  | S n' => (l' <- body locals ;; tfor_range n' body l')%session
  end.

(* ------------------------------------------------------------------ *)
(** ** [poke_team.py]: choosing by hand, picking a team *)

(** [str.isdigit] and [int] are Python's: they are parameters. *)
Variable str_isdigit : string -> bool.
Variable int_of_str : string -> exn + Z.

(** The [while] loop of [choose_manually]: the number is asked again as
    long as the answer is not a number from 1 to [TEAM_LIMIT]; [asks]
    bounds the number of times its condition is tested. *)
Fixpoint ask_team_size (keyboard : nat -> string) (asks : nat) (num : string)
  : T string :=
  match asks with
  | O => fun _ => Unfinished
  | S asks' =>
      (again <-
         (if negb (str_isdigit num) then tret true
          else
            n <- lift (lift_exn (int_of_str num)) ;;
            if (n <? 1)%Z then tret true
            else
              n' <- lift (lift_exn (int_of_str num)) ;;
              tret (Z.of_nat TEAM_LIMIT <? n')%Z) ;;
       if again then
         num' <- input keyboard AskTeamSizeAgain ;;
         ask_team_size keyboard asks' num'
       else tret num)%session
  end.

(** The [for ... else] over [POKE_LIST]: the first class whose name is
    the one typed. *)
Definition class_named (pokemon : string) : option Pokemon :=
  find (fun poke => String.eqb (name poke) pokemon) POKE_LIST.

(** An answer to the question of the team size that is asked again: it
    is not made of digits, or it is a number outside 1 to [TEAM_LIMIT]. *)
Definition refused_size (num : string) : Prop :=
  str_isdigit num = false
  \/ exists n, int_of_str num = inr n
               /\ ((n < 1)%Z \/ (Z.of_nat TEAM_LIMIT < n)%Z).

(** An answer that is taken: the number [n], from 1 to [TEAM_LIMIT]. *)
Definition accepted_size (num : string) (n : nat) : Prop :=
  str_isdigit num = true
  /\ int_of_str num = inr (Z.of_nat n)
  /\ (1 <= n <= TEAM_LIMIT)%nat.

(** One iteration of the [for] loop of [choose_manually]: the name of
    Pokemon [i + 1] is asked, and an object of the class of that name is
    put into slot [i]. *)
Definition name_pokemon (self : Side) (keyboard : nat -> string) (i : nat)
  : T nat :=
  (pokemon <- input keyboard (AskPokemonName (Z.of_nat i + 1)) ;;
   match class_named pokemon with
   | Some poke =>
       r <- lift (alloc poke) ;;
       lift (team_setitem self (Z.of_nat i) (Some r)) ;;
       lift (modify_team self
               (fun t => mkPokeTeam (team t) (team_count t + 1)
                           (special_called t) (criterion t)
                           (original_team t))) ;;
       tret (S i)
   | None =>
       traise (ValueError (String.append "Invalid Pokemon name: '"
                             (String.append pokemon "'")))
   end)%session.

(** [PokeTeam.choose_manually].  [original_team] becomes the array of
    the team.  At least one slot is assigned before, and [team_setitem]
    lets only an array through, so that the last branch is not reached.
    The code makes [original_team] the same object as the array of the
    team, here it is a copy taken when the call returns: the two agree
    whenever a call returns, and differ only in what [original_team]
    shows after a call that raises on a team chosen before. *)
Definition choose_manually (self : Side) (keyboard : nat -> string)
           (asks : nat) : T unit :=
  (lift (modify_team self
           (fun t => mkPokeTeam (team t) 0 (special_called t) (criterion t)
                       (original_team t))) ;;
   num <- input keyboard AskTeamSize ;;
   num <- ask_team_size keyboard asks num ;;
   num <- lift (lift_exn (int_of_str num)) ;;
   tfor_range (Z.to_nat num) (name_pokemon self keyboard) O ;;
   t <- lift (gets (get_team self)) ;;
   match team t with
   | TArrayR array =>
       lift (modify_team self
               (fun t => mkPokeTeam (team t) (team_count t)
                           (special_called t) (criterion t) array))
   | _ => traise TypeError
   end)%session.

(** [Trainer.pick_team] *)
Definition pick_team (self : Side) (method : string) (draws : nat -> nat)
           (keyboard : nat -> string) (asks : nat) : T unit :=
  ((if String.eqb method "Random" then lift (choose_randomly self draws)
    else if String.eqb method "Manual"
         then choose_manually self keyboard asks
         else traise (ValueError "Invalid method")) ;;
   n <- lift (PokeTeam_len self) ;;
   tfor_range n
     (fun i : nat =>
        x <- lift (PokeTeam_getitem self (Z.of_nat i)) ;;
        lift (register_pokemon self x) ;;
        tret (S i))
     O ;;
   tret tt)%session.

(* ------------------------------------------------------------------ *)
(** ** [battle.py]: creating the teams *)

(** [Battle._create_teams]; the trainers and the mode are what their
    types say, so that of the four tests of the guard only the one on
    the criterion can fail.  [draws_1] and [draws_2] are the random
    draws of the two teams. *)
Definition _create_teams (b : Battle) (draws_1 draws_2 : nat -> nat)
  : T unit :=
  ((if negb (in_CRITERION_LIST (battle_criterion b))
    then traise (ValueError "Invalid instiantiation of Battle class")
    else tret tt) ;;
   pick_team Side1 "Random" draws_1 (fun _ => EmptyString) O ;;
   pick_team Side2 "Random" draws_2 (fun _ => EmptyString) O ;;
   name_1 <- lift (gets (fun w => trainer_name (get_trainer Side1 w))) ;;
   lines_1 <- lift (PokeTeam_str Side1) ;;
   say (PrintTrainerTeam name_1 lines_1) ;;
   name_2 <- lift (gets (fun w => trainer_name (get_trainer Side2 w))) ;;
   lines_2 <- lift (PokeTeam_str Side2) ;;
   say (PrintTrainerTeam name_2 lines_2) ;;
   match battle_mode b with
   | SET =>
       lift (assemble_team Side1 SET None) ;;
       lift (assemble_team Side2 SET None)
   | ROTATE =>
       lift (assemble_team Side1 ROTATE None) ;;
       lift (assemble_team Side2 ROTATE None)
   | OPTIMISE =>
       lift (assemble_team Side1 OPTIMISE (battle_criterion b)) ;;
       lift (assemble_team Side2 OPTIMISE (battle_criterion b))
   end)%session.

(* ------------------------------------------------------------------ *)
(** ** [tower.py]: [BattleTower] *)

Definition MIN_LIVES : Z := 1.
Definition MAX_LIVES : Z := 3.

(** [BattleTower.__init__] *)
Definition new_tower : BattleTower := mkTower false None 0 0 0.

(** [Trainer.__init__]: a team of empty arrays and an empty pokedex. *)
Definition new_trainer (name : string) : Trainer :=
  mkTrainer name
    (mkPokeTeam (TArrayR (repeat None TEAM_LIMIT)) 0 false None
                (repeat None TEAM_LIMIT))
    0%N.

(** [str] of a natural number: its decimal digits. *)
Fixpoint decimal (steps n : nat) (digits : string) : string :=
  match steps with
  | O => digits
  | S steps' =>
      let digits' := String (Ascii.ascii_of_nat (48 + n mod 10)) digits in
      if (n <? 10)%nat then digits' else decimal steps' (n / 10) digits'
  end.

Definition str_nat (n : nat) : string := decimal (S n) n EmptyString.

(** [BattleTower.set_my_trainer]; [trainer] becomes the first trainer of
    the world, and [lives] is what [randint] returns. *)
Definition set_my_trainer (trainer : Trainer) (lives : Z) : T unit :=
  tmodify (fun s =>
    mkSession (set_trainer Side1 trainer (world s))
              (mkTower true (enemy_teams (tower s)) (enemy_lives (tower s))
                       lives (enemies_defeated_count (tower s)))
              (notes s) (typed s)).

(** Modelled from the spec: [CircularQueue.append] and
    [CircularQueue.serve], on the queue of the tower; a tower without a
    queue has [None] there, which has no such method. *)
Definition enemies_append (enemy : Enemy) : T unit :=
  (t <- tgets tower ;;
   match enemy_teams t with
   | None => traise AttributeError
   | Some q =>
       if (length (enemies q) <? enemies_capacity q)%nat
       then tmodify (with_tower
                       (mkTower (my_trainer t)
                          (Some (mkTrainerQueue (enemies_capacity q)
                                                (enemies q ++ [enemy])))
                          (enemy_lives t) (player_lives t)
                          (enemies_defeated_count t)))
       else traise (Exception_ "Queue is full")
   end)%session.

Definition enemies_serve : T Enemy :=
  (t <- tgets tower ;;
   match enemy_teams t with
   | None => traise AttributeError
   | Some q =>
       match enemies q with
       | [] => traise (Exception_ "Queue is empty")
       | enemy :: rest =>
           tmodify (with_tower
                      (mkTower (my_trainer t)
                         (Some (mkTrainerQueue (enemies_capacity q) rest))
                         (enemy_lives t) (player_lives t)
                         (enemies_defeated_count t))) ;;
           tret enemy
       end
   end)%session.

(** [BattleTower.generate_enemy_trainers]; [draws i] are the random
    draws of the team of enemy [i] and [lives i] is the number of lives
    [randint] gives it. *)
Definition generate_enemy_trainers (num_teams : Z)
           (draws : nat -> nat -> nat) (lives : nat -> Z) : T unit :=
  (tmodify (fun s =>
     with_tower (mkTower (my_trainer (tower s))
                   (Some (mkTrainerQueue (Nat.max 1 (Z.to_nat num_teams)) []))
                   (enemy_lives (tower s)) (player_lives (tower s))
                   (enemies_defeated_count (tower s))) s) ;;
   tfor_range (Z.to_nat num_teams)
     (fun i : nat =>
        lift (modify (set_trainer Side2
                        (new_trainer (String.append "Enemy " (str_nat i))))) ;;
        pick_team Side2 "Random" (draws i) (fun _ => EmptyString) O ;;
        lift (assemble_team Side2 ROTATE None) ;;
        enemy_trainer <- lift (gets (get_trainer Side2)) ;;
        enemies_append (mkEnemy enemy_trainer (lives i)) ;;
        tmodify (fun s =>
          with_tower (mkTower (my_trainer (tower s)) (enemy_teams (tower s))
                        (enemy_lives (tower s) + lives i)%Z
                        (player_lives (tower s))
                        (enemies_defeated_count (tower s))) s) ;;
        tret (S i))
     O ;;
   tret tt)%session.

(** [BattleTower.battles_remaining] *)
Definition battles_remaining (t : BattleTower) : bool :=
  if (0 <? player_lives t)%Z && (0 <? enemy_lives t)%Z then true else false.

(** [BattleTower.enemies_defeated] *)
Definition enemies_defeated (t : BattleTower) : Z :=
  enemies_defeated_count t.

(** What [next_battle] returns: the result, the enemy that was served,
    with the lives it is left with, and the two totals; the player's
    trainer, also returned, is the first trainer of the world. *)
Record BattleReport := mkReport {
  report_result : Z;
  report_enemy : Enemy;
  report_player_lives : Z;
  report_enemy_lives : Z
}.

(** [BattleTower.next_battle]; [rounds] bounds the rounds of the
    battle. *)
Definition next_battle (rounds : nat) : T BattleReport :=
  (t <- tgets tower ;;
   (if my_trainer t then tret tt else traise AttributeError) ;;
   player <- lift (gets (fun w => trainer_name (get_trainer Side1 w))) ;;
   say (PrintPlayer player (player_lives t)) ;;
   enemy <- enemies_serve ;;
   say (PrintEnemy (trainer_name (enemy_trainer enemy)) (life enemy)) ;;
   lift (modify (set_trainer Side2 (enemy_trainer enemy))) ;;
   winner <- lift (commence_battle (mkBattle ROTATE (Some "health"%string))
                                   rounds) ;;
   outcome <-
     match winner with
     | Some Side1 =>
         tmodify (fun s =>
           with_tower (mkTower (my_trainer (tower s)) (enemy_teams (tower s))
                         (enemy_lives (tower s) - 1)%Z
                         (player_lives (tower s))
                         (enemies_defeated_count (tower s) + 1)%Z) s) ;;
         tret (1%Z, (life enemy - 1)%Z)
     | _ =>
         tmodify (fun s =>
           with_tower (mkTower (my_trainer (tower s)) (enemy_teams (tower s))
                         (enemy_lives (tower s))
                         (player_lives (tower s) - 1)%Z
                         (enemies_defeated_count (tower s))) s) ;;
         tret ((-1)%Z, life enemy)
     end ;;
   lift (regenerate_team Side1 ROTATE (Some "health"%string)) ;;
   (if (0 <? snd outcome)%Z then
      lift (regenerate_team Side2 ROTATE (Some "health"%string)) ;;
      enemy_trainer <- lift (gets (get_trainer Side2)) ;;
      enemies_append (mkEnemy enemy_trainer (snd outcome))
    else tret tt) ;;
   enemy_trainer <- lift (gets (get_trainer Side2)) ;;
   t' <- tgets tower ;;
   tret (mkReport (fst outcome) (mkEnemy enemy_trainer (snd outcome))
                  (player_lives t') (enemy_lives t')))%session.

(* ------------------------------------------------------------------ *)
(** ** Vocabulary of the session *)

(** Trainer [s] has the type [t] in the pokedex. *)
Definition has_registered (s : Side) (t : PokeType) (w : World) : Prop :=
  N.testbit (pokedex (get_trainer s w)) (poketype_value t) = true.

(** Between [w] and [w'] nothing but the pokedex of [self] may differ. *)
Definition only_pokedex (self : Side) (w w' : World) : Prop :=
  store w' = store w
  /\ next_ref w' = next_ref w
  /\ stdout w' = stdout w
  /\ get_team Side1 w' = get_team Side1 w
  /\ get_team Side2 w' = get_team Side2 w
  /\ trainer_name (get_trainer self w') = trainer_name (get_trainer self w)
  /\ get_trainer (other_side self) w' = get_trainer (other_side self) w.

(** The loop of [pick_team]. *)
Definition pick_team_register (self : Side) (i : nat) : T nat :=
  (x <- lift (PokeTeam_getitem self (Z.of_nat i)) ;;
   lift (register_pokemon self x) ;;
   tret (S i))%session.

(** What a mode assembles from the chosen members [l], seen in the
    store [st]: a stack in the reverse of the order of choice; a queue
    in the order of choice; a list of these members in which every item
    is keyed by the stat that the criterion [c] names, read from its
    Pokemon, the keys in ascending order. *)
Definition lined_up (mode : BattleMode) (c : option string)
           (st : ref -> Pokemon) (l : list pyobj) (adt : TeamADT) : Prop :=
  match mode, adt with
  | SET, TArrayStack s =>
      stack_items s = rev l /\ (length l <= stack_capacity s)%nat
  | ROTATE, TCircularQueue q =>
      queue_items q = l /\ (length l <= queue_capacity q)%nat
  | OPTIMISE, TArraySortedList items =>
      Permutation (map (fun it => Some (value it)) items) l
      /\ StronglySorted item_le items
      /\ exists crit,
           c = Some crit
           /\ Forall (fun it => key it = KNum (stat_of crit (st (value it))))
                     items
  | _, _ => False
  end.

(** The references [n], ..., [n + TEAM_LIMIT - 1]. *)
Definition fresh_team (n : nat) : list pyobj := map Some (seq n TEAM_LIMIT).

(** Ash and Gary before they have picked anything. *)
Definition newcomers : World :=
  mkWorld (fun _ => charmander) 0%nat (new_trainer "Ash") (new_trainer "Gary")
          [].

(** A session that starts with the newcomers and a new tower. *)
Definition lobby : Session := mkSession newcomers new_tower [] 0%nat.

(** A keyboard on which the only number ever typed is 2. *)
Definition sample_isdigit (s : string) : bool := String.eqb s "2".

Definition sample_int (s : string) : exn + Z :=
  if String.eqb s "2" then inr 2%Z
  else inl (ValueError "invalid literal for int()").

(* ------------------------------------------------------------------ *)
(** ** Vocabulary of the tower *)

(** The lives of the enemies waiting in the queue. *)
Definition lives_in_queue (q : TrainerQueue) : Z :=
  fold_right (fun e total => (life e + total)%Z) 0%Z (enemies q).

(** The count [enemy_lives] agrees with the queue: it is the sum of the
    lives of the enemies waiting, each of whom has a life left, and the
    queue is within its capacity. *)
Definition tower_consistent (t : BattleTower) : Prop :=
  exists q,
    enemy_teams t = Some q
    /\ enemy_lives t = lives_in_queue q
    /\ Forall (fun e => (0 < life e)%Z) (enemies q)
    /\ (length (enemies q) <= enemies_capacity q)%nat.

(** The score of a battle of the tower, from the winner that
    [commence_battle] returns and the life of the enemy: the result,
    the life the enemy is left with, and the changes of [enemy_lives],
    [player_lives] and [enemies_defeated_count]. *)
Definition tower_score (winner : option Side) (enemy_life : Z)
  : Z * Z * (Z * Z * Z) :=
  match winner with
  | Some Side1 => (1, enemy_life - 1, (-1, 0, 1))%Z
  | _ => (-1, enemy_life, (0, -1, 0))%Z
  end.

(** Six Pokemon in a queue, objects [n] to [n + 5], for a trainer who
    has registered one type. *)
Definition trainer_of_six (name : string) (n : nat) (dex : N) : Trainer :=
  mkTrainer name
    (mkPokeTeam (TCircularQueue (mkQueue 6%nat (fresh_team n))) 6%nat false
                None (fresh_team n))
    dex.

(** The tower before a battle: Ash, with six Charmanders and one life,
    faces an enemy with six Eevees and two lives. *)
Definition arena : Session :=
  mkSession
    (mkWorld (fun r => if (r <? 6)%nat then charmander else eevee) 12%nat
             (trainer_of_six "Ash" 0%nat 1%N) (new_trainer "Nobody") [])
    (mkTower true
       (Some (mkTrainerQueue 1%nat
                [mkEnemy (trainer_of_six "Enemy 0" 6%nat 2048%N) 2%Z]))
       2%Z 1%Z 0%Z)
    [] 0%nat.

(** An enemy as [generate_enemy_trainers] makes it, seen in the store
    [st]: it has the name and the lives given; its team is a queue of
    the six objects [first], ..., [first + 5] in that order, which is
    its original team as well; object [first + j] is an instance of the
    class drawn in [draws j]; and the pokedex holds the type of each of
    the six. *)
Definition enemy_made (st : ref -> Pokemon) (draws : nat -> nat)
           (name : string) (lives : Z) (first : nat) (e : Enemy) : Prop :=
  trainer_name (enemy_trainer e) = name
  /\ life e = lives
  /\ team (trainer_team (enemy_trainer e))
     = TCircularQueue (mkQueue TEAM_LIMIT (fresh_team first))
  /\ team_count (trainer_team (enemy_trainer e)) = TEAM_LIMIT
  /\ original_team (trainer_team (enemy_trainer e)) = fresh_team first
  /\ forall j, (j < TEAM_LIMIT)%nat ->
       nth_error POKE_LIST (draws j) = Some (st (first + j)%nat)
       /\ N.testbit (pokedex (enemy_trainer e))
                    (poketype_value (poketype (st (first + j)%nat)))
          = true.

(** One iteration of the loop of [generate_enemy_trainers]. *)
Definition generate_enemy (draws : nat -> nat -> nat) (lives : nat -> Z)
           (i : nat) : T nat :=
  (lift (modify (set_trainer Side2
                   (new_trainer (String.append "Enemy " (str_nat i))))) ;;
   pick_team Side2 "Random" (draws i) (fun _ => EmptyString) O ;;
   lift (assemble_team Side2 ROTATE None) ;;
   enemy_trainer <- lift (gets (get_trainer Side2)) ;;
   enemies_append (mkEnemy enemy_trainer (lives i)) ;;
   tmodify (fun s =>
     with_tower (mkTower (my_trainer (tower s)) (enemy_teams (tower s))
                   (enemy_lives (tower s) + lives i)%Z
                   (player_lives (tower s))
                   (enemies_defeated_count (tower s))) s) ;;
   tret (S i))%session.

(** The lives [lives 0], ..., [lives (n - 1)] together. *)
Definition lives_drawn (lives : nat -> Z) (n : nat) : Z :=
  fold_right (fun i total => (lives i + total)%Z) 0%Z (seq 0 n).

(** What is typed by someone who first answers in letters, then asks
    for two Pokemon and names them. *)
Definition sample_keyboard (n : nat) : string :=
  nth n ["six"; "2"; "Eevee"; "Charmander"]%string EmptyString.

(** What is typed by someone who asks for two Pokemon and names one
    that is not in the catalogue. *)
Definition mistyped_keyboard (n : nat) : string :=
  nth n ["2"; "Eevee"; "Pikachu"]%string EmptyString.

(** The superscript two, in UTF-8: Python's [str.isdigit] takes it for
    a digit and [int] does not take it for a number. *)
Definition superscript_two : string :=
  String (Ascii.ascii_of_nat 194) (String (Ascii.ascii_of_nat 178) EmptyString).

Definition unicode_isdigit (s : string) : bool :=
  String.eqb s "2" || String.eqb s superscript_two.

(* ------------------------------------------------------------------ *)
(** ** Indexed access leaves the team as it was *)

Lemma get_team_set_team (s : Side) (t : PokeTeam) (w : World) :
  get_team s (set_team s t w) = t.
Proof. destruct s; reflexivity. Qed.

Lemma team_put_team (s : Side) (adt : TeamADT) (w : World) :
  team (get_team s (put_team s adt w)) = adt.
Proof. unfold put_team. rewrite get_team_set_team. reflexivity. Qed.

Lemma put_team_put_team (s : Side) (a b : TeamADT) (w : World) :
  put_team s a (put_team s b w) = put_team s a w.
Proof. destruct s; reflexivity. Qed.

Lemma put_team_same (s : Side) (w : World) :
  put_team s (team (get_team s w)) w = w.
Proof.
  destruct w as [st nr [n1 [a1 c1 sc1 cr1 o1] d1] [n2 [a2 c2 sc2 cr2 o2] d2] out].
  destruct s; reflexivity.
Qed.

Lemma bind_team_run (s : Side) (adt : TeamADT) (w : World) :
  bind_team s adt w = Ok tt (put_team s adt w).
Proof. reflexivity. Qed.

Lemma team_pop_run (s : Side) (c : nat) (x : pyobj) (l : list pyobj)
      (w : World) :
  team_pop s (put_team s (TArrayStack (mkStack c (x :: l))) w)
  = Ok x (put_team s (TArrayStack (mkStack c l)) w).
Proof.
  destruct s; reflexivity.
Qed.

Lemma team_push_run (s : Side) (c : nat) (x : pyobj) (l : list pyobj)
      (w : World) :
  (length l < c)%nat ->
  team_push s x (put_team s (TArrayStack (mkStack c l)) w)
  = Ok tt (put_team s (TArrayStack (mkStack c (x :: l))) w).
Proof.
  intros H. apply Nat.ltb_lt in H.
  unfold team_push, bind, gets. rewrite team_put_team.
  unfold stack_push. cbn [stack_items stack_capacity]. rewrite H.
  destruct s; reflexivity.
Qed.

Lemma team_serve_run (s : Side) (c : nat) (x : pyobj) (l : list pyobj)
      (w : World) :
  team_serve s (put_team s (TCircularQueue (mkQueue c (x :: l))) w)
  = Ok x (put_team s (TCircularQueue (mkQueue c l)) w).
Proof.
  destruct s; reflexivity.
Qed.

Lemma team_append_run (s : Side) (c : nat) (x : pyobj) (l : list pyobj)
      (w : World) :
  (length l < c)%nat ->
  team_append s x (put_team s (TCircularQueue (mkQueue c l)) w)
  = Ok tt (put_team s (TCircularQueue (mkQueue c (l ++ [x]))) w).
Proof.
  intros H. apply Nat.ltb_lt in H.
  unfold team_append, bind, gets. rewrite team_put_team.
  unfold queue_append. cbn [queue_items queue_capacity]. rewrite H.
  destruct s; reflexivity.
Qed.

(** The first loop stops at iteration [index] with the items above it
    moved, reversed, onto the temporary stack. *)
Lemma getitem_stack_search_run (s : Side) (c ct : nat) (w : World) :
  forall (k n : nat) (l acc : list pyobj) (i : Z) (x : pyobj),
    nth_error l k = Some x ->
    (k < n)%nat ->
    (length acc + S k <= ct)%nat ->
    getitem_stack_search s n i (i + Z.of_nat k) (mkStack ct acc)
      (put_team s (TArrayStack (mkStack c l)) w)
    = Ok (mkStack ct (rev (firstn (S k) l) ++ acc), Some x)
         (put_team s (TArrayStack (mkStack c (skipn (S k) l))) w).
Proof.
  induction k as [|k IH]; intros n l acc i x Hx Hn Hc.
  - destruct l as [|y l]; [discriminate|]. injection Hx as ->.
    destruct n as [|n]; [lia|]. cbn [getitem_stack_search].
    unfold bind at 1. rewrite team_pop_run.
    unfold bind at 1. unfold stack_push. cbn [stack_items stack_capacity].
    replace (length acc <? ct)%nat with true
      by (symmetry; apply Nat.ltb_lt; lia).
    cbn [lift_exn ret]. replace (i + Z.of_nat 0)%Z with i by lia.
    rewrite Z.eqb_refl. reflexivity.
  - destruct l as [|y l]; [discriminate|]. cbn [nth_error] in Hx.
    destruct n as [|n]; [lia|]. cbn [getitem_stack_search].
    unfold bind at 1. rewrite team_pop_run.
    unfold bind at 1. unfold stack_push. cbn [stack_items stack_capacity].
    replace (length acc <? ct)%nat with true
      by (symmetry; apply Nat.ltb_lt; lia).
    cbn [lift_exn ret].
    replace (i =? i + Z.of_nat (S k))%Z with false
      by (symmetry; apply Z.eqb_neq; lia).
    replace (i + Z.of_nat (S k))%Z with ((i + 1) + Z.of_nat k)%Z by lia.
    rewrite (IH n l (y :: acc) (i + 1)%Z x Hx); [|lia|cbn [length]; lia].
    cbn [firstn rev skipn]. rewrite <- app_assoc. reflexivity.
Qed.

(** The second loop pushes the temporary stack back, top first. *)
Lemma getitem_stack_restore_run (s : Side) (c ct : nat) (w : World) :
  forall (acc l : list pyobj),
    (length acc + length l <= c)%nat ->
    getitem_stack_restore s (mkStack ct acc)
      (put_team s (TArrayStack (mkStack c l)) w)
    = Ok (mkStack ct [])
         (put_team s (TArrayStack (mkStack c (rev acc ++ l))) w).
Proof.
  unfold getitem_stack_restore. cbn [stack_items].
  induction acc as [|x acc IH]; intros l H.
  - reflexivity.
  - cbn [length for_range]. unfold bind at 1. unfold bind at 1.
    cbn [stack_pop stack_items lift_exn ret fst snd stack_capacity].
    unfold bind at 1. rewrite team_push_run by (cbn [length] in H; lia).
    cbn [ret]. rewrite IH by (cbn [length] in *; lia).
    cbn [rev]. rewrite <- app_assoc. reflexivity.
Qed.

(** The queue loop serves and re-appends every item; it remembers the
    one served in iteration [index]. *)
Lemma getitem_queue_cycle_run (s : Side) (c : nat) (w : World) (index : Z) :
  forall (xs ys : list pyobj) (i : Z) (found : option pyobj),
    (length xs + length ys <= c)%nat ->
    getitem_queue_cycle s (length xs) i index found
      (put_team s (TCircularQueue (mkQueue c (xs ++ ys))) w)
    = Ok (if ((i <=? index) && (index <? i + Z.of_nat (length xs)))%Z
          then nth_error xs (Z.to_nat (index - i)) else found)
         (put_team s (TCircularQueue (mkQueue c (ys ++ xs))) w).
Proof.
  induction xs as [|x xs IH]; intros ys i found H.
  - cbn [length getitem_queue_cycle ret]. rewrite app_nil_r. cbn [app].
    replace ((i <=? index) && (index <? i + Z.of_nat 0))%Z with false
      by (symmetry; apply andb_false_iff;
          rewrite Z.leb_gt, Z.ltb_ge; lia).
    reflexivity.
  - cbn [length getitem_queue_cycle]. cbn [app].
    unfold bind at 1. rewrite team_serve_run.
    unfold bind at 1.
    rewrite team_append_run
      by (rewrite length_app; cbn [length] in H; lia).
    rewrite <- app_assoc.
    rewrite IH by (rewrite length_app; cbn [length] in *; lia).
    rewrite <- app_assoc. cbn [app]. f_equal.
    destruct (Z.eqb_spec i index) as [->|Hne].
    + replace ((index + 1 <=? index)
               && (index <? index + 1 + Z.of_nat (length xs)))%Z
        with false by (symmetry; apply andb_false_iff; left;
                       apply Z.leb_gt; lia).
      replace ((index <=? index)
               && (index <? index + Z.of_nat (S (length xs))))%Z
        with true by (symmetry; apply andb_true_iff; split;
                      [apply Z.leb_le|apply Z.ltb_lt]; lia).
      rewrite Z.sub_diag. reflexivity.
    + destruct (Z.leb_spec (i + 1) index) as [Hle|Hgt].
      * replace (i <=? index)%Z with true
          by (symmetry; apply Z.leb_le; lia).
        replace (index <? i + Z.of_nat (S (length xs)))%Z
          with (index <? i + 1 + Z.of_nat (length xs))%Z
          by (f_equal; lia).
        cbn [andb].
        destruct (index <? i + 1 + Z.of_nat (length xs))%Z; [|reflexivity].
        replace (Z.to_nat (index - i)) with (S (Z.to_nat (index - (i + 1))))
          by lia.
        reflexivity.
      * replace (i <=? index)%Z with false
          by (symmetry; apply Z.leb_gt; lia).
        reflexivity.
Qed.

(** [team[i]] for a valid index: the element at that position, in the
    world of the call. *)
Lemma PokeTeam_getitem_run (self : Side) (w : World) (index : Z) :
  adt_wf (team (get_team self w)) ->
  (0 <= index < Z.of_nat (length (team_order (team (get_team self w)))))%Z ->
  exists x : pyobj,
    nth_error (team_order (team (get_team self w))) (Z.to_nat index) = Some x
    /\ PokeTeam_getitem self index w = Ok x w.
Proof.
  intros Hwf Hi.
  destruct (nth_error (team_order (team (get_team self w))) (Z.to_nat index))
    as [x|] eqn:Hx;
    [|apply nth_error_None in Hx; lia].
  exists x. split; [reflexivity|].
  unfold PokeTeam_getitem, bind at 1, gets.
  destruct (team (get_team self w)) as [array|[c l]|[c l]|items] eqn:Hadt;
    cbn [team_order stack_items queue_items] in *.
  - unfold array_getitem.
    replace ((index <? 0) || (Z.of_nat (length array) <=? index))%Z
      with false
      by (symmetry; apply orb_false_iff; rewrite Z.ltb_ge, Z.leb_gt; lia).
    rewrite Hx. reflexivity.
  - rewrite <- (put_team_same self w) at 1. rewrite Hadt.
    unfold bind at 1.
    pose proof (getitem_stack_search_run self c (Nat.max 1 (length l)) w
                  (Z.to_nat index) (length l) l [] 0%Z x Hx) as Hs.
    rewrite Z2Nat.id in Hs by lia. cbn [Z.add] in Hs.
    unfold new_stack. rewrite Hs; [|lia|cbn [length]; lia].
    unfold bind at 1. cbn [fst snd]. rewrite app_nil_r.
    rewrite getitem_stack_restore_run.
    + rewrite rev_involutive, firstn_skipn. cbn [read_local ret].
      rewrite <- Hadt, put_team_same. reflexivity.
    + rewrite length_rev.
      rewrite <- (firstn_skipn (S (Z.to_nat index)) l) in Hwf.
      cbn [adt_wf stack_items stack_capacity] in Hwf.
      rewrite length_app in Hwf. exact Hwf.
  - rewrite <- (put_team_same self w) at 1. rewrite Hadt.
    unfold bind at 1.
    pose proof (getitem_queue_cycle_run self c w index l [] 0%Z None) as Hq.
    rewrite app_nil_r in Hq. rewrite Hq
      by (cbn [adt_wf queue_items queue_capacity length] in *; lia).
    cbn [app].
    replace ((0 <=? index) && (index <? 0 + Z.of_nat (length l)))%Z
      with true
      by (symmetry; apply andb_true_iff; split;
          [apply Z.leb_le|apply Z.ltb_lt]; lia).
    rewrite Z.sub_0_r, Hx. cbn [read_local ret].
    rewrite <- Hadt, put_team_same. reflexivity.
  - rewrite length_map in Hi. unfold sorted_getitem.
    replace ((index <? 0) || (Z.of_nat (length items) <=? index))%Z
      with false
      by (symmetry; apply orb_false_iff; rewrite Z.ltb_ge, Z.leb_gt; lia).
    rewrite nth_error_map in Hx.
    destruct (nth_error items (Z.to_nat index)) as [it|]; [|discriminate].
    cbn in Hx. injection Hx as <-. reflexivity.
Qed.

(** C10.  Indexed access is non-destructive for every ordering variant:
    on a stack, a queue, a sorted list or a raw array, for every valid
    index [i], [team[i]] returns the element at position [i] counted from
    the front and leaves the world, hence the team's size and its
    front-to-back order, exactly as before. *)
Theorem getitem_nondestructive (self : Side) (w : World) (index : Z) :
  adt_wf (team (get_team self w)) ->
  (0 <= index < Z.of_nat (length (team_order (team (get_team self w)))))%Z ->
  exists x : pyobj,
    nth_error (team_order (team (get_team self w))) (Z.to_nat index) = Some x
    /\ PokeTeam_getitem self index w = Ok x w.
Proof. apply PokeTeam_getitem_run. Qed.

(* ------------------------------------------------------------------ *)
(** ** The damage formula *)

Lemma Qlt_bool_iff (x y : Q) : Qlt_bool x y = true <-> (x < y)%Q.
Proof.
  unfold Qlt_bool. rewrite negb_true_iff. split.
  - intros H. apply Qnot_le_lt. intros Hle.
    apply Qle_bool_iff in Hle. congruence.
  - intros H. destruct (Qle_bool y x) eqn:E; [|reflexivity].
    apply Qle_bool_iff in E. exfalso. exact (Qlt_not_le _ _ H E).
Qed.

Lemma Qlt_bool_false_iff (x y : Q) : Qlt_bool x y = false <-> (y <= x)%Q.
Proof.
  unfold Qlt_bool. rewrite negb_false_iff. apply Qle_bool_iff.
Qed.

Lemma attack_damage_spec (self other_pokemon : Pokemon) :
  attack_damage self other_pokemon
  = spec_damage (battle_power self) (defence other_pokemon)
    * EFFECT_TABLE (poketype self) (poketype other_pokemon).
Proof.
  unfold attack_damage, spec_damage, spec_tier, get_effectiveness.
  destruct (Qlt_bool (defence other_pokemon) (battle_power self / 2)) eqn:E1;
    [reflexivity|].
  unfold Qlt_bool in E1. apply negb_false_iff in E1. rewrite E1.
  cbn [andb].
  destruct (Qlt_bool (defence other_pokemon) (battle_power self));
    reflexivity.
Qed.

(** C6.  [attack] computes the damage by tiers on the defender's defence
    against the attacker's battle power: power - defence when
    defence < power/2, ceil(power*5/8 - defence/4) when
    power/2 <= defence < power, ceil(power/4) otherwise, times the type
    effectiveness, and changes nothing.  With power 10 and defence 5 the
    middle tier applies, as does the strict comparison of the code. *)
Theorem attack_by_tiers (self other_pokemon : ref) (w : World) :
  attack self other_pokemon w
  = Ok (spec_damage (battle_power (store w self))
                    (defence (store w other_pokemon))
        * EFFECT_TABLE (poketype (store w self))
                       (poketype (store w other_pokemon))) w
  /\ spec_tier 10 5 = MiddleTier
  /\ Qlt_bool 5 (10 / 2) = false
  /\ spec_damage 10 5 = inject_Z (ceil (10 * 5 / 8 - 5 / 4)).
Proof.
  split; [|repeat split].
  unfold attack, bind, get_pokemon, gets, ret.
  rewrite attack_damage_spec. reflexivity.
Qed.

(* ------------------------------------------------------------------ *)
(** ** The order of keys *)

Lemma key_lt_pair (x y : Q) (i j : Z) :
  key_lt (KPair x i) (KPair y j) <-> (x < y)%Q \/ ((x == y)%Q /\ (i < j)%Z).
Proof.
  unfold key_lt, key_compare.
  destruct (Qcompare_spec x y) as [He|Hl|Hg].
  - split.
    + intros H. right. split; [exact He|].
      apply Z.compare_lt_iff. congruence.
    + intros [H|[_ H]].
      * rewrite He in H. exfalso. exact (Qlt_irrefl _ H).
      * f_equal. apply Z.compare_lt_iff. exact H.
  - split; [intros _; left; exact Hl|reflexivity].
  - split; [discriminate|].
    intros [H|[H _]].
    + exfalso. exact (Qlt_irrefl _ (Qlt_trans _ _ _ H Hg)).
    + rewrite H in Hg. exfalso. exact (Qlt_irrefl _ Hg).
Qed.

Lemma key_lt_num (x y : Q) : key_lt (KNum x) (KNum y) <-> (x < y)%Q.
Proof.
  unfold key_lt, key_compare. rewrite Qlt_alt.
  split; [congruence|intros ->; reflexivity].
Qed.

Lemma key_compare_gt (a b : Key) :
  key_compare a b = Some Gt <-> key_lt b a.
Proof.
  unfold key_lt.
  destruct a as [x|x i], b as [y|y j]; cbn [key_compare];
    try (split; discriminate).
  - rewrite <- (Qcompare_antisym x y).
    destruct (x ?= y)%Q; cbn [CompOpp]; split; congruence.
  - rewrite <- (Qcompare_antisym x y), (Z.compare_antisym i j).
    destruct (x ?= y)%Q, (i ?= j)%Z; cbn [CompOpp]; split; congruence.
Qed.

Lemma key_lt_trans (a b c : Key) : key_lt a b -> key_lt b c -> key_lt a c.
Proof.
  destruct a as [x|x i], b as [y|y j], c as [z|z k];
    try (unfold key_lt; cbn [key_compare]; discriminate).
  - rewrite !key_lt_num. apply Qlt_trans.
  - rewrite !key_lt_pair.
    intros [H1|[H1 H1']] [H2|[H2 H2']].
    + left. exact (Qlt_trans _ _ _ H1 H2).
    + left. rewrite <- H2. exact H1.
    + left. rewrite H1. exact H2.
    + right. split; [rewrite H1; exact H2|lia].
Qed.

Lemma item_lt_trans (a b c : ListItem) :
  item_lt a b -> item_lt b c -> item_lt a c.
Proof. unfold item_lt. apply key_lt_trans. Qed.

(* ------------------------------------------------------------------ *)
(** ** Binary search and sorted insertion *)

Lemma StronglySorted_nth {A} (R : A -> A -> Prop) (l : list A) :
  StronglySorted R l ->
  forall n m a b, (n < m)%nat ->
    nth_error l n = Some a -> nth_error l m = Some b -> R a b.
Proof.
  induction 1 as [|x l Hs IH Hall]; intros n m a b Hnm Ha Hb.
  - destruct n; discriminate.
  - destruct m as [|m]; [lia|]. cbn [nth_error] in Hb.
    destruct n as [|n].
    + cbn in Ha. injection Ha as <-.
      rewrite Forall_forall in Hall. apply Hall.
      exact (nth_error_In _ _ Hb).
    + cbn [nth_error] in Ha. apply (IH n m); [lia|assumption..].
Qed.

Section Insertion.

Variable items : list ListItem.
Variable item : ListItem.
Hypothesis items_sorted : StronglySorted item_lt items.
Hypothesis item_comparable :
  forall x, In x items -> item_lt x item \/ item_lt item x.

Lemma _index_to_add_spec (steps : nat) :
  forall low high : Z,
    (0 <= low)%Z -> (high < Z.of_nat (length items))%Z ->
    (low <= high + 1)%Z ->
    (high - low + 1 < Z.of_nat steps)%Z ->
    (forall n x, (Z.of_nat n < low)%Z -> nth_error items n = Some x ->
                 item_lt x item) ->
    (forall n x, (high < Z.of_nat n)%Z -> nth_error items n = Some x ->
                 item_lt item x) ->
    exists p : nat,
      _index_to_add steps items item low high = inr (Z.of_nat p)
      /\ (p <= length items)%nat
      /\ (forall n x, (n < p)%nat -> nth_error items n = Some x ->
                      item_lt x item)
      /\ (forall n x, (p <= n)%nat -> nth_error items n = Some x ->
                      item_lt item x).
Proof.
  induction steps as [|steps IH]; intros low high Hlow Hhigh Hlh Hsteps Hbelow Habove.
  - lia.
  - cbn [_index_to_add].
    destruct (Z.leb_spec low high) as [Hle|Hgt].
    + set (mid := ((low + high) / 2)%Z).
      assert (Hmid : (low <= mid <= high)%Z).
      { unfold mid. split.
        - apply Z.div_le_lower_bound; lia.
        - apply Z.div_le_upper_bound; lia. }
      destruct (nth_error items (Z.to_nat mid)) as [x|] eqn:Hx;
        [|apply nth_error_None in Hx; lia].
      destruct (item_comparable x (nth_error_In _ _ Hx)) as [Hlt|Hgt].
      * unfold item_lt, key_lt in Hlt. rewrite Hlt.
        apply IH; try lia.
        -- intros n y Hn Hy.
           destruct (Nat.eq_dec n (Z.to_nat mid)) as [->|Hne].
           ++ rewrite Hx in Hy. injection Hy as <-. exact Hlt.
           ++ apply (item_lt_trans y x item); [|exact Hlt].
              apply (StronglySorted_nth item_lt items items_sorted
                       n (Z.to_nat mid)); [lia|assumption..].
        -- exact Habove.
      * pose proof Hgt as Hgt'. unfold item_lt in Hgt'.
        apply key_compare_gt in Hgt'. rewrite Hgt'.
        apply IH; try lia.
        -- exact Hbelow.
        -- intros n y Hn Hy.
           destruct (Nat.eq_dec n (Z.to_nat mid)) as [->|Hne].
           ++ rewrite Hx in Hy. injection Hy as <-. exact Hgt.
           ++ apply (item_lt_trans item x y); [exact Hgt|].
              apply (StronglySorted_nth item_lt items items_sorted
                       (Z.to_nat mid) n); [lia|assumption..].
    + exists (Z.to_nat low). rewrite Z2Nat.id by lia.
      split; [reflexivity|]. split; [lia|]. split.
      * intros n x Hn. apply Hbelow. lia.
      * intros n x Hn. apply Habove. lia.
Qed.

Lemma insert_sorted :
  forall (l : list ListItem) (p : nat),
    StronglySorted item_lt l ->
    (forall n x, (n < p)%nat -> nth_error l n = Some x -> item_lt x item) ->
    (forall n x, (p <= n)%nat -> nth_error l n = Some x -> item_lt item x) ->
    StronglySorted item_lt (firstn p l ++ item :: skipn p l).
Proof.
  induction l as [|y l IH]; intros p Hs Hb Ha.
  - rewrite firstn_nil, skipn_nil. cbn. repeat constructor.
  - destruct p as [|p].
    + cbn [firstn skipn app]. constructor; [exact Hs|].
      apply Forall_forall. intros x Hin.
      apply In_nth_error in Hin. destruct Hin as [n Hn].
      apply (Ha n); [lia|exact Hn].
    + cbn [firstn skipn app]. inversion Hs as [|? ? Hs' Hall]; subst.
      constructor.
      * apply IH; [exact Hs'| |].
        -- intros n x Hn Hx. apply (Hb (S n)); [lia|exact Hx].
        -- intros n x Hn Hx. apply (Ha (S n)); [lia|exact Hx].
      * apply Forall_app. split.
        -- apply Forall_forall. intros x Hin.
           rewrite Forall_forall in Hall. apply Hall.
           rewrite <- (firstn_skipn p l). apply in_or_app. left. exact Hin.
        -- constructor.
           ++ apply (Hb O); [lia|reflexivity].
           ++ apply Forall_forall. intros x Hin.
              rewrite Forall_forall in Hall. apply Hall.
              rewrite <- (firstn_skipn p l). apply in_or_app. right.
              exact Hin.
Qed.

(** [add] succeeds, keeps the list sorted and adds exactly the item. *)
Lemma sorted_add_spec :
  exists l',
    sorted_add item items = inr l'
    /\ StronglySorted item_lt l'
    /\ Permutation l' (item :: items).
Proof.
  unfold sorted_add.
  destruct (_index_to_add_spec (S (length items)) 0
              (Z.of_nat (length items) - 1))
    as (p & Hp & Hlen & Hb & Ha); try lia.
  - intros n x Hn Hx.
    assert (n < length items)%nat by (apply nth_error_Some; congruence).
    lia.
  - rewrite Hp, Nat2Z.id. eexists. split; [reflexivity|]. split.
    + apply insert_sorted; assumption.
    + symmetry. rewrite <- (firstn_skipn p items) at 1.
      apply Permutation_middle.
Qed.

End Insertion.

(* ------------------------------------------------------------------ *)
(** ** Re-sorting a priority team *)

Lemma criterion_value_recognised (c : string) (p : Pokemon) :
  in_CRITERION_LIST (Some c) = true ->
  criterion_value (Some c) p = inr (stat_of c p).
Proof.
  unfold in_CRITERION_LIST, CRITERION_LIST, criterion_value, stat_of,
    getattr_get.
  cbn [existsb].
  destruct (String.eqb c "health"); [reflexivity|].
  destruct (String.eqb c "defence"); [reflexivity|].
  destruct (String.eqb c "battle_power"); [reflexivity|].
  destruct (String.eqb c "speed"); [reflexivity|].
  destruct (String.eqb c "level"); [reflexivity|].
  discriminate.
Qed.

Lemma in_CRITERION_LIST_In (c : string) :
  In c CRITERION_LIST -> in_CRITERION_LIST (Some c) = true.
Proof.
  intros H. unfold in_CRITERION_LIST. apply existsb_exists.
  exists c. split; [exact H|apply String.eqb_refl].
Qed.

Lemma rekeyed_from_app (st : ref -> Pokemon) (order : Z) (c : string) :
  forall l1 l2 i,
    rekeyed_from st order c i (l1 ++ l2)
    = rekeyed_from st order c i l1
      ++ rekeyed_from st order c (i + length l1) l2.
Proof.
  induction l1 as [|x l1 IH]; intros l2 i; cbn [app rekeyed_from length].
  - rewrite Nat.add_0_r. reflexivity.
  - rewrite IH. f_equal. f_equal. f_equal. lia.
Qed.

Lemma In_rekeyed_from (st : ref -> Pokemon) (order : Z) (c : string) :
  forall l i a,
    In a (rekeyed_from st order c i l) ->
    exists j it, nth_error l j = Some it /\ a = rekey st order c (i + j) it.
Proof.
  induction l as [|x l IH]; intros i a Hin; [destruct Hin|].
  cbn [rekeyed_from] in Hin. destruct Hin as [<-|Hin].
  - exists O, x. rewrite Nat.add_0_r. split; reflexivity.
  - destruct (IH _ _ Hin) as (j & it & Hj & ->).
    exists (S j), it. split; [exact Hj|]. f_equal. lia.
Qed.

Lemma firstn_S_nth {A} (l : list A) :
  forall i x, nth_error l i = Some x -> firstn (S i) l = firstn i l ++ [x].
Proof.
  induction l as [|y l IH]; intros i x H; [destruct i; discriminate|].
  destruct i as [|i].
  - cbn in H. injection H as ->. reflexivity.
  - cbn [nth_error] in H. cbn [firstn app]. f_equal.
    exact (IH i x H).
Qed.

Lemma rekey_comparable (st : ref -> Pokemon) (order : Z) (c : string)
      (i j : nat) (a b : ListItem) :
  order = 1%Z \/ order = (-1)%Z ->
  i <> j ->
  item_lt (rekey st order c i a) (rekey st order c j b)
  \/ item_lt (rekey st order c j b) (rekey st order c i a).
Proof.
  intros Ho Hij. unfold item_lt, rekey. cbn [key]. rewrite !key_lt_pair.
  destruct (Q_dec (inject_Z order * stat_of c (st (value a)))
                  (inject_Z order * stat_of c (st (value b))))
    as [[Hlt|Hgt]|Heq].
  - left. left. exact Hlt.
  - right. left. exact Hgt.
  - destruct (Z.lt_total (order * Z.of_nat i) (order * Z.of_nat j))
      as [H|[H|H]].
    + left. right. split; assumption.
    + exfalso. destruct Ho as [-> | ->]; lia.
    + right. right. split; [symmetry; exact Heq|exact H].
Qed.

(** The loop of [assign_team] keeps [assembled_team] sorted and made of
    the re-keyed items seen so far; it never raises. *)
Lemma assign_team_loop_spec (st : ref -> Pokemon) (items : list ListItem)
      (order : Z) (c : string) :
  order = 1%Z \/ order = (-1)%Z ->
  in_CRITERION_LIST (Some c) = true ->
  forall (n i : nat) (acc : list ListItem),
    (i + n = length items)%nat ->
    StronglySorted item_lt acc ->
    Permutation acc (rekeyed_from st order c 0 (firstn i items)) ->
    exists acc',
      assign_team_loop st items order (Some c) n (Z.of_nat i) acc = inr acc'
      /\ StronglySorted item_lt acc'
      /\ Permutation acc' (rekeyed_from st order c 0 items).
Proof.
  intros Ho Hc. induction n as [|n IH]; intros i acc Hlen Hs Hp.
  - exists acc. split; [reflexivity|]. split; [exact Hs|].
    replace i with (length items) in Hp by lia.
    rewrite firstn_all in Hp. exact Hp.
  - cbn [assign_team_loop]. unfold sorted_getitem.
    replace ((Z.of_nat i <? 0) || (Z.of_nat (length items) <=? Z.of_nat i))%Z
      with false
      by (symmetry; apply orb_false_iff; rewrite Z.ltb_ge, Z.leb_gt; lia).
    rewrite Nat2Z.id.
    destruct (nth_error items i) as [it|] eqn:Hit;
      [|apply nth_error_None in Hit; lia].
    rewrite Hc, (criterion_value_recognised c _ Hc).
    change (mkItem (value it)
              (KPair (inject_Z order * stat_of c (st (value it)))
                     (order * Z.of_nat i)))
      with (rekey st order c i it).
    destruct (sorted_add_spec acc (rekey st order c i it) Hs)
      as (acc1 & Hadd & Hs1 & Hp1).
    { intros x Hx.
      apply (Permutation_in _ Hp) in Hx.
      apply In_rekeyed_from in Hx. destruct Hx as (j & it' & Hj & ->).
      cbn [Nat.add]. apply rekey_comparable; [exact Ho|].
      assert (j < length (firstn i items))%nat
        by (apply nth_error_Some; congruence).
      rewrite length_firstn in H. lia. }
    rewrite Hadd.
    replace (Z.of_nat i + 1)%Z with (Z.of_nat (S i)) by lia.
    apply IH; [lia|exact Hs1|].
    rewrite (firstn_S_nth items i it Hit), rekeyed_from_app.
    rewrite length_firstn, Nat.min_l by lia.
    cbn [rekeyed_from Nat.add].
    rewrite Hp1. rewrite Hp. apply Permutation_cons_append.
Qed.

Lemma direction_cases (t : PokeTeam) :
  direction t = 1%Z \/ direction t = (-1)%Z.
Proof. unfold direction. destruct (special_called t); auto. Qed.

(** [assign_team] on a sorted-list team with a recognised criterion
    returns, with the re-keyed items in strictly ascending key order. *)
Lemma assign_team_run (self : Side) (w : World) (items : list ListItem)
      (c : string) :
  team (get_team self w) = TArraySortedList items ->
  in_CRITERION_LIST (Some c) = true ->
  exists items',
    assign_team self (Some c) w
    = Ok tt (put_team self (TArraySortedList items') w)
    /\ StronglySorted item_lt items'
    /\ Permutation items'
         (rekeyed_from (store w) (direction (get_team self w)) c 0 items).
Proof.
  intros Hteam Hc.
  destruct (assign_team_loop_spec (store w) items
              (direction (get_team self w)) c
              (direction_cases _) Hc (length items) 0 [])
    as (items' & Hloop & Hs & Hp);
    [lia|constructor|reflexivity|].
  exists items'. split; [|split; assumption].
  unfold assign_team, bind, gets. rewrite Hteam.
  unfold direction in Hloop. cbn [Z.of_nat] in Hloop. rewrite Hloop.
  reflexivity.
Qed.

Lemma StronglySorted_adjacent {A} (R : A -> A -> Prop) :
  forall pre a b post, StronglySorted R (pre ++ a :: b :: post) -> R a b.
Proof.
  induction pre as [|x pre IH]; intros a b post H.
  - inversion H as [|? ? _ Hall]; subst.
    inversion Hall; subst. assumption.
  - inversion H; subst. eapply IH. eassumption.
Qed.

Lemma In_rekeyed_at (st : ref -> Pokemon) (order : Z) (c : string)
      (items : list ListItem) (a : ListItem) :
  In a (rekeyed_from st order c 0 items) ->
  exists i, rekeyed_at st order c items i a.
Proof.
  intros H. apply In_rekeyed_from in H. destruct H as (j & it & Hj & ->).
  exists j, it. split; [exact Hj|reflexivity].
Qed.

Lemma special_optimise_run (self : Side) (w : World)
      (items : list ListItem) (c : string) :
  team (get_team self w) = TArraySortedList items ->
  criterion (get_team self w) = Some c ->
  in_CRITERION_LIST (Some c) = true ->
  exists w' items',
    special self OPTIMISE w = Ok tt w'
    /\ team (get_team self w') = TArraySortedList items'
    /\ criterion (get_team self w') = Some c
    /\ special_called (get_team self w')
       = negb (special_called (get_team self w)).
Proof.
  intros Hteam Hcrit Hc.
  set (t := get_team self w).
  set (w1 := set_team self
               (mkPokeTeam (team t) (team_count t) (negb (special_called t))
                           (criterion t) (original_team t)) w).
  destruct (assign_team_run self w1 items c) as (items' & Hrun & _ & _).
  { unfold w1. rewrite get_team_set_team. exact Hteam. }
  { exact Hc. }
  exists (put_team self (TArraySortedList items') w1), items'.
  split; [|split; [|split]].
  - unfold special, bind at 1, gets. fold t.
    unfold bind at 1, modify_team, modify. fold t. fold w1.
    unfold t at 1. rewrite Hcrit. exact Hrun.
  - apply team_put_team.
  - unfold put_team, w1. rewrite !get_team_set_team. exact Hcrit.
  - unfold put_team, w1. rewrite !get_team_set_team. reflexivity.
Qed.

Lemma special_times_run (self : Side) (c : string) :
  in_CRITERION_LIST (Some c) = true ->
  forall (n : nat) (w : World) (items : list ListItem),
    team (get_team self w) = TArraySortedList items ->
    criterion (get_team self w) = Some c ->
    exists w' items',
      special_times self OPTIMISE n w = Ok tt w'
      /\ team (get_team self w') = TArraySortedList items'
      /\ special_called (get_team self w')
         = xorb (special_called (get_team self w)) (Nat.odd n).
Proof.
  intros Hc. induction n as [|n IH]; intros w items Hteam Hcrit.
  - exists w, items. split; [reflexivity|]. split; [exact Hteam|].
    cbn. rewrite xorb_false_r. reflexivity.
  - destruct (special_optimise_run self w items c Hteam Hcrit Hc)
      as (w1 & items1 & Hrun & Hteam1 & Hcrit1 & Hflag1).
    destruct (IH w1 items1 Hteam1 Hcrit1) as (w' & items' & Hrun' & Hteam' & Hflag').
    exists w', items'. split; [|split; [exact Hteam'|]].
    + unfold special_times in *. cbn [for_range]. unfold bind at 1.
      rewrite Hrun. exact Hrun'.
    + rewrite Hflag', Hflag1, Nat.odd_succ, <- Nat.negb_odd.
      destruct (special_called (get_team self w)), (Nat.odd n); reflexivity.
Qed.

(** What [assign_team] computes, in general.  Re-sorting a priority team
    by a recognised criterion returns, and in the new list every adjacent
    pair [(a, b)] has direction * key(a) <= direction * key(b), the key
    being the
    chosen stat; a tie is broken by direction * position, the position
    being the one held in the list before the re-sort: with the normal
    direction tied Pokemon keep their previous relative order, with the
    reversed direction they come out in the reverse of it.  The direction
    is reversed exactly when [special] has been called an odd number of
    times in optimised mode. *)
Theorem resort_postcondition (self : Side) (w : World)
        (items : list ListItem) (c : string) :
  team (get_team self w) = TArraySortedList items ->
  In c CRITERION_LIST ->
  let st := store w in
  let order := direction (get_team self w) in
  (exists items',
     assign_team self (Some c) w
     = Ok tt (put_team self (TArraySortedList items') w)
     /\ Permutation items' (rekeyed_from st order c 0 items)
     /\ forall pre a b post,
          items' = pre ++ a :: b :: post ->
          exists i j,
            rekeyed_at st order c items i a
            /\ rekeyed_at st order c items j b
            /\ (inject_Z order * stat_of c (st (value a))
                <= inject_Z order * stat_of c (st (value b)))%Q
            /\ ((inject_Z order * stat_of c (st (value a))
                 == inject_Z order * stat_of c (st (value b)))%Q ->
                (special_called (get_team self w) = false -> (i < j)%nat)
                /\ (special_called (get_team self w) = true -> (j < i)%nat)))
  /\ (forall n,
        criterion (get_team self w) = Some c ->
        exists w' items',
          special_times self OPTIMISE n w = Ok tt w'
          /\ team (get_team self w') = TArraySortedList items'
          /\ special_called (get_team self w')
             = xorb (special_called (get_team self w)) (Nat.odd n)
          /\ direction (get_team self w')
             = (if Nat.odd n then (- order)%Z else order)).
Proof.
  intros Hteam Hin st order.
  pose proof (in_CRITERION_LIST_In c Hin) as Hc.
  split.
  - destruct (assign_team_run self w items c Hteam Hc)
      as (items' & Hrun & Hs & Hp).
    exists items'. split; [exact Hrun|]. split; [exact Hp|].
    intros pre a b post ->.
    pose proof (StronglySorted_adjacent item_lt pre a b post Hs) as Hab.
    assert (Ha : In a (pre ++ a :: b :: post))
      by (apply in_or_app; right; left; reflexivity).
    assert (Hb : In b (pre ++ a :: b :: post))
      by (apply in_or_app; right; right; left; reflexivity).
    apply (Permutation_in _ Hp) in Ha. apply (Permutation_in _ Hp) in Hb.
    apply In_rekeyed_at in Ha. apply In_rekeyed_at in Hb.
    destruct Ha as (i & Ha). destruct Hb as (j & Hb).
    exists i, j. split; [exact Ha|]. split; [exact Hb|].
    destruct Ha as (ita & _ & ->). destruct Hb as (itb & _ & ->).
    unfold item_lt, rekey in Hab. cbn [key] in Hab.
    apply key_lt_pair in Hab. cbn [rekey value].
    fold st order in Hab.
    split.
    + destruct Hab as [H|[H _]]; [apply Qlt_le_weak; exact H|].
      rewrite H. apply Qle_refl.
    + intros Heq. destruct Hab as [H|[_ H]].
      * rewrite Heq in H. exfalso. exact (Qlt_irrefl _ H).
      * unfold order, direction in H.
        split; intros Hflag; rewrite Hflag in H; lia.
  - intros n Hcrit.
    destruct (special_times_run self c Hc n w items Hteam Hcrit)
      as (w' & items' & Hrun & Hteam' & Hflag).
    exists w', items'. split; [exact Hrun|]. split; [exact Hteam'|].
    split; [exact Hflag|].
    unfold order, direction. rewrite Hflag.
    destruct (special_called (get_team self w)), (Nat.odd n); reflexivity.
Qed.

(* ------------------------------------------------------------------ *)
(** ** What a battle keeps, and what it can raise *)

Section Invariants.

Variable Inv : World -> Prop.
Variable X : exn -> Prop.

Hypothesis I_store :
  forall w st nr out,
    Inv w -> Inv (mkWorld st nr (trainer_1 w) (trainer_2 w) out).
Hypothesis I_put_team : forall s adt w, Inv w -> Inv (put_team s adt w).
Hypothesis I_pokedex :
  forall s d w,
    Inv w -> Inv (set_trainer s (mkTrainer (trainer_name (get_trainer s w))
                                       (trainer_team (get_trainer s w)) d) w).
Hypothesis X_other : forall e, e <> no_teams -> X e.

Local Abbreviation inv := (preserved Inv X).

Lemma inv_ret {A} (a : A) : inv (ret a).
Proof. intros w H. exact H. Qed.

Lemma inv_bind {A B} (m : M A) (k : A -> M B) :
  inv m -> (forall a, inv (k a)) -> inv (bind m k).
Proof.
  intros Hm Hk w H. unfold bind. specialize (Hm w H).
  destruct (m w) as [a w'|e w'|]; [apply Hk; exact Hm|exact Hm|exact I].
Qed.

Lemma inv_raise {A} (e : exn) : e <> no_teams -> inv (@raise A e).
Proof. intros He w H. split; [exact H|apply X_other; exact He]. Qed.

Lemma inv_gets {A} (f : World -> A) : inv (gets f).
Proof. intros w H. exact H. Qed.

Lemma inv_lift_exn {A} (x : exn + A) : not_no_teams x -> inv (lift_exn x).
Proof.
  destruct x as [e|a]; intros Hx; [apply inv_raise; exact Hx|apply inv_ret].
Qed.

Lemma inv_print (e : event) : inv (print e).
Proof. intros w H. apply I_store. exact H. Qed.

Lemma inv_set_pokemon (r : ref) (p : Pokemon) : inv (set_pokemon r p).
Proof. intros w H. apply I_store. exact H. Qed.

Lemma inv_bind_team (s : Side) (adt : TeamADT) : inv (bind_team s adt).
Proof. intros w H. apply I_put_team. exact H. Qed.

Lemma inv_for_range {L} (body : L -> M L) :
  (forall l, inv (body l)) -> forall n l, inv (for_range n body l).
Proof.
  intros Hb. induction n as [|n IH]; intros l; cbn [for_range].
  - apply inv_ret.
  - apply inv_bind; [apply Hb|exact IH].
Qed.

(** One step of a proof that a method keeps the invariant. *)
Ltac inv_step :=
  match goal with
  | |- preserved _ _ (bind _ _) => apply inv_bind; [|intros ?]
  | |- preserved _ _ (ret _) => apply inv_ret
  | |- preserved _ _ (gets _) => apply inv_gets
  | |- preserved _ _ (print _) => apply inv_print
  | |- preserved _ _ (set_pokemon _ _) => apply inv_set_pokemon
  | |- preserved _ _ (get_pokemon _) => apply inv_gets
  | |- preserved _ _ (bind_team _ _) => apply inv_bind_team
  | |- preserved _ _ (raise _) => apply inv_raise; discriminate
  | |- preserved _ _ (lift_exn _) => apply inv_lift_exn
  | |- preserved _ _ (if ?b then _ else _) => destruct b
  | |- preserved _ _ (match ?x with _ => _ end) => destruct x
  end.

Lemma stack_pop_other (s : ArrayStack) : not_no_teams (stack_pop s).
Proof. unfold stack_pop. destruct (stack_items s); cbn; [discriminate|exact I]. Qed.

Lemma stack_push_other (x : pyobj) (s : ArrayStack) :
  not_no_teams (stack_push x s).
Proof.
  unfold stack_push.
  destruct (length (stack_items s) <? stack_capacity s)%nat; cbn;
    [exact I|discriminate].
Qed.

Lemma stack_peek_other (s : ArrayStack) : not_no_teams (stack_peek s).
Proof. unfold stack_peek. destruct (stack_items s); cbn; [discriminate|exact I]. Qed.

Lemma queue_serve_other (q : CircularQueue) : not_no_teams (queue_serve q).
Proof. unfold queue_serve. destruct (queue_items q); cbn; [discriminate|exact I]. Qed.

Lemma queue_append_other (x : pyobj) (q : CircularQueue) :
  not_no_teams (queue_append x q).
Proof.
  unfold queue_append.
  destruct (length (queue_items q) <? queue_capacity q)%nat; cbn;
    [exact I|discriminate].
Qed.

Lemma sorted_getitem_other (items : list ListItem) (i : Z) :
  not_no_teams (sorted_getitem items i).
Proof.
  unfold sorted_getitem.
  destruct ((i <? 0) || (Z.of_nat (length items) <=? i))%Z; cbn;
    [discriminate|].
  destruct (nth_error items (Z.to_nat i)); cbn; [exact I|discriminate].
Qed.

Lemma array_getitem_other (array : list pyobj) (i : Z) :
  not_no_teams (array_getitem array i).
Proof.
  unfold array_getitem.
  destruct ((i <? 0) || (Z.of_nat (length array) <=? i))%Z; cbn;
    [discriminate|].
  destruct (nth_error array (Z.to_nat i)); cbn; [exact I|discriminate].
Qed.

Lemma _index_to_add_other (items : list ListItem) (item : ListItem) :
  forall steps low high,
    not_no_teams (_index_to_add steps items item low high).
Proof.
  induction steps as [|steps IH]; intros low high; cbn [_index_to_add].
  - exact I.
  - destruct (low <=? high)%Z; [|exact I].
    destruct (nth_error items (Z.to_nat ((low + high) / 2)));
      [|cbn; discriminate].
    destruct (key_compare (key l) (key item)) as [[| |]|];
      [exact I|apply IH|apply IH|cbn; discriminate].
Qed.

Lemma sorted_add_other (item : ListItem) (items : list ListItem) :
  not_no_teams (sorted_add item items).
Proof.
  unfold sorted_add.
  pose proof (_index_to_add_other items item (S (length items)) 0
                (Z.of_nat (length items) - 1)) as H.
  destruct (_index_to_add (S (length items)) items item 0
              (Z.of_nat (length items) - 1)); [exact H|exact I].
Qed.

Lemma criterion_value_other (c : option string) (p : Pokemon) :
  not_no_teams (criterion_value c p).
Proof.
  unfold criterion_value. destruct c as [s|]; [|cbn; discriminate].
  destruct (getattr_get s p); cbn; [exact I|discriminate].
Qed.

Lemma assign_team_loop_other (st : ref -> Pokemon) (items : list ListItem)
      (order : Z) (c : option string) :
  forall n i acc, not_no_teams (assign_team_loop st items order c n i acc).
Proof.
  induction n as [|n IH]; intros i acc; cbn [assign_team_loop].
  - exact I.
  - pose proof (sorted_getitem_other items i) as H1.
    destruct (sorted_getitem items i) as [e|it]; [exact H1|].
    destruct (in_CRITERION_LIST c); [|cbn; discriminate].
    pose proof (criterion_value_other c (st (value it))) as H2.
    destruct (criterion_value c (st (value it))) as [e|v]; [exact H2|].
    match goal with
    | |- context [sorted_add ?it ?l] =>
        pose proof (sorted_add_other it l) as H3;
        destruct (sorted_add it l) as [e|acc']; [exact H3|apply IH]
    end.
Qed.

Create HintDb inv.

#[local] Hint Resolve stack_pop_other stack_push_other stack_peek_other
     queue_serve_other queue_append_other sorted_getitem_other
     array_getitem_other assign_team_loop_other : inv.

Lemma inv_deref (o : pyobj) : inv (deref o).
Proof. unfold deref. repeat inv_step. Qed.

Lemma inv_attack (a d : ref) : inv (attack a d).
Proof. unfold attack. repeat inv_step. Qed.

Lemma inv_defend (r : ref) (damage : Z) : inv (defend r damage).
Proof. unfold defend. repeat inv_step. Qed.

Lemma inv__evolve (r : ref) : inv (_evolve r).
Proof. unfold _evolve. repeat inv_step. Qed.

Lemma inv_level_up (r : ref) : inv (level_up r).
Proof. unfold level_up. repeat inv_step. apply inv__evolve. Qed.

Lemma inv_pokemon_is_alive (r : ref) : inv (pokemon_is_alive r).
Proof. unfold pokemon_is_alive. repeat inv_step. Qed.

Lemma inv_team_pop (s : Side) : inv (team_pop s).
Proof. unfold team_pop. repeat inv_step; auto with inv. Qed.

Lemma inv_team_push (s : Side) (x : pyobj) : inv (team_push s x).
Proof. unfold team_push. repeat inv_step; auto with inv. Qed.

Lemma inv_team_serve (s : Side) : inv (team_serve s).
Proof. unfold team_serve. repeat inv_step; auto with inv. Qed.

Lemma inv_team_append (s : Side) (x : pyobj) : inv (team_append s x).
Proof. unfold team_append. repeat inv_step; auto with inv. Qed.

Lemma inv_PokeTeam_len (s : Side) : inv (PokeTeam_len s).
Proof. unfold PokeTeam_len. repeat inv_step. Qed.

Lemma inv_getitem_stack_search (s : Side) (index : Z) :
  forall n i temp, inv (getitem_stack_search s n i index temp).
Proof.
  induction n as [|n IH]; intros i temp; cbn [getitem_stack_search].
  - apply inv_ret.
  - apply inv_bind; [apply inv_team_pop|intros x].
    apply inv_bind; [apply inv_lift_exn; auto with inv|intros temp'].
    destruct (i =? index)%Z; [repeat inv_step; auto with inv|apply IH].
Qed.

Lemma inv_getitem_stack_restore (s : Side) (temp : ArrayStack) :
  inv (getitem_stack_restore s temp).
Proof.
  unfold getitem_stack_restore. apply inv_for_range. intros l.
  repeat inv_step; auto with inv. apply inv_team_push.
Qed.

Lemma inv_getitem_queue_cycle (s : Side) (index : Z) :
  forall n i found, inv (getitem_queue_cycle s n i index found).
Proof.
  induction n as [|n IH]; intros i found; cbn [getitem_queue_cycle].
  - apply inv_ret.
  - apply inv_bind; [apply inv_team_serve|intros x].
    apply inv_bind; [apply inv_team_append|intros _]. apply IH.
Qed.

Lemma inv_read_local {A} (x : option A) : inv (read_local x).
Proof. unfold read_local. repeat inv_step. Qed.

Lemma inv_PokeTeam_getitem (s : Side) (index : Z) :
  inv (PokeTeam_getitem s index).
Proof.
  unfold PokeTeam_getitem. apply inv_bind; [apply inv_gets|intros t].
  destruct (team t) as [array|st|q|items].
  - apply inv_lift_exn; auto with inv.
  - apply inv_bind; [apply inv_getitem_stack_search|intros r].
    apply inv_bind; [apply inv_getitem_stack_restore|intros _].
    apply inv_read_local.
  - apply inv_bind; [apply inv_getitem_queue_cycle|intros r].
    apply inv_read_local.
  - repeat inv_step; auto with inv.
Qed.

Lemma inv_remove_pokemon (s : Side) : inv (remove_pokemon s).
Proof.
  unfold remove_pokemon. apply inv_bind; [apply inv_gets|intros t].
  destruct (team t) as [array|st|q|items].
  - apply inv_ret.
  - apply inv_bind; [apply inv_team_pop|intros _; apply inv_ret].
  - apply inv_bind; [apply inv_team_serve|intros _; apply inv_ret].
  - repeat inv_step.
Qed.

Lemma inv_rotate_pokemon (s : Side) : inv (rotate_pokemon s).
Proof.
  unfold rotate_pokemon.
  apply inv_bind; [apply inv_team_serve|intros x; apply inv_team_append].
Qed.

Lemma inv_assign_team (s : Side) (c : option string) : inv (assign_team s c).
Proof. unfold assign_team. repeat inv_step; auto with inv. Qed.

Lemma inv_register_pokemon (s : Side) (o : pyobj) :
  inv (register_pokemon s o).
Proof.
  unfold register_pokemon. apply inv_bind; [apply inv_deref|intros r].
  apply inv_bind; [apply inv_gets|intros p].
  intros w H. apply I_pokedex. exact H.
Qed.

Lemma inv_get_pokedex_completion (s : Side) :
  inv (get_pokedex_completion s).
Proof. unfold get_pokedex_completion. repeat inv_step. Qed.

Lemma inv_killed (a d : ref) (s : Side) (together : bool) :
  inv (killed a d s together).
Proof.
  unfold killed. apply inv_bind; [apply inv_gets|intros p].
  apply inv_bind; [apply inv_print|intros _].
  apply inv_bind; [apply inv_remove_pokemon|intros _].
  destruct (negb together); [apply inv_level_up|apply inv_ret].
Qed.

Lemma inv_attack_and_defend (a d : ref) (ta td : Side) :
  inv (attack_and_defend a d ta td).
Proof.
  unfold attack_and_defend.
  apply inv_bind; [apply inv_attack|intros dmg].
  apply inv_bind; [apply inv_get_pokedex_completion|intros ca].
  apply inv_bind; [apply inv_get_pokedex_completion|intros cd].
  apply inv_bind; [repeat inv_step|intros _].
  apply inv_bind; [apply inv_defend|intros _].
  apply inv_bind; [apply inv_pokemon_is_alive|intros alive].
  destruct (negb alive); [apply inv_killed|apply inv_ret].
Qed.

Lemma inv_deduct_two (p1 p2 : ref) : inv (deduct_two p1 p2).
Proof.
  unfold deduct_two.
  apply inv_bind; [apply inv_defend|intros _].
  apply inv_bind; [apply inv_defend|intros _].
  apply inv_bind; [apply inv_pokemon_is_alive|intros a1].
  apply inv_bind; [apply inv_pokemon_is_alive|intros a2].
  destruct (negb a1 && negb a2).
  - apply inv_bind; [apply inv_killed|intros _; apply inv_killed].
  - destruct (negb a1); [apply inv_killed|].
    destruct (negb a2); [apply inv_killed|apply inv_ret].
Qed.

Lemma inv_snapshot (o : pyobj) : inv (snapshot o).
Proof. unfold snapshot. repeat inv_step. Qed.

Lemma inv_fight (p1 p2 : pyobj) : inv (fight p1 p2).
Proof.
  unfold fight.
  apply inv_bind; [apply inv_snapshot|intros s1].
  apply inv_bind; [apply inv_snapshot|intros s2].
  apply inv_bind; [apply inv_print|intros _].
  apply inv_bind; [apply inv_register_pokemon|intros _].
  apply inv_bind; [apply inv_register_pokemon|intros _].
  apply inv_bind; [apply inv_deref|intros r1].
  apply inv_bind; [apply inv_deref|intros r2].
  apply inv_bind; [apply inv_gets|intros o1].
  apply inv_bind; [apply inv_gets|intros o2].
  apply inv_bind.
  - destruct (negb (Qeq_bool (speed o1) (speed o2))).
    + apply inv_bind; [apply inv_attack_and_defend|intros _].
      apply inv_bind; [apply inv_pokemon_is_alive|intros alive].
      destruct alive; [apply inv_attack_and_defend|apply inv_ret].
    + apply inv_bind; [apply inv_attack_and_defend|intros _].
      apply inv_attack_and_defend.
  - intros _.
    apply inv_bind; [apply inv_pokemon_is_alive|intros a1].
    apply inv_bind; [apply inv_pokemon_is_alive|intros a2].
    destruct (a1 && a2); [apply inv_deduct_two|apply inv_ret].
Qed.

Lemma inv_fight_enemy_pokemon : inv fight_enemy_pokemon.
Proof.
  unfold fight_enemy_pokemon.
  apply inv_bind; [apply inv_PokeTeam_getitem|intros p1].
  apply inv_bind; [apply inv_PokeTeam_getitem|intros p2].
  apply inv_bind; [apply inv_fight|intros _; apply inv_ret].
Qed.

Lemma inv_battle_result : inv battle_result.
Proof.
  unfold battle_result.
  apply inv_bind; [apply inv_PokeTeam_len|intros l1].
  apply inv_bind; [apply inv_PokeTeam_len|intros l2].
  repeat inv_step.
Qed.

Lemma inv_battle_loop (after_fight : pyobj * pyobj -> M unit) :
  (forall ps, inv (after_fight ps)) ->
  forall rounds i, inv (battle_loop after_fight rounds i).
Proof.
  intros Ha. induction rounds as [|rounds IH]; intros i; cbn [battle_loop].
  - intros w _. exact I.
  - apply inv_bind; [apply inv_PokeTeam_len|intros l1].
    apply inv_bind; [apply inv_PokeTeam_len|intros l2].
    destruct ((0 <? l1)%nat && (0 <? l2)%nat); [|apply inv_ret].
    apply inv_bind; [apply inv_print|intros _].
    apply inv_bind; [apply inv_fight_enemy_pokemon|intros ps].
    apply inv_bind; [apply Ha|intros _]. apply IH.
Qed.

Lemma inv_print_assembled (mode : BattleMode) : inv (print_assembled mode).
Proof. unfold print_assembled. repeat inv_step. Qed.

(** The battle proper: what [commence_battle] runs once both teams have
    been found non-empty. *)
Lemma inv_battle (b : Battle) (rounds : nat) :
  inv (match battle_mode b with
       | SET => set_battle rounds
       | ROTATE => rotate_battle rounds
       | OPTIMISE => optimise_battle b rounds
       end).
Proof.
  destruct (battle_mode b).
  - unfold set_battle.
    apply inv_bind; [apply inv_print_assembled|intros _].
    apply inv_bind; [|intros _; apply inv_battle_result].
    apply inv_battle_loop. intros ps. apply inv_ret.
  - unfold rotate_battle.
    apply inv_bind; [apply inv_print_assembled|intros _].
    apply inv_bind; [|intros _; apply inv_battle_result].
    apply inv_battle_loop. intros ps.
    apply inv_bind; [apply inv_deref|intros r1].
    apply inv_bind; [apply inv_pokemon_is_alive|intros a1].
    apply inv_bind;
      [destruct a1; [apply inv_rotate_pokemon|apply inv_ret]|intros _].
    apply inv_bind; [apply inv_deref|intros r2].
    apply inv_bind; [apply inv_pokemon_is_alive|intros a2].
    destruct a2; [apply inv_rotate_pokemon|apply inv_ret].
  - unfold optimise_battle.
    apply inv_bind; [apply inv_print_assembled|intros _].
    apply inv_bind; [|intros _; apply inv_battle_result].
    apply inv_battle_loop. intros ps.
    apply inv_bind; [apply inv_assign_team|intros _].
    apply inv_assign_team.
Qed.

End Invariants.

(* ------------------------------------------------------------------ *)
(** ** Starting a battle *)

Lemma PokeTeam_len_run (s : Side) (w : World) :
  PokeTeam_len s w = Ok (team_len (get_team s w)) w.
Proof.
  unfold PokeTeam_len, team_len, bind, gets.
  destruct (team (get_team s w)); cbn [team_order]; try reflexivity.
  rewrite length_map. reflexivity.
Qed.

Lemma battle_never_no_teams (b : Battle) (rounds : nat) :
  preserved (fun _ => True) (fun e => e <> no_teams)
    (win_team <- match battle_mode b with
                 | SET => set_battle rounds
                 | ROTATE => rotate_battle rounds
                 | OPTIMISE => optimise_battle b rounds
                 end ;;
     match win_team with
     | Some Side1 =>
         t <- gets (get_team Side1) ;;
         n <- PokeTeam_len Side1 ;;
         print (PrintWinner Side1 (Z.of_nat n) t) ;;
         ret (Some Side1)
     | Some Side2 =>
         t <- gets (get_team Side2) ;;
         n <- PokeTeam_len Side2 ;;
         print (PrintWinner Side2 (Z.of_nat n) t) ;;
         ret (Some Side2)
     | None => print PrintDraw ;; ret None
     end).
Proof.
  assert (Hx : forall e, e <> no_teams -> e <> no_teams) by auto.
  apply inv_bind.
  - apply inv_battle; auto.
  - intros [[|]|].
    + apply inv_bind; [apply inv_gets|intros t].
      apply inv_bind; [apply inv_PokeTeam_len; auto|intros n].
      apply inv_bind; [apply inv_print; auto|intros _; apply inv_ret].
    + apply inv_bind; [apply inv_gets|intros t].
      apply inv_bind; [apply inv_PokeTeam_len; auto|intros n].
      apply inv_bind; [apply inv_print; auto|intros _; apply inv_ret].
    + apply inv_bind; [apply inv_print; auto|intros _; apply inv_ret].
Qed.

(** C8.  Starting a battle raises the empty-roster error if and only if
    either trainer's team is empty at entry; the error is raised in the
    world of entry, before any round is played and before anything is
    printed.  With both teams non-empty that error is never raised. *)
Theorem commence_battle_empty_roster (b : Battle) (rounds : nat) (w : World) :
  ((exists w', commence_battle b rounds w = Raise no_teams w')
   <-> (team_len (get_team Side1 w) = 0%nat
        \/ team_len (get_team Side2 w) = 0%nat))
  /\ (forall w', commence_battle b rounds w = Raise no_teams w' -> w' = w).
Proof.
  destruct ((team_len (get_team Side1 w) <=? 0)%nat
            || (team_len (get_team Side2 w) <=? 0)%nat) eqn:E.
  - assert (H : commence_battle b rounds w = Raise no_teams w).
    { unfold commence_battle.
      unfold bind at 1. rewrite PokeTeam_len_run.
      unfold bind at 1. rewrite PokeTeam_len_run.
      unfold bind at 1. rewrite E. reflexivity. }
    rewrite H. split.
    + split; [intros _|intros _; exists w; reflexivity].
      apply orb_true_iff in E. rewrite !Nat.leb_le in E. lia.
    + intros w' Hw'. injection Hw' as <-. reflexivity.
  - assert (H : match commence_battle b rounds w with
                | Raise e _ => e <> no_teams
                | _ => True
                end).
    { unfold commence_battle.
      unfold bind at 1. rewrite PokeTeam_len_run.
      unfold bind at 1. rewrite PokeTeam_len_run.
      unfold bind at 1. rewrite E. cbv beta iota delta [ret].
      pose proof (battle_never_no_teams b rounds w Logic.I) as H.
      cbv beta in H.
      match goal with
      | H : match ?m with _ => _ end |- match ?m' with _ => _ end =>
          change m' with m; destruct m; [exact Logic.I|exact (proj2 H)|exact Logic.I]
      end. }
    apply orb_false_iff in E. rewrite !Nat.leb_gt in E.
    split.
    + split; [|lia]. intros [w' Hw']. rewrite Hw' in H.
      exfalso. apply H. reflexivity.
    + intros w' Hw'. rewrite Hw' in H.
      exfalso. apply H. reflexivity.
Qed.

(* ------------------------------------------------------------------ *)
(** ** The original team during combat *)

Section Snapshot.

Variable self : Side.
Variable original : list pyobj.

Local Abbreviation kept := (original_team_is self original).

Lemma kept_store (w : World) st nr out :
  kept w -> kept (mkWorld st nr (trainer_1 w) (trainer_2 w) out).
Proof. unfold original_team_is, get_team. destruct self; exact (fun H => H). Qed.

Lemma kept_put_team (s : Side) (adt : TeamADT) (w : World) :
  kept w -> kept (put_team s adt w).
Proof. unfold original_team_is. destruct self, s; exact (fun H => H). Qed.

Lemma kept_pokedex (s : Side) (d : N) (w : World) :
  kept w ->
  kept (set_trainer s (mkTrainer (trainer_name (get_trainer s w))
                                 (trainer_team (get_trainer s w)) d) w).
Proof. unfold original_team_is. destruct self, s; exact (fun H => H). Qed.

Lemma kept_commence_battle (b : Battle) (rounds : nat) :
  preserved kept (fun _ => True) (commence_battle b rounds).
Proof.
  assert (Hx : forall e, e <> no_teams -> True) by auto.
  pose proof kept_store as H1. pose proof kept_put_team as H2.
  pose proof kept_pokedex as H3.
  unfold commence_battle.
  apply inv_bind; [apply inv_PokeTeam_len; auto|intros l1].
  apply inv_bind; [apply inv_PokeTeam_len; auto|intros l2].
  apply inv_bind.
  { destruct ((l1 <=? 0)%nat || (l2 <=? 0)%nat);
      [intros w Hw; split; [exact Hw|exact Logic.I]|apply inv_ret]. }
  intros _. apply inv_bind; [apply inv_battle; auto|].
  intros [[|]|].
  - apply inv_bind; [apply inv_gets|intros t].
    apply inv_bind; [apply inv_PokeTeam_len; auto|intros n].
    apply inv_bind; [apply inv_print; auto|intros _; apply inv_ret].
  - apply inv_bind; [apply inv_gets|intros t].
    apply inv_bind; [apply inv_PokeTeam_len; auto|intros n].
    apply inv_bind; [apply inv_print; auto|intros _; apply inv_ret].
  - apply inv_bind; [apply inv_print; auto|intros _; apply inv_ret].
Qed.

End Snapshot.

Lemma preserved_final {A} (Inv : World -> Prop) (X : exn -> Prop)
      (m : M A) (w w' : World) :
  preserved Inv X m -> Inv w -> final_world (m w) = Some w' -> Inv w'.
Proof.
  intros Hm Hw Hf. specialize (Hm w Hw).
  destruct (m w) as [a w1|e w1|]; cbn in Hf; [| |discriminate];
    injection Hf as <-; [exact Hm|exact (proj1 Hm)].
Qed.

Lemma defend_run (r : ref) (damage : Z) (w : World) :
  defend r damage w
  = Ok tt (mkWorld (update_store r (defend_pokemon damage (store w r))
                                 (store w))
                   (next_ref w) (trainer_1 w) (trainer_2 w) (stdout w)).
Proof. reflexivity. Qed.

Lemma update_store_same (r : ref) (p : Pokemon) (st : ref -> Pokemon) :
  update_store r p st r = p.
Proof. unfold update_store. rewrite Nat.eqb_refl. reflexivity. Qed.

Lemma update_store_other (r r' : ref) (p : Pokemon) (st : ref -> Pokemon) :
  r' <> r -> update_store r p st r' = st r'.
Proof.
  intros H. unfold update_store.
  destruct (Nat.eqb_spec r' r); [contradiction|reflexivity].
Qed.

Lemma defend_pokemon_health (damage : Z) (p : Pokemon) :
  (0 < damage)%Z -> (health (defend_pokemon damage p) < health p)%Q.
Proof.
  intros Hd. unfold defend_pokemon. cbn [with_health health].
  assert (H0 : (0 < inject_Z damage)%Q)
    by (change 0%Q with (inject_Z 0); rewrite <- Zlt_Qlt; exact Hd).
  destruct (Qlt_bool (inject_Z damage) (defence p));
    unfold Qdiv; change (/ 2)%Q with (1 # 2)%Q; lra.
Qed.

(** C4, as the code has it.  Combat never rebinds or writes the
    [original_team] array: after a battle, however it ends, the array
    holds the same references in the same order.  The references are to
    the very objects that fight, so the stats seen through the array are
    the live ones: damage dealt to a member of the original team lowers
    the health read through the array. *)
Theorem original_team_array_kept (self : Side) (b : Battle) (rounds : nat)
        (w : World) :
  (forall w',
     final_world (commence_battle b rounds w) = Some w' ->
     original_team (get_team self w') = original_team (get_team self w))
  /\ (forall r damage,
        In (Some r) (original_team (get_team self w)) ->
        (0 < damage)%Z ->
        exists w',
          defend r damage w = Ok tt w'
          /\ In (Some r) (original_team (get_team self w'))
          /\ (health (store w' r) < health (store w r))%Q).
Proof.
  split.
  - intros w' Hf.
    apply (preserved_final
             (fun w0 => original_team (get_team self w0)
                        = original_team (get_team self w))
             (fun _ => True) (commence_battle b rounds) w w');
      [apply kept_commence_battle|reflexivity|exact Hf].
  - intros r damage Hin Hd. eexists. split; [apply defend_run|].
    split.
    + destruct self; exact Hin.
    + cbn [store]. rewrite update_store_same.
      apply defend_pokemon_health. exact Hd.
Qed.

(* ------------------------------------------------------------------ *)
(** ** Fainting *)

Lemma bind_Ok {A B} (m : M A) (k : A -> M B) (w w' : World) (b : B) :
  bind m k w = Ok b w' ->
  exists a w1, m w = Ok a w1 /\ k a w1 = Ok b w'.
Proof.
  unfold bind. destruct (m w) as [a w1|e w1|]; [|discriminate..].
  intros H. exists a, w1. split; [reflexivity|exact H].
Qed.

Lemma store_put_team (s : Side) (adt : TeamADT) (w : World) :
  store (put_team s adt w) = store w.
Proof. destruct s; reflexivity. Qed.

Lemma get_team_put_team_other (s s' : Side) (adt : TeamADT) (w : World) :
  s' <> s -> get_team s' (put_team s adt w) = get_team s' w.
Proof. destruct s, s'; intros H; try reflexivity; contradiction. Qed.

(** [remove_pokemon] rebinds the team to what is left behind its front. *)
Lemma remove_pokemon_spec (s : Side) (w w' : World) :
  remove_pokemon s w = Ok tt w' ->
  exists adt',
    w' = put_team s adt' w
    /\ (is_assembled (team (get_team s w)) ->
        team_order adt' = tl (team_order (team (get_team s w)))).
Proof.
  unfold remove_pokemon, bind at 1, gets.
  destruct (team (get_team s w)) as [array|[c l]|[c l]|items] eqn:Hadt.
  - intros H. injection H as <-. exists (TArrayR array).
    split; [rewrite <- Hadt, put_team_same; reflexivity|intros []].
  - destruct l as [|x l].
    + unfold team_pop, bind, gets. cbv beta iota. rewrite Hadt. cbn.
      discriminate.
    + rewrite <- (put_team_same s w) at 1. rewrite Hadt.
      unfold bind. rewrite team_pop_run. intros H. injection H as <-.
      eexists. split; [reflexivity|intros _; reflexivity].
  - destruct l as [|x l].
    + unfold team_serve, bind, gets. cbv beta iota. rewrite Hadt. cbn.
      discriminate.
    + rewrite <- (put_team_same s w) at 1. rewrite Hadt.
      unfold bind. rewrite team_serve_run. intros H. injection H as <-.
      eexists. split; [reflexivity|intros _; reflexivity].
  - destruct items as [|x items]; [discriminate|].
    intros H. injection H as <-.
    eexists. split; [reflexivity|intros _; reflexivity].
Qed.

(** [level_up] adds one to the level, whether or not it evolves, and
    touches neither the other objects nor the trainers. *)
Lemma level_up_spec (r : ref) (w w' : World) :
  level_up r w = Ok tt w' ->
  level (store w' r) = (level (store w r) + 1)%Z
  /\ trainer_1 w' = trainer_1 w
  /\ trainer_2 w' = trainer_2 w
  /\ (forall r', r' <> r -> store w' r' = store w r').
Proof.
  intros H. unfold level_up in H.
  apply bind_Ok in H. destruct H as (p & w0 & H0 & H).
  injection H0 as <- <-.
  apply bind_Ok in H. destruct H as ([] & w1 & H1 & H).
  injection H1 as <-.
  assert (Hdone : forall w2 : World,
             level (store w2 r) = (level (store w r) + 1)%Z ->
             trainer_1 w2 = trainer_1 w -> trainer_2 w2 = trainer_2 w ->
             (forall r', r' <> r -> store w2 r' = store w r') ->
             Ok tt w2 = Ok tt w' ->
             level (store w' r) = (level (store w r) + 1)%Z
             /\ trainer_1 w' = trainer_1 w
             /\ trainer_2 w' = trainer_2 w
             /\ (forall r', r' <> r -> store w' r' = store w r')).
  { intros w2 A1 A2 A3 A4 E. injection E as <-. auto. }
  assert (Hbase : forall r', r' <> r ->
             update_store r (with_level (level (store w r) + 1) (store w r))
                          (store w) r' = store w r')
    by (intros r' Hr; apply update_store_other; exact Hr).
  destruct (0 <? length (evolution_line (store w r)))%nat.
  - destruct (list_index (name (store w r)) (evolution_line (store w r)))
      as [i|]; [|discriminate].
    destruct (negb (i =? length (evolution_line (store w r)) - 1)%nat).
    + unfold _evolve in H.
      apply bind_Ok in H. destruct H as (p & w0 & H0 & H).
      injection H0 as <- <-. cbn [store] in H.
      rewrite update_store_same in H. cbn [with_level name evolution_line] in H.
      destruct (list_index (name (store w r)) (evolution_line (store w r)))
        as [j|]; [|discriminate].
      destruct (nth_error (evolution_line (store w r)) (j + 1));
        [|discriminate].
      apply bind_Ok in H. destruct H as ([] & w1 & H1 & H).
      injection H1 as <-.
      revert H. apply Hdone; cbn [store trainer_1 trainer_2]; try reflexivity.
      * rewrite update_store_same. reflexivity.
      * intros r' Hr. rewrite update_store_other by exact Hr.
        apply Hbase. exact Hr.
    + revert H. apply Hdone; cbn [store trainer_1 trainer_2];
        try reflexivity; [rewrite update_store_same; reflexivity|exact Hbase].
  - revert H. apply Hdone; cbn [store trainer_1 trainer_2];
      try reflexivity; [rewrite update_store_same; reflexivity|exact Hbase].
Qed.

Lemma get_team_trainers (s : Side) (w w' : World) :
  trainer_1 w' = trainer_1 w -> trainer_2 w' = trainer_2 w ->
  get_team s w' = get_team s w.
Proof.
  unfold get_team, get_trainer. destruct s; intros H1 H2; congruence.
Qed.

(** [killed] without [together_dead]: the front of the dead trainer's
    team goes and the winner gains a level. *)
Lemma killed_spec (winner dead : ref) (s : Side) (w w' : World) :
  killed winner dead s false w = Ok tt w' ->
  level (store w' winner) = (level (store w winner) + 1)%Z
  /\ (is_assembled (team (get_team s w)) ->
      team_order (team (get_team s w'))
      = tl (team_order (team (get_team s w)))).
Proof.
  unfold killed. intros H.
  apply bind_Ok in H. destruct H as (p & w0 & H0 & H).
  injection H0 as <- <-.
  apply bind_Ok in H. destruct H as ([] & w1 & H1 & H).
  injection H1 as <-.
  apply bind_Ok in H. destruct H as ([] & w2 & H2 & H).
  cbn [negb] in H.
  apply remove_pokemon_spec in H2. destruct H2 as (adt' & -> & Hadt).
  apply level_up_spec in H. destruct H as (Hl & Ht1 & Ht2 & _).
  split.
  - rewrite Hl, store_put_team. reflexivity.
  - intros Ha. rewrite (get_team_trainers s _ _ Ht1 Ht2), team_put_team.
    apply Hadt. destruct s; exact Ha.
Qed.

(** C1, as the code has it.  When the defender faints from a direct
    attack, [attack_and_defend] calls [killed] without [together_dead]:
    the fainted defender, front of its assembled team, is removed from
    that team, and the attacker gains exactly one level. *)
Theorem direct_faint_levels_attacker
        (attacker defender : ref) (trainer_attacker trainer_defender : Side)
        (w w' : World) (rest : list pyobj) :
  attack_and_defend attacker defender trainer_attacker trainer_defender w
  = Ok tt w' ->
  is_alive (store w' defender) = false ->
  is_assembled (team (get_team trainer_defender w)) ->
  team_order (team (get_team trainer_defender w)) = Some defender :: rest ->
  team_order (team (get_team trainer_defender w')) = rest
  /\ level (store w' attacker) = (level (store w attacker) + 1)%Z.
Proof.
  intros Hrun Hdead Hasm Hfront. unfold attack_and_defend in Hrun.
  apply bind_Ok in Hrun. destruct Hrun as (dmg & w0 & H0 & Hrun).
  injection H0 as _ <-.
  apply bind_Ok in Hrun. destruct Hrun as (ca & w0 & H0 & Hrun).
  injection H0 as _ <-.
  apply bind_Ok in Hrun. destruct Hrun as (cd & w0 & H0 & Hrun).
  injection H0 as _ <-.
  apply bind_Ok in Hrun. destruct Hrun as ([] & w0 & H0 & Hrun).
  destruct (Qeq_bool cd 0); [discriminate|]. injection H0 as <-.
  apply bind_Ok in Hrun. destruct Hrun as ([] & w1 & H1 & Hrun).
  rewrite defend_run in H1. injection H1 as <-.
  apply bind_Ok in Hrun. destruct Hrun as (alive & w2 & H2 & Hrun).
  injection H2 as <- <-.
  match type of Hrun with
  | (if negb ?b then _ else _) ?w1 = _ =>
      set (wd := w1) in *; destruct b eqn:Halive
  end; cbn [negb] in Hrun.
  - injection Hrun as <-. unfold wd in Hdead. cbn [store] in Hdead.
    congruence.
  - apply killed_spec in Hrun. destruct Hrun as (Hl & Ht).
    split.
    + assert (Hg : get_team trainer_defender wd = get_team trainer_defender w)
        by (destruct trainer_defender; reflexivity).
      rewrite Hg, Hfront in Ht. apply Ht. exact Hasm.
    + rewrite Hl. unfold wd. cbn [store].
      destruct (Nat.eq_dec attacker defender) as [->|Hne].
      * rewrite update_store_same. reflexivity.
      * rewrite update_store_other by exact Hne. reflexivity.
Qed.

(* ------------------------------------------------------------------ *)
(** ** The order of attacks in a clash *)

Lemma store_registered (s : Side) (r : ref) (w : World) :
  store (registered s r w) = store w.
Proof. destruct s; reflexivity. Qed.

Lemma store_clash_start (r1 r2 : ref) (w : World) :
  store (clash_start r1 r2 w) = store w.
Proof. reflexivity. Qed.

(** [fight] up to the comparison of the speeds. *)
Lemma fight_start (r1 r2 : ref) (w : World) :
  fight (Some r1) (Some r2) w
  = ((if negb (Qeq_bool (speed (store w r1)) (speed (store w r2))) then
        let first_attacker :=
          if Qlt_bool (speed (store w r2)) (speed (store w r1))
          then r1 else r2 in
        let second_attacker :=
          if Qlt_bool (speed (store w r2)) (speed (store w r1))
          then r2 else r1 in
        let first_trainer :=
          if Nat.eqb first_attacker r1 then Side1 else Side2 in
        let second_trainer :=
          if Nat.eqb first_attacker r1 then Side2 else Side1 in
        attack_and_defend first_attacker second_attacker
                          first_trainer second_trainer ;;
        alive <- pokemon_is_alive second_attacker ;;
        if alive then
          attack_and_defend second_attacker first_attacker
                            second_trainer first_trainer
        else ret tt
      else
        attack_and_defend r1 r2 Side1 Side2 ;;
        attack_and_defend r2 r1 Side2 Side1) ;;
     after_clash r1 r2) (clash_start r1 r2 w).
Proof. reflexivity. Qed.

Lemma Qeq_bool_false (x y : Q) : ~ (x == y)%Q -> Qeq_bool x y = false.
Proof.
  intros H. destruct (Qeq_bool x y) eqn:E; [|reflexivity].
  apply Qeq_bool_iff in E. contradiction.
Qed.

(** C9.  In a clash between two Pokemon of different speeds, the faster
    attacks first through [attack_and_defend], on behalf of its own
    trainer and from the state in which the clash starts; the slower
    attacks back if and only if it is alive after that first attack. *)
Theorem faster_attacks_first (r1 r2 : ref) (w : World) :
  ~ (speed (store w r1) == speed (store w r2))%Q ->
  let p1_faster := Qlt_bool (speed (store w r2)) (speed (store w r1)) in
  let faster := if p1_faster then r1 else r2 in
  let slower := if p1_faster then r2 else r1 in
  let faster_trainer := if p1_faster then Side1 else Side2 in
  let slower_trainer := other_side faster_trainer in
  fight (Some r1) (Some r2) w
  = match attack_and_defend faster slower faster_trainer slower_trainer
                            (clash_start r1 r2 w) with
    | Ok _ w1 =>
        if is_alive (store w1 slower)
        then (attack_and_defend slower faster slower_trainer faster_trainer ;;
              after_clash r1 r2) w1
        else after_clash r1 r2 w1
    | Raise e w1 => Raise e w1
    | Timeout => Timeout
    end.
Proof.
  intros Hne p1_faster faster slower faster_trainer slower_trainer.
  rewrite fight_start, (Qeq_bool_false _ _ Hne). cbn [negb].
  fold p1_faster. cbv zeta. fold faster slower.
  assert (Hside : (if Nat.eqb faster r1 then Side1 else Side2)
                  = faster_trainer).
  { unfold faster, faster_trainer. destruct p1_faster eqn:E.
    - rewrite Nat.eqb_refl. reflexivity.
    - destruct (Nat.eqb_spec r2 r1) as [->|]; [|reflexivity].
      exfalso. apply Hne. reflexivity. }
  assert (Hside' : (if Nat.eqb faster r1 then Side2 else Side1)
                   = slower_trainer).
  { unfold slower_trainer. rewrite <- Hside.
    destruct (Nat.eqb faster r1); reflexivity. }
  rewrite Hside, Hside'.
  unfold bind at 1. unfold bind at 1.
  destruct (attack_and_defend faster slower faster_trainer slower_trainer
              (clash_start r1 r2 w)) as [[] w1|e w1|]; [|reflexivity..].
  unfold bind at 1. unfold pokemon_is_alive, get_pokemon, gets.
  unfold bind at 1. cbv beta iota. unfold ret at 1.
  destruct (is_alive (store w1 slower)); reflexivity.
Qed.

(* ------------------------------------------------------------------ *)
(** ** The outcome of a battle *)

Lemma battle_loop_unfold (after_fight : pyobj * pyobj -> M unit)
      (rounds : nat) (i : Z) (w : World) :
  battle_loop after_fight (S rounds) i w
  = if (0 <? team_len (get_team Side1 w))%nat
       && (0 <? team_len (get_team Side2 w))%nat
    then (print (PrintRound (i + 1)) ;;
          ps <- fight_enemy_pokemon ;;
          after_fight ps ;;
          battle_loop after_fight rounds (i + 1)%Z) w
    else Ok tt w.
Proof.
  cbn [battle_loop]. unfold bind at 1. rewrite PokeTeam_len_run.
  unfold bind at 1. rewrite PokeTeam_len_run.
  destruct ((0 <? team_len (get_team Side1 w))%nat
            && (0 <? team_len (get_team Side2 w))%nat); reflexivity.
Qed.

(** The loop is left only with an empty team. *)
Lemma battle_loop_exit (after_fight : pyobj * pyobj -> M unit) :
  forall (rounds : nat) (i : Z) (w w' : World),
    battle_loop after_fight rounds i w = Ok tt w' ->
    team_len (get_team Side1 w') = 0%nat
    \/ team_len (get_team Side2 w') = 0%nat.
Proof.
  induction rounds as [|rounds IH]; intros i w w' H; [discriminate|].
  rewrite battle_loop_unfold in H.
  destruct ((0 <? team_len (get_team Side1 w))%nat
            && (0 <? team_len (get_team Side2 w))%nat) eqn:E.
  - apply bind_Ok in H. destruct H as (? & w1 & _ & H).
    apply bind_Ok in H. destruct H as (ps & w2 & _ & H).
    apply bind_Ok in H. destruct H as (? & w3 & _ & H).
    exact (IH _ _ _ H).
  - injection H as <-. apply andb_false_iff in E.
    rewrite !Nat.ltb_ge in E. lia.
Qed.

Lemma battle_result_run (w : World) :
  battle_result w
  = Ok (if (team_len (get_team Side1 w) =? 0)%nat
           && (team_len (get_team Side2 w) =? 0)%nat then None
        else if (team_len (get_team Side1 w) =? 0)%nat then Some Side2
        else Some Side1) w.
Proof.
  unfold battle_result. unfold bind at 1. rewrite PokeTeam_len_run.
  unfold bind at 1. rewrite PokeTeam_len_run.
  destruct ((team_len (get_team Side1 w) =? 0)%nat
            && (team_len (get_team Side2 w) =? 0)%nat); [reflexivity|].
  destruct (team_len (get_team Side1 w) =? 0)%nat; reflexivity.
Qed.

(** What the three battles return, read off the teams they end with. *)
Lemma battle_result_after_loop (after_fight : pyobj * pyobj -> M unit)
      (mode : BattleMode) (rounds : nat) (w w' : World)
      (win_team : option Side) :
  (print_assembled mode ;;
   battle_loop after_fight rounds 0 ;;
   battle_result) w = Ok win_team w' ->
  match win_team with
  | Some Side1 => team_len (get_team Side1 w') <> 0%nat
                  /\ team_len (get_team Side2 w') = 0%nat
  | Some Side2 => team_len (get_team Side1 w') = 0%nat
                  /\ team_len (get_team Side2 w') <> 0%nat
  | None => team_len (get_team Side1 w') = 0%nat
            /\ team_len (get_team Side2 w') = 0%nat
  end.
Proof.
  intros H.
  apply bind_Ok in H. destruct H as (? & w1 & _ & H).
  apply bind_Ok in H. destruct H as ([] & w2 & Hloop & H).
  apply battle_loop_exit in Hloop.
  rewrite battle_result_run in H. injection H as <- <-.
  destruct (Nat.eqb_spec (team_len (get_team Side1 w2)) 0) as [E1|E1],
           (Nat.eqb_spec (team_len (get_team Side2 w2)) 0) as [E2|E2];
    cbn [andb]; split; try assumption; lia.
Qed.

(** What [commence_battle] returns, read off the teams it ends with. *)
Lemma commence_battle_result (b : Battle) (rounds : nat) (w w' : World)
        (winner : option Side) :
  commence_battle b rounds w = Ok winner w' ->
  (team_len (get_team Side1 w') = 0%nat
   \/ team_len (get_team Side2 w') = 0%nat)
  /\ match winner with
     | Some Side1 => team_len (get_team Side1 w') <> 0%nat
                     /\ team_len (get_team Side2 w') = 0%nat
     | Some Side2 => team_len (get_team Side1 w') = 0%nat
                     /\ team_len (get_team Side2 w') <> 0%nat
     | None => team_len (get_team Side1 w') = 0%nat
               /\ team_len (get_team Side2 w') = 0%nat
     end
  /\ (forall after_fight n i w0,
        team_len (get_team Side1 w0) = 0%nat
        \/ team_len (get_team Side2 w0) = 0%nat ->
        battle_loop after_fight (S n) i w0 = Ok tt w0).
Proof.
  intros H.
  assert (Hres :
    match winner with
    | Some Side1 => team_len (get_team Side1 w') <> 0%nat
                    /\ team_len (get_team Side2 w') = 0%nat
    | Some Side2 => team_len (get_team Side1 w') = 0%nat
                    /\ team_len (get_team Side2 w') <> 0%nat
    | None => team_len (get_team Side1 w') = 0%nat
              /\ team_len (get_team Side2 w') = 0%nat
    end).
  { unfold commence_battle in H.
    apply bind_Ok in H. destruct H as (l1 & w0 & H0 & H).
    rewrite PokeTeam_len_run in H0. injection H0 as <- <-.
    apply bind_Ok in H. destruct H as (l2 & w0 & H0 & H).
    rewrite PokeTeam_len_run in H0. injection H0 as <- <-.
    apply bind_Ok in H. destruct H as ([] & w0 & H0 & H).
    destruct ((team_len (get_team Side1 w) <=? 0)%nat
              || (team_len (get_team Side2 w) <=? 0)%nat);
      [discriminate|]. injection H0 as <-.
    apply bind_Ok in H. destruct H as (win_team & w1 & Hb & H).
    assert (Hw : match win_team with
                 | Some Side1 => team_len (get_team Side1 w1) <> 0%nat
                                 /\ team_len (get_team Side2 w1) = 0%nat
                 | Some Side2 => team_len (get_team Side1 w1) = 0%nat
                                 /\ team_len (get_team Side2 w1) <> 0%nat
                 | None => team_len (get_team Side1 w1) = 0%nat
                           /\ team_len (get_team Side2 w1) = 0%nat
                 end).
    { destruct (battle_mode b);
        eapply battle_result_after_loop; exact Hb. }
    destruct win_team as [[|]|].
    - apply bind_Ok in H. destruct H as (t & w2 & H2 & H).
      injection H2 as <- <-.
      apply bind_Ok in H. destruct H as (n & w2 & H2 & H).
      rewrite PokeTeam_len_run in H2. injection H2 as <- <-.
      apply bind_Ok in H. destruct H as ([] & w2 & H2 & H).
      injection H2 as <-. injection H as <- <-. exact Hw.
    - apply bind_Ok in H. destruct H as (t & w2 & H2 & H).
      injection H2 as <- <-.
      apply bind_Ok in H. destruct H as (n & w2 & H2 & H).
      rewrite PokeTeam_len_run in H2. injection H2 as <- <-.
      apply bind_Ok in H. destruct H as ([] & w2 & H2 & H).
      injection H2 as <-. injection H as <- <-. exact Hw.
    - apply bind_Ok in H. destruct H as ([] & w2 & H2 & H).
      injection H2 as <-. injection H as <- <-. exact Hw. }
  split; [|split; [exact Hres|]].
  - destruct winner as [[|]|]; destruct Hres; auto.
  - intros after_fight n i w0 Hempty. rewrite battle_loop_unfold.
    replace ((0 <? team_len (get_team Side1 w0))%nat
             && (0 <? team_len (get_team Side2 w0))%nat) with false;
      [reflexivity|].
    symmetry. apply andb_false_iff. rewrite !Nat.ltb_ge. lia.
Qed.

(* ------------------------------------------------------------------ *)
(** ** Regeneration *)

Lemma with_health_health (o : Pokemon) : with_health (health o) o = o.
Proof. destruct o; reflexivity. Qed.

Lemma last_match_with_health (catalogue : list Pokemon) (h : Q)
      (o : Pokemon) :
  last_match catalogue (with_health h o) = last_match catalogue o.
Proof.
  induction catalogue as [|p rest IH]; [reflexivity|].
  cbn [last_match]. rewrite IH. reflexivity.
Qed.

Lemma regenerated_idempotent (catalogue : list Pokemon) (o : Pokemon) :
  regenerated catalogue (regenerated catalogue o) = regenerated catalogue o.
Proof.
  unfold regenerated at 2 3.
  destruct (last_match catalogue o) as [q|] eqn:E.
  - unfold regenerated. rewrite last_match_with_health, E. reflexivity.
  - unfold regenerated. rewrite E. reflexivity.
Qed.

Lemma last_match_In (catalogue : list Pokemon) (o q : Pokemon) :
  last_match catalogue o = Some q ->
  In q catalogue /\ evolution_line q = evolution_line o.
Proof.
  induction catalogue as [|p rest IH]; [discriminate|].
  cbn [last_match]. destruct (last_match rest o) as [q'|].
  - intros H. injection H as ->. destruct (IH eq_refl) as [H1 H2].
    split; [right; exact H1|exact H2].
  - destruct (list_eq_dec string_dec (evolution_line o) (evolution_line p))
      as [E|E]; [|discriminate].
    intros H. injection H as <-. split; [left; reflexivity|congruence].
Qed.

Lemma last_match_None (catalogue : list Pokemon) (o p : Pokemon) :
  last_match catalogue o = None ->
  In p catalogue -> evolution_line p <> evolution_line o.
Proof.
  induction catalogue as [|p' rest IH]; [intros _ []|].
  cbn [last_match]. destruct (last_match rest o) as [q'|]; [discriminate|].
  destruct (list_eq_dec string_dec (evolution_line o) (evolution_line p'))
    as [E|E]; [discriminate|].
  intros _ [<-|Hin]; [congruence|apply IH; [reflexivity|exact Hin]].
Qed.

(** The inner loop on one Pokemon. *)
Lemma regenerate_match_spec (r : ref) :
  forall (catalogue : list Pokemon) (w : World),
  exists w',
    regenerate_match (Some r) catalogue w = Ok tt w'
    /\ store w' r = regenerated catalogue (store w r)
    /\ (forall r', r' <> r -> store w' r' = store w r')
    /\ trainer_1 w' = trainer_1 w /\ trainer_2 w' = trainer_2 w.
Proof.
  induction catalogue as [|p rest IH]; intros w.
  - exists w. repeat split; reflexivity.
  - cbn [regenerate_match deref]. unfold bind at 1. cbn [ret].
    unfold bind at 1. unfold get_pokemon at 1, gets at 1.
    unfold bind at 1.
    destruct (list_eq_dec string_dec (evolution_line (store w r))
                          (evolution_line p)) as [E|E].
    + unfold set_health, bind at 1, get_pokemon, gets, set_pokemon, modify.
      match goal with
      | |- context [regenerate_match _ rest ?w1] =>
          destruct (IH w1) as (w' & Hrun & Hr & Hother & Ht1 & Ht2)
      end.
      exists w'. split; [exact Hrun|]. cbn [store trainer_1 trainer_2] in *.
      rewrite update_store_same in Hr.
      split; [|split; [|split; assumption]].
      * rewrite Hr. unfold regenerated. cbn [last_match].
        rewrite last_match_with_health.
        destruct (last_match rest (store w r)) as [q|]; [reflexivity|].
        destruct (list_eq_dec string_dec (evolution_line (store w r))
                              (evolution_line p)); [reflexivity|contradiction].
      * intros r' Hne. rewrite (Hother r' Hne).
        apply update_store_other. exact Hne.
    + cbn [ret].
      destruct (IH w) as (w' & Hrun & Hr & Hother & Ht1 & Ht2).
      exists w'. split; [exact Hrun|].
      split; [|split; [|split]; assumption].
      rewrite Hr. unfold regenerated. cbn [last_match].
      destruct (last_match rest (store w r)) as [q|]; [reflexivity|].
      destruct (list_eq_dec string_dec (evolution_line (store w r))
                            (evolution_line p)); [contradiction|reflexivity].
Qed.

Lemma regenerate_match_None (catalogue : list Pokemon) (w w' : World) :
  regenerate_match None catalogue w = Ok tt w' -> w' = w.
Proof.
  destruct catalogue as [|p rest]; cbn [regenerate_match].
  - intros H. injection H as <-. reflexivity.
  - discriminate.
Qed.

Lemma pyobj_eq_dec (x y : pyobj) : {x = y} + {x <> y}.
Proof. decide equality. apply Nat.eq_dec. Qed.

(** The outer loop: every Pokemon of the array is regenerated, once or
    several times, and nothing else changes. *)
Lemma regenerate_loop_spec :
  forall (slots : list pyobj) (w w' : World),
    regenerate_loop slots w = Ok tt w' ->
    (forall r, In (Some r) slots ->
               store w' r = regenerated POKE_LIST (store w r))
    /\ (forall r, ~ In (Some r) slots -> store w' r = store w r)
    /\ trainer_1 w' = trainer_1 w /\ trainer_2 w' = trainer_2 w.
Proof.
  induction slots as [|x rest IH]; intros w w' H.
  - injection H as <-. repeat split; try reflexivity. intros r [].
  - cbn [regenerate_loop] in H.
    apply bind_Ok in H. destruct H as ([] & w1 & H1 & H).
    apply IH in H. destruct H as (Hin & Hout & Ht1 & Ht2).
    destruct x as [r0|].
    + destruct (regenerate_match_spec r0 POKE_LIST w)
        as (w1' & Hrun & Hr & Hother & Hu1 & Hu2).
      rewrite Hrun in H1. injection H1 as ->.
      split; [|split; [|split; congruence]].
      * intros r Hr'.
        destruct (in_dec pyobj_eq_dec (Some r) rest)
          as [Hrest|Hrest].
        -- rewrite (Hin r Hrest).
           destruct (Nat.eq_dec r r0) as [->|Hne].
           ++ rewrite Hr. apply regenerated_idempotent.
           ++ rewrite (Hother r Hne). reflexivity.
        -- rewrite (Hout r Hrest).
           destruct Hr' as [E|E]; [|contradiction].
           injection E as ->. exact Hr.
      * intros r Hr'. rewrite (Hout r); [|intros E; apply Hr'; right; exact E].
        apply Hother. intros ->. apply Hr'. left. reflexivity.
    + apply regenerate_match_None in H1. subst w1.
      split; [|split; [|split; assumption]].
      * intros r [E|E]; [discriminate|apply Hin; exact E].
      * intros r Hr'. apply Hout. intros E. apply Hr'. right. exact E.
Qed.

Lemma assemble_team_store (self : Side) (mode : BattleMode)
      (c : option string) (w w' : World) :
  assemble_team self mode c w = Ok tt w' -> store w' = store w.
Proof.
  unfold assemble_team. intros H.
  apply bind_Ok in H. destruct H as (t & w0 & H0 & H).
  injection H0 as <- <-.
  apply bind_Ok in H. destruct H as (st & w0 & H0 & H).
  injection H0 as <- <-.
  apply bind_Ok in H. destruct H as (adt & w0 & H0 & H).
  assert (Hw0 : w0 = w).
  { destruct mode; apply bind_Ok in H0;
      destruct H0 as (x & w1 & H1 & H0); injection H0 as _ <-;
      unfold lift_exn in H1;
      match type of H1 with
      | match ?e with _ => _ end _ = _ => destruct e; [discriminate|]
      end; injection H1 as _ <-; reflexivity. }
  subst w0. unfold modify_team, modify in H. injection H as <-.
  destruct self; reflexivity.
Qed.

(** C3, as the code has it.  [regenerate_team] sets the health of every
    combatant of the original team to the health recorded by the classes
    of the catalogue that share its evolution line, and nothing else:
    the name, the level, the battle power, the defence and the speed are
    what the battles made them, so an evolved combatant keeps its evolved
    name.  The health is stated for a line whose classes agree on it. *)
Theorem regenerate_team_health_only (self : Side) (mode : BattleMode)
        (c : option string) (w w' : World) (r : ref) :
  regenerate_team self mode c w = Ok tt w' ->
  In (Some r) (original_team (get_team self w)) ->
  store w' r = with_health (health (store w' r)) (store w r)
  /\ name (store w' r) = name (store w r)
  /\ (forall h,
        (exists p, In p POKE_LIST
                   /\ evolution_line p = evolution_line (store w r)) ->
        (forall p, In p POKE_LIST ->
                   evolution_line p = evolution_line (store w r) ->
                   health p = h) ->
        health (store w' r) = h).
Proof.
  intros H Hin. unfold regenerate_team in H.
  apply bind_Ok in H. destruct H as (t & w0 & H0 & H).
  injection H0 as <- <-.
  apply bind_Ok in H. destruct H as ([] & w1 & Hloop & H).
  apply bind_Ok in H. destruct H as ([] & w2 & H2 & H).
  rewrite bind_team_run in H2. injection H2 as <-.
  apply assemble_team_store in H. rewrite store_put_team in H.
  apply regenerate_loop_spec in Hloop. destruct Hloop as (Hreg & _).
  rewrite H, (Hreg r Hin). unfold regenerated.
  destruct (last_match POKE_LIST (store w r)) as [q|] eqn:E.
  - split; [reflexivity|]. split; [reflexivity|].
    intros h _ Hall. apply last_match_In in E. destruct E as [E1 E2].
    cbn [with_health health]. apply Hall; assumption.
  - split; [symmetry; apply with_health_health|]. split; [reflexivity|].
    intros h (p & Hp & Hline) _. exfalso.
    exact (last_match_None POKE_LIST (store w r) p E Hp Hline).
Qed.

(* ------------------------------------------------------------------ *)
(** ** A battle between assembled teams ends *)

Section Termination.

Hypothesis table_nonneg : forall a d, (0 <= EFFECT_TABLE a d)%Q.

Lemma inject_Z_ceil_le (x : Q) : (x <= inject_Z (ceil x))%Q.
Proof. apply Qle_ceiling. Qed.

Lemma attack_damage_nonneg (a d : Pokemon) :
  (0 <= battle_power a)%Q -> (0 <= attack_damage a d)%Q.
Proof.
  intros Hbp. unfold attack_damage, get_effectiveness.
  apply Qmult_le_0_compat; [|apply table_nonneg].
  destruct (Qlt_bool (defence d) (battle_power a / 2)) eqn:E1.
  - apply Qlt_bool_iff in E1. revert E1. unfold Qdiv.
    change (/ 2)%Q with (1 # 2)%Q. intros E1. lra.
  - destruct (Qlt_bool (defence d) (battle_power a)) eqn:E2.
    + apply Qlt_bool_iff in E2.
      pose proof (inject_Z_ceil_le (battle_power a * 5 / 8 - defence d / 4))
        as Hc.
      revert Hc. unfold Qdiv. change (/ 8)%Q with (1 # 8)%Q.
      change (/ 4)%Q with (1 # 4)%Q. intros Hc. lra.
    + pose proof (inject_Z_ceil_le (battle_power a / 4)) as Hc.
      revert Hc. unfold Qdiv. change (/ 4)%Q with (1 # 4)%Q.
      intros Hc. lra.
Qed.

Lemma round2_nonneg (x : Q) : (0 <= x)%Q -> (0 <= round2 x)%Q.
Proof.
  intros Hx. unfold round2.
  assert (Hf : (0 <= Qfloor (x * 100))%Z).
  { change 0%Z with (Qfloor 0). apply Qfloor_resp_le. lra. }
  assert (Hn : forall n, (0 <= n)%Z -> (0 <= inject_Z n / 100)%Q).
  { intros n Hn. unfold Qdiv. change (/ 100)%Q with (1 # 100)%Q.
    assert (0 <= inject_Z n)%Q
      by (change 0%Q with (inject_Z 0); rewrite <- Zle_Qle; exact Hn).
    lra. }
  apply Hn.
  destruct (Qlt_bool (x * 100 - inject_Z (Qfloor (x * 100))) (1 # 2));
    [exact Hf|].
  destruct (Qlt_bool (1 # 2) (x * 100 - inject_Z (Qfloor (x * 100))));
    [lia|].
  destruct (Z.even (Qfloor (x * 100))); lia.
Qed.

Lemma completion_nonneg (s : Side) (w : World) :
  exists c, get_pokedex_completion s w = Ok c w /\ (0 <= c)%Q.
Proof.
  eexists. split; [reflexivity|]. apply round2_nonneg.
  unfold Qdiv, len_PokeType. change (/ inject_Z 15)%Q with (1 # 15)%Q.
  assert (0 <= inject_Z (Z.of_nat (bset_len (pokedex (get_trainer s w)))))%Q
    by (change 0%Q with (inject_Z 0); rewrite <- Zle_Qle; lia).
  lra.
Qed.

Lemma ceil_nonneg (x : Q) : (0 <= x)%Q -> (0 <= ceil x)%Z.
Proof.
  intros H. change 0%Z with (Qceiling 0). apply Qceiling_resp_le. exact H.
Qed.

Lemma defend_pokemon_le (damage : Z) (p : Pokemon) :
  (0 <= damage)%Z -> (health (defend_pokemon damage p) <= health p)%Q.
Proof.
  intros Hd. unfold defend_pokemon. cbn [with_health health].
  assert (H0 : (0 <= inject_Z damage)%Q)
    by (change 0%Q with (inject_Z 0); rewrite <- Zle_Qle; exact Hd).
  destruct (Qlt_bool (inject_Z damage) (defence p));
    unfold Qdiv; change (/ 2)%Q with (1 # 2)%Q; lra.
Qed.

Lemma defend_pokemon_two (p : Pokemon) :
  (health (defend_pokemon 2 p) <= health p - 1)%Q.
Proof.
  unfold defend_pokemon. cbn [with_health health].
  destruct (Qlt_bool (inject_Z 2) (defence p));
    unfold Qdiv; change (/ 2)%Q with (1 # 2)%Q;
    change (inject_Z 2) with 2%Q; lra.
Qed.

Lemma quiet_refl (w : World) : quiet w w.
Proof. split; [reflexivity|intros r; apply Qle_refl]. Qed.

Lemma quiet_trans (w1 w2 w3 : World) :
  quiet w1 w2 -> quiet w2 w3 -> quiet w1 w3.
Proof.
  intros [T1 H1] [T2 H2]. split.
  - intros s. rewrite T2. apply T1.
  - intros r. exact (Qle_trans _ _ _ (H2 r) (H1 r)).
Qed.

Lemma quiet_members (w w' : World) (s : Side) :
  quiet w w' -> members s w' = members s w.
Proof. intros [T _]. unfold members. rewrite T. reflexivity. Qed.

Lemma quiet_shrunk (w1 w2 w3 : World) :
  quiet w1 w2 -> shrunk w2 w3 -> shrunk w1 w3.
Proof.
  intros Hq [L [s Hs]]. split.
  - intros s'. rewrite <- (quiet_members w1 w2 s' Hq). apply L.
  - exists s. rewrite <- (quiet_members w1 w2 s Hq). exact Hs.
Qed.

Lemma shrunk_quiet (w1 w2 w3 : World) :
  shrunk w1 w2 -> quiet w2 w3 -> shrunk w1 w3.
Proof.
  intros [L [s Hs]] Hq. split.
  - intros s'. rewrite (quiet_members w2 w3 s' Hq). apply L.
  - exists s. rewrite (quiet_members w2 w3 s Hq). exact Hs.
Qed.

Lemma shrunk_trans (w1 w2 w3 : World) :
  shrunk w1 w2 -> shrunk w2 w3 -> shrunk w1 w3.
Proof.
  intros [L1 [s Hs]] [L2 _]. split.
  - intros s'. exact (Nat.le_trans _ _ _ (L2 s') (L1 s')).
  - exists s. exact (Nat.le_lt_trans _ _ _ (L2 s) Hs).
Qed.

(** The object [level_up] leaves behind. *)
Lemma level_up_cases (r : ref) (w w' : World) :
  level_up r w = Ok tt w' ->
  trainer_1 w' = trainer_1 w
  /\ trainer_2 w' = trainer_2 w
  /\ (forall r', r' <> r -> store w' r' = store w r')
  /\ (store w' r = with_level (level (store w r) + 1) (store w r)
      \/ exists evolved_name,
           store w' r
           = evolve_pokemon evolved_name
               (with_level (level (store w r) + 1) (store w r))).
Proof.
  intros H. pose proof (level_up_spec r w w' H) as (_ & T1 & T2 & Hother).
  split; [exact T1|]. split; [exact T2|]. split; [exact Hother|].
  unfold level_up in H.
  apply bind_Ok in H. destruct H as (p & w0 & H0 & H).
  injection H0 as <- <-.
  apply bind_Ok in H. destruct H as ([] & w1 & H1 & H).
  injection H1 as <-.
  destruct (0 <? length (evolution_line (store w r)))%nat.
  - destruct (list_index (name (store w r)) (evolution_line (store w r)))
      as [i|]; [|discriminate].
    destruct (negb (i =? length (evolution_line (store w r)) - 1)%nat).
    + right. unfold _evolve in H.
      apply bind_Ok in H. destruct H as (p & w0 & H0 & H).
      injection H0 as <- <-. cbn [store] in H.
      rewrite update_store_same in H.
      cbn [with_level name evolution_line] in H.
      destruct (list_index (name (store w r)) (evolution_line (store w r)))
        as [j|]; [|discriminate].
      destruct (nth_error (evolution_line (store w r)) (j + 1))
        as [evolved_name|]; [|discriminate].
      apply bind_Ok in H. destruct H as ([] & w1 & H1 & H).
      injection H1 as <-. injection H as <-.
      exists evolved_name. cbn [store]. rewrite update_store_same.
      reflexivity.
    + left. injection H as <-. cbn [store]. apply update_store_same.
  - left. injection H as <-. cbn [store]. apply update_store_same.
Qed.

Lemma level_up_power (r : ref) (w w' : World) :
  level_up r w = Ok tt w' ->
  (forall r', (0 <= battle_power (store w r'))%Q) ->
  forall r', (0 <= battle_power (store w' r'))%Q.
Proof.
  intros H Hbp r'.
  destruct (level_up_cases r w w' H) as (_ & _ & Hother & Hr).
  destruct (Nat.eq_dec r' r) as [->|Hne]; [|rewrite Hother; auto].
  specialize (Hbp r).
  destruct Hr as [-> | [nm ->]]; cbn [battle_power with_level evolve_pokemon].
  - exact Hbp.
  - lra.
Qed.

Lemma remove_pokemon_ready (s : Side) (w w' : World) :
  remove_pokemon s w = Ok tt w' ->
  is_assembled (team (get_team s w)) ->
  adt_wf (team (get_team s w)) ->
  exists adt',
    w' = put_team s adt' w
    /\ is_assembled adt' /\ adt_wf adt'
    /\ S (length (team_order adt'))
       = length (team_order (team (get_team s w))).
Proof.
  unfold remove_pokemon, bind at 1, gets.
  destruct (team (get_team s w)) as [array|[c l]|[c l]|items] eqn:Hadt;
    intros H Hasm Hwf; [destruct Hasm| | |].
  - destruct l as [|x l].
    + revert H. unfold team_pop, bind, gets. cbv beta iota.
      rewrite Hadt. cbn. discriminate.
    + rewrite <- (put_team_same s w) in H at 1. rewrite Hadt in H.
      unfold bind in H. rewrite team_pop_run in H. injection H as <-.
      eexists. split; [reflexivity|].
      cbn in *. repeat split; lia.
  - destruct l as [|x l].
    + revert H. unfold team_serve, bind, gets. cbv beta iota.
      rewrite Hadt. cbn. discriminate.
    + rewrite <- (put_team_same s w) in H at 1. rewrite Hadt in H.
      unfold bind in H. rewrite team_serve_run in H. injection H as <-.
      eexists. split; [reflexivity|].
      cbn in *. repeat split; lia.
  - destruct items as [|x items]; [discriminate|].
    injection H as <-. eexists. split; [reflexivity|].
    cbn. repeat split.
Qed.

Lemma members_put_team (s s' : Side) (adt : TeamADT) (w : World) :
  members s' (put_team s adt w)
  = if match s, s' with Side1, Side1 | Side2, Side2 => true | _, _ => false end
    then team_order adt else members s' w.
Proof. destruct s, s'; reflexivity. Qed.

Lemma ready_same_teams (w w' : World) :
  battle_ready w ->
  (forall s, team (get_team s w') = team (get_team s w)) ->
  (forall r, (0 <= battle_power (store w' r))%Q) ->
  battle_ready w'.
Proof.
  intros [Ht _] Hsame Hbp. split; [|exact Hbp].
  intros s. rewrite Hsame. apply Ht.
Qed.

Lemma ready_put_team (s : Side) (adt : TeamADT) (w : World) :
  battle_ready w -> is_assembled adt -> adt_wf adt ->
  battle_ready (put_team s adt w).
Proof.
  intros [Ht Hbp] Ha Hw. split.
  - intros s'. destruct s, s';
      try (split; assumption);
      [exact (Ht Side2)|exact (Ht Side1)].
  - intros r. rewrite store_put_team. apply Hbp.
Qed.

Lemma level_up_teams (r : ref) (w w' : World) :
  level_up r w = Ok tt w' -> forall s, get_team s w' = get_team s w.
Proof.
  intros H s. destruct (level_up_cases r w w' H) as (T1 & T2 & _).
  apply get_team_trainers; assumption.
Qed.

(** Every call of [killed] takes a member off a team. *)
Lemma killed_progress (winner dead : ref) (s : Side) (together : bool)
      (w w' : World) :
  killed winner dead s together w = Ok tt w' ->
  battle_ready w ->
  battle_ready w' /\ shrunk w w'.
Proof.
  unfold killed. intros H Hready.
  apply bind_Ok in H. destruct H as (p & w0 & H0 & H).
  injection H0 as _ <-.
  apply bind_Ok in H. destruct H as ([] & w1 & H1 & H).
  injection H1 as <-.
  apply bind_Ok in H. destruct H as ([] & w2 & H2 & H).
  match type of H2 with
  | remove_pokemon s ?w1 = _ => set (wp := w1) in *
  end.
  assert (Hp : battle_ready wp).
  { apply (ready_same_teams w); [exact Hready| |apply Hready].
    intros s'. destruct s'; reflexivity. }
  assert (Hm : forall s', members s' wp = members s' w)
    by (intros s'; destruct s'; reflexivity).
  destruct (remove_pokemon_ready s wp w2 H2 (proj1 (proj1 Hp s))
              (proj2 (proj1 Hp s)))
    as (adt' & -> & Ha & Hw & Hlen).
  assert (Hteams : forall s', get_team s' w' = get_team s' (put_team s adt' wp)).
  { destruct (negb together).
    - apply level_up_teams with (r := winner). exact H.
    - injection H as <-. reflexivity. }
  assert (Hbp : forall r, (0 <= battle_power (store w' r))%Q).
  { destruct (negb together).
    - apply (level_up_power winner _ _ H). intros r.
      rewrite store_put_team. apply Hp.
    - injection H as <-. intros r. rewrite store_put_team. apply Hp. }
  split.
  - apply (ready_same_teams (put_team s adt' wp));
      [apply ready_put_team; assumption| |exact Hbp].
    intros s'. rewrite Hteams. reflexivity.
  - assert (Hmem : forall s', members s' w' = members s' (put_team s adt' wp))
      by (intros s'; unfold members; rewrite Hteams; reflexivity).
    split.
    + intros s'. rewrite Hmem, members_put_team, <- Hm.
      destruct s, s'; unfold members in *; lia.
    + exists s. rewrite Hmem, members_put_team, <- Hm.
      destruct s; unfold members in *; lia.
Qed.

(** An attack either leaves the defender alive, less healthy at most,
    or takes a member off a team. *)
Lemma attack_and_defend_progress (a d : ref) (ta td : Side) (w w' : World) :
  attack_and_defend a d ta td w = Ok tt w' ->
  battle_ready w ->
  battle_ready w'
  /\ ((quiet w w' /\ is_alive (store w' d) = true
       /\ forall r, r <> d -> store w' r = store w r)
      \/ shrunk w w').
Proof.
  intros Hrun Hready. unfold attack_and_defend in Hrun.
  apply bind_Ok in Hrun. destruct Hrun as (dmg & w0 & H0 & Hrun).
  injection H0 as <- <-.
  destruct (completion_nonneg ta w) as (ca & Hca & Hca0).
  destruct (completion_nonneg td w) as (cd & Hcd & Hcd0).
  unfold bind at 1 in Hrun. rewrite Hca in Hrun.
  unfold bind at 1 in Hrun. rewrite Hcd in Hrun.
  apply bind_Ok in Hrun. destruct Hrun as ([] & w0 & H0 & Hrun).
  destruct (Qeq_bool cd 0); [discriminate|]. injection H0 as <-.
  apply bind_Ok in Hrun. destruct Hrun as ([] & w1 & H1 & Hrun).
  rewrite defend_run in H1. injection H1 as <-.
  match type of Hrun with
  | bind _ _ ?w1 = _ => set (wd := w1) in *
  end.
  assert (Hdmg : (0 <= ceil (attack_damage (store w a) (store w d)
                              * (ca / cd)))%Z).
  { apply ceil_nonneg. apply Qmult_le_0_compat.
    - apply attack_damage_nonneg. apply Hready.
    - unfold Qdiv. apply Qmult_le_0_compat; [exact Hca0|].
      apply Qinv_le_0_compat. exact Hcd0. }
  assert (Hq : quiet w wd).
  { split; [intros s; destruct s; reflexivity|].
    intros r. unfold wd. cbn [store].
    destruct (Nat.eq_dec r d) as [->|Hne].
    - rewrite update_store_same. apply defend_pokemon_le. exact Hdmg.
    - rewrite update_store_other by exact Hne. apply Qle_refl. }
  assert (Hrd : battle_ready wd).
  { apply (ready_same_teams w); [exact Hready|apply Hq|].
    intros r. unfold wd. cbn [store].
    destruct (Nat.eq_dec r d) as [->|Hne].
    - rewrite update_store_same. apply Hready.
    - rewrite update_store_other by exact Hne. apply Hready. }
  apply bind_Ok in Hrun. destruct Hrun as (alive & w2 & H2 & Hrun).
  injection H2 as <- <-.
  match type of Hrun with
  | (if negb ?b then _ else _) _ = _ =>
      change b with (is_alive (store wd d)) in Hrun
  end.
  revert Hrun.
  destruct (is_alive (store wd d)) eqn:Halive; cbn [negb]; intros Hrun.
  - injection Hrun as <-. split; [exact Hrd|]. left.
    split; [exact Hq|]. split; [exact Halive|].
    intros r Hne. unfold wd. cbn [store].
    apply update_store_other. exact Hne.
  - destruct (killed_progress _ _ _ _ _ _ Hrun Hrd) as [Hr Hs].
    split; [exact Hr|]. right. exact (quiet_shrunk _ _ _ Hq Hs).
Qed.

(** The chip damage either costs both a hit point and leaves both
    alive, or takes a member off a team. *)
Lemma deduct_two_progress (r1 r2 : ref) (w w' : World) :
  deduct_two r1 r2 w = Ok tt w' ->
  battle_ready w ->
  battle_ready w'
  /\ (shrunk w w'
      \/ (quiet w w'
          /\ (health (store w' r1) <= health (store w r1) - 1)%Q
          /\ is_alive (store w' r1) = true)).
Proof.
  intros Hrun Hready. unfold deduct_two in Hrun.
  apply bind_Ok in Hrun. destruct Hrun as ([] & w1 & H1 & Hrun).
  rewrite defend_run in H1. injection H1 as <-.
  apply bind_Ok in Hrun. destruct Hrun as ([] & w2 & H2 & Hrun).
  rewrite defend_run in H2. injection H2 as <-.
  cbn [store next_ref trainer_1 trainer_2 stdout] in Hrun.
  match type of Hrun with
  | bind _ _ ?w2 = _ => set (wd := w2) in *
  end.
  assert (Hle : forall r, (health (store wd r) <= health (store w r))%Q).
  { intros r. unfold wd. cbn [store].
    destruct (Nat.eq_dec r r2) as [->|Hne2].
    - rewrite update_store_same.
      eapply Qle_trans; [apply defend_pokemon_le; lia|].
      destruct (Nat.eq_dec r2 r1) as [->|Hne1].
      + rewrite update_store_same. apply defend_pokemon_le. lia.
      + rewrite update_store_other by exact Hne1. apply Qle_refl.
    - rewrite update_store_other by exact Hne2.
      destruct (Nat.eq_dec r r1) as [->|Hne1].
      + rewrite update_store_same. apply defend_pokemon_le. lia.
      + rewrite update_store_other by exact Hne1. apply Qle_refl. }
  assert (Hone : (health (store wd r1) <= health (store w r1) - 1)%Q).
  { unfold wd. cbn [store].
    destruct (Nat.eq_dec r1 r2) as [->|Hne].
    - rewrite !update_store_same.
      eapply Qle_trans; [apply defend_pokemon_two|].
      pose proof (defend_pokemon_le 2 (store w r2) ltac:(lia)). lra.
    - rewrite update_store_other by exact Hne.
      rewrite update_store_same. apply defend_pokemon_two. }
  assert (Hq : quiet w wd)
    by (split; [intros s; destruct s; reflexivity|exact Hle]).
  assert (Hrd : battle_ready wd).
  { apply (ready_same_teams w); [exact Hready|apply Hq|].
    intros r. unfold wd. cbn [store].
    destruct (Nat.eq_dec r r2) as [->|Hne2].
    - rewrite update_store_same. cbn.
      destruct (Nat.eq_dec r2 r1) as [->|Hne1].
      + rewrite update_store_same. apply Hready.
      + rewrite update_store_other by exact Hne1. apply Hready.
    - rewrite update_store_other by exact Hne2.
      destruct (Nat.eq_dec r r1) as [->|Hne1].
      + rewrite update_store_same. apply Hready.
      + rewrite update_store_other by exact Hne1. apply Hready. }
  apply bind_Ok in Hrun. destruct Hrun as (a1 & w3 & H3 & Hrun).
  assert (E1 : a1 = is_alive (store wd r1) /\ w3 = wd)
    by (injection H3 as <- <-; split; reflexivity).
  destruct E1 as [-> ->]. clear H3.
  apply bind_Ok in Hrun. destruct Hrun as (a2 & w3 & H3 & Hrun).
  assert (E2 : a2 = is_alive (store wd r2) /\ w3 = wd)
    by (injection H3 as <- <-; split; reflexivity).
  destruct E2 as [-> ->]. clear H3.
  revert Hrun.
  destruct (is_alive (store wd r1)) eqn:A1;
    destruct (is_alive (store wd r2)) eqn:A2;
    cbn [negb andb]; intros Hrun.
  - injection Hrun as <-. split; [exact Hrd|]. right.
    split; [exact Hq|]. split; [exact Hone|exact A1].
  - destruct (killed_progress _ _ _ _ _ _ Hrun Hrd) as [Hr Hs].
    split; [exact Hr|]. left. exact (quiet_shrunk _ _ _ Hq Hs).
  - destruct (killed_progress _ _ _ _ _ _ Hrun Hrd) as [Hr Hs].
    split; [exact Hr|]. left. exact (quiet_shrunk _ _ _ Hq Hs).
  - apply bind_Ok in Hrun. destruct Hrun as ([] & w3 & H3 & Hrun).
    destruct (killed_progress _ _ _ _ _ _ H3 Hrd) as [Hr3 Hs3].
    destruct (killed_progress _ _ _ _ _ _ Hrun Hr3) as [Hr Hs].
    split; [exact Hr|]. left.
    exact (quiet_shrunk _ _ _ Hq (shrunk_trans _ _ _ Hs3 Hs)).
Qed.

(** Two attacks in a row, each on the other. *)
Lemma exchange_progress (a b : ref) (ta tb : Side) (w w1 w2 : World) :
  attack_and_defend a b ta tb w = Ok tt w1 ->
  attack_and_defend b a tb ta w1 = Ok tt w2 ->
  battle_ready w ->
  battle_ready w2
  /\ (shrunk w w2
      \/ (quiet w w2 /\ is_alive (store w2 a) = true
          /\ is_alive (store w2 b) = true)).
Proof.
  intros H1 H2 Hready.
  destruct (attack_and_defend_progress _ _ _ _ _ _ H1 Hready)
    as [Hr1 [(Hq1 & Hb & _)|Hs1]];
    destruct (attack_and_defend_progress _ _ _ _ _ _ H2 Hr1)
      as [Hr2 [(Hq2 & Ha & Hother)|Hs2]];
    (split; [exact Hr2|]).
  - right. split; [exact (quiet_trans _ _ _ Hq1 Hq2)|].
    split; [exact Ha|].
    destruct (Nat.eq_dec b a) as [->|Hne]; [exact Ha|].
    rewrite (Hother b Hne). exact Hb.
  - left. exact (quiet_shrunk _ _ _ Hq1 Hs2).
  - left. exact (shrunk_quiet _ _ _ Hs1 Hq2).
  - left. exact (shrunk_trans _ _ _ Hs1 Hs2).
Qed.

Lemma clash_start_quiet (r1 r2 : ref) (w : World) :
  quiet w (clash_start r1 r2 w).
Proof. split; [intros s; destruct s; reflexivity|intros r; apply Qle_refl]. Qed.

(** A clash costs the first Pokemon a hit point and leaves it alive, or
    takes a member off a team. *)
Lemma fight_progress (r1 r2 : ref) (w w' : World) :
  fight (Some r1) (Some r2) w = Ok tt w' ->
  battle_ready w ->
  battle_ready w'
  /\ (shrunk w w'
      \/ (quiet w w'
          /\ (health (store w' r1) <= health (store w r1) - 1)%Q
          /\ is_alive (store w' r1) = true)).
Proof.
  intros H Hready. rewrite fight_start in H.
  pose proof (clash_start_quiet r1 r2 w) as Hq0.
  assert (Hr0 : battle_ready (clash_start r1 r2 w))
    by (apply (ready_same_teams w); [exact Hready|apply Hq0|apply Hready]).
  apply bind_Ok in H. destruct H as ([] & w2 & Hbody & Hafter).
  assert (Hb : battle_ready w2
               /\ (shrunk (clash_start r1 r2 w) w2
                   \/ (quiet (clash_start r1 r2 w) w2
                       /\ is_alive (store w2 r1) = true
                       /\ is_alive (store w2 r2) = true))).
  { destruct (negb (Qeq_bool (speed (store w r1)) (speed (store w r2)))).
    - cbv zeta in Hbody.
      apply bind_Ok in Hbody. destruct Hbody as ([] & w1 & H1 & Hbody).
      apply bind_Ok in Hbody. destruct Hbody as (alive & w1' & Ha & Hbody).
      injection Ha as <- <-.
      destruct (Qlt_bool (speed (store w r2)) (speed (store w r1)));
        match type of Hbody with
        | (if is_alive (store w1 ?b) then _ else _) _ = _ =>
            destruct (is_alive (store w1 b)) eqn:Halive
        end.
      + destruct (exchange_progress _ _ _ _ _ _ _ H1 Hbody Hr0)
          as [Hr [Hs|(Hq & A & B)]]; split; auto.
      + injection Hbody as <-.
        destruct (attack_and_defend_progress _ _ _ _ _ _ H1 Hr0)
          as [Hr [(_ & Hb & _)|Hs]]; [congruence|]. split; auto.
      + destruct (exchange_progress _ _ _ _ _ _ _ H1 Hbody Hr0)
          as [Hr [Hs|(Hq & A & B)]]; split; auto.
      + injection Hbody as <-.
        destruct (attack_and_defend_progress _ _ _ _ _ _ H1 Hr0)
          as [Hr [(_ & Hb & _)|Hs]]; [congruence|]. split; auto.
    - apply bind_Ok in Hbody. destruct Hbody as ([] & w1 & H1 & Hbody).
      destruct (exchange_progress _ _ _ _ _ _ _ H1 Hbody Hr0)
        as [Hr [Hs|(Hq & A & B)]]; split; auto. }
  destruct Hb as [Hr2 Hcase].
  unfold after_clash in Hafter.
  apply bind_Ok in Hafter. destruct Hafter as (a1 & w3 & H3 & Hafter).
  injection H3 as <- <-.
  apply bind_Ok in Hafter. destruct Hafter as (a2 & w3 & H3 & Hafter).
  injection H3 as <- <-.
  destruct Hcase as [Hs|(Hq & A1 & A2)].
  - destruct (is_alive (store w2 r1) && is_alive (store w2 r2)).
    + destruct (deduct_two_progress _ _ _ _ Hafter Hr2)
        as [Hr [Hs'|(Hq' & _)]]; (split; [exact Hr|]); left.
      * exact (quiet_shrunk _ _ _ Hq0 (shrunk_trans _ _ _ Hs Hs')).
      * exact (quiet_shrunk _ _ _ Hq0 (shrunk_quiet _ _ _ Hs Hq')).
    + injection Hafter as <-. split; [exact Hr2|]. left.
      exact (quiet_shrunk _ _ _ Hq0 Hs).
  - rewrite A1, A2 in Hafter. cbn [andb] in Hafter.
    destruct (deduct_two_progress _ _ _ _ Hafter Hr2)
      as [Hr [Hs'|(Hq' & Hone & Halive)]]; (split; [exact Hr|]).
    + left. exact (quiet_shrunk _ _ _ Hq0 (quiet_shrunk _ _ _ Hq Hs')).
    + right. split; [exact (quiet_trans _ _ _ Hq0 (quiet_trans _ _ _ Hq Hq'))|].
      split; [|exact Halive].
      pose proof (proj2 Hq r1) as H1. rewrite store_clash_start in H1. lra.
Qed.

Lemma fight_None_l (p2 : pyobj) (w w' : World) :
  fight None p2 w <> Ok tt w'.
Proof.
  unfold fight. intros H.
  apply bind_Ok in H. destruct H as (s1 & w1 & _ & H).
  apply bind_Ok in H. destruct H as (s2 & w2 & _ & H).
  apply bind_Ok in H. destruct H as (? & w3 & _ & H).
  apply bind_Ok in H. destruct H as (? & w4 & _ & H).
  apply bind_Ok in H. destruct H as (? & w5 & H5 & _).
  unfold register_pokemon in H5.
  apply bind_Ok in H5. destruct H5 as (? & w6 & H6 & _). discriminate.
Qed.

Lemma fight_None_r (p1 : pyobj) (w w' : World) :
  fight p1 None w <> Ok tt w'.
Proof.
  unfold fight. intros H.
  apply bind_Ok in H. destruct H as (s1 & w1 & _ & H).
  apply bind_Ok in H. destruct H as (s2 & w2 & _ & H).
  apply bind_Ok in H. destruct H as (? & w3 & _ & H).
  apply bind_Ok in H. destruct H as (? & w4 & H4 & _).
  unfold register_pokemon in H4.
  apply bind_Ok in H4. destruct H4 as (? & w6 & H6 & _). discriminate.
Qed.

(* Hit points and their sum over the teams *)

Lemma hit_points_le (p p' : Pokemon) :
  (health p' <= health p)%Q -> (hit_points p' <= hit_points p)%nat.
Proof.
  intros H. unfold hit_points.
  pose proof (Qceiling_resp_le _ _ H). lia.
Qed.

Lemma hit_points_lt (p p' : Pokemon) :
  (health p' <= health p - 1)%Q -> is_alive p' = true ->
  (hit_points p' < hit_points p)%nat.
Proof.
  intros H Ha. unfold is_alive in Ha. apply Qlt_bool_iff in Ha.
  unfold hit_points.
  pose proof (Qle_ceiling (health p')) as C1.
  pose proof (Qceiling_lt (health p')) as C2.
  pose proof (Qle_ceiling (health p)) as C3.
  assert (P1 : (0 < Qceiling (health p'))%Z).
  { rewrite Zlt_Qlt. change (inject_Z 0) with 0%Q. lra. }
  assert (P2 : (Qceiling (health p') < Qceiling (health p))%Z).
  { rewrite Zlt_Qlt. unfold Z.sub in C2.
    rewrite inject_Z_plus, inject_Z_opp in C2.
    change (inject_Z 1) with 1%Q in C2. lra. }
  lia.
Qed.

Lemma vitality_of_app (st : ref -> Pokemon) (l1 l2 : list pyobj) :
  vitality_of st (l1 ++ l2) = (vitality_of st l1 + vitality_of st l2)%nat.
Proof. unfold vitality_of. rewrite map_app, list_sum_app. reflexivity. Qed.

Lemma vitality_of_perm (st : ref -> Pokemon) (l l' : list pyobj) :
  Permutation l l' -> vitality_of st l = vitality_of st l'.
Proof.
  induction 1; unfold vitality_of, list_sum in *; cbn [map fold_right] in *;
    lia.
Qed.

Lemma vitality_of_ext (st st' : ref -> Pokemon) (l : list pyobj) :
  (forall r, st' r = st r) -> vitality_of st' l = vitality_of st l.
Proof.
  intros H. unfold vitality_of. f_equal. apply map_ext.
  intros [r|]; [rewrite H|]; reflexivity.
Qed.

Lemma vitality_of_le (st st' : ref -> Pokemon) (l : list pyobj) :
  (forall r, (health (st' r) <= health (st r))%Q) ->
  (vitality_of st' l <= vitality_of st l)%nat.
Proof.
  intros H. induction l as [|[r|] l IH]; unfold vitality_of, list_sum in *;
    cbn [map fold_right]; [lia| |lia].
  pose proof (hit_points_le (st r) (st' r) (H r)). lia.
Qed.

Lemma vitality_of_lt (st st' : ref -> Pokemon) (l : list pyobj) (r1 : ref) :
  (forall r, (health (st' r) <= health (st r))%Q) ->
  In (Some r1) l ->
  (hit_points (st' r1) < hit_points (st r1))%nat ->
  (vitality_of st' l < vitality_of st l)%nat.
Proof.
  intros H Hin Hlt. induction l as [|o l IH]; [destruct Hin|].
  pose proof (vitality_of_le st st' l H) as Hle.
  unfold vitality_of, list_sum in *. cbn [map fold_right].
  destruct Hin as [->|Hin].
  - lia.
  - specialize (IH Hin). destruct o as [r|]; [|lia].
    pose proof (hit_points_le (st r) (st' r) (H r)). lia.
Qed.

(* What comes after a fight only reorders the teams *)

Lemma sorted_add_perm (item : ListItem) (items l' : list ListItem) :
  sorted_add item items = inr l' -> Permutation l' (item :: items).
Proof.
  unfold sorted_add.
  destruct (_index_to_add (S (length items)) items item 0
              (Z.of_nat (length items) - 1)) as [e|p]; [discriminate|].
  intros H. injection H as <-. symmetry.
  rewrite <- (firstn_skipn (Z.to_nat p) items) at 1.
  apply Permutation_middle.
Qed.

Lemma assign_team_loop_perm (st : ref -> Pokemon) (items : list ListItem)
      (order : Z) (c : option string) :
  forall (n i : nat) (acc acc' : list ListItem),
    assign_team_loop st items order c n (Z.of_nat i) acc = inr acc' ->
    Permutation (map value acc')
                (map value acc ++ map value (firstn n (skipn i items))).
Proof.
  induction n as [|n IH]; intros i acc acc' H.
  - injection H as <-. cbn [firstn map]. rewrite app_nil_r. reflexivity.
  - cbn [assign_team_loop] in H. unfold sorted_getitem in H.
    destruct ((Z.of_nat i <? 0)
              || (Z.of_nat (length items) <=? Z.of_nat i))%Z;
      [discriminate|].
    rewrite Nat2Z.id in H.
    destruct (nth_error items i) as [it|] eqn:Hit; [|discriminate].
    destruct (in_CRITERION_LIST c); [|discriminate].
    destruct (criterion_value c (st (value it))) as [e|v]; [discriminate|].
    match type of H with
    | match sorted_add ?x acc with _ => _ end = _ =>
        destruct (sorted_add x acc) as [e|acc1] eqn:Hadd; [discriminate|]
    end.
    replace (Z.of_nat i + 1)%Z with (Z.of_nat (S i)) in H by lia.
    apply IH in H. apply sorted_add_perm in Hadd.
    rewrite H. apply (Permutation_map value) in Hadd. rewrite Hadd.
    cbn [map value].
    assert (Hsk : skipn i items = it :: skipn (S i) items).
    { clear -Hit. revert i Hit.
      induction items as [|y l IHl]; intros i Hit;
        [destruct i; discriminate|].
      destruct i as [|i]; [injection Hit as ->; reflexivity|].
      cbn [skipn]. apply IHl. exact Hit. }
    rewrite Hsk. cbn [firstn map app]. apply Permutation_middle.
Qed.

Lemma assign_team_reorder (s : Side) (c : option string) (w w' : World) :
  assign_team s c w = Ok tt w' ->
  battle_ready w ->
  battle_ready w' /\ reordered w w'.
Proof.
  unfold assign_team. intros H Hready.
  apply bind_Ok in H. destruct H as (t & w0 & H0 & H).
  injection H0 as <- <-.
  destruct (team (get_team s w)) as [array|st|q|items] eqn:Hadt;
    try discriminate.
  apply bind_Ok in H. destruct H as (st & w0 & H0 & H).
  injection H0 as <- <-.
  apply bind_Ok in H. destruct H as (acc & w0 & H0 & H).
  unfold lift_exn in H0.
  destruct (assign_team_loop (store w) items
              (if special_called (get_team s w) then (-1)%Z else 1%Z) c
              (length items) 0 []) as [e|acc'] eqn:Hloop; [discriminate|].
  injection H0 as <- <-. rewrite bind_team_run in H. injection H as <-.
  split.
  - apply ready_put_team; [exact Hready|exact I|exact I].
  - split; [intros r; rewrite store_put_team; reflexivity|].
    intros s'. rewrite members_put_team.
    destruct s, s'; try reflexivity;
      unfold members; rewrite Hadt; cbn [team_order];
      apply (assign_team_loop_perm _ _ _ _ (length items) 0 [] acc') in Hloop;
      cbn [map app skipn] in Hloop; rewrite firstn_all in Hloop;
      rewrite <- !(map_map value Some);
      apply Permutation_map; exact Hloop.
Qed.

Lemma rotate_pokemon_reorder (s : Side) (w w' : World) :
  rotate_pokemon s w = Ok tt w' ->
  battle_ready w ->
  battle_ready w' /\ reordered w w'.
Proof.
  unfold rotate_pokemon. intros H Hready.
  apply bind_Ok in H. destruct H as (x & w1 & H1 & H).
  unfold team_serve in H1.
  apply bind_Ok in H1. destruct H1 as (t & w0 & H0 & H1).
  injection H0 as <- <-.
  destruct (team (get_team s w)) as [array|st|[c l]|items] eqn:Hadt;
    try discriminate.
  destruct l as [|y l]; [discriminate|].
  cbn [queue_serve queue_items lift_exn queue_capacity] in H1.
  apply bind_Ok in H1. destruct H1 as (r & w0 & H0 & H1).
  injection H0 as <- <-. cbn [fst snd] in H1.
  apply bind_Ok in H1. destruct H1 as ([] & w0 & H0 & H1).
  rewrite bind_team_run in H0. injection H0 as <-.
  injection H1 as <- <-.
  pose proof (proj2 (proj1 Hready s)) as Hwf. rewrite Hadt in Hwf.
  cbn [adt_wf queue_items queue_capacity length] in Hwf.
  rewrite team_append_run in H by lia. injection H as <-.
  split.
  - apply ready_put_team; [exact Hready|exact I|].
    cbn [adt_wf queue_items queue_capacity]. rewrite length_app.
    cbn [length]. lia.
  - split; [intros r; rewrite store_put_team; reflexivity|].
    intros s'. rewrite members_put_team.
    destruct s, s'; try reflexivity;
      unfold members; rewrite Hadt; cbn [team_order queue_items];
      symmetry; apply Permutation_cons_append.
Qed.

Lemma reordered_measure (w w' : World) :
  reordered w w' ->
  roster_size w' = roster_size w /\ vitality w' = vitality w.
Proof.
  intros [Hst Hperm]. split.
  - unfold roster_size.
    rewrite (Permutation_length (Hperm Side1)),
      (Permutation_length (Hperm Side2)). reflexivity.
  - unfold vitality. rewrite (vitality_of_ext (store w) (store w') _ Hst).
    apply vitality_of_perm. apply Permutation_app; apply Hperm.
Qed.

Lemma reordered_trans (w1 w2 w3 : World) :
  reordered w1 w2 -> reordered w2 w3 -> reordered w1 w3.
Proof.
  intros [S1 P1] [S2 P2]. split.
  - intros r. rewrite S2. apply S1.
  - intros s. rewrite (P2 s). apply P1.
Qed.

Lemma reordered_refl (w : World) : reordered w w.
Proof. split; reflexivity. Qed.

(* Nothing but the loop can run out of rounds *)

Lemma returns_ret {A} (a : A) : returns (ret a).
Proof. intros w. discriminate. Qed.

Lemma returns_raise {A} (e : exn) : returns (@raise A e).
Proof. intros w. discriminate. Qed.

Lemma returns_gets {A} (f : World -> A) : returns (gets f).
Proof. intros w. discriminate. Qed.

Lemma returns_modify (f : World -> World) : returns (modify f).
Proof. intros w. discriminate. Qed.

Lemma returns_lift_exn {A} (x : exn + A) : returns (lift_exn x).
Proof. destruct x; intros w; discriminate. Qed.

Lemma returns_bind {A B} (m : M A) (k : A -> M B) :
  returns m -> (forall a, returns (k a)) -> returns (bind m k).
Proof.
  intros Hm Hk w. unfold bind. specialize (Hm w).
  destruct (m w) as [a w'|e w'|]; [apply Hk|discriminate|contradiction].
Qed.

Lemma returns_for_range {L} (body : L -> M L) :
  (forall l, returns (body l)) -> forall n l, returns (for_range n body l).
Proof.
  intros Hb. induction n as [|n IH]; intros l; cbn [for_range].
  - apply returns_ret.
  - apply returns_bind; [apply Hb|exact IH].
Qed.

Create HintDb returns.

#[local] Hint Resolve returns_ret returns_raise returns_gets returns_modify
  returns_lift_exn : returns.

Ltac returns_step :=
  match goal with
  | |- returns (bind _ _) => apply returns_bind; [|intros ?]
  | |- returns (if ?b then _ else _) => destruct b
  | |- returns (match ?x with _ => _ end) => destruct x
  | |- returns _ => solve [auto with returns]
  end.

Lemma returns_print (e : event) : returns (print e).
Proof. apply returns_modify. Qed.

Lemma returns_set_pokemon (r : ref) (p : Pokemon) :
  returns (set_pokemon r p).
Proof. apply returns_modify. Qed.

Lemma returns_bind_team (s : Side) (adt : TeamADT) :
  returns (bind_team s adt).
Proof. apply returns_modify. Qed.

Lemma returns_get_pokemon (r : ref) : returns (get_pokemon r).
Proof. apply returns_gets. Qed.

#[local] Hint Resolve returns_print returns_set_pokemon returns_bind_team
  returns_get_pokemon : returns.

Lemma returns_deref (o : pyobj) : returns (deref o).
Proof. unfold deref. repeat returns_step. Qed.

Lemma returns_attack (a d : ref) : returns (attack a d).
Proof. unfold attack. repeat returns_step. Qed.

Lemma returns_defend (r : ref) (z : Z) : returns (defend r z).
Proof. unfold defend. repeat returns_step. Qed.

Lemma returns__evolve (r : ref) : returns (_evolve r).
Proof. unfold _evolve. repeat returns_step. Qed.

#[local] Hint Resolve returns_deref returns_attack returns_defend
  returns__evolve : returns.

Lemma returns_level_up (r : ref) : returns (level_up r).
Proof. unfold level_up. repeat returns_step. Qed.

Lemma returns_pokemon_is_alive (r : ref) : returns (pokemon_is_alive r).
Proof. unfold pokemon_is_alive. repeat returns_step. Qed.

Lemma returns_team_pop (s : Side) : returns (team_pop s).
Proof. unfold team_pop. repeat returns_step. Qed.

Lemma returns_team_push (s : Side) (x : pyobj) : returns (team_push s x).
Proof. unfold team_push. repeat returns_step. Qed.

Lemma returns_team_serve (s : Side) : returns (team_serve s).
Proof. unfold team_serve. repeat returns_step. Qed.

Lemma returns_team_append (s : Side) (x : pyobj) :
  returns (team_append s x).
Proof. unfold team_append. repeat returns_step. Qed.

Lemma returns_PokeTeam_len (s : Side) : returns (PokeTeam_len s).
Proof. unfold PokeTeam_len. repeat returns_step. Qed.

#[local] Hint Resolve returns_level_up returns_pokemon_is_alive
  returns_team_pop returns_team_push returns_team_serve returns_team_append
  returns_PokeTeam_len : returns.

Lemma returns_getitem_stack_search (s : Side) (index : Z) :
  forall n i temp, returns (getitem_stack_search s n i index temp).
Proof.
  induction n as [|n IH]; intros i temp; cbn [getitem_stack_search].
  - apply returns_ret.
  - apply returns_bind; [auto with returns|intros x].
    apply returns_bind; [auto with returns|intros temp'].
    destruct (i =? index)%Z; [repeat returns_step|apply IH].
Qed.

Lemma returns_getitem_stack_restore (s : Side) (temp : ArrayStack) :
  returns (getitem_stack_restore s temp).
Proof.
  unfold getitem_stack_restore. apply returns_for_range. intros l.
  repeat returns_step.
Qed.

Lemma returns_getitem_queue_cycle (s : Side) (index : Z) :
  forall n i found, returns (getitem_queue_cycle s n i index found).
Proof.
  induction n as [|n IH]; intros i found; cbn [getitem_queue_cycle].
  - apply returns_ret.
  - apply returns_bind; [auto with returns|intros x].
    apply returns_bind; [auto with returns|intros _]. apply IH.
Qed.

Lemma returns_read_local {A} (x : option A) : returns (read_local x).
Proof. unfold read_local. repeat returns_step. Qed.

#[local] Hint Resolve returns_getitem_stack_search
  returns_getitem_stack_restore returns_getitem_queue_cycle
  returns_read_local : returns.

Lemma returns_PokeTeam_getitem (s : Side) (index : Z) :
  returns (PokeTeam_getitem s index).
Proof. unfold PokeTeam_getitem. repeat returns_step. Qed.

Lemma returns_remove_pokemon (s : Side) : returns (remove_pokemon s).
Proof. unfold remove_pokemon. repeat returns_step. Qed.

Lemma returns_rotate_pokemon (s : Side) : returns (rotate_pokemon s).
Proof. unfold rotate_pokemon. repeat returns_step. Qed.

Lemma returns_assign_team (s : Side) (c : option string) :
  returns (assign_team s c).
Proof. unfold assign_team. repeat returns_step. Qed.

Lemma returns_register_pokemon (s : Side) (o : pyobj) :
  returns (register_pokemon s o).
Proof. unfold register_pokemon. repeat returns_step. Qed.

Lemma returns_get_pokedex_completion (s : Side) :
  returns (get_pokedex_completion s).
Proof. unfold get_pokedex_completion. repeat returns_step. Qed.

#[local] Hint Resolve returns_PokeTeam_getitem returns_remove_pokemon
  returns_rotate_pokemon returns_assign_team returns_register_pokemon
  returns_get_pokedex_completion : returns.

Lemma returns_killed (a d : ref) (s : Side) (together : bool) :
  returns (killed a d s together).
Proof. unfold killed. repeat returns_step. Qed.

#[local] Hint Resolve returns_killed : returns.

Lemma returns_attack_and_defend (a d : ref) (ta td : Side) :
  returns (attack_and_defend a d ta td).
Proof. unfold attack_and_defend. repeat returns_step. Qed.

Lemma returns_deduct_two (p1 p2 : ref) : returns (deduct_two p1 p2).
Proof. unfold deduct_two. repeat returns_step. Qed.

Lemma returns_snapshot (o : pyobj) : returns (snapshot o).
Proof. unfold snapshot. repeat returns_step. Qed.

#[local] Hint Resolve returns_attack_and_defend returns_deduct_two
  returns_snapshot : returns.

Lemma returns_fight (p1 p2 : pyobj) : returns (fight p1 p2).
Proof. unfold fight. repeat returns_step. Qed.

#[local] Hint Resolve returns_fight : returns.

Lemma returns_fight_enemy_pokemon : returns fight_enemy_pokemon.
Proof. unfold fight_enemy_pokemon. repeat returns_step. Qed.

Lemma returns_battle_result : returns battle_result.
Proof. unfold battle_result. repeat returns_step. Qed.

Lemma returns_print_assembled (mode : BattleMode) :
  returns (print_assembled mode).
Proof. unfold print_assembled. repeat returns_step. Qed.

#[local] Hint Resolve returns_fight_enemy_pokemon returns_battle_result
  returns_print_assembled : returns.

Lemma returns_after_fight_of (b : Battle) (ps : pyobj * pyobj) :
  returns (after_fight_of b ps).
Proof. unfold after_fight_of. destruct (battle_mode b); repeat returns_step. Qed.

Lemma returns_battle_round (after_fight : pyobj * pyobj -> M unit) (i : Z) :
  (forall ps, returns (after_fight ps)) ->
  returns (battle_round after_fight i).
Proof. intros H. unfold battle_round. repeat returns_step. Qed.

(* Every round brings the battle closer to its end *)

Lemma shrunk_closer (w w' : World) : shrunk w w' -> closer_to_end w' w.
Proof.
  intros [L [s Hs]]. left. unfold roster_size.
  pose proof (L Side1). pose proof (L Side2). destruct s; lia.
Qed.

Lemma quiet_closer (w w' : World) (r1 : ref) :
  quiet w w' ->
  In (Some r1) (members Side1 w) ->
  (health (store w' r1) <= health (store w r1) - 1)%Q ->
  is_alive (store w' r1) = true ->
  closer_to_end w' w.
Proof.
  intros Hq Hin Hone Halive. right. unfold roster_size, vitality.
  rewrite !(quiet_members w w' _ Hq). split; [reflexivity|].
  apply (vitality_of_lt _ _ _ r1); [apply Hq| |].
  - apply in_or_app. left. exact Hin.
  - apply hit_points_lt; assumption.
Qed.

Lemma closer_reordered (w w1 w2 : World) :
  closer_to_end w1 w -> reordered w1 w2 -> closer_to_end w2 w.
Proof.
  intros Hc Hr. destruct (reordered_measure _ _ Hr) as [E1 E2].
  unfold closer_to_end in *. rewrite E1, E2. exact Hc.
Qed.

Lemma members_front (s : Side) (w : World) :
  battle_ready w -> (0 < team_len (get_team s w))%nat ->
  exists x rest, members s w = x :: rest.
Proof.
  intros [Ht _] Hlen. destruct (Ht s) as [Ha _].
  unfold team_len in Hlen. unfold members.
  destruct (team (get_team s w)) as [array|st|q|items]; [destruct Ha|..];
    match goal with
    | |- exists x rest, ?l = _ =>
        destruct l as [|x rest]; [cbn in Hlen; lia|exists x, rest; reflexivity]
    end.
Qed.

Lemma fight_enemy_progress (w w' : World) (ps : pyobj * pyobj) :
  fight_enemy_pokemon w = Ok ps w' ->
  battle_ready w ->
  (0 < team_len (get_team Side1 w))%nat ->
  (0 < team_len (get_team Side2 w))%nat ->
  battle_ready w' /\ closer_to_end w' w.
Proof.
  intros H Hready L1 L2.
  destruct (members_front Side1 w Hready L1) as (x1 & rest1 & M1).
  destruct (members_front Side2 w Hready L2) as (x2 & rest2 & M2).
  unfold fight_enemy_pokemon in H.
  destruct (PokeTeam_getitem_run Side1 w 0) as (y1 & Hy1 & G1).
  { apply Hready. }
  { unfold members in M1. rewrite M1. cbn [length]. lia. }
  destruct (PokeTeam_getitem_run Side2 w 0) as (y2 & Hy2 & G2).
  { apply Hready. }
  { unfold members in M2. rewrite M2. cbn [length]. lia. }
  unfold members in M1, M2. rewrite M1 in Hy1. rewrite M2 in Hy2.
  cbn in Hy1, Hy2. injection Hy1 as <-. injection Hy2 as <-.
  unfold bind at 1 in H. rewrite G1 in H.
  unfold bind at 1 in H. rewrite G2 in H.
  apply bind_Ok in H. destruct H as ([] & w1 & Hf & H).
  injection H as _ <-.
  destruct x1 as [r1|]; [|exfalso; exact (fight_None_l _ _ _ Hf)].
  destruct x2 as [r2|]; [|exfalso; exact (fight_None_r _ _ _ Hf)].
  destruct (fight_progress r1 r2 w w1 Hf Hready)
    as [Hr [Hs|(Hq & Hone & Halive)]]; (split; [exact Hr|]).
  - apply shrunk_closer. exact Hs.
  - apply (quiet_closer w w1 r1); try assumption.
    unfold members. rewrite M1. left. reflexivity.
Qed.

Lemma battle_round_progress (after_fight : pyobj * pyobj -> M unit)
      (i : Z) (w w' : World) :
  (forall ps w1 w2, after_fight ps w1 = Ok tt w2 -> battle_ready w1 ->
                    battle_ready w2 /\ reordered w1 w2) ->
  battle_round after_fight i w = Ok tt w' ->
  battle_ready w ->
  (0 < team_len (get_team Side1 w))%nat ->
  (0 < team_len (get_team Side2 w))%nat ->
  battle_ready w' /\ closer_to_end w' w.
Proof.
  intros Hafter H Hready L1 L2. unfold battle_round in H.
  apply bind_Ok in H. destruct H as ([] & w0 & H0 & H).
  injection H0 as <-.
  apply bind_Ok in H. destruct H as (ps & w1 & Hf & H).
  match type of Hf with
  | fight_enemy_pokemon ?w0 = _ => set (wp := w0) in *
  end.
  assert (Hp : battle_ready wp).
  { apply (ready_same_teams w); [exact Hready| |apply Hready].
    intros s. destruct s; reflexivity. }
  destruct (fight_enemy_progress wp w1 ps Hf Hp L1 L2) as [Hr1 Hc].
  destruct (Hafter ps w1 w' H Hr1) as [Hr Hre].
  split; [exact Hr|].
  exact (closer_reordered w w1 w' Hc Hre).
Qed.

Lemma after_fight_of_reorder (b : Battle) (ps : pyobj * pyobj)
      (w1 w2 : World) :
  after_fight_of b ps w1 = Ok tt w2 ->
  battle_ready w1 ->
  battle_ready w2 /\ reordered w1 w2.
Proof.
  unfold after_fight_of. intros H Hready. destruct (battle_mode b).
  - injection H as <-. split; [exact Hready|apply reordered_refl].
  - apply bind_Ok in H. destruct H as (r1 & w0 & H0 & H).
    assert (w0 = w1) by (destruct (fst ps); [injection H0 as _ <-; reflexivity|discriminate]).
    subst w0. clear H0.
    apply bind_Ok in H. destruct H as (a1 & w0 & H0 & H).
    injection H0 as _ <-.
    apply bind_Ok in H. destruct H as ([] & w3 & H3 & H).
    assert (Hr3 : battle_ready w3 /\ reordered w1 w3).
    { destruct a1.
      - apply (rotate_pokemon_reorder Side1); assumption.
      - injection H3 as <-. split; [exact Hready|apply reordered_refl]. }
    destruct Hr3 as [Hr3 Hre3].
    apply bind_Ok in H. destruct H as (r2 & w0 & H0 & H).
    assert (w0 = w3) by (destruct (snd ps); [injection H0 as _ <-; reflexivity|discriminate]).
    subst w0. clear H0.
    apply bind_Ok in H. destruct H as (a2 & w0 & H0 & H).
    injection H0 as _ <-.
    destruct a2.
    + destruct (rotate_pokemon_reorder Side2 w3 w2 H Hr3) as [Hr Hre].
      split; [exact Hr|exact (reordered_trans _ _ _ Hre3 Hre)].
    + injection H as <-. split; assumption.
  - apply bind_Ok in H. destruct H as ([] & w3 & H3 & H).
    destruct (assign_team_reorder _ _ _ _ H3 Hready) as [Hr3 Hre3].
    destruct (assign_team_reorder _ _ _ _ H Hr3) as [Hr Hre].
    split; [exact Hr|exact (reordered_trans _ _ _ Hre3 Hre)].
Qed.

Lemma closer_induction (P : World -> Prop) :
  (forall w, (forall w', closer_to_end w' w -> P w') -> P w) ->
  forall w, P w.
Proof.
  intros Hstep.
  assert (A : forall n w, (roster_size w < n)%nat -> P w).
  { induction n as [|n IHn]; intros w Hn; [lia|].
    assert (B : forall h w0, roster_size w0 = roster_size w ->
                             (vitality w0 < h)%nat -> P w0).
    { induction h as [|h IHh]; intros w0 E Hh; [lia|].
      apply Hstep. intros w' [Hlt|[Heq Hlt]].
      - apply IHn. lia.
      - apply IHh; lia. }
    apply (B (S (vitality w)) w); [reflexivity|lia]. }
  intros w. apply (A (S (roster_size w))). lia.
Qed.

Lemma battle_loop_round (after_fight : pyobj * pyobj -> M unit)
      (rounds : nat) (i : Z) (w : World) :
  battle_loop after_fight (S rounds) i w
  = if (0 <? team_len (get_team Side1 w))%nat
       && (0 <? team_len (get_team Side2 w))%nat
    then match battle_round after_fight (i + 1) w with
         | Ok _ w' => battle_loop after_fight rounds (i + 1) w'
         | Raise e w' => Raise e w'
         | Timeout => Timeout
         end
    else Ok tt w.
Proof.
  rewrite battle_loop_unfold.
  destruct ((0 <? team_len (get_team Side1 w))%nat
            && (0 <? team_len (get_team Side2 w))%nat); [|reflexivity].
  unfold battle_round, bind.
  destruct (print (PrintRound (i + 1)) w) as [[] w0|e w0|]; try reflexivity.
  destruct (fight_enemy_pokemon w0) as [ps w1|e w1|]; reflexivity.
Qed.

(** The loop of a battle between ready teams comes back. *)
Lemma battle_loop_returns (after_fight : pyobj * pyobj -> M unit) :
  (forall ps, returns (after_fight ps)) ->
  (forall ps w1 w2, after_fight ps w1 = Ok tt w2 -> battle_ready w1 ->
                    battle_ready w2 /\ reordered w1 w2) ->
  forall w, battle_ready w ->
            forall i, exists rounds,
              battle_loop after_fight rounds i w <> Timeout.
Proof.
  intros Hret Hafter w. pattern w. apply closer_induction. clear w.
  intros w IH Hready i.
  destruct ((0 <? team_len (get_team Side1 w))%nat
            && (0 <? team_len (get_team Side2 w))%nat) eqn:E.
  - apply andb_true_iff in E. rewrite !Nat.ltb_lt in E. destruct E as [L1 L2].
    destruct (battle_round after_fight (i + 1) w) as [[] w'|e w'|] eqn:R.
    + destruct (battle_round_progress _ _ _ _ Hafter R Hready L1 L2)
        as [Hr Hc].
      destruct (IH w' Hc Hr (i + 1)%Z) as [rounds Hrounds].
      exists (S rounds). rewrite battle_loop_round, R.
      replace ((0 <? team_len (get_team Side1 w))%nat
               && (0 <? team_len (get_team Side2 w))%nat) with true
        by (symmetry; apply andb_true_iff; rewrite !Nat.ltb_lt; auto).
      exact Hrounds.
    + exists 1%nat. rewrite battle_loop_round, R.
      replace ((0 <? team_len (get_team Side1 w))%nat
               && (0 <? team_len (get_team Side2 w))%nat) with true
        by (symmetry; apply andb_true_iff; rewrite !Nat.ltb_lt; auto).
      discriminate.
    + exfalso. exact (returns_battle_round after_fight (i + 1) Hret w R).
  - exists 1%nat. rewrite battle_loop_round, E. discriminate.
Qed.

(** More rounds than needed change nothing. *)
Lemma battle_loop_more (after_fight : pyobj * pyobj -> M unit) :
  forall rounds i w,
    battle_loop after_fight rounds i w <> Timeout ->
    battle_loop after_fight (S rounds) i w
    = battle_loop after_fight rounds i w.
Proof.
  induction rounds as [|rounds IH]; intros i w H.
  - exfalso. apply H. reflexivity.
  - rewrite battle_loop_round in H. rewrite (battle_loop_round _ (S rounds)).
    rewrite (battle_loop_round _ rounds).
    destruct ((0 <? team_len (get_team Side1 w))%nat
              && (0 <? team_len (get_team Side2 w))%nat); [|reflexivity].
    destruct (battle_round after_fight (i + 1) w) as [[] w'|e w'|];
      try reflexivity.
    apply IH. exact H.
Qed.

Lemma returns_announce (win_team : option Side) : returns (announce win_team).
Proof. unfold announce. repeat returns_step. Qed.

End Termination.

(* ------------------------------------------------------------------ *)
(** ** The battle as a whole *)

Lemma commence_battle_loop (b : Battle) (rounds : nat) (w : World) :
  commence_battle b rounds w
  = if (team_len (get_team Side1 w) <=? 0)%nat
       || (team_len (get_team Side2 w) <=? 0)%nat
    then Raise no_teams w
    else match battle_loop (after_fight_of b) rounds 0
                           (assembled_world (battle_mode b) w) with
         | Ok _ w2 => bind battle_result announce w2
         | Raise e w2 => Raise e w2
         | Timeout => Timeout
         end.
Proof.
  unfold commence_battle.
  unfold bind at 1. rewrite PokeTeam_len_run.
  unfold bind at 1. rewrite PokeTeam_len_run.
  unfold bind at 1.
  destruct ((team_len (get_team Side1 w) <=? 0)%nat
            || (team_len (get_team Side2 w) <=? 0)%nat); [reflexivity|].
  cbv beta iota delta [ret].
  destruct b as [mode crit]. unfold after_fight_of.
  cbn [battle_mode battle_criterion].
  destruct mode;
    unfold set_battle, rotate_battle, optimise_battle;
    cbn [battle_criterion];
    unfold bind at 1; unfold bind at 1;
    change (print_assembled ?m w)
      with (Ok tt (assembled_world m w));
    cbv beta iota;
    unfold bind at 1;
    match goal with
    | |- context [battle_loop ?a rounds 0 ?w0] =>
        destruct (battle_loop a rounds 0 w0) as [[] w2|e w2|];
          try reflexivity
    end;
    unfold bind; destruct (battle_result w2) as [[[|]|] w3|e w3|];
      reflexivity.
Qed.

Lemma battle_loop_enough (after_fight : pyobj * pyobj -> M unit) :
  forall more rounds i w,
    battle_loop after_fight rounds i w <> Timeout ->
    battle_loop after_fight (rounds + more) i w
    = battle_loop after_fight rounds i w.
Proof.
  induction more as [|more IH]; intros rounds i w H.
  - rewrite Nat.add_0_r. reflexivity.
  - replace (rounds + S more)%nat with (S (rounds + more)) by lia.
    rewrite battle_loop_more; [apply IH; exact H|].
    rewrite IH by exact H. exact H.
Qed.

Lemma ready_assembled_world (mode : BattleMode) (w : World) :
  battle_ready w -> battle_ready (assembled_world mode w).
Proof.
  intros H. apply (ready_same_teams w); [exact H| |apply H].
  intros s. destruct s; reflexivity.
Qed.

(** A battle between ready teams ends: with enough rounds it returns or
    raises, and more rounds give the same outcome. *)
Lemma commence_battle_returns (b : Battle) (w : World) :
  (forall a d, (0 <= EFFECT_TABLE a d)%Q) ->
  battle_ready w ->
  exists enough,
    commence_battle b enough w <> Timeout
    /\ forall more,
         commence_battle b (enough + more) w = commence_battle b enough w.
Proof.
  intros Htable Hready.
  destruct (battle_loop_returns Htable (after_fight_of b)
              (returns_after_fight_of b)
              (after_fight_of_reorder b)
              (assembled_world (battle_mode b) w)
              (ready_assembled_world _ w Hready) 0%Z)
    as [enough Henough].
  exists enough. split.
  - rewrite commence_battle_loop.
    destruct ((team_len (get_team Side1 w) <=? 0)%nat
              || (team_len (get_team Side2 w) <=? 0)%nat); [discriminate|].
    destruct (battle_loop (after_fight_of b) enough 0
                          (assembled_world (battle_mode b) w))
      as [[] w2|e w2|]; [|discriminate|contradiction].
    apply returns_bind; [apply returns_battle_result|].
    apply returns_announce.
  - intros more. rewrite !commence_battle_loop.
    rewrite battle_loop_enough by exact Henough. reflexivity.
Qed.

(** C7.  A battle that returns has left its loop because a team reached
    size 0, and the loop entered with an empty team stops at once.  If
    exactly one team is empty the trainer returned owns the other one; if
    both are empty no trainer is returned: a draw.  Between ready teams,
    with a type table without negative entries, the battle does end:
    enough rounds give an outcome, which more rounds do not change. *)
Theorem battle_outcome (b : Battle) (w : World) :
  (forall rounds winner w',
     commence_battle b rounds w = Ok winner w' ->
     (team_len (get_team Side1 w') = 0%nat
      \/ team_len (get_team Side2 w') = 0%nat)
     /\ match winner with
        | Some Side1 => team_len (get_team Side1 w') <> 0%nat
                        /\ team_len (get_team Side2 w') = 0%nat
        | Some Side2 => team_len (get_team Side1 w') = 0%nat
                        /\ team_len (get_team Side2 w') <> 0%nat
        | None => team_len (get_team Side1 w') = 0%nat
                  /\ team_len (get_team Side2 w') = 0%nat
        end)
  /\ (forall after_fight n i w0,
        team_len (get_team Side1 w0) = 0%nat
        \/ team_len (get_team Side2 w0) = 0%nat ->
        battle_loop after_fight (S n) i w0 = Ok tt w0)
  /\ ((forall a d, (0 <= EFFECT_TABLE a d)%Q) ->
      battle_ready w ->
      exists enough,
        commence_battle b enough w <> Timeout
        /\ forall more,
             commence_battle b (enough + more) w
             = commence_battle b enough w).
Proof.
  split; [|split].
  - intros rounds winner w' H.
    destruct (commence_battle_result b rounds w w' winner H) as (H1 & H2 & _).
    split; assumption.
  - intros after_fight n i w0 Hempty. rewrite battle_loop_unfold.
    replace ((0 <? team_len (get_team Side1 w0))%nat
             && (0 <? team_len (get_team Side2 w0))%nat) with false;
      [reflexivity|].
    symmetry. apply andb_false_iff. rewrite !Nat.ltb_ge. lia.
  - apply commence_battle_returns.
Qed.


(* ------------------------------------------------------------------ *)
(** * Further properties of the program *)

(** ** Levelling up and evolving *)

Lemma list_index_nth (x : string) (l : list string) (i : nat) :
  list_index x l = Some i -> nth_error l i = Some x.
Proof.
  revert i. induction l as [|y l IH]; intros i; [discriminate|].
  cbn [list_index]. destruct (String.eqb_spec y x) as [->|Hne].
  - intros H. injection H as <-. reflexivity.
  - destruct (list_index x l) as [j|]; [|discriminate].
    intros H. injection H as <-. cbn [nth_error]. apply IH. reflexivity.
Qed.

Lemma list_index_lt (x : string) (l : list string) (i : nat) :
  list_index x l = Some i -> (i < length l)%nat.
Proof.
  intros H. apply list_index_nth in H.
  apply nth_error_Some. congruence.
Qed.

(** X1.  [level_up] on a Pokemon whose name has a successor in its
    evolution line returns: the level goes up by one, the name becomes
    the successor, health, battle power, speed and defence are multiplied
    by 1.5, the evolution is announced, and nothing else changes. *)
Theorem level_up_evolves (self : ref) (w : World) (i : nat)
        (evolved_name : string) :
  list_index (name (store w self)) (evolution_line (store w self)) = Some i ->
  nth_error (evolution_line (store w self)) (i + 1) = Some evolved_name ->
  exists w',
    level_up self w = Ok tt w'
    /\ store w' self
       = mkPokemon (health (store w self) * 1.5)
                   (level (store w self) + 1)
                   (poketype (store w self))
                   (battle_power (store w self) * 1.5)
                   (evolution_line (store w self))
                   evolved_name
                   (experience (store w self))
                   (defence (store w self) * 1.5)
                   (speed (store w self) * 1.5)
    /\ (forall r, r <> self -> store w' r = store w r)
    /\ trainer_1 w' = trainer_1 w
    /\ trainer_2 w' = trainer_2 w
    /\ stdout w'
       = stdout w ++ [PrintEvolve (name (store w self)) evolved_name].
Proof.
  intros Hi Hn.
  assert (Hlen : (i + 1 < length (evolution_line (store w self)))%nat)
    by (apply nth_error_Some; congruence).
  eexists. split.
  - unfold level_up, bind, get_pokemon, gets, set_pokemon, modify.
    replace (0 <? length (evolution_line (store w self)))%nat with true
      by (symmetry; apply Nat.ltb_lt; lia).
    rewrite Hi.
    replace (i =? length (evolution_line (store w self)) - 1)%nat with false
      by (symmetry; apply Nat.eqb_neq; lia).
    cbn [negb]. unfold _evolve, bind, get_pokemon, gets. cbn [store].
    rewrite update_store_same. cbn [with_level name evolution_line].
    rewrite Hi, Hn. reflexivity.
  - cbn [store trainer_1 trainer_2 stdout]. rewrite update_store_same.
    split; [reflexivity|]. split; [|auto].
    intros r Hr. rewrite !update_store_other by exact Hr. reflexivity.
Qed.

(** X2.  [level_up] on a Pokemon that is at the last stage of its
    evolution line, or has no evolution line, returns and changes the
    level only: nothing is printed and every other stat is kept. *)
Theorem level_up_last_stage (self : ref) (w : World) :
  evolution_line (store w self) = []
  \/ list_index (name (store w self)) (evolution_line (store w self))
     = Some (length (evolution_line (store w self)) - 1)%nat ->
  exists w',
    level_up self w = Ok tt w'
    /\ store w' self
       = with_level (level (store w self) + 1) (store w self)
    /\ (forall r, r <> self -> store w' r = store w r)
    /\ trainer_1 w' = trainer_1 w
    /\ trainer_2 w' = trainer_2 w
    /\ stdout w' = stdout w.
Proof.
  intros H. eexists. split.
  - unfold level_up, bind, get_pokemon, gets, set_pokemon, modify.
    destruct H as [H|H].
    + rewrite H. cbn [length Nat.ltb Nat.leb]. reflexivity.
    + rewrite H, Nat.eqb_refl. cbn [negb].
      destruct (0 <? length (evolution_line (store w self)))%nat;
        reflexivity.
  - cbn [store trainer_1 trainer_2 stdout]. rewrite update_store_same.
    split; [reflexivity|]. split; [|auto].
    intros r Hr. rewrite update_store_other by exact Hr. reflexivity.
Qed.

(** X3.  [level_up] on a Pokemon whose name is not in its non-empty
    evolution line raises [ValueError], and by then the level has been
    raised: the failed call leaves the Pokemon one level up. *)
Theorem level_up_unknown_name (self : ref) (w : World) :
  evolution_line (store w self) <> [] ->
  list_index (name (store w self)) (evolution_line (store w self)) = None ->
  exists w',
    level_up self w = Raise (ValueError "is not in list") w'
    /\ store w' self
       = with_level (level (store w self) + 1) (store w self)
    /\ (forall r, r <> self -> store w' r = store w r)
    /\ stdout w' = stdout w.
Proof.
  intros Hne Hi. eexists. split.
  - unfold level_up, bind, get_pokemon, gets, set_pokemon, modify.
    rewrite Hi.
    destruct (evolution_line (store w self)); [contradiction|].
    reflexivity.
  - cbn [store stdout]. rewrite update_store_same.
    split; [reflexivity|]. split; [|reflexivity].
    intros r Hr. rewrite update_store_other by exact Hr. reflexivity.
Qed.

(** X4.  [level_up] neither revives nor kills: whatever it does to the
    stats, every Pokemon is alive after it exactly when it was before. *)
Theorem level_up_keeps_alive (self : ref) (w w' : World) :
  level_up self w = Ok tt w' ->
  forall r, is_alive (store w' r) = is_alive (store w r).
Proof.
  intros H r.
  destruct (level_up_cases self w w' H) as (_ & _ & Hother & Hself).
  destruct (Nat.eq_dec r self) as [->|Hr]; [|rewrite Hother; auto].
  destruct Hself as [-> | [nm ->]]; [reflexivity|].
  unfold is_alive. cbn [evolve_pokemon with_level health].
  destruct (Qlt_bool 0 (health (store w self))) eqn:E.
  - apply Qlt_bool_iff in E. apply Qlt_bool_iff. lra.
  - apply Qlt_bool_false_iff in E. apply Qlt_bool_false_iff. lra.
Qed.


(* ------------------------------------------------------------------ *)
(** ** The chip-damage step *)

(** What [killed] does to the two teams and to the objects. *)
Lemma killed_effect (winner dead : ref) (s : Side) (together_dead : bool)
      (w w' : World) :
  killed winner dead s together_dead w = Ok tt w' ->
  get_team (other_side s) w' = get_team (other_side s) w
  /\ (is_assembled (team (get_team s w)) ->
      members s w' = tl (members s w))
  /\ (forall r, r <> winner -> store w' r = store w r)
  /\ (if together_dead then store w' winner = store w winner
      else level (store w' winner) = (level (store w winner) + 1)%Z).
Proof.
  unfold killed. intros H.
  apply bind_Ok in H. destruct H as (p & w0 & H0 & H).
  injection H0 as <- <-.
  apply bind_Ok in H. destruct H as ([] & w1 & H1 & H).
  injection H1 as <-.
  apply bind_Ok in H. destruct H as ([] & w2 & H2 & H).
  apply remove_pokemon_spec in H2. destruct H2 as (adt' & -> & Hadt).
  assert (Hmem : is_assembled (team (get_team s w)) ->
                 team_order adt' = tl (members s w))
    by (intros Ha; apply Hadt; destruct s; exact Ha).
  destruct together_dead; cbn [negb] in H.
  - injection H as <-. split; [destruct s; reflexivity|].
    split; [intros Ha; unfold members; rewrite team_put_team; auto|].
    split; [intros r _; rewrite store_put_team; reflexivity|].
    rewrite store_put_team. reflexivity.
  - apply level_up_spec in H. destruct H as (Hl & Ht1 & Ht2 & Hother).
    split; [rewrite (get_team_trainers _ _ _ Ht1 Ht2); destruct s;
            reflexivity|].
    split; [intros Ha; unfold members;
            rewrite (get_team_trainers _ _ _ Ht1 Ht2), team_put_team; auto|].
    split; [intros r Hr; rewrite Hother by exact Hr;
            rewrite store_put_team; reflexivity|].
    rewrite Hl, store_put_team. reflexivity.
Qed.

(** X5.  The chip-damage step, [deduct_two], on two distinct Pokemon:
    each defends against a damage of 2.  If both are then alive nothing
    else happens.  If both have fainted, each is removed from the front
    of its team and neither gains a level.  If exactly one has fainted,
    it is removed and the survivor gains exactly one level. *)
Theorem deduct_two_outcomes (p1 p2 : ref) (w w' : World) :
  p1 <> p2 ->
  is_assembled (team (get_team Side1 w)) ->
  is_assembled (team (get_team Side2 w)) ->
  deduct_two p1 p2 w = Ok tt w' ->
  let d1 := defend_pokemon 2 (store w p1) in
  let d2 := defend_pokemon 2 (store w p2) in
  match is_alive d1, is_alive d2 with
  | true, true =>
      store w' p1 = d1 /\ store w' p2 = d2
      /\ members Side1 w' = members Side1 w
      /\ members Side2 w' = members Side2 w
  | false, false =>
      store w' p1 = d1 /\ store w' p2 = d2
      /\ members Side1 w' = tl (members Side1 w)
      /\ members Side2 w' = tl (members Side2 w)
  | false, true =>
      store w' p1 = d1
      /\ level (store w' p2) = (level (store w p2) + 1)%Z
      /\ members Side1 w' = tl (members Side1 w)
      /\ members Side2 w' = members Side2 w
  | true, false =>
      level (store w' p1) = (level (store w p1) + 1)%Z
      /\ store w' p2 = d2
      /\ members Side1 w' = members Side1 w
      /\ members Side2 w' = tl (members Side2 w)
  end.
Proof.
  intros Hne Ha1 Ha2 Hrun d1 d2. unfold deduct_two in Hrun.
  apply bind_Ok in Hrun. destruct Hrun as ([] & w1 & H1 & Hrun).
  rewrite defend_run in H1. injection H1 as <-.
  apply bind_Ok in Hrun. destruct Hrun as ([] & w2 & H2 & Hrun).
  rewrite defend_run in H2. injection H2 as <-.
  cbn [store next_ref trainer_1 trainer_2 stdout] in Hrun.
  match type of Hrun with
  | bind _ _ ?w2 = _ => set (wd := w2) in *
  end.
  assert (S1 : store wd p1 = d1).
  { unfold wd. cbn [store]. rewrite update_store_other by exact Hne.
    apply update_store_same. }
  assert (S2 : store wd p2 = d2).
  { unfold wd. cbn [store]. rewrite update_store_same.
    rewrite update_store_other by (intros E; apply Hne; symmetry; exact E).
    reflexivity. }
  assert (L1 : level (store wd p1) = level (store w p1))
    by (rewrite S1; reflexivity).
  assert (L2 : level (store wd p2) = level (store w p2))
    by (rewrite S2; reflexivity).
  assert (T : forall s, get_team s wd = get_team s w)
    by (intros s; destruct s; reflexivity).
  assert (Mm : forall s, members s wd = members s w)
    by (intros s; unfold members; rewrite T; reflexivity).
  apply bind_Ok in Hrun. destruct Hrun as (a1 & w3 & H3 & Hrun).
  assert (E1 : a1 = is_alive (store wd p1) /\ w3 = wd)
    by (injection H3 as <- <-; split; reflexivity).
  destruct E1 as [-> ->]. clear H3.
  apply bind_Ok in Hrun. destruct Hrun as (a2 & w3 & H3 & Hrun).
  assert (E2 : a2 = is_alive (store wd p2) /\ w3 = wd)
    by (injection H3 as <- <-; split; reflexivity).
  destruct E2 as [-> ->]. clear H3.
  revert Hrun. rewrite S1, S2.
  destruct (is_alive d1) eqn:A1; destruct (is_alive d2) eqn:A2;
    cbn [negb andb]; intros Hrun.
  - injection Hrun as <-. repeat split; auto.
  - apply killed_effect in Hrun.
    destruct Hrun as (Hteam & Hmem & Hother & Hlev).
    cbn [other_side] in Hteam.
    split; [rewrite Hlev, L1; reflexivity|].
    split; [rewrite Hother by (intros E; apply Hne; symmetry; exact E);
            exact S2|].
    split; [unfold members; rewrite Hteam, T; reflexivity|].
    rewrite Hmem by (rewrite T; exact Ha2). rewrite Mm. reflexivity.
  - apply killed_effect in Hrun.
    destruct Hrun as (Hteam & Hmem & Hother & Hlev).
    cbn [other_side] in Hteam.
    split; [rewrite Hother by exact Hne; exact S1|].
    split; [rewrite Hlev, L2; reflexivity|].
    split; [rewrite Hmem by (rewrite T; exact Ha1); rewrite Mm;
            reflexivity|].
    unfold members. rewrite Hteam, T. reflexivity.
  - apply bind_Ok in Hrun. destruct Hrun as ([] & w3 & H3 & Hrun).
    apply killed_effect in H3.
    destruct H3 as (Hteam3 & Hmem3 & Hother3 & Hlev3).
    apply killed_effect in Hrun.
    destruct Hrun as (Hteam & Hmem & Hother & Hlev).
    cbn [other_side] in Hteam, Hteam3.
    assert (St : forall r, store w' r = store wd r).
    { intros r. destruct (Nat.eq_dec r p2) as [->|Hr].
      - rewrite Hlev. apply Hother3.
        intros E; apply Hne; symmetry; exact E.
      - rewrite Hother by exact Hr.
        destruct (Nat.eq_dec r p1) as [->|Hr1];
          [exact Hlev3|apply Hother3; exact Hr1]. }
    split; [rewrite St; exact S1|]. split; [rewrite St; exact S2|].
    split.
    + rewrite Hmem by (rewrite Hteam3, T; exact Ha1).
      unfold members. rewrite Hteam3, T. reflexivity.
    + unfold members at 1. rewrite Hteam. fold (members Side2 w3).
      rewrite Hmem3 by (rewrite T; exact Ha2). rewrite Mm. reflexivity.
Qed.


(* ------------------------------------------------------------------ *)
(** ** The special move on a stack and on a queue *)

(** First loop of [special] in set mode: [k] pops, each pushed onto the
    temporary stack. *)
Lemma special_set_unload (s : Side) (c ct : nat) (w : World) :
  forall (k : nat) (l acc : list pyobj),
    (k <= length l)%nat ->
    (length acc + k <= ct)%nat ->
    for_range k
      (fun temp => x <- team_pop s ;; lift_exn (stack_push x temp))
      (mkStack ct acc)
      (put_team s (TArrayStack (mkStack c l)) w)
    = Ok (mkStack ct (rev (firstn k l) ++ acc))
         (put_team s (TArrayStack (mkStack c (skipn k l))) w).
Proof.
  induction k as [|k IH]; intros l acc Hk Hc; [reflexivity|].
  destruct l as [|x l]; [cbn [length] in Hk; lia|].
  cbn [for_range]. unfold bind at 1. unfold bind at 1.
  rewrite team_pop_run.
  unfold stack_push. cbn [stack_items stack_capacity].
  replace (length acc <? ct)%nat with true
    by (symmetry; apply Nat.ltb_lt; lia).
  cbn [lift_exn ret].
  rewrite IH by (cbn [length] in *; lia).
  cbn [firstn rev skipn]. rewrite <- app_assoc. reflexivity.
Qed.

(** Second loop: [k] elements go from one temporary stack to the other. *)
Lemma special_set_transfer (c1 c2 : nat) (w : World) :
  forall (k : nat) (a b : list pyobj),
    (k <= length a)%nat ->
    (length b + k <= c2)%nat ->
    for_range k
      (fun temps : ArrayStack * ArrayStack =>
         r <- lift_exn (stack_pop (fst temps)) ;;
         s2 <- lift_exn (stack_push (fst r) (snd temps)) ;;
         ret (snd r, s2))
      (mkStack c1 a, mkStack c2 b) w
    = Ok (mkStack c1 (skipn k a), mkStack c2 (rev (firstn k a) ++ b)) w.
Proof.
  induction k as [|k IH]; intros a b Hk Hc; [reflexivity|].
  destruct a as [|x a]; [cbn [length] in Hk; lia|].
  cbn [for_range]. unfold bind at 1. unfold bind at 1.
  cbn [fst snd stack_pop stack_items stack_capacity lift_exn ret].
  unfold bind at 1. unfold stack_push. cbn [stack_items stack_capacity].
  replace (length b <? c2)%nat with true
    by (symmetry; apply Nat.ltb_lt; lia).
  cbn [lift_exn ret fst snd].
  rewrite IH by (cbn [length] in *; lia).
  cbn [firstn rev skipn]. rewrite <- app_assoc. reflexivity.
Qed.

(** Third loop: [k] elements go from the temporary stack to the team. *)
Lemma special_set_reload (s : Side) (c ct : nat) (w : World) :
  forall (k : nat) (acc l : list pyobj),
    (k <= length acc)%nat ->
    (k + length l <= c)%nat ->
    for_range k
      (fun temp => r <- lift_exn (stack_pop temp) ;;
                   team_push s (fst r) ;;
                   ret (snd r))
      (mkStack ct acc)
      (put_team s (TArrayStack (mkStack c l)) w)
    = Ok (mkStack ct (skipn k acc))
         (put_team s (TArrayStack (mkStack c (rev (firstn k acc) ++ l))) w).
Proof.
  induction k as [|k IH]; intros acc l Hk Hc; [reflexivity|].
  destruct acc as [|x acc]; [cbn [length] in Hk; lia|].
  cbn [for_range]. unfold bind at 1. unfold bind at 1.
  cbn [stack_pop stack_items lift_exn ret fst snd stack_capacity].
  unfold bind at 1. rewrite team_push_run by lia.
  cbn [ret]. rewrite IH by (cbn [length] in *; lia).
  cbn [firstn rev skipn]. rewrite <- app_assoc. reflexivity.
Qed.

Lemma special_set_run (self : Side) (w : World) (c : nat) (l : list pyobj) :
  team (get_team self w) = TArrayStack (mkStack c l) ->
  (length l <= c)%nat ->
  (team_count (get_team self w) / 2 <= length l)%nat ->
  special self SET w
  = Ok tt (put_team self
             (TArrayStack
                (mkStack c (rev (firstn (team_count (get_team self w) / 2) l)
                            ++ skipn (team_count (get_team self w) / 2) l)))
             w).
Proof.
  intros Hteam Hwf Hhalf.
  set (half := (team_count (get_team self w) / 2)%nat) in *.
  unfold special. unfold bind at 1. unfold gets at 1. fold half.
  rewrite <- (put_team_same self w) at 1. rewrite Hteam.
  unfold bind at 1. unfold new_stack.
  rewrite special_set_unload by (cbn [length]; lia).
  unfold bind at 1.
  rewrite special_set_transfer
    by (rewrite ?app_nil_r, ?length_rev, ?length_firstn; cbn [length]; lia).
  cbn [snd]. unfold bind at 1.
  rewrite special_set_reload.
  - assert (E : rev (firstn half
                       (rev (firstn half (rev (firstn half l) ++ [])) ++ []))
               = rev (firstn half l)).
    { rewrite !app_nil_r.
      rewrite (firstn_all2 (n := half) (rev (firstn half l)))
        by (rewrite length_rev, length_firstn; lia).
      rewrite rev_involutive.
      rewrite firstn_all2 by (rewrite length_firstn; lia). reflexivity. }
    rewrite E. reflexivity.
  - rewrite !app_nil_r, length_rev, length_firstn, length_rev, length_firstn.
    lia.
  - rewrite length_skipn. lia.
Qed.

(** X6.  [special] in set mode, on a stack that still holds at least
    half of [team_count] members, returns with the front half of the
    team (the first [team_count // 2] members) in reverse order and the
    rest as it was. *)
Theorem special_set_reverses_front (self : Side) (w : World) (c : nat)
        (l : list pyobj) :
  team (get_team self w) = TArrayStack (mkStack c l) ->
  (length l <= c)%nat ->
  (team_count (get_team self w) / 2 <= length l)%nat ->
  exists w',
    special self SET w = Ok tt w'
    /\ members self w'
       = rev (firstn (team_count (get_team self w) / 2) l)
         ++ skipn (team_count (get_team self w) / 2) l
    /\ store w' = store w
    /\ get_trainer (other_side self) w' = get_trainer (other_side self) w
    /\ team_count (get_team self w') = team_count (get_team self w).
Proof.
  intros Hteam Hwf Hhalf. eexists.
  split; [apply (special_set_run self w c l); assumption|].
  unfold members. rewrite team_put_team. cbn [team_order stack_items].
  split; [reflexivity|]. split; [apply store_put_team|].
  split; destruct self; reflexivity.
Qed.


(** First loop of [special] in rotate mode: [k] members go from the
    front of the queue to its back. *)
Lemma special_rotate_cycle (s : Side) (c : nat) (w : World) :
  forall (k : nat) (l : list pyobj),
    (k <= length l)%nat ->
    (length l <= c)%nat ->
    for_range k (fun _ : unit => x <- team_serve s ;; team_append s x) tt
      (put_team s (TCircularQueue (mkQueue c l)) w)
    = Ok tt (put_team s (TCircularQueue (mkQueue c (skipn k l ++ firstn k l)))
                      w).
Proof.
  induction k as [|k IH]; intros l Hk Hc.
  - cbn [for_range skipn firstn ret]. rewrite app_nil_r. reflexivity.
  - destruct l as [|x l]; [cbn [length] in Hk; lia|].
    cbn [for_range]. unfold bind at 1. unfold bind at 1.
    rewrite team_serve_run.
    rewrite team_append_run by (cbn [length] in Hc; lia).
    rewrite IH
      by (rewrite length_app; cbn [length] in *; lia).
    cbn [firstn skipn].
    rewrite skipn_app, firstn_app.
    replace (k - length l)%nat with 0%nat by (cbn [length] in Hk; lia).
    cbn [skipn firstn]. rewrite app_nil_r, <- app_assoc. reflexivity.
Qed.

(** Second loop: [k] members are served onto the temporary stack. *)
Lemma special_rotate_unload (s : Side) (c ct : nat) (w : World) :
  forall (k : nat) (l acc : list pyobj),
    (k <= length l)%nat ->
    (length acc + k <= ct)%nat ->
    for_range k
      (fun temp => x <- team_serve s ;; lift_exn (stack_push x temp))
      (mkStack ct acc)
      (put_team s (TCircularQueue (mkQueue c l)) w)
    = Ok (mkStack ct (rev (firstn k l) ++ acc))
         (put_team s (TCircularQueue (mkQueue c (skipn k l))) w).
Proof.
  induction k as [|k IH]; intros l acc Hk Hc; [reflexivity|].
  destruct l as [|x l]; [cbn [length] in Hk; lia|].
  cbn [for_range]. unfold bind at 1. unfold bind at 1.
  rewrite team_serve_run.
  unfold stack_push. cbn [stack_items stack_capacity].
  replace (length acc <? ct)%nat with true
    by (symmetry; apply Nat.ltb_lt; lia).
  cbn [lift_exn ret].
  rewrite IH by (cbn [length] in *; lia).
  cbn [firstn rev skipn]. rewrite <- app_assoc. reflexivity.
Qed.

(** Third loop: the temporary stack is emptied onto the back of the
    queue. *)
Lemma special_rotate_reload (s : Side) (c ct : nat) (w : World) :
  forall (acc l : list pyobj),
    (length l + length acc <= c)%nat ->
    for_range (length acc)
      (fun temp => r <- lift_exn (stack_pop temp) ;;
                   team_append s (fst r) ;;
                   ret (snd r))
      (mkStack ct acc)
      (put_team s (TCircularQueue (mkQueue c l)) w)
    = Ok (mkStack ct [])
         (put_team s (TCircularQueue (mkQueue c (l ++ acc))) w).
Proof.
  induction acc as [|x acc IH]; intros l Hc.
  - cbn [length for_range ret]. rewrite app_nil_r. reflexivity.
  - cbn [length for_range]. unfold bind at 1. unfold bind at 1.
    cbn [stack_pop stack_items lift_exn ret fst snd stack_capacity].
    unfold bind at 1.
    rewrite team_append_run by (cbn [length] in Hc; lia).
    cbn [ret].
    rewrite IH by (rewrite length_app; cbn [length] in *; lia).
    rewrite <- app_assoc. reflexivity.
Qed.

Lemma special_rotate_run (self : Side) (w : World) (c : nat)
      (l : list pyobj) :
  team (get_team self w) = TCircularQueue (mkQueue c l) ->
  (length l <= c)%nat ->
  length l = team_count (get_team self w) ->
  special self ROTATE w
  = Ok tt (put_team self
             (TCircularQueue
                (mkQueue c
                   (firstn (length l - length l / 2) l
                    ++ rev (skipn (length l - length l / 2) l))))
             w).
Proof.
  intros Hteam Hwf Hlen.
  unfold special. unfold bind at 1. unfold gets at 1.
  rewrite <- Hlen.
  set (half := (length l / 2)%nat).
  assert (Hhalf : (half <= length l - half)%nat).
  { unfold half. pose proof (Nat.div_mod_eq (length l) 2). lia. }
  rewrite <- (put_team_same self w) at 1. rewrite Hteam.
  unfold bind at 1.
  rewrite special_rotate_cycle by lia.
  unfold bind at 1. unfold new_stack.
  rewrite special_rotate_unload
    by (rewrite ?length_app, ?length_skipn, ?length_firstn; cbn [length];
        lia).
  assert (E1 : firstn half (skipn (length l - half) l
                            ++ firstn (length l - half) l)
               = skipn (length l - half) l).
  { rewrite firstn_app, length_skipn.
    replace (half - (length l - (length l - half)))%nat with 0%nat by lia.
    cbn [firstn]. rewrite app_nil_r.
    apply firstn_all2. rewrite length_skipn. lia. }
  assert (E2 : skipn half (skipn (length l - half) l
                           ++ firstn (length l - half) l)
               = firstn (length l - half) l).
  { rewrite skipn_app, length_skipn.
    replace (half - (length l - (length l - half)))%nat with 0%nat by lia.
    cbn [skipn].
    rewrite skipn_all2 by (rewrite length_skipn; lia). reflexivity. }
  rewrite E1, E2, app_nil_r.
  unfold bind at 1. cbn [stack_items].
  rewrite special_rotate_reload
    by (rewrite length_firstn, length_rev, length_skipn; lia).
  reflexivity.
Qed.

(** X7.  [special] in rotate mode, on a queue that holds all
    [team_count] members, returns with the back half of the team (the
    last [team_count // 2] members) in reverse order and the front part
    as it was. *)
Theorem special_rotate_reverses_back (self : Side) (w : World) (c : nat)
        (l : list pyobj) :
  team (get_team self w) = TCircularQueue (mkQueue c l) ->
  (length l <= c)%nat ->
  length l = team_count (get_team self w) ->
  exists w',
    special self ROTATE w = Ok tt w'
    /\ members self w'
       = firstn (length l - length l / 2) l
         ++ rev (skipn (length l - length l / 2) l)
    /\ store w' = store w
    /\ get_trainer (other_side self) w' = get_trainer (other_side self) w
    /\ team_count (get_team self w') = team_count (get_team self w).
Proof.
  intros Hteam Hwf Hlen. eexists.
  split; [apply (special_rotate_run self w c l); assumption|].
  unfold members. rewrite team_put_team. cbn [team_order queue_items].
  split; [reflexivity|]. split; [apply store_put_team|].
  split; destruct self; reflexivity.
Qed.

Lemma team_count_put_team (s : Side) (adt : TeamADT) (w : World) :
  team_count (get_team s (put_team s adt w)) = team_count (get_team s w).
Proof. destruct s; reflexivity. Qed.

(** X8.  The special move undoes itself on a stack and on a queue: in
    set mode, and in rotate mode on a team that holds all its members,
    two calls in a row return and leave everything as it was. *)
Theorem special_twice (self : Side) (mode : BattleMode) (w : World) :
  match mode, team (get_team self w) with
  | SET, TArrayStack s =>
      (length (stack_items s) <= stack_capacity s)%nat
      /\ (team_count (get_team self w) / 2 <= length (stack_items s))%nat
  | ROTATE, TCircularQueue q =>
      (length (queue_items q) <= queue_capacity q)%nat
      /\ length (queue_items q) = team_count (get_team self w)
  | _, _ => False
  end ->
  (special self mode ;; special self mode) w = Ok tt w.
Proof.
  destruct mode;
    destruct (team (get_team self w)) as [a|[c l]|[c l]|items] eqn:Hteam;
    try contradiction;
    cbn [stack_items stack_capacity queue_items queue_capacity];
    intros [Hwf Hn]; unfold bind.
  - set (half := (team_count (get_team self w) / 2)%nat) in *.
    rewrite (special_set_run self w c l Hteam Hwf Hn). fold half.
    assert (Hl : length (rev (firstn half l) ++ skipn half l) = length l).
    { rewrite length_app, length_rev, length_firstn, length_skipn. lia. }
    rewrite (special_set_run self _ c (rev (firstn half l) ++ skipn half l));
      rewrite ?team_put_team, ?team_count_put_team; fold half;
      try reflexivity; try lia.
    rewrite put_team_put_team.
    rewrite firstn_app, skipn_app, length_rev, length_firstn.
    replace (half - Nat.min half (length l))%nat with 0%nat by lia.
    cbn [firstn skipn]. rewrite app_nil_r.
    rewrite firstn_all2 by (rewrite length_rev, length_firstn; lia).
    rewrite skipn_all2 by (rewrite length_rev, length_firstn; lia).
    cbn [app]. rewrite rev_involutive, firstn_skipn.
    rewrite <- Hteam. rewrite put_team_same. reflexivity.
  - set (k := (length l - length l / 2)%nat).
    rewrite (special_rotate_run self w c l Hteam Hwf Hn). fold k.
    assert (Hk : (k <= length l)%nat) by (unfold k; lia).
    assert (Hl : length (firstn k l ++ rev (skipn k l)) = length l).
    { rewrite length_app, length_rev, length_firstn, length_skipn. lia. }
    rewrite (special_rotate_run self _ c (firstn k l ++ rev (skipn k l)));
      rewrite ?team_put_team, ?team_count_put_team, ?Hl; fold k;
      try reflexivity; try lia.
    rewrite put_team_put_team.
    rewrite firstn_app, skipn_app, length_firstn.
    replace (k - Nat.min k (length l))%nat with 0%nat by lia.
    cbn [firstn skipn]. rewrite app_nil_r.
    rewrite firstn_all2 by (rewrite length_firstn; lia).
    rewrite skipn_all2 by (rewrite length_firstn; lia).
    cbn [app]. rewrite rev_involutive, firstn_skipn.
    rewrite <- Hteam. rewrite put_team_same. reflexivity.
Qed.


(* ------------------------------------------------------------------ *)
(** ** Assembling a team *)

Lemma array_getitem_nth (array : list pyobj) (k : nat) (x : pyobj) :
  nth_error array k = Some x ->
  array_getitem array (Z.of_nat k) = inr x.
Proof.
  intros H. unfold array_getitem.
  assert (k < length array)%nat by (apply nth_error_Some; congruence).
  replace ((Z.of_nat k <? 0) || (Z.of_nat (length array) <=? Z.of_nat k))%Z
    with false
    by (symmetry; apply orb_false_iff; rewrite Z.ltb_ge, Z.leb_gt; lia).
  rewrite Nat2Z.id, H. reflexivity.
Qed.

Lemma skipn_nth_cons {A} (l : list A) (k : nat) (x : A) :
  nth_error l k = Some x -> skipn k l = x :: skipn (S k) l.
Proof.
  revert k. induction l as [|y l IH]; intros k H.
  - destruct k; discriminate.
  - destruct k as [|k]; [injection H as ->; reflexivity|].
    cbn [nth_error] in H. cbn [skipn]. rewrite (IH k H). reflexivity.
Qed.

Lemma assemble_stack_loop_run (array : list pyobj) (ct : nat) :
  forall (n k : nat) (acc : list pyobj),
    (k + n <= length array)%nat ->
    (length acc + n <= ct)%nat ->
    assemble_stack_loop (TArrayR array) n (Z.of_nat k) (mkStack ct acc)
    = inr (mkStack ct (rev (firstn n (skipn k array)) ++ acc)).
Proof.
  induction n as [|n IH]; intros k acc Hk Hc; [reflexivity|].
  cbn [assemble_stack_loop team_subscript].
  destruct (nth_error array k) as [x|] eqn:Hx;
    [|apply nth_error_None in Hx; lia].
  rewrite (array_getitem_nth _ _ _ Hx).
  unfold stack_push. cbn [stack_items stack_capacity].
  replace (length acc <? ct)%nat with true
    by (symmetry; apply Nat.ltb_lt; lia).
  replace (Z.of_nat k + 1)%Z with (Z.of_nat (S k)) by lia.
  rewrite IH by (cbn [length]; lia).
  rewrite (skipn_nth_cons _ _ _ Hx). cbn [firstn rev].
  rewrite <- app_assoc. reflexivity.
Qed.

Lemma assemble_queue_loop_run (array : list pyobj) (ct : nat) :
  forall (n k : nat) (acc : list pyobj),
    (k + n <= length array)%nat ->
    (length acc + n <= ct)%nat ->
    assemble_queue_loop (TArrayR array) n (Z.of_nat k) (mkQueue ct acc)
    = inr (mkQueue ct (acc ++ firstn n (skipn k array))).
Proof.
  induction n as [|n IH]; intros k acc Hk Hc.
  - cbn [assemble_queue_loop firstn]. rewrite app_nil_r. reflexivity.
  - cbn [assemble_queue_loop team_subscript].
    destruct (nth_error array k) as [x|] eqn:Hx;
      [|apply nth_error_None in Hx; lia].
    rewrite (array_getitem_nth _ _ _ Hx).
    unfold queue_append. cbn [queue_items queue_capacity].
    replace (length acc <? ct)%nat with true
      by (symmetry; apply Nat.ltb_lt; lia).
    replace (Z.of_nat k + 1)%Z with (Z.of_nat (S k)) by lia.
    rewrite IH by (rewrite ?length_app; cbn [length]; lia).
    rewrite (skipn_nth_cons _ _ _ Hx). cbn [firstn].
    rewrite <- app_assoc. reflexivity.
Qed.

Lemma assemble_team_set_run (self : Side) (c : option string) (w : World)
        (array : list pyobj) :
  team (get_team self w) = TArrayR array ->
  (team_count (get_team self w) <= length array)%nat ->
  assemble_team self SET c w
  = Ok tt (assembled_as self
             (TArrayStack
                (mkStack (Nat.max 1 (team_count (get_team self w)))
                         (rev (firstn (team_count (get_team self w)) array))))
             c w).
Proof.
  intros Hteam Hn. unfold assemble_team, bind, gets. rewrite Hteam.
  unfold new_stack.
  rewrite (assemble_stack_loop_run array _ _ 0%nat [])
    by (cbn [length]; lia).
  cbn [lift_exn ret skipn]. rewrite app_nil_r. reflexivity.
Qed.

(** X9.  [assemble_team] in set mode, on the raw array of a team, returns
    with the first [team_count] slots on a stack in the order they were
    pushed: the team, front first, is the chosen Pokemon in reverse, so
    the last one chosen fights first.  The criterion is recorded,
    whatever it is. *)
Theorem assemble_team_set (self : Side) (c : option string) (w : World)
        (array : list pyobj) :
  team (get_team self w) = TArrayR array ->
  (team_count (get_team self w) <= length array)%nat ->
  assemble_team self SET c w
  = Ok tt (assembled_as self
             (TArrayStack
                (mkStack (Nat.max 1 (team_count (get_team self w)))
                         (rev (firstn (team_count (get_team self w)) array))))
             c w).
Proof. apply assemble_team_set_run. Qed.

Lemma assemble_team_rotate_run (self : Side) (c : option string) (w : World)
        (array : list pyobj) :
  team (get_team self w) = TArrayR array ->
  (team_count (get_team self w) <= length array)%nat ->
  assemble_team self ROTATE c w
  = Ok tt (assembled_as self
             (TCircularQueue
                (mkQueue (Nat.max 1 (team_count (get_team self w)))
                         (firstn (team_count (get_team self w)) array)))
             c w).
Proof.
  intros Hteam Hn. unfold assemble_team, bind, gets. rewrite Hteam.
  unfold new_queue.
  rewrite (assemble_queue_loop_run array _ _ 0%nat [])
    by (cbn [length]; lia).
  reflexivity.
Qed.

(** X10.  [assemble_team] in rotate mode, on the raw array of a team,
    returns with the first [team_count] slots in a queue in the order
    they were chosen: the first one chosen fights first. *)
Theorem assemble_team_rotate (self : Side) (c : option string) (w : World)
        (array : list pyobj) :
  team (get_team self w) = TArrayR array ->
  (team_count (get_team self w) <= length array)%nat ->
  assemble_team self ROTATE c w
  = Ok tt (assembled_as self
             (TCircularQueue
                (mkQueue (Nat.max 1 (team_count (get_team self w)))
                         (firstn (team_count (get_team self w)) array)))
             c w).
Proof. apply assemble_team_rotate_run. Qed.


Lemma item_le_num (a b : ListItem) (x y : Q) :
  key a = KNum x -> key b = KNum y -> (item_le a b <-> (x <= y)%Q).
Proof. unfold item_le. intros -> ->. reflexivity. Qed.

Lemma item_le_trans (a b c : ListItem) :
  item_le a b -> item_le b c -> item_le a c.
Proof.
  unfold item_le.
  destruct (key a), (key b), (key c); try contradiction.
  apply Qle_trans.
Qed.

Lemma insert_StronglySorted {A} (R : A -> A -> Prop) (item : A) :
  forall (l : list A) (p : nat),
    StronglySorted R l ->
    (forall n x, (n < p)%nat -> nth_error l n = Some x -> R x item) ->
    (forall n x, (p <= n)%nat -> nth_error l n = Some x -> R item x) ->
    StronglySorted R (firstn p l ++ item :: skipn p l).
Proof.
  induction l as [|y l IH]; intros p Hs Hb Ha.
  - rewrite firstn_nil, skipn_nil. cbn. repeat constructor.
  - destruct p as [|p].
    + cbn [firstn skipn app]. constructor; [exact Hs|].
      apply Forall_forall. intros x Hin.
      apply In_nth_error in Hin. destruct Hin as [n Hn].
      apply (Ha n); [lia|exact Hn].
    + cbn [firstn skipn app]. inversion Hs as [|? ? Hs' Hall]; subst.
      rewrite Forall_forall in Hall.
      constructor.
      * apply IH; [exact Hs'| |].
        -- intros n x Hn Hx. apply (Hb (S n)); [lia|exact Hx].
        -- intros n x Hn Hx. apply (Ha (S n)); [lia|exact Hx].
      * apply Forall_forall. intros x Hin.
        apply in_app_or in Hin. destruct Hin as [Hin|[<-|Hin]].
        -- apply Hall. rewrite <- (firstn_skipn p l).
           apply in_or_app. left. exact Hin.
        -- apply (Hb O); [lia|reflexivity].
        -- apply Hall. rewrite <- (firstn_skipn p l).
           apply in_or_app. right. exact Hin.
Qed.

Section InsertionWithTies.

Variable items : list ListItem.
Variable item : ListItem.
Hypothesis items_sorted : StronglySorted item_le items.
Hypothesis items_num : Forall is_num items.
Hypothesis item_num : is_num item.

Lemma _index_to_add_ties (steps : nat) :
  forall low high : Z,
    (0 <= low)%Z -> (high < Z.of_nat (length items))%Z ->
    (low <= high + 1)%Z ->
    (high - low + 1 < Z.of_nat steps)%Z ->
    (forall n x, (Z.of_nat n < low)%Z -> nth_error items n = Some x ->
                 item_le x item) ->
    (forall n x, (high < Z.of_nat n)%Z -> nth_error items n = Some x ->
                 item_le item x) ->
    exists p : nat,
      _index_to_add steps items item low high = inr (Z.of_nat p)
      /\ (p <= length items)%nat
      /\ (forall n x, (n < p)%nat -> nth_error items n = Some x ->
                      item_le x item)
      /\ (forall n x, (p <= n)%nat -> nth_error items n = Some x ->
                      item_le item x).
Proof.
  induction steps as [|steps IH];
    intros low high Hlow Hhigh Hlh Hsteps Hbelow Habove.
  - lia.
  - cbn [_index_to_add].
    destruct (Z.leb_spec low high) as [Hle|Hgt].
    + set (mid := ((low + high) / 2)%Z).
      assert (Hmid : (low <= mid <= high)%Z).
      { unfold mid. split.
        - apply Z.div_le_lower_bound; lia.
        - apply Z.div_le_upper_bound; lia. }
      destruct (nth_error items (Z.to_nat mid)) as [x|] eqn:Hx;
        [|apply nth_error_None in Hx; lia].
      assert (Hxn : is_num x).
      { rewrite Forall_forall in items_num. apply items_num.
        exact (nth_error_In _ _ Hx). }
      assert (Hbefore : forall n y, (n < Z.to_nat mid)%nat ->
                          nth_error items n = Some y -> item_le y x).
      { intros n y Hn Hy.
        apply (StronglySorted_nth item_le items items_sorted
                 n (Z.to_nat mid)); assumption. }
      assert (Hafter : forall n y, (Z.to_nat mid < n)%nat ->
                         nth_error items n = Some y -> item_le x y).
      { intros n y Hn Hy.
        apply (StronglySorted_nth item_le items items_sorted
                 (Z.to_nat mid) n); assumption. }
      unfold is_num in Hxn, item_num.
      destruct (key x) as [a|] eqn:Ka; [|contradiction].
      destruct (key item) as [b|] eqn:Kb; [|contradiction].
      cbn [key_compare].
      destruct (Qcompare_spec a b) as [He|Hl|Hg].
      * exists (Z.to_nat mid). rewrite Z2Nat.id by lia.
        split; [reflexivity|]. split; [lia|].
        assert (Hxi : item_le x item)
          by (apply (item_le_num _ _ a b Ka Kb); rewrite He; apply Qle_refl).
        assert (Hix : item_le item x)
          by (apply (item_le_num _ _ b a Kb Ka); rewrite He; apply Qle_refl).
        split.
        -- intros n y Hn Hy.
           exact (item_le_trans _ _ _ (Hbefore n y Hn Hy) Hxi).
        -- intros n y Hn Hy.
           destruct (Nat.eq_dec n (Z.to_nat mid)) as [->|Hne].
           ++ rewrite Hx in Hy. injection Hy as <-. exact Hix.
           ++ apply (item_le_trans _ _ _ Hix).
              apply (Hafter n y); [lia|exact Hy].
      * assert (Hxi : item_le x item)
          by (apply (item_le_num _ _ a b Ka Kb); apply Qlt_le_weak;
              exact Hl).
        apply IH; try lia.
        -- intros n y Hn Hy.
           destruct (Nat.eq_dec n (Z.to_nat mid)) as [->|Hne].
           ++ rewrite Hx in Hy. injection Hy as <-. exact Hxi.
           ++ apply (item_le_trans _ _ _ (Hbefore n y ltac:(lia) Hy) Hxi).
        -- exact Habove.
      * assert (Hix : item_le item x)
          by (apply (item_le_num _ _ b a Kb Ka); apply Qlt_le_weak;
              exact Hg).
        apply IH; try lia.
        -- exact Hbelow.
        -- intros n y Hn Hy.
           destruct (Nat.eq_dec n (Z.to_nat mid)) as [->|Hne].
           ++ rewrite Hx in Hy. injection Hy as <-. exact Hix.
           ++ apply (item_le_trans _ _ _ Hix).
              apply (Hafter n y); [lia|exact Hy].
    + exists (Z.to_nat low). rewrite Z2Nat.id by lia.
      split; [reflexivity|]. split; [lia|]. split.
      * intros n x Hn. apply Hbelow. lia.
      * intros n x Hn. apply Habove. lia.
Qed.

(** [add] on a list keyed by numbers, ties allowed: it succeeds and
    keeps the list in ascending order. *)
Lemma sorted_add_ties :
  exists l',
    sorted_add item items = inr l'
    /\ StronglySorted item_le l'
    /\ Forall is_num l'
    /\ Permutation l' (item :: items).
Proof.
  unfold sorted_add.
  destruct (_index_to_add_ties (S (length items)) 0
              (Z.of_nat (length items) - 1))
    as (p & Hp & Hlen & Hb & Ha); try lia.
  - intros n x Hn Hx.
    assert (n < length items)%nat by (apply nth_error_Some; congruence).
    lia.
  - rewrite Hp, Nat2Z.id. eexists. split; [reflexivity|].
    assert (Hperm : Permutation (firstn p items ++ item :: skipn p items)
                                (item :: items)).
    { symmetry. rewrite <- (firstn_skipn p items) at 1.
      apply Permutation_middle. }
    split; [apply insert_StronglySorted; assumption|].
    split; [|exact Hperm].
    apply (Permutation_Forall (Permutation_sym Hperm)).
    constructor; assumption.
Qed.

End InsertionWithTies.

Lemma assemble_sorted_loop_run (st : ref -> Pokemon) (array : list pyobj)
      (c : string) :
  in_CRITERION_LIST (Some c) = true ->
  forall (n k : nat) (acc : list ListItem),
    (k + n <= length array)%nat ->
    (forall j, (k <= j < k + n)%nat ->
               exists r, nth_error array j = Some (Some r)) ->
    StronglySorted item_le acc ->
    Forall is_num acc ->
    Forall (fun it => key it = KNum (stat_of c (st (value it)))) acc ->
    exists l,
      assemble_sorted_loop st (TArrayR array) (Some c) n (Z.of_nat k) acc
      = inr l
      /\ StronglySorted item_le l
      /\ Forall (fun it => key it = KNum (stat_of c (st (value it)))) l
      /\ Permutation (map (fun it => Some (value it)) l)
                     (map (fun it => Some (value it)) acc
                      ++ firstn n (skipn k array)).
Proof.
  intros Hc. induction n as [|n IH]; intros k acc Hk Hslots Hs Hnum Hkeys.
  - exists acc. cbn [assemble_sorted_loop firstn]. rewrite app_nil_r.
    auto.
  - cbn [assemble_sorted_loop team_subscript]. rewrite Hc.
    destruct (Hslots k ltac:(lia)) as [r Hr].
    rewrite (array_getitem_nth _ _ _ Hr).
    rewrite (criterion_value_recognised c (st r) Hc).
    destruct (sorted_add_ties acc (mkItem r (KNum (stat_of c (st r))))
                Hs Hnum I)
      as (l1 & Hadd & Hs1 & Hnum1 & Hperm1).
    rewrite Hadd.
    replace (Z.of_nat k + 1)%Z with (Z.of_nat (S k)) by lia.
    destruct (IH (S k) l1) as (l & Hrun & Hsl & Hkl & Hpl);
      try assumption; try lia.
    + intros j Hj. apply Hslots. lia.
    + apply (Permutation_Forall (Permutation_sym Hperm1)).
      constructor; [reflexivity|exact Hkeys].
    + exists l. split; [exact Hrun|]. split; [exact Hsl|].
      split; [exact Hkl|].
      rewrite Hpl, (skipn_nth_cons _ _ _ Hr). cbn [firstn].
      rewrite (Permutation_map _ Hperm1). cbn [map value app].
      apply Permutation_middle.
Qed.

Lemma assemble_team_optimise_run (self : Side) (c : string) (w : World)
        (array : list pyobj) :
  team (get_team self w) = TArrayR array ->
  (team_count (get_team self w) <= length array)%nat ->
  (forall j, (j < team_count (get_team self w))%nat ->
             exists r, nth_error array j = Some (Some r)) ->
  In c CRITERION_LIST ->
  exists items,
    assemble_team self OPTIMISE (Some c) w
    = Ok tt (assembled_as self (TArraySortedList items) (Some c) w)
    /\ StronglySorted item_le items
    /\ Forall (fun it => key it = KNum (stat_of c (store w (value it))))
              items
    /\ Permutation (map (fun it => Some (value it)) items)
                   (firstn (team_count (get_team self w)) array).
Proof.
  intros Hteam Hn Hslots Hc.
  destruct (assemble_sorted_loop_run (store w) array c
              (in_CRITERION_LIST_In c Hc)
              (team_count (get_team self w)) 0%nat [])
    as (l & Hrun & Hs & Hk & Hp);
    try constructor.
  - lia.
  - intros j Hj. apply Hslots. lia.
  - exists l. split; [|split; [exact Hs|split; [exact Hk|exact Hp]]].
    unfold assemble_team, bind, gets. rewrite Hteam.
    change (Z.of_nat 0) with 0%Z in Hrun. rewrite Hrun. reflexivity.
Qed.

(** X11.  [assemble_team] in optimised mode, by a recognised criterion
    and on an array whose first [team_count] slots are filled, returns
    with those Pokemon in a sorted list: every item is keyed by the
    chosen stat of its Pokemon, the keys are in ascending order, ties
    allowed, and the list holds exactly the Pokemon of the array. *)
Theorem assemble_team_optimise (self : Side) (c : string) (w : World)
        (array : list pyobj) :
  team (get_team self w) = TArrayR array ->
  (team_count (get_team self w) <= length array)%nat ->
  (forall j, (j < team_count (get_team self w))%nat ->
             exists r, nth_error array j = Some (Some r)) ->
  In c CRITERION_LIST ->
  exists items,
    assemble_team self OPTIMISE (Some c) w
    = Ok tt (assembled_as self (TArraySortedList items) (Some c) w)
    /\ StronglySorted item_le items
    /\ Forall (fun it => key it = KNum (stat_of c (store w (value it))))
              items
    /\ Permutation (map (fun it => Some (value it)) items)
                   (firstn (team_count (get_team self w)) array).
Proof. apply assemble_team_optimise_run. Qed.

(** X12.  [assemble_team] in optimised mode with a criterion that is not
    in [CRITERION_LIST] raises [ValueError] as soon as there is a member
    to place, and leaves the team and its recorded criterion as they
    were; with no member to place it raises nothing. *)
Theorem assemble_team_unknown_criterion (self : Side) (c : option string)
        (w : World) :
  in_CRITERION_LIST c = false ->
  assemble_team self OPTIMISE c w
  = if (team_count (get_team self w) =? 0)%nat
    then Ok tt (assembled_as self (TArraySortedList []) c w)
    else Raise not_in_criterion_list w.
Proof.
  intros Hc. unfold assemble_team, bind, gets.
  destruct (team_count (get_team self w)) as [|n].
  - reflexivity.
  - cbn [assemble_sorted_loop Nat.eqb]. rewrite Hc. reflexivity.
Qed.


(* ------------------------------------------------------------------ *)
(** ** Removing and rotating *)

(** X13.  [remove_pokemon] takes the front member off an assembled team
    and keeps the others in order; it does not bring [team_count] down,
    which from then on exceeds the length of the team.  On an empty
    assembled team it raises and changes nothing; on the raw array of a
    team that was never assembled it silently does nothing. *)
Theorem remove_pokemon_cases (self : Side) (w : World) :
  match team (get_team self w) with
  | TArrayR _ => remove_pokemon self w = Ok tt w
  | adt =>
      match team_order adt with
      | [] => exists e, remove_pokemon self w = Raise e w
      | _ :: rest =>
          exists w',
            remove_pokemon self w = Ok tt w'
            /\ members self w' = rest
            /\ is_assembled (team (get_team self w'))
            /\ team_count (get_team self w') = team_count (get_team self w)
            /\ store w' = store w
            /\ get_trainer (other_side self) w'
               = get_trainer (other_side self) w
      end
  end.
Proof.
  destruct (team (get_team self w)) as [array|[c l]|[c l]|items] eqn:Hteam.
  - unfold remove_pokemon, bind, gets. rewrite Hteam. reflexivity.
  - cbn [team_order stack_items]. destruct l as [|x l].
    + eexists. unfold remove_pokemon, bind, gets. rewrite Hteam.
      unfold team_pop, bind, gets. rewrite Hteam. reflexivity.
    + eexists. split.
      * unfold remove_pokemon. unfold bind at 1. unfold gets at 1.
        rewrite Hteam. rewrite <- (put_team_same self w) at 1.
        rewrite Hteam. unfold bind. rewrite team_pop_run. reflexivity.
      * unfold members. rewrite team_put_team, team_count_put_team.
        split; [reflexivity|]. split; [exact I|]. split; [reflexivity|].
        split; [apply store_put_team|destruct self; reflexivity].
  - cbn [team_order queue_items]. destruct l as [|x l].
    + eexists. unfold remove_pokemon, bind, gets. rewrite Hteam.
      unfold team_serve, bind, gets. rewrite Hteam. reflexivity.
    + eexists. split.
      * unfold remove_pokemon. unfold bind at 1. unfold gets at 1.
        rewrite Hteam. rewrite <- (put_team_same self w) at 1.
        rewrite Hteam. unfold bind. rewrite team_serve_run. reflexivity.
      * unfold members. rewrite team_put_team, team_count_put_team.
        split; [reflexivity|]. split; [exact I|]. split; [reflexivity|].
        split; [apply store_put_team|destruct self; reflexivity].
  - cbn [team_order]. destruct items as [|x items]; cbn [map].
    + eexists. unfold remove_pokemon, bind, gets. rewrite Hteam.
      reflexivity.
    + eexists. split.
      * unfold remove_pokemon, bind, gets. rewrite Hteam.
        apply bind_team_run.
      * unfold members. rewrite team_put_team, team_count_put_team.
        split; [reflexivity|]. split; [exact I|]. split; [reflexivity|].
        split; [apply store_put_team|destruct self; reflexivity].
Qed.

(** X14.  [rotate_pokemon] is for queues only: on a queue within its
    capacity it moves the front member to the back and keeps the others
    in order; on an empty queue it raises and changes nothing; on any
    other container it raises [AttributeError] and changes nothing. *)
Theorem rotate_pokemon_cases (self : Side) (w : World) :
  adt_wf (team (get_team self w)) ->
  match team (get_team self w) with
  | TCircularQueue q =>
      match queue_items q with
      | [] => exists e, rotate_pokemon self w = Raise e w
      | x :: rest =>
          rotate_pokemon self w
          = Ok tt (put_team self
                     (TCircularQueue
                        (mkQueue (queue_capacity q) (rest ++ [x]))) w)
      end
  | _ => rotate_pokemon self w = Raise AttributeError w
  end.
Proof.
  intros Hwf.
  destruct (team (get_team self w)) as [array|[c l]|[c l]|items] eqn:Hteam;
    try (unfold rotate_pokemon, bind, team_serve, bind, gets;
         rewrite Hteam; reflexivity).
  cbn [queue_items queue_capacity adt_wf] in *.
  destruct l as [|x l].
  - eexists. unfold rotate_pokemon, bind, team_serve, bind, gets.
    rewrite Hteam. reflexivity.
  - unfold rotate_pokemon. rewrite <- (put_team_same self w) at 1.
    rewrite Hteam. unfold bind. rewrite team_serve_run.
    apply team_append_run. cbn [length] in Hwf. lia.
Qed.


(* ------------------------------------------------------------------ *)
(** ** Choosing a team at random *)

Lemma list_set_split {A} (l : list A) (i : nat) (x : A) :
  (i < length l)%nat ->
  list_set l i x = firstn i l ++ x :: skipn (S i) l.
Proof.
  revert i. induction l as [|y l IH]; intros i Hi; [cbn in Hi; lia|].
  destruct i as [|i]; [reflexivity|].
  cbn [list_set firstn skipn app]. rewrite IH by (cbn in Hi; lia).
  reflexivity.
Qed.

Lemma set_team_frame (s : Side) (t : PokeTeam) (w : World) :
  store (set_team s t w) = store w
  /\ next_ref (set_team s t w) = next_ref w
  /\ stdout (set_team s t w) = stdout w
  /\ get_trainer (other_side s) (set_team s t w) = get_trainer (other_side s) w
  /\ trainer_name (get_trainer s (set_team s t w))
     = trainer_name (get_trainer s w)
  /\ pokedex (get_trainer s (set_team s t w)) = pokedex (get_trainer s w).
Proof. destruct s; repeat split. Qed.

Lemma chosen_within_refl (self : Side) (w : World) : chosen_within self w w.
Proof. repeat split; reflexivity. Qed.

Lemma chosen_within_trans (self : Side) (w1 w2 w3 : World) :
  (next_ref w1 <= next_ref w2)%nat ->
  chosen_within self w1 w2 -> chosen_within self w2 w3 ->
  chosen_within self w1 w3.
Proof.
  intros Hn (A1 & A2 & A3 & A4 & A5 & A6 & A7) (B1 & B2 & B3 & B4 & B5 & B6 & B7).
  repeat split; try congruence.
  intros r Hr. rewrite B7 by lia. apply A7. exact Hr.
Qed.

(** One iteration creates an object and puts it into slot [i]. *)
Lemma choose_randomly_step (self : Side) (draws : nat -> nat) (i : nat)
      (w : World) (array : list pyobj) (p : Pokemon) :
  team (get_team self w) = TArrayR array ->
  (i < length array)%nat ->
  nth_error POKE_LIST (draws i) = Some p ->
  exists w1,
    choose_randomly_body self draws i w = Ok (S i) w1
    /\ team (get_team self w1) = TArrayR (list_set array i (Some (next_ref w)))
    /\ team_count (get_team self w1) = (team_count (get_team self w) + 1)%nat
    /\ original_team (get_team self w1) = original_team (get_team self w)
    /\ next_ref w1 = S (next_ref w)
    /\ store w1 (next_ref w) = p
    /\ chosen_within self w w1.
Proof.
  intros Hteam Hi Hp.
  assert (Hlen : (length POKE_LIST =? 0)%nat = false).
  { apply Nat.eqb_neq. intros E.
    assert (draws i < length POKE_LIST)%nat
      by (apply nth_error_Some; congruence).
    lia. }
  unfold choose_randomly_body. rewrite Hlen, Hp.
  unfold bind at 1. cbn [ret]. unfold bind at 1. unfold alloc at 1.
  unfold bind at 1. unfold team_setitem.
  unfold bind at 1. unfold gets at 1.
  replace (team (get_team self
                   (mkWorld (update_store (next_ref w) p (store w))
                            (S (next_ref w)) (trainer_1 w) (trainer_2 w)
                            (stdout w))))
    with (TArrayR array) by (rewrite <- Hteam; destruct self; reflexivity).
  unfold array_setitem.
  replace ((Z.of_nat i <? 0) || (Z.of_nat (length array) <=? Z.of_nat i))%Z
    with false
    by (symmetry; apply orb_false_iff; rewrite Z.ltb_ge, Z.leb_gt; lia).
  rewrite Nat2Z.id. cbn [lift_exn]. unfold bind at 1. cbn [ret].
  rewrite bind_team_run. unfold bind at 1.
  unfold modify_team, modify. cbn [ret].
  eexists. split; [reflexivity|].
  split; [destruct self; reflexivity|].
  split; [destruct self; reflexivity|].
  split; [destruct self; reflexivity|].
  split; [destruct self; reflexivity|].
  split; [destruct self; cbn; apply update_store_same|].
  unfold chosen_within.
  split; [destruct self; reflexivity|].
  split; [destruct self; reflexivity|].
  split; [destruct self; reflexivity|].
  split; [destruct self; reflexivity|].
  split; [destruct self; reflexivity|].
  split; [destruct self; reflexivity|].
  intros r Hr.
  destruct self; cbn [store set_team set_trainer put_team];
    apply update_store_other; lia.
Qed.


(** The loop: [k] iterations from slot [i] on fill the slots [i], ...,
    [i + k - 1] with the objects created one after the other. *)
Lemma choose_randomly_loop (self : Side) (draws : nat -> nat) :
  forall (k i : nat) (w : World) (array : list pyobj),
    team (get_team self w) = TArrayR array ->
    (i + k <= length array)%nat ->
    (forall j, (i <= j < i + k)%nat -> (draws j < length POKE_LIST)%nat) ->
    exists w',
      for_range k (choose_randomly_body self draws) i w = Ok (i + k)%nat w'
      /\ team (get_team self w')
         = TArrayR (firstn i array ++ map Some (seq (next_ref w) k)
                    ++ skipn (i + k)%nat array)
      /\ team_count (get_team self w')
         = (team_count (get_team self w) + k)%nat
      /\ original_team (get_team self w') = original_team (get_team self w)
      /\ next_ref w' = (next_ref w + k)%nat
      /\ (forall j, (j < k)%nat ->
            nth_error POKE_LIST (draws (i + j)%nat)
            = Some (store w' (next_ref w + j)%nat))
      /\ chosen_within self w w'.
Proof.
  induction k as [|k IH]; intros i w array Hteam Hk Hdraws.
  - exists w. cbn [for_range ret seq map app].
    rewrite !Nat.add_0_r, firstn_skipn.
    split; [reflexivity|]. split; [exact Hteam|].
    split; [reflexivity|]. split; [reflexivity|]. split; [reflexivity|].
    split; [intros j Hj; lia|apply chosen_within_refl].
  - destruct (nth_error POKE_LIST (draws i)) as [p|] eqn:Hp;
      [|apply nth_error_None in Hp;
        specialize (Hdraws i ltac:(lia)); lia].
    destruct (choose_randomly_step self draws i w array p Hteam
                ltac:(lia) Hp)
      as (w1 & Hrun1 & Ht1 & Hc1 & Ho1 & Hn1 & Hs1 & Hf1).
    destruct (IH (S i) w1 _ Ht1) as (w' & Hrun & Ht & Hc & Ho & Hn & Hs & Hf).
    { rewrite list_set_split by lia.
      rewrite length_app, length_firstn. cbn [length].
      rewrite length_skipn. lia. }
    { intros j Hj. apply Hdraws. lia. }
    exists w'. cbn [for_range]. unfold bind. rewrite Hrun1.
    replace (i + S k)%nat with (S i + k)%nat by lia.
    split; [exact Hrun|].
    split.
    { rewrite Ht, Hn1. f_equal. rewrite list_set_split by lia.
      cbn [seq map].
      assert (Hlen : length (firstn i array) = i)
        by (rewrite length_firstn; lia).
      rewrite firstn_app, Hlen.
      replace (S i - i)%nat with 1%nat by lia.
      rewrite (firstn_all2 (firstn i array)) by (rewrite Hlen; lia).
      cbn [firstn].
      rewrite skipn_app, Hlen.
      rewrite (skipn_all2 (firstn i array)) by (rewrite Hlen; lia).
      replace (S i + k - i)%nat with (S k) by lia.
      rewrite skipn_cons, skipn_skipn. cbn [app].
      replace (k + S i)%nat with (S i + k)%nat by lia.
      rewrite <- app_assoc. reflexivity. }
    split; [rewrite Hc, Hc1; lia|].
    split; [rewrite Ho; exact Ho1|].
    split; [rewrite Hn, Hn1; lia|].
    split.
    { intros j Hj. destruct j as [|j].
      - rewrite !Nat.add_0_r, Hp. f_equal.
        destruct Hf as (_ & _ & _ & _ & _ & _ & Hold).
        rewrite Hold by lia. symmetry. exact Hs1.
      - replace (i + S j)%nat with (S i + j)%nat by lia.
        rewrite (Hs j) by lia. rewrite Hn1. f_equal. f_equal. lia. }
    apply (chosen_within_trans self w w1 w'); [lia|exact Hf1|exact Hf].
Qed.

Lemma choose_randomly_fills_team_run (self : Side) (draws : nat -> nat)
        (w : World) (array : list pyobj) :
  team (get_team self w) = TArrayR array ->
  length array = TEAM_LIMIT ->
  (forall i, (i < TEAM_LIMIT)%nat -> (draws i < length POKE_LIST)%nat) ->
  exists w',
    choose_randomly self draws w = Ok tt w'
    /\ team (get_team self w')
       = TArrayR (map Some (seq (next_ref w) TEAM_LIMIT))
    /\ original_team (get_team self w')
       = map Some (seq (next_ref w) TEAM_LIMIT)
    /\ team_count (get_team self w') = TEAM_LIMIT
    /\ next_ref w' = (next_ref w + TEAM_LIMIT)%nat
    /\ (forall i, (i < TEAM_LIMIT)%nat ->
          nth_error POKE_LIST (draws i) = Some (store w' (next_ref w + i)%nat))
    /\ chosen_within self w w'.
Proof.
  intros Hteam Hlen Hdraws.
  set (w0 := set_team self
               (mkPokeTeam (team (get_team self w)) 0
                           (special_called (get_team self w))
                           (criterion (get_team self w))
                           (original_team (get_team self w))) w).
  assert (Hteam0 : team (get_team self w0) = TArrayR array)
    by (rewrite <- Hteam; destruct self; reflexivity).
  destruct (choose_randomly_loop self draws TEAM_LIMIT 0%nat w0 array Hteam0)
    as (w1 & Hrun & Ht & Hc & Ho & Hn & Hs & Hf).
  { rewrite Hlen. cbn. lia. }
  { intros j Hj. apply Hdraws. lia. }
  assert (Harr : firstn 0 array
                 ++ map Some (seq (next_ref w0) TEAM_LIMIT)
                 ++ skipn (0 + TEAM_LIMIT)%nat array
                 = map Some (seq (next_ref w) TEAM_LIMIT)).
  { cbn [firstn app Nat.add]. rewrite skipn_all2 by lia.
    rewrite app_nil_r. destruct self; reflexivity. }
  rewrite Harr in Ht.
  assert (Hn0 : next_ref w0 = next_ref w) by (destruct self; reflexivity).
  exists (set_team self
            (mkPokeTeam (team (get_team self w1))
                        (team_count (get_team self w1))
                        (special_called (get_team self w1))
                        (criterion (get_team self w1))
                        (map Some (seq (next_ref w) TEAM_LIMIT))) w1).
  split.
  { unfold choose_randomly. cbv zeta.
    unfold bind at 1. unfold modify_team at 1, modify at 1. fold w0.
    unfold bind at 1.
    match goal with
    | |- match for_range _ ?body _ _ with _ => _ end = _ =>
        change body with (choose_randomly_body self draws)
    end.
    rewrite Hrun. unfold bind, gets. rewrite Ht.
    unfold modify_team, modify. rewrite Ht. reflexivity. }
  destruct (set_team_frame self
              (mkPokeTeam (team (get_team self w)) 0
                          (special_called (get_team self w))
                          (criterion (get_team self w))
                          (original_team (get_team self w))) w)
    as (A1 & A2 & A3 & A4 & A5 & A6).
  fold w0 in A1, A2, A3, A4, A5, A6.
  match goal with
  | |- context [set_team self ?t w1] =>
      destruct (set_team_frame self t w1) as (B1 & B2 & B3 & B4 & B5 & B6);
      set (wf := set_team self t w1) in *;
      assert (Tf : get_team self wf = t) by apply get_team_set_team
  end.
  assert (T0 : get_team self w0
               = mkPokeTeam (team (get_team self w)) 0
                            (special_called (get_team self w))
                            (criterion (get_team self w))
                            (original_team (get_team self w)))
    by apply get_team_set_team.
  rewrite T0 in Hc. cbn [team_count] in Hc.
  destruct Hf as (F1 & F2 & F3 & F4 & F5 & F6 & F7).
  rewrite T0 in F4, F5. cbn [special_called criterion] in F4, F5.
  rewrite Tf. cbn [team original_team team_count special_called criterion].
  split; [exact Ht|]. split; [reflexivity|].
  split; [rewrite Hc; reflexivity|].
  split; [rewrite B2, Hn, A2; reflexivity|].
  split; [intros i Hi; rewrite B1, <- A2; apply (Hs i Hi)|].
  unfold chosen_within. rewrite Tf.
  cbn [special_called criterion].
  split; [rewrite B4, F1, A4; reflexivity|].
  split; [rewrite B5, F2, A5; reflexivity|].
  split; [rewrite B6, F3, A6; reflexivity|].
  split; [exact F4|]. split; [exact F5|].
  split; [rewrite B3, F6, A3; reflexivity|].
  intros r Hr. rewrite B1, F7 by (rewrite A2; exact Hr).
  rewrite A1. reflexivity.
Qed.

(** X15.  [choose_randomly], on a team still bound to its raw array of
    [TEAM_LIMIT] slots and with draws inside the catalogue, returns with
    six newly created objects, pairwise distinct, one per slot, each a
    copy of the catalogue class drawn for it; [team_count] is
    [TEAM_LIMIT], [original_team] is the same array, and nothing that
    existed before is touched. *)
Theorem choose_randomly_fills_team (self : Side) (draws : nat -> nat)
        (w : World) (array : list pyobj) :
  team (get_team self w) = TArrayR array ->
  length array = TEAM_LIMIT ->
  (forall i, (i < TEAM_LIMIT)%nat -> (draws i < length POKE_LIST)%nat) ->
  exists w',
    choose_randomly self draws w = Ok tt w'
    /\ team (get_team self w')
       = TArrayR (map Some (seq (next_ref w) TEAM_LIMIT))
    /\ original_team (get_team self w')
       = map Some (seq (next_ref w) TEAM_LIMIT)
    /\ team_count (get_team self w') = TEAM_LIMIT
    /\ next_ref w' = (next_ref w + TEAM_LIMIT)%nat
    /\ (forall i, (i < TEAM_LIMIT)%nat ->
          nth_error POKE_LIST (draws i) = Some (store w' (next_ref w + i)%nat))
    /\ chosen_within self w w'.
Proof. apply choose_randomly_fills_team_run. Qed.

(** X16.  [choose_randomly] with an empty catalogue raises [ValueError]
    from the draw of the first iteration, when [team_count] has already
    been reset: the call leaves the team with a count of 0 and its
    array, objects and [original_team] as they were. *)
Theorem choose_randomly_empty_catalogue (self : Side) (draws : nat -> nat)
        (w : World) :
  POKE_LIST = [] ->
  choose_randomly self draws w
  = Raise (ValueError "empty range for randrange()")
          (set_team self
             (mkPokeTeam (team (get_team self w)) 0
                         (special_called (get_team self w))
                         (criterion (get_team self w))
                         (original_team (get_team self w))) w).
Proof.
  intros H. unfold choose_randomly. rewrite H. reflexivity.
Qed.


(* ------------------------------------------------------------------ *)
(** ** Regeneration brings the team back *)

Lemma regenerate_loop_run :
  forall (slots : list pyobj) (w : World),
    Forall (fun o => o <> None) slots ->
    exists w',
      regenerate_loop slots w = Ok tt w'
      /\ trainer_1 w' = trainer_1 w /\ trainer_2 w' = trainer_2 w.
Proof.
  induction slots as [|x rest IH]; intros w Hall.
  - exists w. repeat split; reflexivity.
  - inversion Hall as [|? ? Hx Hrest]; subst.
    destruct x as [r|]; [|contradiction].
    destruct (regenerate_match_spec r POKE_LIST w)
      as (w1 & Hrun1 & _ & _ & T1 & T2).
    destruct (IH w1 Hrest) as (w' & Hrun & U1 & U2).
    exists w'. cbn [regenerate_loop]. unfold bind. rewrite Hrun1.
    split; [exact Hrun|]. split; congruence.
Qed.

Lemma regenerate_team_restores_roster_run (self : Side) (mode : BattleMode)
        (c : option string) (w : World) :
  Forall (fun o => o <> None) (original_team (get_team self w)) ->
  (team_count (get_team self w)
   <= length (original_team (get_team self w)))%nat ->
  (mode = OPTIMISE -> exists crit, c = Some crit /\ In crit CRITERION_LIST) ->
  exists w',
    regenerate_team self mode c w = Ok tt w'
    /\ match mode with
       | SET =>
           members self w'
           = rev (firstn (team_count (get_team self w))
                         (original_team (get_team self w)))
       | ROTATE =>
           members self w'
           = firstn (team_count (get_team self w))
                    (original_team (get_team self w))
       | OPTIMISE =>
           Permutation (members self w')
                       (firstn (team_count (get_team self w))
                               (original_team (get_team self w)))
       end
    /\ original_team (get_team self w') = original_team (get_team self w)
    /\ team_count (get_team self w') = team_count (get_team self w)
    /\ get_trainer (other_side self) w' = get_trainer (other_side self) w.
Proof.
  intros Hfull Hn Hc.
  set (orig := original_team (get_team self w)) in *.
  set (n := team_count (get_team self w)) in *.
  destruct (regenerate_loop_run orig w Hfull) as (w1 & Hrun1 & T1 & T2).
  assert (Tm : get_team self w1 = get_team self w)
    by (apply get_team_trainers; assumption).
  assert (To : get_trainer (other_side self) w1
               = get_trainer (other_side self) w)
    by (destruct self; cbn; assumption).
  set (w2 := put_team self (TArrayR orig) w1).
  assert (Hteam2 : team (get_team self w2) = TArrayR orig)
    by apply team_put_team.
  assert (Hcount2 : team_count (get_team self w2) = n)
    by (unfold w2; rewrite team_count_put_team, Tm; reflexivity).
  assert (Horig2 : original_team (get_team self w2) = orig)
    by (unfold w2, orig; rewrite <- Tm; destruct self; reflexivity).
  assert (Hother2 : get_trainer (other_side self) w2
                    = get_trainer (other_side self) w)
    by (rewrite <- To; destruct self; reflexivity).
  assert (Hprefix : regenerate_team self mode c w
                    = assemble_team self mode c w2).
  { unfold regenerate_team, bind, gets. fold orig.
    rewrite Hrun1. reflexivity. }
  assert (Hframe : forall adt,
             original_team (get_team self (assembled_as self adt c w2)) = orig
             /\ team_count (get_team self (assembled_as self adt c w2)) = n
             /\ get_trainer (other_side self) (assembled_as self adt c w2)
                = get_trainer (other_side self) w).
  { intros adt. unfold assembled_as. rewrite get_team_set_team.
    cbn [original_team team_count].
    split; [exact Horig2|]. split; [exact Hcount2|].
    rewrite <- Hother2. destruct self; reflexivity. }
  destruct mode.
  - eexists. split.
    + rewrite Hprefix.
      apply (assemble_team_set_run self c w2 orig Hteam2).
      rewrite Hcount2. exact Hn.
    + split; [|apply Hframe].
      unfold members, assembled_as. rewrite get_team_set_team, Hcount2.
      reflexivity.
  - eexists. split.
    + rewrite Hprefix.
      apply (assemble_team_rotate_run self c w2 orig Hteam2).
      rewrite Hcount2. exact Hn.
    + split; [|apply Hframe].
      unfold members, assembled_as. rewrite get_team_set_team, Hcount2.
      reflexivity.
  - destruct (Hc eq_refl) as (crit & -> & Hin).
    destruct (assemble_team_optimise_run self crit w2 orig Hteam2)
      as (items & Hrun & _ & _ & Hperm).
    + rewrite Hcount2. exact Hn.
    + intros j Hj. rewrite Hcount2 in Hj.
      destruct (nth_error orig j) as [[r|]|] eqn:Hj'.
      * exists r. reflexivity.
      * exfalso. rewrite Forall_forall in Hfull.
        apply (Hfull None); [exact (nth_error_In _ _ Hj')|reflexivity].
      * apply nth_error_None in Hj'. lia.
    + exact Hin.
    + eexists. split; [rewrite Hprefix; exact Hrun|].
      split; [|apply Hframe].
      unfold members, assembled_as. rewrite get_team_set_team.
      cbn [team team_order]. rewrite Hcount2 in Hperm. exact Hperm.
Qed.

(** X17.  [regenerate_team], on a team whose [original_team] array is
    full, returns with the team assembled anew from that array: whatever
    the battles removed is back.  In set mode the team is the first
    [team_count] original members in reverse, in rotate mode in their
    original order, in optimised mode (by a recognised criterion) in
    some order. *)
Theorem regenerate_team_restores_roster (self : Side) (mode : BattleMode)
        (c : option string) (w : World) :
  Forall (fun o => o <> None) (original_team (get_team self w)) ->
  (team_count (get_team self w)
   <= length (original_team (get_team self w)))%nat ->
  (mode = OPTIMISE -> exists crit, c = Some crit /\ In crit CRITERION_LIST) ->
  exists w',
    regenerate_team self mode c w = Ok tt w'
    /\ match mode with
       | SET =>
           members self w'
           = rev (firstn (team_count (get_team self w))
                         (original_team (get_team self w)))
       | ROTATE =>
           members self w'
           = firstn (team_count (get_team self w))
                    (original_team (get_team self w))
       | OPTIMISE =>
           Permutation (members self w')
                       (firstn (team_count (get_team self w))
                               (original_team (get_team self w)))
       end
    /\ original_team (get_team self w') = original_team (get_team self w)
    /\ team_count (get_team self w') = team_count (get_team self w)
    /\ get_trainer (other_side self) w' = get_trainer (other_side self) w.
Proof. apply regenerate_team_restores_roster_run. Qed.


(* ------------------------------------------------------------------ *)
(** ** The pokedex *)

Lemma register_pokemon_run (self : Side) (r : ref) (w : World) :
  register_pokemon self (Some r) w
  = Ok tt (with_registered self (poketype (store w r)) w).
Proof. reflexivity. Qed.

Lemma bset_add_twice (item elems : N) :
  bset_add item (bset_add item elems) = bset_add item elems.
Proof.
  unfold bset_add. rewrite <- N.lor_assoc, N.lor_diag. reflexivity.
Qed.

Lemma bset_add_comm (a b elems : N) :
  bset_add a (bset_add b elems) = bset_add b (bset_add a elems).
Proof.
  unfold bset_add. rewrite <- !N.lor_assoc.
  f_equal. apply N.lor_comm.
Qed.

(** X18.  Registering is idempotent and order-independent: registering
    a Pokemon whose type is already in the pokedex changes nothing, and
    two Pokemon registered in either order leave the same pokedex.  A
    registration touches nothing but the pokedex, and registering [None]
    raises [AttributeError]. *)
Theorem register_pokemon_set_like (self : Side) (r1 r2 : ref) (w : World) :
  (register_pokemon self (Some r1) ;; register_pokemon self (Some r1)) w
  = register_pokemon self (Some r1) w
  /\ (register_pokemon self (Some r1) ;; register_pokemon self (Some r2)) w
     = (register_pokemon self (Some r2) ;; register_pokemon self (Some r1)) w
  /\ (exists w', register_pokemon self (Some r1) w = Ok tt w'
                 /\ store w' = store w
                 /\ get_team Side1 w' = get_team Side1 w
                 /\ get_team Side2 w' = get_team Side2 w
                 /\ get_trainer (other_side self) w'
                    = get_trainer (other_side self) w
                 /\ stdout w' = stdout w)
  /\ register_pokemon self None w = Raise AttributeError w.
Proof.
  split; [|split; [|split; [|reflexivity]]].
  - unfold bind. rewrite !register_pokemon_run.
    unfold with_registered.
    destruct self; cbn; rewrite bset_add_twice; reflexivity.
  - unfold bind. rewrite !register_pokemon_run.
    unfold with_registered.
    destruct self; cbn;
      rewrite (bset_add_comm (poketype_value (poketype (store w r2)) + 1));
      reflexivity.
  - eexists. split; [apply register_pokemon_run|].
    destruct self; repeat split.
Qed.

Lemma pos_popcount_bound (n : nat) :
  forall p, (N.pos p < 2 ^ N.of_nat n)%N -> (pos_popcount p <= n)%nat.
Proof.
  induction n as [|n IH]; intros p Hp.
  - cbn in Hp. lia.
  - replace (N.of_nat (S n)) with (N.succ (N.of_nat n)) in Hp by lia.
    rewrite N.pow_succ_r' in Hp.
    destruct p as [q|q|]; cbn [pos_popcount].
    + assert (pos_popcount q <= n)%nat by (apply IH; lia). lia.
    + assert (pos_popcount q <= n)%nat by (apply IH; lia). lia.
    + lia.
Qed.

Lemma pos_popcount_pos (p : positive) : (1 <= pos_popcount p)%nat.
Proof. induction p; cbn [pos_popcount]; lia. Qed.

Lemma bset_len_bounds (elems : N) :
  pokedex_in_range elems ->
  (bset_len elems <= 15)%nat /\ (elems <> 0%N -> (1 <= bset_len elems)%nat).
Proof.
  intros H. destruct elems as [|p]; cbn [bset_len].
  - split; [lia|contradiction].
  - split; [apply (pos_popcount_bound 15); exact H|].
    intros _. apply pos_popcount_pos.
Qed.

Lemma round2_hundredths (x : Q) :
  exists n : Z,
    round2 x = (inject_Z n / 100)%Q
    /\ (Qfloor (x * 100) <= n <= Qfloor (x * 100) + 1)%Z
    /\ (n = Qfloor (x * 100) + 1 ->
        (1 # 2 <= x * 100 - inject_Z (Qfloor (x * 100)))%Q)%Z
    /\ (n = Qfloor (x * 100) ->
        (x * 100 - inject_Z (Qfloor (x * 100)) <= 1 # 2)%Q).
Proof.
  unfold round2.
  set (f := Qfloor (x * 100)). set (r := (x * 100 - inject_Z f)%Q).
  destruct (Qlt_bool r (1 # 2)) eqn:E1.
  - exists f. split; [reflexivity|]. split; [lia|].
    apply Qlt_bool_iff in E1. split; [lia|intros _; lra].
  - apply Qlt_bool_false_iff in E1.
    destruct (Qlt_bool (1 # 2) r) eqn:E2.
    + exists (f + 1)%Z. split; [reflexivity|]. split; [lia|].
      split; [intros _; exact E1|lia].
    + apply Qlt_bool_false_iff in E2.
      destruct (Z.even f).
      * exists f. split; [reflexivity|]. split; [lia|].
        split; [lia|intros _; exact E2].
      * exists (f + 1)%Z. split; [reflexivity|]. split; [lia|].
        split; [intros _; exact E1|lia].
Qed.

Lemma completion_of_len (k : nat) :
  (k <= 15)%nat ->
  (0 <= round2 (inject_Z (Z.of_nat k) / inject_Z len_PokeType) <= 1)%Q
  /\ ((1 <= k)%nat ->
      (7 # 100 <= round2 (inject_Z (Z.of_nat k) / inject_Z len_PokeType))%Q).
Proof.
  intros Hk.
  set (x := (inject_Z (Z.of_nat k) / inject_Z len_PokeType)%Q).
  assert (Hx : (x * 100 == inject_Z (Z.of_nat k) * (100 # 15))%Q).
  { unfold x, Qdiv, len_PokeType. change (/ inject_Z 15)%Q with (1 # 15)%Q.
    field. }
  assert (Hk0 : (0 <= inject_Z (Z.of_nat k))%Q)
    by (change 0%Q with (inject_Z 0); rewrite <- Zle_Qle; lia).
  assert (Hk15 : (inject_Z (Z.of_nat k) <= 15)%Q)
    by (change 15%Q with (inject_Z 15); rewrite <- Zle_Qle; lia).
  destruct (round2_hundredths x) as (n & -> & Hn & Hup & Hdown).
  pose proof (Qfloor_le (x * 100)) as Hfl.
  pose proof (Qlt_floor (x * 100)) as Hfu.
  rewrite inject_Z_plus in Hfu. change (inject_Z 1) with 1%Q in Hfu.
  assert (Hdiv : forall a b : Z, (a <= b)%Z ->
                   (inject_Z a / 100 <= inject_Z b / 100)%Q).
  { intros a b Hab. unfold Qdiv. change (/ 100)%Q with (1 # 100)%Q.
    assert (inject_Z a <= inject_Z b)%Q by (rewrite <- Zle_Qle; exact Hab).
    lra. }
  assert (Hf0 : (0 <= Qfloor (x * 100))%Z).
  { change 0%Z with (Qfloor 0). apply Qfloor_resp_le. lra. }
  assert (Hn100 : (n <= 100)%Z).
  { destruct (Z.eq_dec n (Qfloor (x * 100) + 1)) as [E|E].
    - specialize (Hup E).
      assert (inject_Z (Qfloor (x * 100)) < inject_Z 100)%Q
        by (change (inject_Z 100) with 100%Q; lra).
      rewrite <- Zlt_Qlt in H. lia.
    - assert (inject_Z (Qfloor (x * 100)) <= inject_Z 100)%Q
        by (change (inject_Z 100) with 100%Q; lra).
      rewrite <- Zle_Qle in H. lia. }
  split.
  - split.
    + apply (Qle_trans _ (inject_Z 0 / 100)); [compute; discriminate|].
      apply Hdiv. lia.
    + apply (Qle_trans _ (inject_Z 100 / 100)); [apply Hdiv; exact Hn100|].
      compute. discriminate.
  - intros Hk1.
    assert (Hk1' : (1 <= inject_Z (Z.of_nat k))%Q)
      by (change 1%Q with (inject_Z 1); rewrite <- Zle_Qle; lia).
    assert (Hn7 : (7 <= n)%Z).
    { assert (H6 : (6 <= Qfloor (x * 100))%Z).
      { change 6%Z with (Qfloor 6). apply Qfloor_resp_le. lra. }
      destruct (Z.eq_dec n (Qfloor (x * 100))) as [E|E]; [|lia].
      specialize (Hdown E).
      destruct (Z.eq_dec (Qfloor (x * 100)) 6) as [E6|E6]; [|lia].
      rewrite E6 in Hdown. change (inject_Z 6) with 6%Q in Hdown. lra. }
    apply (Qle_trans _ (inject_Z 7 / 100)); [compute; discriminate|].
    apply Hdiv. exact Hn7.
Qed.

(** X19.  The pokedex completion is a fraction: for a pokedex that holds
    type numbers only, [get_pokedex_completion] returns a value between
    0 and 1 and changes nothing; the value is at least 0.07 as soon as
    one type is registered, and [register_pokemon] keeps the pokedex
    within the type numbers. *)
Theorem pokedex_completion_bounds (self : Side) (w : World) :
  pokedex_in_range (pokedex (get_trainer self w)) ->
  (exists c,
      get_pokedex_completion self w = Ok c w
      /\ (0 <= c <= 1)%Q
      /\ (pokedex (get_trainer self w) <> 0%N -> (7 # 100 <= c)%Q))
  /\ (forall t,
        pokedex_in_range (pokedex (get_trainer self
                                     (with_registered self t w)))
        /\ pokedex (get_trainer self (with_registered self t w)) <> 0%N).
Proof.
  intros Hr. split.
  - eexists. split; [reflexivity|].
    destruct (bset_len_bounds _ Hr) as [H15 H1].
    destruct (completion_of_len _ H15) as [Hb Hp].
    split; [exact Hb|]. intros Hne. apply Hp. apply H1. exact Hne.
  - intros t.
    assert (E : pokedex (get_trainer self (with_registered self t w))
                = bset_add (poketype_value t + 1)
                           (pokedex (get_trainer self w)))
      by (destruct self; reflexivity).
    rewrite E. unfold bset_add, pokedex_in_range in *.
    assert (Hbit : (N.shiftl 1 (poketype_value t + 1 - 1) < 2 ^ 15)%N
                   /\ N.shiftl 1 (poketype_value t + 1 - 1) <> 0%N)
      by (destruct t; cbn; split; lia).
    destruct Hbit as [Hlt Hnz].
    split.
    + destruct (N.eq_dec (pokedex (get_trainer self w)) 0) as [E0|E0].
      * rewrite E0, N.lor_0_l. exact Hlt.
      * apply N.log2_lt_pow2.
        { destruct (N.lor (pokedex (get_trainer self w))
                      (N.shiftl 1 (poketype_value t + 1 - 1))) eqn:El;
            [|lia].
          apply N.lor_eq_0_iff in El. destruct El; contradiction. }
        rewrite N.log2_lor. apply N.max_lub_lt.
        -- apply N.log2_lt_pow2; [lia|exact Hr].
        -- apply N.log2_lt_pow2; [lia|exact Hlt].
    + intros El. apply N.lor_eq_0_iff in El. destruct El; contradiction.
Qed.


(* ------------------------------------------------------------------ *)
(** ** A clash never divides by zero *)

Lemma round2_pos (x : Q) : (1 # 15 <= x)%Q -> (0 < round2 x)%Q.
Proof.
  intros Hx. destruct (round2_hundredths x) as (n & -> & Hn & _).
  assert (H6 : (6 <= Qfloor (x * 100))%Z).
  { change 6%Z with (Qfloor 6). apply Qfloor_resp_le. lra. }
  assert (Hn' : (inject_Z 6 <= inject_Z n)%Q) by (rewrite <- Zle_Qle; lia).
  change (inject_Z 6) with 6%Q in Hn'.
  unfold Qdiv. change (/ 100)%Q with (1 # 100)%Q. lra.
Qed.

Lemma completion_pos (s : Side) (w : World) :
  pokedex (get_trainer s w) <> 0%N ->
  Qeq_bool (round2 (inject_Z (Z.of_nat (bset_len (pokedex (get_trainer s w))))
                    / inject_Z len_PokeType)) 0 = false.
Proof.
  intros Hne. apply Qeq_bool_false. intros E.
  assert (H1 : (1 <= bset_len (pokedex (get_trainer s w)))%nat).
  { destruct (pokedex (get_trainer s w)) as [|p]; [contradiction|].
    apply pos_popcount_pos. }
  assert (Hpos : (0 < round2
                        (inject_Z (Z.of_nat (bset_len
                                               (pokedex (get_trainer s w))))
                         / inject_Z len_PokeType))%Q).
  { apply round2_pos. unfold Qdiv, len_PokeType.
    change (/ inject_Z 15)%Q with (1 # 15)%Q.
    assert (1 <= inject_Z (Z.of_nat (bset_len (pokedex (get_trainer s w)))))%Q
      by (change 1%Q with (inject_Z 1); rewrite <- Zle_Qle; lia).
    lra. }
  rewrite E in Hpos. exact (Qlt_irrefl _ Hpos).
Qed.

Section NoDivisionByZero.

Local Abbreviation safe := (preserved pokedexes_started not_zero_division).

Lemma started_store (w : World) (st : ref -> Pokemon) (nr : ref)
      (out : list event) :
  pokedexes_started w ->
  pokedexes_started (mkWorld st nr (trainer_1 w) (trainer_2 w) out).
Proof. intros H. exact H. Qed.

Lemma started_put_team (s : Side) (adt : TeamADT) (w : World) :
  pokedexes_started w -> pokedexes_started (put_team s adt w).
Proof. intros H. destruct s; exact H. Qed.

Lemma safe_raise {A} (e : exn) : e <> ZeroDivisionError -> safe (@raise A e).
Proof. intros He w H. split; [exact H|exact He]. Qed.

Lemma safe_lift_exn {A} (x : exn + A) :
  match x with inl e => e <> ZeroDivisionError | inr _ => True end ->
  safe (lift_exn x).
Proof.
  destruct x as [e|a]; intros Hx; [apply safe_raise; exact Hx|apply inv_ret].
Qed.

(** One step of a proof that a method is safe. *)
Ltac safe_step :=
  match goal with
  | |- preserved _ _ (bind _ _) => apply inv_bind; [|intros ?]
  | |- preserved _ _ (ret _) => apply inv_ret
  | |- preserved _ _ (gets _) => apply inv_gets
  | |- preserved _ _ (get_pokemon _) => apply inv_gets
  | |- preserved _ _ (print _) => apply inv_print; exact started_store
  | |- preserved _ _ (set_pokemon _ _) =>
      apply inv_set_pokemon; exact started_store
  | |- preserved _ _ (bind_team _ _) =>
      apply inv_bind_team; exact started_put_team
  | |- preserved _ _ (raise _) => apply safe_raise; discriminate
  | |- preserved _ _ (if ?b then _ else _) => destruct b
  | |- preserved _ _ (match ?x with _ => _ end) => destruct x
  end.

Lemma safe_defend (r : ref) (damage : Z) : safe (defend r damage).
Proof. unfold defend. repeat safe_step. Qed.

Lemma safe__evolve (r : ref) : safe (_evolve r).
Proof. unfold _evolve. repeat safe_step. Qed.

Lemma safe_level_up (r : ref) : safe (level_up r).
Proof. unfold level_up. repeat safe_step. apply safe__evolve. Qed.

Lemma safe_pokemon_is_alive (r : ref) : safe (pokemon_is_alive r).
Proof. unfold pokemon_is_alive. repeat safe_step. Qed.

Lemma safe_team_pop (s : Side) : safe (team_pop s).
Proof.
  unfold team_pop. repeat safe_step.
  apply safe_lift_exn. unfold stack_pop.
  destruct (stack_items s0); [discriminate|exact I].
Qed.

Lemma safe_team_serve (s : Side) : safe (team_serve s).
Proof.
  unfold team_serve. repeat safe_step.
  apply safe_lift_exn. unfold queue_serve.
  destruct (queue_items q); [discriminate|exact I].
Qed.

Lemma safe_remove_pokemon (s : Side) : safe (remove_pokemon s).
Proof.
  unfold remove_pokemon. apply inv_bind; [apply inv_gets|intros t].
  destruct (team t) as [array|st|q|items].
  - apply inv_ret.
  - apply inv_bind; [apply safe_team_pop|intros _; apply inv_ret].
  - apply inv_bind; [apply safe_team_serve|intros _; apply inv_ret].
  - repeat safe_step.
Qed.

Lemma safe_killed (a d : ref) (s : Side) (together : bool) :
  safe (killed a d s together).
Proof.
  unfold killed. apply inv_bind; [apply inv_gets|intros p].
  apply inv_bind; [safe_step|intros _].
  apply inv_bind; [apply safe_remove_pokemon|intros _].
  destruct (negb together); [apply safe_level_up|apply inv_ret].
Qed.

(** With both pokedexes started the quotient of the completions is
    defined. *)
Lemma safe_attack_and_defend (a d : ref) (ta td : Side) :
  safe (attack_and_defend a d ta td).
Proof.
  intros w Hw.
  assert (Hcd : Qeq_bool
                  (round2 (inject_Z (Z.of_nat
                                       (bset_len (pokedex (get_trainer td w))))
                           / inject_Z len_PokeType)) 0 = false).
  { apply completion_pos. destruct td; apply Hw. }
  unfold attack_and_defend.
  unfold bind at 1. unfold attack at 1, bind at 1, get_pokemon at 1,
    gets at 1.
  unfold bind at 1. unfold get_pokemon at 1, gets at 1. cbn [ret].
  unfold bind at 1. unfold get_pokedex_completion at 1, bind at 1,
    gets at 1. cbn [ret].
  unfold bind at 1. unfold get_pokedex_completion at 1, bind at 1,
    gets at 1. cbn [ret].
  unfold bind at 1. rewrite Hcd. cbn [ret].
  match goal with
  | |- match ?m w with _ => _ end => assert (Hm : safe m)
  end.
  { apply inv_bind; [apply safe_defend|intros _].
    apply inv_bind; [apply safe_pokemon_is_alive|intros alive].
    destruct (negb alive); [apply safe_killed|apply inv_ret]. }
  exact (Hm w Hw).
Qed.

Lemma safe_deduct_two (p1 p2 : ref) : safe (deduct_two p1 p2).
Proof.
  unfold deduct_two.
  apply inv_bind; [apply safe_defend|intros _].
  apply inv_bind; [apply safe_defend|intros _].
  apply inv_bind; [apply safe_pokemon_is_alive|intros a1].
  apply inv_bind; [apply safe_pokemon_is_alive|intros a2].
  destruct (negb a1 && negb a2).
  - apply inv_bind; [apply safe_killed|intros _; apply safe_killed].
  - destruct (negb a1); [apply safe_killed|].
    destruct (negb a2); [apply safe_killed|apply inv_ret].
Qed.

End NoDivisionByZero.

Lemma started_clash_start (r1 r2 : ref) (w : World) :
  pokedexes_started (clash_start r1 r2 w).
Proof.
  unfold pokedexes_started, clash_start, registered, bset_add.
  cbn [set_trainer get_trainer trainer_1 trainer_2 pokedex store].
  split; intros E; apply N.lor_eq_0_iff in E; destruct E as [_ E];
    revert E.
  - destruct (poketype (store w r2)); discriminate.
  - destruct (poketype (store w r1)); discriminate.
Qed.

(** X20.  [fight] never raises [ZeroDivisionError]: each trainer
    registers the opponent's Pokemon before the first attack, so both
    pokedex completions are positive whenever [attack_and_defend]
    divides one by the other. *)
Theorem fight_never_divides_by_zero (p1 p2 : pyobj) (w w' : World) :
  fight p1 p2 w <> Raise ZeroDivisionError w'.
Proof.
  destruct p1 as [r1|], p2 as [r2|];
    try (intros E;
         cbv [fight bind snapshot get_pokemon gets ret print modify
              register_pokemon deref raise] in E;
         discriminate).
  rewrite fight_start.
  assert (Hsafe : preserved pokedexes_started not_zero_division
            ((if negb (Qeq_bool (speed (store w r1)) (speed (store w r2)))
              then
                let first_attacker :=
                  if Qlt_bool (speed (store w r2)) (speed (store w r1))
                  then r1 else r2 in
                let second_attacker :=
                  if Qlt_bool (speed (store w r2)) (speed (store w r1))
                  then r2 else r1 in
                let first_trainer :=
                  if Nat.eqb first_attacker r1 then Side1 else Side2 in
                let second_trainer :=
                  if Nat.eqb first_attacker r1 then Side2 else Side1 in
                attack_and_defend first_attacker second_attacker
                                  first_trainer second_trainer ;;
                alive <- pokemon_is_alive second_attacker ;;
                if alive then
                  attack_and_defend second_attacker first_attacker
                                    second_trainer first_trainer
                else ret tt
              else
                attack_and_defend r1 r2 Side1 Side2 ;;
                attack_and_defend r2 r1 Side2 Side1) ;;
             after_clash r1 r2)).
  { apply inv_bind.
    - destruct (negb (Qeq_bool (speed (store w r1)) (speed (store w r2))));
        cbv zeta.
      + apply inv_bind; [apply safe_attack_and_defend|intros _].
        apply inv_bind; [apply safe_pokemon_is_alive|intros alive].
        destruct alive; [apply safe_attack_and_defend|apply inv_ret].
      + apply inv_bind; [apply safe_attack_and_defend|intros _].
        apply safe_attack_and_defend.
    - intros _. unfold after_clash.
      apply inv_bind; [apply safe_pokemon_is_alive|intros a1].
      apply inv_bind; [apply safe_pokemon_is_alive|intros a2].
      destruct (a1 && a2); [apply safe_deduct_two|apply inv_ret]. }
  specialize (Hsafe (clash_start r1 r2 w) (started_clash_start r1 r2 w)).
  intros E. rewrite E in Hsafe. destruct Hsafe as [_ Hne].
  apply Hne. reflexivity.
Qed.


(* ------------------------------------------------------------------ *)
(** ** Rendering a team leaves it as it was *)

Lemma snapshot_run (o : pyobj) (w : World) :
  snapshot o w = Ok (match o with
                     | Some r => Some (store w r)
                     | None => None
                     end) w.
Proof. destruct o; reflexivity. Qed.

Lemma rendered_put_team (s : Side) (adt : TeamADT) (w : World)
      (l : list pyobj) :
  rendered (put_team s adt w) l = rendered w l.
Proof. unfold rendered. rewrite store_put_team. reflexivity. Qed.

Lemma str_stack_loop (s : Side) (c ct : nat) (w : World) :
  forall (l acc : list pyobj) (lines : list (option Pokemon)),
    (length acc + length l <= ct)%nat ->
    for_range (length l)
      (fun acc : list (option Pokemon) * ArrayStack =>
         x <- team_peek s ;;
         line <- snapshot x ;;
         y <- team_pop s ;;
         temp_stack <- lift_exn (stack_push y (snd acc)) ;;
         ret (fst acc ++ [line], temp_stack))
      (lines, mkStack ct acc)
      (put_team s (TArrayStack (mkStack c l)) w)
    = Ok (lines ++ rendered w l, mkStack ct (rev l ++ acc))
         (put_team s (TArrayStack (mkStack c [])) w).
Proof.
  induction l as [|x l IH]; intros acc lines Hc.
  - cbn [length for_range ret rendered map rev app].
    rewrite app_nil_r. reflexivity.
  - cbn [length for_range]. unfold bind at 1. unfold bind at 1.
    unfold team_peek at 1, bind at 1, gets at 1.
    rewrite team_put_team. cbn [stack_peek stack_items lift_exn ret].
    unfold bind at 1. rewrite snapshot_run.
    unfold bind at 1. rewrite team_pop_run.
    unfold bind at 1. unfold stack_push.
    cbn [snd fst stack_items stack_capacity].
    replace (length acc <? ct)%nat with true
      by (symmetry; apply Nat.ltb_lt; cbn [length] in Hc; lia).
    cbn [lift_exn ret].
    rewrite IH by (cbn [length] in *; lia).
    rewrite store_put_team. cbn [rendered map rev].
    rewrite <- !app_assoc. reflexivity.
Qed.

Lemma str_queue_loop (s : Side) (c : nat) (w : World) :
  forall (xs ys : list pyobj) (lines : list (option Pokemon)),
    (length xs + length ys <= c)%nat ->
    for_range (length xs)
      (fun team_str : list (option Pokemon) =>
         pokemon <- team_serve s ;;
         line <- snapshot pokemon ;;
         team_append s pokemon ;;
         ret (team_str ++ [line]))
      lines
      (put_team s (TCircularQueue (mkQueue c (xs ++ ys))) w)
    = Ok (lines ++ rendered w xs)
         (put_team s (TCircularQueue (mkQueue c (ys ++ xs))) w).
Proof.
  induction xs as [|x xs IH]; intros ys lines Hc.
  - cbn [length for_range ret rendered map app].
    rewrite !app_nil_r. reflexivity.
  - cbn [length for_range app]. unfold bind at 1. unfold bind at 1.
    rewrite team_serve_run. unfold bind at 1. rewrite snapshot_run.
    unfold bind at 1.
    rewrite team_append_run
      by (rewrite length_app; cbn [length] in Hc; lia).
    cbn [ret]. rewrite <- app_assoc.
    rewrite IH by (rewrite length_app; cbn [length] in *; lia).
    rewrite store_put_team. cbn [rendered map].
    rewrite <- !app_assoc. reflexivity.
Qed.

Lemma str_sorted_loop (items : list ListItem) (w : World) :
  forall (n k : nat) (lines : list (option Pokemon)),
    (k + n <= length items)%nat ->
    for_range n
      (fun acc : list (option Pokemon) * Z =>
         item <- lift_exn (sorted_getitem items (snd acc)) ;;
         line <- snapshot (Some (value item)) ;;
         ret (fst acc ++ [line], (snd acc + 1)%Z))
      (lines, Z.of_nat k) w
    = Ok (lines ++ rendered w (firstn n (skipn k (map (fun it => Some (value it))
                                                     items))),
          Z.of_nat (k + n)) w.
Proof.
  induction n as [|n IH]; intros k lines Hk.
  - cbn [for_range ret firstn rendered map].
    rewrite app_nil_r, Nat.add_0_r. reflexivity.
  - cbn [for_range]. unfold bind at 1. unfold bind at 1. cbn [snd fst].
    destruct (nth_error items k) as [it|] eqn:Hit;
      [|apply nth_error_None in Hit; lia].
    unfold sorted_getitem.
    replace ((Z.of_nat k <? 0) || (Z.of_nat (length items) <=? Z.of_nat k))%Z
      with false
      by (symmetry; apply orb_false_iff; rewrite Z.ltb_ge, Z.leb_gt; lia).
    rewrite Nat2Z.id, Hit. cbn [lift_exn ret].
    unfold bind at 1. rewrite snapshot_run. cbn [ret].
    replace (Z.of_nat k + 1)%Z with (Z.of_nat (S k)) by lia.
    rewrite IH by lia.
    assert (Hm : nth_error (map (fun it => Some (value it)) items) k
                 = Some (Some (value it)))
      by (rewrite nth_error_map, Hit; reflexivity).
    rewrite (skipn_nth_cons _ _ _ Hm). cbn [firstn rendered map].
    rewrite <- app_assoc. cbn [app].
    replace (S k + n)%nat with (k + S n)%nat by lia. reflexivity.
Qed.

Lemma str_array_loop (array : list pyobj) (w : World) :
  forall (n k : nat) (lines : list (option Pokemon)),
    (k + n <= length array)%nat ->
    for_range n
      (fun acc : list (option Pokemon) * Z =>
         x <- lift_exn (array_getitem array (snd acc)) ;;
         line <- snapshot x ;;
         ret (fst acc ++ [line], (snd acc + 1)%Z))
      (lines, Z.of_nat k) w
    = Ok (lines ++ rendered w (firstn n (skipn k array)),
          Z.of_nat (k + n)) w.
Proof.
  induction n as [|n IH]; intros k lines Hk.
  - cbn [for_range ret firstn rendered map].
    rewrite app_nil_r, Nat.add_0_r. reflexivity.
  - cbn [for_range]. unfold bind at 1. unfold bind at 1. cbn [snd fst].
    destruct (nth_error array k) as [x|] eqn:Hx;
      [|apply nth_error_None in Hx; lia].
    rewrite (array_getitem_nth _ _ _ Hx). cbn [lift_exn ret].
    unfold bind at 1. rewrite snapshot_run. cbn [ret].
    replace (Z.of_nat k + 1)%Z with (Z.of_nat (S k)) by lia.
    rewrite IH by lia.
    rewrite (skipn_nth_cons _ _ _ Hx). cbn [firstn rendered map].
    rewrite <- app_assoc. cbn [app].
    replace (S k + n)%nat with (k + S n)%nat by lia. reflexivity.
Qed.

Lemma PokeTeam_str_nondestructive_run (self : Side) (w : World) :
  adt_wf (team (get_team self w)) ->
  match team (get_team self w) with
  | TArrayR array => (team_count (get_team self w) <= length array)%nat
  | _ => True
  end ->
  PokeTeam_str self w
  = Ok (rendered w
          match team (get_team self w) with
          | TArrayR array => firstn (team_count (get_team self w)) array
          | adt => team_order adt
          end) w.
Proof.
  intros Hwf Hn. unfold PokeTeam_str. unfold bind at 1. unfold gets at 1.
  destruct (team (get_team self w)) as [array|[c l]|[c l]|items] eqn:Hteam;
    cbn [adt_wf stack_items stack_capacity queue_items queue_capacity
         team_order] in *.
  - unfold bind.
    rewrite (str_array_loop array w _ 0%nat []) by lia.
    reflexivity.
  - rewrite <- (put_team_same self w) at 1. rewrite Hteam.
    unfold bind at 1. unfold new_stack.
    rewrite str_stack_loop by (cbn [length]; lia).
    cbn [snd fst app]. unfold bind at 1.
    rewrite getitem_stack_restore_run
      by (rewrite app_nil_r, length_rev; cbn [length]; lia).
    cbn [ret]. rewrite !app_nil_r, rev_involutive.
    rewrite <- Hteam, put_team_same. reflexivity.
  - rewrite <- (put_team_same self w) at 1. rewrite Hteam.
    rewrite <- (app_nil_r l) at 2.
    rewrite str_queue_loop by (cbn [length]; lia).
    cbn [app]. rewrite <- Hteam, put_team_same. reflexivity.
  - unfold bind.
    rewrite (str_sorted_loop items w _ 0%nat []) by lia.
    cbn [fst ret skipn app]. rewrite <- (length_map (fun it => Some (value it))).
    rewrite firstn_all. reflexivity.
Qed.

(** X21.  Rendering a team with [str] is non-destructive: on a stack or
    a queue within its capacity, on a sorted list, and on a raw array
    with at least [team_count] slots, [__str__] returns one line per
    member, front first (for the array: the first [team_count] slots),
    each showing the Pokemon in its current state, and leaves the world
    exactly as it was. *)
Theorem PokeTeam_str_nondestructive (self : Side) (w : World) :
  adt_wf (team (get_team self w)) ->
  match team (get_team self w) with
  | TArrayR array => (team_count (get_team self w) <= length array)%nat
  | _ => True
  end ->
  PokeTeam_str self w
  = Ok (rendered w
          match team (get_team self w) with
          | TArrayR array => firstn (team_count (get_team self w)) array
          | adt => team_order adt
          end) w.
Proof. apply PokeTeam_str_nondestructive_run. Qed.


(* ------------------------------------------------------------------ *)
(** ** The session *)

Lemma tbind_Done {A B} (m : T A) (k : A -> T B) (s s' : Session) (b : B) :
  tbind m k s = Done b s' ->
  exists a s1, m s = Done a s1 /\ k a s1 = Done b s'.
Proof.
  unfold tbind. destruct (m s) as [a s1|e s1|]; [|discriminate..].
  intros H. exists a, s1. split; [reflexivity|exact H].
Qed.

Lemma lift_run {A} (m : M A) (s : Session) (a : A) (w : World) :
  m (world s) = Ok a w -> lift m s = Done a (with_world w s).
Proof. intros H. unfold lift. rewrite H. reflexivity. Qed.

Lemma lift_Done {A} (m : M A) (s s' : Session) (a : A) :
  lift m s = Done a s' ->
  exists w, m (world s) = Ok a w /\ s' = with_world w s.
Proof.
  unfold lift. destruct (m (world s)) as [a' w|e w|]; [|discriminate..].
  intros H. injection H as <- <-. exists w. split; reflexivity.
Qed.

Lemma with_world_same (s : Session) : with_world (world s) s = s.
Proof. destruct s; reflexivity. Qed.

Lemma with_world_twice (w w' : World) (s : Session) :
  with_world w (with_world w' s) = with_world w s.
Proof. reflexivity. Qed.

(* ------------------------------------------------------------------ *)
(** ** Picking a team *)

Lemma only_pokedex_refl (self : Side) (w : World) : only_pokedex self w w.
Proof. repeat split; reflexivity. Qed.

Lemma only_pokedex_trans (self : Side) (w1 w2 w3 : World) :
  only_pokedex self w1 w2 -> only_pokedex self w2 w3 ->
  only_pokedex self w1 w3.
Proof.
  intros (A1 & A2 & A3 & A4 & A5 & A6 & A7) (B1 & B2 & B3 & B4 & B5 & B6 & B7).
  repeat split; congruence.
Qed.

Lemma only_pokedex_registered (self : Side) (t : PokeType) (w : World) :
  only_pokedex self w (with_registered self t w).
Proof. destruct self; repeat split; reflexivity. Qed.

Lemma has_registered_add (self : Side) (t t' : PokeType) (w : World) :
  has_registered self t' (with_registered self t w)
  <-> t' = t \/ has_registered self t' w.
Proof.
  unfold has_registered.
  replace (pokedex (get_trainer self (with_registered self t w)))
    with (N.setbit (pokedex (get_trainer self w)) (poketype_value t)).
  - rewrite N.setbit_iff. split.
    + intros [E|H]; [left|right; exact H].
      destruct t, t'; try reflexivity; discriminate.
    + intros [->|H]; [left; reflexivity|right; exact H].
  - rewrite N.setbit_spec'.
    transitivity (bset_add (poketype_value t + 1)
                           (pokedex (get_trainer self w)));
      [|destruct self; reflexivity].
    unfold bset_add. rewrite N.add_sub, N.shiftl_1_l. reflexivity.
Qed.

(** The loop of [pick_team] registers the type of every member. *)
Lemma pick_team_register_loop (self : Side) (array : list pyobj)
      (s : Session) :
  forall (k i : nat) (w : World),
    team (get_team self w) = TArrayR array ->
    (forall j, (i <= j < i + k)%nat ->
               exists r, nth_error array j = Some (Some r)) ->
    exists w',
      tfor_range k (pick_team_register self) i (with_world w s)
      = Done (i + k)%nat (with_world w' s)
      /\ only_pokedex self w w'
      /\ (forall t, has_registered self t w -> has_registered self t w')
      /\ (forall j r, (i <= j < i + k)%nat ->
            nth_error array j = Some (Some r) ->
            has_registered self (poketype (store w r)) w').
Proof.
  induction k as [|k IH]; intros i w Hteam Hslots.
  - exists w. cbn [tfor_range tret]. rewrite Nat.add_0_r.
    split; [reflexivity|]. split; [apply only_pokedex_refl|].
    split; [auto|intros j r Hj; lia].
  - destruct (Hslots i ltac:(lia)) as [r Hr].
    set (w1 := with_registered self (poketype (store w r)) w).
    assert (H1 : only_pokedex self w w1)
      by apply only_pokedex_registered.
    assert (Hteam1 : team (get_team self w1) = TArrayR array).
    { destruct H1 as (_ & _ & _ & T1 & T2 & _).
      rewrite <- Hteam. destruct self; [rewrite T1|rewrite T2]; reflexivity. }
    destruct (IH (S i) w1 Hteam1) as (w' & Hrun & Ho & Hmono & Hreg).
    { intros j Hj. apply Hslots. lia. }
    exists w'. split.
    + cbn [tfor_range]. unfold tbind at 1. unfold pick_team_register at 1.
      unfold tbind at 1.
      rewrite (lift_run _ _ (Some r) w).
      2:{ cbn [world with_world]. unfold PokeTeam_getitem, bind, gets.
          rewrite Hteam. rewrite (array_getitem_nth _ _ _ Hr). reflexivity. }
      rewrite with_world_twice. unfold tbind at 1.
      rewrite (lift_run _ _ tt w1).
      2:{ cbn [world with_world]. apply register_pokemon_run. }
      rewrite with_world_twice. cbn [tret].
      replace (i + S k)%nat with (S i + k)%nat by lia. exact Hrun.
    + split; [exact (only_pokedex_trans _ _ _ _ H1 Ho)|].
      split.
      * intros t Ht. apply Hmono. apply has_registered_add. right. exact Ht.
      * intros j r' Hj Hr'.
        destruct (Nat.eq_dec j i) as [->|Hne].
        -- rewrite Hr in Hr'. injection Hr' as <-.
           apply Hmono. apply has_registered_add. left. reflexivity.
        -- replace (store w r') with (store w1 r')
             by (destruct H1 as (E & _); rewrite E; reflexivity).
           apply (Hreg j); [lia|exact Hr'].
Qed.

Lemma pick_team_random_run (self : Side) (draws : nat -> nat)
        (keyboard : nat -> string) (asks : nat) (s : Session)
        (array : list pyobj) :
  team (get_team self (world s)) = TArrayR array ->
  length array = TEAM_LIMIT ->
  (forall i, (i < TEAM_LIMIT)%nat -> (draws i < length POKE_LIST)%nat) ->
  exists w',
    pick_team self "Random" draws keyboard asks s
    = Done tt (with_world w' s)
    /\ team (get_team self w')
       = TArrayR (map Some (seq (next_ref (world s)) TEAM_LIMIT))
    /\ team_count (get_team self w') = TEAM_LIMIT
    /\ (forall i, (i < TEAM_LIMIT)%nat ->
          nth_error POKE_LIST (draws i)
          = Some (store w' (next_ref (world s) + i)%nat)
          /\ has_registered self
               (poketype (store w' (next_ref (world s) + i)%nat)) w')
    /\ (forall t, has_registered self t (world s) -> has_registered self t w')
    /\ get_trainer (other_side self) w'
       = get_trainer (other_side self) (world s)
    /\ next_ref w' = (next_ref (world s) + TEAM_LIMIT)%nat
    /\ stdout w' = stdout (world s)
    /\ (forall r, (r < next_ref (world s))%nat ->
          store w' r = store (world s) r)
    /\ original_team (get_team self w')
       = map Some (seq (next_ref (world s)) TEAM_LIMIT)
    /\ trainer_name (get_trainer self w')
       = trainer_name (get_trainer self (world s)).
Proof.
  intros Hteam Hlen Hdraws.
  destruct (choose_randomly_fills_team_run self draws (world s) array
              Hteam Hlen Hdraws)
    as (w1 & Hrun1 & Ht1 & Ho1 & Hc1 & Hn1 & Hs1 & Hf1).
  set (fresh := map Some (seq (next_ref (world s)) TEAM_LIMIT)) in *.
  assert (Hslots : forall j, (0 <= j < 0 + TEAM_LIMIT)%nat ->
             exists r, nth_error fresh j = Some (Some r)).
  { intros j Hj. exists (next_ref (world s) + j)%nat. unfold fresh.
    rewrite nth_error_map, nth_error_seq.
    replace (j <? TEAM_LIMIT)%nat with true
      by (symmetry; apply Nat.ltb_lt; lia).
    reflexivity. }
  destruct (pick_team_register_loop self fresh s TEAM_LIMIT 0%nat w1 Ht1
              Hslots)
    as (w' & Hrun & Ho & Hmono & Hreg).
  destruct Ho as (O1 & O2 & O3 & O4 & O5 & O6 & O7).
  assert (Tm : get_team self w' = get_team self w1)
    by (destruct self; assumption).
  destruct Hf1 as (F1 & F2 & F3 & F4 & F5 & F6 & F7).
  exists w'. split.
  - unfold pick_team. cbn [String.eqb Ascii.eqb Bool.eqb].
    unfold tbind at 1. rewrite (lift_run _ _ tt w1 Hrun1).
    unfold tbind at 1.
    rewrite (lift_run _ _ TEAM_LIMIT w1).
    2:{ cbn [world with_world]. unfold PokeTeam_len, bind, gets.
        rewrite Ht1, Hc1. reflexivity. }
    rewrite with_world_twice. unfold tbind at 1.
    change (fun i : nat =>
              tbind (lift (PokeTeam_getitem self (Z.of_nat i)))
                (fun x => tbind (lift (register_pokemon self x))
                            (fun _ => tret (S i))))
      with (pick_team_register self).
    rewrite Hrun. reflexivity.
  - rewrite Tm. split; [exact Ht1|]. split; [exact Hc1|].
    split.
    { intros i Hi. rewrite O1. split; [apply Hs1; exact Hi|].
      apply (Hreg i); [lia|].
      unfold fresh. rewrite nth_error_map, nth_error_seq.
      replace (i <? TEAM_LIMIT)%nat with true
        by (symmetry; apply Nat.ltb_lt; lia).
      reflexivity. }
    split.
    { intros t Ht. apply Hmono. unfold has_registered in *.
      rewrite F3. exact Ht. }
    split; [rewrite O7; exact F1|].
    split; [rewrite O2; exact Hn1|].
    split; [rewrite O3; exact F6|].
    split; [intros r Hr; rewrite O1; apply F7; exact Hr|].
    split; [exact Ho1|]. rewrite O6. exact F2.
Qed.

(** X22.  [pick_team("Random")], for a trainer whose team is still its
    raw array and with draws inside the catalogue, returns with a team
    of [TEAM_LIMIT] newly created Pokemon and with the type of each of
    them in the pokedex, which loses nothing it held; the tower, the
    notes and the keyboard are not touched. *)
Theorem pick_team_random (self : Side) (draws : nat -> nat)
        (keyboard : nat -> string) (asks : nat) (s : Session)
        (array : list pyobj) :
  team (get_team self (world s)) = TArrayR array ->
  length array = TEAM_LIMIT ->
  (forall i, (i < TEAM_LIMIT)%nat -> (draws i < length POKE_LIST)%nat) ->
  exists w',
    pick_team self "Random" draws keyboard asks s
    = Done tt (with_world w' s)
    /\ team (get_team self w')
       = TArrayR (map Some (seq (next_ref (world s)) TEAM_LIMIT))
    /\ team_count (get_team self w') = TEAM_LIMIT
    /\ (forall i, (i < TEAM_LIMIT)%nat ->
          nth_error POKE_LIST (draws i)
          = Some (store w' (next_ref (world s) + i)%nat)
          /\ has_registered self
               (poketype (store w' (next_ref (world s) + i)%nat)) w')
    /\ (forall t, has_registered self t (world s) -> has_registered self t w')
    /\ get_trainer (other_side self) w'
       = get_trainer (other_side self) (world s)
    /\ next_ref w' = (next_ref (world s) + TEAM_LIMIT)%nat
    /\ stdout w' = stdout (world s)
    /\ (forall r, (r < next_ref (world s))%nat ->
          store w' r = store (world s) r)
    /\ original_team (get_team self w')
       = map Some (seq (next_ref (world s)) TEAM_LIMIT)
    /\ trainer_name (get_trainer self w')
       = trainer_name (get_trainer self (world s)).
Proof. apply pick_team_random_run. Qed.

(** X23.  [pick_team] with a method other than ['Random'] and
    ['Manual'] raises [ValueError] and changes nothing. *)
Theorem pick_team_invalid_method (self : Side) (method : string)
        (draws : nat -> nat) (keyboard : nat -> string) (asks : nat)
        (s : Session) :
  method <> "Random"%string -> method <> "Manual"%string ->
  pick_team self method draws keyboard asks s
  = Failed (ValueError "Invalid method") s.
Proof.
  intros H1 H2. unfold pick_team, tbind.
  apply String.eqb_neq in H1, H2. rewrite H1, H2. reflexivity.
Qed.


(* ------------------------------------------------------------------ *)
(** ** Creating the teams of a battle *)

Lemma in_CRITERION_LIST_Some (c : option string) :
  in_CRITERION_LIST c = true ->
  exists crit, c = Some crit /\ In crit CRITERION_LIST.
Proof.
  destruct c as [crit|]; [|discriminate].
  unfold in_CRITERION_LIST. intros H. apply existsb_exists in H.
  destruct H as (x & Hin & Hx). apply String.eqb_eq in Hx. subst x.
  exists crit. split; [reflexivity|exact Hin].
Qed.

Lemma say_run (n : note) (s : Session) :
  say n s = Done tt (mkSession (world s) (tower s)
                       (notes s ++ [(length (stdout (world s)), n)])
                       (typed s)).
Proof. reflexivity. Qed.

Lemma fresh_team_slots (n j : nat) :
  (j < TEAM_LIMIT)%nat -> nth_error (fresh_team n) j = Some (Some (n + j)%nat).
Proof.
  intros Hj. unfold fresh_team. rewrite nth_error_map, nth_error_seq.
  replace (j <? TEAM_LIMIT)%nat with true
    by (symmetry; apply Nat.ltb_lt; lia).
  reflexivity.
Qed.

Lemma length_fresh_team (n : nat) : length (fresh_team n) = TEAM_LIMIT.
Proof. unfold fresh_team. rewrite length_map, length_seq. reflexivity. Qed.

(** Assembling a freshly chosen team in any mode. *)
Lemma assemble_fresh_team (self : Side) (mode : BattleMode)
      (c : option string) (w : World) (n : nat) :
  team (get_team self w) = TArrayR (fresh_team n) ->
  team_count (get_team self w) = TEAM_LIMIT ->
  (mode = OPTIMISE -> in_CRITERION_LIST c = true) ->
  exists adt,
    assemble_team self mode c w = Ok tt (assembled_as self adt c w)
    /\ lined_up mode c (store w) (fresh_team n) adt.
Proof.
  intros Hteam Hcount Hc.
  assert (Hfirst : firstn TEAM_LIMIT (fresh_team n) = fresh_team n)
    by (apply firstn_all2; rewrite length_fresh_team; lia).
  destruct mode.
  - eexists. split.
    + apply (assemble_team_set_run self c w _ Hteam).
      rewrite Hcount, length_fresh_team. lia.
    + rewrite Hcount, Hfirst. cbn [lined_up stack_items stack_capacity].
      split; [reflexivity|]. rewrite length_fresh_team.
      apply Nat.le_max_r.
  - eexists. split.
    + apply (assemble_team_rotate_run self c w _ Hteam).
      rewrite Hcount, length_fresh_team. lia.
    + rewrite Hcount, Hfirst. cbn [lined_up queue_items queue_capacity].
      split; [reflexivity|]. rewrite length_fresh_team.
      apply Nat.le_max_r.
  - destruct (in_CRITERION_LIST_Some c (Hc eq_refl)) as (crit & -> & Hin).
    destruct (assemble_team_optimise_run self crit w _ Hteam)
      as (items & Hrun & Hs & Hk & Hp).
    + rewrite Hcount, length_fresh_team. lia.
    + intros j Hj. rewrite Hcount in Hj. eexists.
      apply fresh_team_slots. exact Hj.
    + exact Hin.
    + exists (TArraySortedList items). split; [exact Hrun|].
      cbn [lined_up]. rewrite Hcount, Hfirst in Hp.
      split; [exact Hp|]. split; [exact Hs|].
      exists crit. split; [reflexivity|exact Hk].
Qed.

Lemma get_team_assembled_as (self : Side) (adt : TeamADT)
      (c : option string) (w : World) :
  team (get_team self (assembled_as self adt c w)) = adt
  /\ team_count (get_team self (assembled_as self adt c w))
     = team_count (get_team self w)
  /\ get_trainer (other_side self) (assembled_as self adt c w)
     = get_trainer (other_side self) w
  /\ store (assembled_as self adt c w) = store w
  /\ stdout (assembled_as self adt c w) = stdout w.
Proof. destruct self; repeat split. Qed.

(** X24.  [_create_teams] first checks the criterion, in every mode: a
    criterion outside [CRITERION_LIST] raises [ValueError] before
    anything is done.  Otherwise, for two trainers whose teams are still
    raw arrays and with draws inside the catalogue, it returns with two
    teams of [TEAM_LIMIT] new Pokemon each, every one an instance of
    the class drawn for it, lined up as the mode says (a stack in
    reverse order of choice, a queue in order of choice, a list in
    which every item is keyed by the stat of the criterion and the keys
    ascend), after reporting each team once.  The objects that existed
    before are as they were. *)
Theorem _create_teams_cases (b : Battle) (draws_1 draws_2 : nat -> nat)
        (s : Session) (array_1 array_2 : list pyobj) :
  team (get_team Side1 (world s)) = TArrayR array_1 ->
  team (get_team Side2 (world s)) = TArrayR array_2 ->
  length array_1 = TEAM_LIMIT -> length array_2 = TEAM_LIMIT ->
  (forall i, (i < TEAM_LIMIT)%nat ->
             (draws_1 i < length POKE_LIST)%nat
             /\ (draws_2 i < length POKE_LIST)%nat) ->
  if in_CRITERION_LIST (battle_criterion b) then
    exists s',
      _create_teams b draws_1 draws_2 s = Done tt s'
      /\ lined_up (battle_mode b) (battle_criterion b) (store (world s'))
                  (fresh_team (next_ref (world s)))
                  (team (get_team Side1 (world s')))
      /\ lined_up (battle_mode b) (battle_criterion b) (store (world s'))
                  (fresh_team (next_ref (world s) + TEAM_LIMIT))
                  (team (get_team Side2 (world s')))
      /\ (forall i, (i < TEAM_LIMIT)%nat ->
            nth_error POKE_LIST (draws_1 i)
            = Some (store (world s') (next_ref (world s) + i)%nat)
            /\ nth_error POKE_LIST (draws_2 i)
               = Some (store (world s')
                         (next_ref (world s) + TEAM_LIMIT + i)%nat))
      /\ (forall r, (r < next_ref (world s))%nat ->
            store (world s') r = store (world s) r)
      /\ team_count (get_team Side1 (world s')) = TEAM_LIMIT
      /\ team_count (get_team Side2 (world s')) = TEAM_LIMIT
      /\ length (notes s') = (length (notes s) + 2)%nat
      /\ stdout (world s') = stdout (world s)
      /\ tower s' = tower s
  else
    _create_teams b draws_1 draws_2 s
    = Failed (ValueError "Invalid instiantiation of Battle class") s.
Proof.
  intros Ht1 Ht2 Hl1 Hl2 Hdraws.
  destruct (in_CRITERION_LIST (battle_criterion b)) eqn:Hc;
    [|unfold _create_teams, tbind; rewrite Hc; reflexivity].
  destruct (pick_team_random_run Side1 draws_1 (fun _ => EmptyString) O s
              array_1 Ht1 Hl1 (fun i Hi => proj1 (Hdraws i Hi)))
    as (w1 & Hrun1 & T1 & C1 & K1 & _ & O1 & N1 & S1 & F1 & _).
  cbn [other_side] in O1.
  assert (Ht2' : team (get_team Side2 (world (with_world w1 s)))
                 = TArrayR array_2).
  { cbn [world with_world]. unfold get_team. rewrite O1. exact Ht2. }
  destruct (pick_team_random_run Side2 draws_2 (fun _ => EmptyString) O
              (with_world w1 s) array_2 Ht2' Hl2
              (fun i Hi => proj2 (Hdraws i Hi)))
    as (w2 & Hrun2 & T2 & C2 & K2 & _ & O2 & N2 & S2 & F2 & _).
  cbn [other_side world with_world] in O2, T2, N2, S2, K2, F2.
  rewrite with_world_twice in Hrun2.
  assert (G1 : get_team Side1 w2 = get_team Side1 w1)
    by (unfold get_team; rewrite O2; reflexivity).
  assert (T1' : team (get_team Side1 w2)
                = TArrayR (fresh_team (next_ref (world s))))
    by (rewrite G1; exact T1).
  assert (C1' : team_count (get_team Side1 w2) = TEAM_LIMIT)
    by (rewrite G1; exact C1).
  rewrite N1 in T2. fold (fresh_team (next_ref (world s) + TEAM_LIMIT)) in T2.
  (* the two reports *)
  assert (Hstr1 : PokeTeam_str Side1 w2
                  = Ok (rendered w2 (fresh_team (next_ref (world s)))) w2).
  { rewrite (PokeTeam_str_nondestructive_run Side1 w2).
    - rewrite T1', C1'.
      rewrite firstn_all2 by (rewrite length_fresh_team; lia). reflexivity.
    - rewrite T1'. exact I.
    - rewrite T1', C1', length_fresh_team. lia. }
  assert (Hstr2 : PokeTeam_str Side2 w2
                  = Ok (rendered w2
                          (fresh_team (next_ref (world s) + TEAM_LIMIT))) w2).
  { rewrite (PokeTeam_str_nondestructive_run Side2 w2).
    - rewrite T2, C2.
      rewrite firstn_all2 by (rewrite length_fresh_team; lia). reflexivity.
    - rewrite T2. exact I.
    - rewrite T2, C2, length_fresh_team. lia. }
  (* the two assemblies *)
  set (c := match battle_mode b with
            | OPTIMISE => battle_criterion b
            | _ => None
            end).
  assert (Hc' : battle_mode b = OPTIMISE -> in_CRITERION_LIST c = true)
    by (intros E; unfold c; rewrite E; exact Hc).
  destruct (assemble_fresh_team Side1 (battle_mode b) c w2 _ T1' C1' Hc')
    as (adt1 & Ha1 & L1).
  destruct (get_team_assembled_as Side1 adt1 c w2)
    as (A1 & A2 & A3 & A4 & A5).
  cbn [other_side] in A3.
  set (w3 := assembled_as Side1 adt1 c w2) in *.
  assert (T2' : team (get_team Side2 w3)
                = TArrayR (fresh_team (next_ref (world s) + TEAM_LIMIT)))
    by (unfold get_team; rewrite A3; exact T2).
  assert (C2' : team_count (get_team Side2 w3) = TEAM_LIMIT)
    by (unfold get_team; rewrite A3; exact C2).
  destruct (assemble_fresh_team Side2 (battle_mode b) c w3 _ T2' C2' Hc')
    as (adt2 & Ha2 & L2).
  destruct (get_team_assembled_as Side2 adt2 c w3)
    as (B1 & B2 & B3 & B4 & B5).
  cbn [other_side] in B3.
  set (w4 := assembled_as Side2 adt2 c w3) in *.
  assert (Hrun : _create_teams b draws_1 draws_2 s
                 = Done tt
                     (mkSession w4 (tower s)
                        ((notes s
                          ++ [(length (stdout w2),
                               PrintTrainerTeam
                                 (trainer_name (get_trainer Side1 w2))
                                 (rendered w2
                                    (fresh_team (next_ref (world s)))))])
                         ++ [(length (stdout w2),
                              PrintTrainerTeam
                                (trainer_name (get_trainer Side2 w2))
                                (rendered w2
                                   (fresh_team (next_ref (world s)
                                                + TEAM_LIMIT))))])
                        (typed s))).
  { unfold _create_teams. rewrite Hc. cbn [negb].
    unfold tbind at 1. cbn [tret].
    unfold tbind at 1. rewrite Hrun1.
    unfold tbind at 1. rewrite Hrun2.
    unfold tbind at 1. unfold lift at 1, gets at 1.
    cbn [world with_world].
    unfold tbind at 1. unfold lift at 1. cbn [world with_world].
    rewrite Hstr1.
    unfold tbind at 1. rewrite say_run. cbn [world with_world tower notes typed].
    unfold tbind at 1. unfold lift at 1, gets at 1.
    cbn [world with_world tower notes typed].
    unfold tbind at 1. unfold lift at 1. cbn [world with_world].
    rewrite Hstr2.
    unfold tbind at 1. rewrite say_run.
    cbn [world with_world tower notes typed].
    unfold c in Ha1, Ha2.
    destruct (battle_mode b);
      unfold tbind at 1; unfold lift at 1; cbn [world with_world];
      rewrite Ha1; unfold lift; cbn [world with_world];
      fold w3; rewrite Ha2; reflexivity. }
  eexists. split; [exact Hrun|].
  cbn [world tower notes].
  assert (L1' : lined_up (battle_mode b) (battle_criterion b) (store w2)
                  (fresh_team (next_ref (world s))) adt1)
    by (unfold c in L1; destruct (battle_mode b); exact L1).
  assert (L2' : lined_up (battle_mode b) (battle_criterion b) (store w3)
                  (fresh_team (next_ref (world s) + TEAM_LIMIT)) adt2)
    by (unfold c in L2; destruct (battle_mode b); exact L2).
  rewrite B4, A4.
  split; [unfold get_team; rewrite B3; fold (get_team Side1 w3);
          rewrite A1; exact L1'|].
  split; [rewrite B1; rewrite A4 in L2'; exact L2'|].
  split.
  { intros i Hi. split.
    - rewrite F2 by (rewrite N1; lia). exact (proj1 (K1 i Hi)).
    - rewrite N1 in K2. exact (proj1 (K2 i Hi)). }
  split.
  { intros r Hr. rewrite F2 by (rewrite N1; lia). apply F1. exact Hr. }
  split; [unfold get_team at 1; rewrite B3;
          fold (get_team Side1 w3); rewrite A2; exact C1'|].
  split; [rewrite B2; exact C2'|].
  split; [rewrite !length_app; cbn [length]; lia|].
  split; [rewrite B5, A5, S2; cbn [world with_world]; exact S1|].
  reflexivity.
Qed.


(* ------------------------------------------------------------------ *)
(** ** The battle tower *)

Lemma tgets_Done {A} (f : Session -> A) (s s' : Session) (a : A) :
  tgets f s = Done a s' -> a = f s /\ s' = s.
Proof. intros H. injection H as <- <-. split; reflexivity. Qed.

Lemma tmodify_Done (f : Session -> Session) (s s' : Session) (u : unit) :
  tmodify f s = Done u s' -> s' = f s.
Proof. unfold tmodify. intros H. congruence. Qed.

Lemma enemies_serve_Done (s s' : Session) (enemy : Enemy) :
  enemies_serve s = Done enemy s' ->
  exists q rest,
    enemy_teams (tower s) = Some q
    /\ enemies q = enemy :: rest
    /\ s' = with_tower
              (mkTower (my_trainer (tower s))
                       (Some (mkTrainerQueue (enemies_capacity q) rest))
                       (enemy_lives (tower s)) (player_lives (tower s))
                       (enemies_defeated_count (tower s))) s.
Proof.
  unfold enemies_serve, tbind, tgets.
  destruct (enemy_teams (tower s)) as [q|] eqn:Hq; [|discriminate].
  destruct (enemies q) as [|e rest] eqn:He; [discriminate|].
  cbn [tmodify tret]. intros H. injection H as <- <-.
  exists q, rest. repeat split; assumption.
Qed.

Lemma enemies_append_Done (s s' : Session) (enemy : Enemy) :
  enemies_append enemy s = Done tt s' ->
  exists q,
    enemy_teams (tower s) = Some q
    /\ (length (enemies q) < enemies_capacity q)%nat
    /\ s' = with_tower
              (mkTower (my_trainer (tower s))
                       (Some (mkTrainerQueue (enemies_capacity q)
                                             (enemies q ++ [enemy])))
                       (enemy_lives (tower s)) (player_lives (tower s))
                       (enemies_defeated_count (tower s))) s.
Proof.
  unfold enemies_append, tbind, tgets.
  destruct (enemy_teams (tower s)) as [q|] eqn:Hq; [|discriminate].
  destruct (Nat.ltb_spec (length (enemies q)) (enemies_capacity q))
    as [Hlt|Hge]; [|discriminate].
  cbn [tmodify]. intros H. injection H as <-.
  exists q. repeat split; assumption.
Qed.

(** What a call of [next_battle] that returns has done: the enemy in
    front was served and fought, the score was kept, and the enemy went
    back to the end of the queue if it has a life left. *)
Lemma next_battle_Done (rounds : nat) (s s' : Session) (r : BattleReport) :
  next_battle rounds s = Done r s' ->
  exists q enemy rest winner w1 trainer',
    my_trainer (tower s) = true
    /\ enemy_teams (tower s) = Some q
    /\ enemies q = enemy :: rest
    /\ commence_battle (mkBattle ROTATE (Some "health"%string)) rounds
         (set_trainer Side2 (enemy_trainer enemy) (world s))
       = Ok winner w1
    /\ r = mkReport (fst (fst (tower_score winner (life enemy))))
                    (mkEnemy trainer'
                             (snd (fst (tower_score winner (life enemy)))))
                    (player_lives (tower s')) (enemy_lives (tower s'))
    /\ tower s'
       = mkTower true
           (Some (mkTrainerQueue (enemies_capacity q)
                    (if (0 <? snd (fst (tower_score winner (life enemy))))%Z
                     then rest
                          ++ [mkEnemy trainer'
                                (snd (fst (tower_score winner
                                                       (life enemy))))]
                     else rest)))
           (enemy_lives (tower s)
            + fst (fst (snd (tower_score winner (life enemy)))))%Z
           (player_lives (tower s)
            + snd (fst (snd (tower_score winner (life enemy)))))%Z
           (enemies_defeated_count (tower s)
            + snd (snd (tower_score winner (life enemy))))%Z
    /\ ((0 <? snd (fst (tower_score winner (life enemy))))%Z = true ->
        (length rest < enemies_capacity q)%nat).
Proof.
  unfold next_battle. intros H.
  apply tbind_Done in H. destruct H as (t & s1 & H1 & H).
  apply tgets_Done in H1. destruct H1 as [-> ->].
  apply tbind_Done in H. destruct H as ([] & s1 & H1 & H).
  destruct (my_trainer (tower s)) eqn:Hmy; [|discriminate].
  injection H1 as <-.
  apply tbind_Done in H. destruct H as (player & s1 & H1 & H).
  apply lift_Done in H1. destruct H1 as (w0 & H1 & ->).
  injection H1 as _ <-. rewrite with_world_same in H.
  apply tbind_Done in H. destruct H as ([] & s1 & H1 & H).
  rewrite say_run in H1. injection H1 as <-.
  apply tbind_Done in H. destruct H as (enemy & s1 & H1 & H).
  apply enemies_serve_Done in H1.
  destruct H1 as (q & rest & Hq & Hrest & ->).
  cbn [tower] in Hq.
  apply tbind_Done in H. destruct H as ([] & s1 & H1 & H).
  rewrite say_run in H1. injection H1 as <-.
  apply tbind_Done in H. destruct H as ([] & s1 & H1 & H).
  apply lift_Done in H1. destruct H1 as (w0 & H1 & ->).
  injection H1 as <-. cbn [world with_tower with_world tower notes typed] in *.
  apply tbind_Done in H. destruct H as (winner & s1 & H1 & H).
  apply lift_Done in H1. destruct H1 as (w1 & Hbattle & ->).
  cbn [world with_world] in Hbattle.
  apply tbind_Done in H. destruct H as (outcome & s1 & H1 & H).
  assert (Hscore :
    outcome = (fst (fst (tower_score winner (life enemy))),
               snd (fst (tower_score winner (life enemy))))
    /\ world s1 = w1
    /\ tower s1
       = mkTower true (Some (mkTrainerQueue (enemies_capacity q) rest))
           (enemy_lives (tower s)
            + fst (fst (snd (tower_score winner (life enemy)))))%Z
           (player_lives (tower s)
            + snd (fst (snd (tower_score winner (life enemy)))))%Z
           (enemies_defeated_count (tower s)
            + snd (snd (tower_score winner (life enemy))))%Z).
  { destruct winner as [[|]|]; cbn [tower_score fst snd];
      apply tbind_Done in H1; destruct H1 as ([] & s2 & H2 & H1);
      apply tmodify_Done in H2; subst s2;
      injection H1 as <- <-;
      cbn [world tower with_tower with_world my_trainer enemy_teams
           enemy_lives player_lives enemies_defeated_count];
      (split; [reflexivity|split; [reflexivity|]]);
      rewrite Hmy, ?Z.add_0_r; reflexivity. }
  destruct Hscore as (-> & Hw1 & Ht1). clear H1.
  cbn [fst snd] in H.
  apply tbind_Done in H. destruct H as ([] & s2 & H2 & H).
  apply lift_Done in H2. destruct H2 as (w2 & _ & ->).
  apply tbind_Done in H. destruct H as ([] & s3 & H3 & H).
  assert (Hback :
    exists trainer',
      tower s3
      = mkTower true
          (Some (mkTrainerQueue (enemies_capacity q)
                   (if (0 <? snd (fst (tower_score winner (life enemy))))%Z
                    then rest
                         ++ [mkEnemy trainer'
                               (snd (fst (tower_score winner
                                                      (life enemy))))]
                    else rest)))
          (enemy_lives (tower s)
           + fst (fst (snd (tower_score winner (life enemy)))))%Z
          (player_lives (tower s)
           + snd (fst (snd (tower_score winner (life enemy)))))%Z
          (enemies_defeated_count (tower s)
           + snd (snd (tower_score winner (life enemy))))%Z
      /\ ((0 <? snd (fst (tower_score winner (life enemy))))%Z = true ->
          (length rest < enemies_capacity q)%nat
          /\ trainer' = get_trainer Side2 (world s3))
      /\ ((0 <? snd (fst (tower_score winner (life enemy))))%Z = false ->
          trainer' = get_trainer Side2 (world s3))).
  { destruct (0 <? snd (fst (tower_score winner (life enemy))))%Z.
    - apply tbind_Done in H3. destruct H3 as ([] & s4 & H4 & H3).
      apply lift_Done in H4. destruct H4 as (w4 & _ & ->).
      apply tbind_Done in H3. destruct H3 as (tr & s5 & H5 & H3).
      apply lift_Done in H5. destruct H5 as (w5 & H5 & ->).
      injection H5 as <- <-.
      apply enemies_append_Done in H3.
      destruct H3 as (q' & Hq' & Hlen & ->).
      cbn [tower with_world with_tower world] in *.
      rewrite Ht1 in Hq'. cbn [enemy_teams] in Hq'. injection Hq' as <-.
      cbn [enemies enemies_capacity] in *.
      exists (get_trainer Side2 w4). rewrite Ht1.
      cbn [my_trainer enemy_lives player_lives enemies_defeated_count].
      split; [reflexivity|]. split; [|discriminate].
      intros _. split; [exact Hlen|reflexivity].
    - injection H3 as <-. cbn [tower with_world world].
      exists (get_trainer Side2 w2). split; [exact Ht1|].
      split; [discriminate|reflexivity]. }
  destruct Hback as (trainer' & Ht3 & Hpos & Hneg).
  apply tbind_Done in H. destruct H as (tr & s4 & H4 & H).
  apply lift_Done in H4. destruct H4 as (w4 & H4 & ->).
  injection H4 as <- <-. rewrite with_world_same in H.
  apply tbind_Done in H. destruct H as (t' & s4 & H4 & H).
  apply tgets_Done in H4. destruct H4 as [-> ->].
  injection H as <- <-.
  exists q, enemy, rest, winner, w1, trainer'.
  split; [reflexivity|]. split; [exact Hq|]. split; [exact Hrest|].
  split; [exact Hbattle|].
  split.
  { f_equal. f_equal.
    destruct (0 <? snd (fst (tower_score winner (life enemy))))%Z;
      [destruct (Hpos eq_refl) as [_ E]|pose proof (Hneg eq_refl) as E];
      symmetry; exact E. }
  split; [exact Ht3|].
  intros E. apply Hpos. exact E.
Qed.

(** X26.  The score of the tower: a call of [next_battle] that returns
    has served the enemy in front and fought it in rotate mode; the
    result is 1 exactly when the battle returned the player's trainer,
    so a draw counts as a loss for the player.  A win takes one life
    from the enemy and from [enemy_lives] and adds one to the enemies
    defeated; otherwise the player loses one life.  Either way the two
    totals together go down by exactly one, and the report shows them. *)
Theorem next_battle_score (rounds : nat) (s s' : Session)
        (r : BattleReport) :
  next_battle rounds s = Done r s' ->
  exists q enemy rest winner w1,
    enemy_teams (tower s) = Some q
    /\ enemies q = enemy :: rest
    /\ commence_battle (mkBattle ROTATE (Some "health"%string)) rounds
         (set_trainer Side2 (enemy_trainer enemy) (world s))
       = Ok winner w1
    /\ (if match winner with Some Side1 => true | _ => false end
        then report_result r = 1%Z
             /\ life (report_enemy r) = (life enemy - 1)%Z
             /\ enemy_lives (tower s') = (enemy_lives (tower s) - 1)%Z
             /\ player_lives (tower s') = player_lives (tower s)
             /\ enemies_defeated_count (tower s')
                = (enemies_defeated_count (tower s) + 1)%Z
        else report_result r = (-1)%Z
             /\ life (report_enemy r) = life enemy
             /\ enemy_lives (tower s') = enemy_lives (tower s)
             /\ player_lives (tower s') = (player_lives (tower s) - 1)%Z
             /\ enemies_defeated_count (tower s')
                = enemies_defeated_count (tower s))
    /\ report_player_lives r = player_lives (tower s')
    /\ report_enemy_lives r = enemy_lives (tower s')
    /\ (player_lives (tower s') + enemy_lives (tower s')
        = player_lives (tower s) + enemy_lives (tower s) - 1)%Z.
Proof.
  intros H. apply next_battle_Done in H.
  destruct H as (q & enemy & rest & winner & w1 & trainer'
                 & _ & Hq & Hrest & Hbattle & -> & Ht & _).
  exists q, enemy, rest, winner, w1.
  split; [exact Hq|]. split; [exact Hrest|]. split; [exact Hbattle|].
  rewrite Ht.
  cbn [report_result report_enemy report_player_lives report_enemy_lives
       life enemy_lives player_lives enemies_defeated_count].
  destruct winner as [[|]|]; cbn [tower_score fst snd];
    repeat split; lia.
Qed.

Lemma lives_in_queue_app (c : nat) (l : list Enemy) (e : Enemy) :
  lives_in_queue (mkTrainerQueue c (l ++ [e]))
  = (lives_in_queue (mkTrainerQueue c l) + life e)%Z.
Proof.
  unfold lives_in_queue. cbn [enemies].
  induction l as [|x l IH]; cbn [app fold_right]; [lia|].
  rewrite IH. lia.
Qed.

(** X27.  The tower keeps its count of enemy lives right: if
    [enemy_lives] is the sum of the lives of the enemies waiting, each
    with a life left, then the same holds after a call of [next_battle]
    that returns, whoever won; and as long as [battles_remaining] says
    so, an enemy is waiting in the queue. *)
Theorem tower_stays_consistent (rounds : nat) (s s' : Session)
        (r : BattleReport) :
  tower_consistent (tower s) ->
  (battles_remaining (tower s) = true ->
   exists q enemy rest,
     enemy_teams (tower s) = Some q /\ enemies q = enemy :: rest)
  /\ (next_battle rounds s = Done r s' -> tower_consistent (tower s')).
Proof.
  intros (q & Hq & Hsum & Hpos & Hcap). split.
  - unfold battles_remaining. intros Hb.
    destruct (0 <? player_lives (tower s))%Z; [|discriminate].
    destruct (0 <? enemy_lives (tower s))%Z eqn:He; [|discriminate].
    apply Z.ltb_lt in He. exists q.
    destruct (enemies q) as [|enemy rest] eqn:Hl.
    + rewrite Hsum in He. unfold lives_in_queue in He. rewrite Hl in He.
      cbn in He. lia.
    + exists enemy, rest. split; [exact Hq|reflexivity].
  - intros H. apply next_battle_Done in H.
    destruct H as (q' & enemy & rest & winner & w1 & trainer'
                   & _ & Hq' & Hrest & _ & _ & Ht & Hlen).
    rewrite Hq in Hq'. injection Hq' as <-.
    rewrite Hrest in Hpos, Hcap.
    inversion Hpos as [|? ? Hposenemy Hposrest]; subst.
    assert (Hsum' : enemy_lives (tower s)
                    = (life enemy
                       + lives_in_queue
                           (mkTrainerQueue (enemies_capacity q) rest))%Z).
    { rewrite Hsum. unfold lives_in_queue. rewrite Hrest. reflexivity. }
    unfold tower_consistent. rewrite Ht. cbn [enemy_teams enemy_lives].
    eexists. split; [reflexivity|]. cbn [enemies enemies_capacity].
    destruct (0 <? snd (fst (tower_score winner (life enemy))))%Z eqn:E.
    + specialize (Hlen eq_refl). apply Z.ltb_lt in E.
      split; [|split].
      * rewrite lives_in_queue_app. cbn [life]. rewrite Hsum'.
        destruct winner as [[|]|]; cbn [tower_score fst snd]; lia.
      * apply Forall_app. split; [exact Hposrest|].
        constructor; [exact E|constructor].
      * rewrite length_app. cbn [length]. lia.
    + apply Z.ltb_ge in E.
      split; [|split].
      * rewrite Hsum'.
        destruct winner as [[|]|]; cbn [tower_score fst snd] in *; lia.
      * exact Hposrest.
      * cbn [length] in Hcap. lia.
Qed.


(** An enemy depends on the store only through its own six objects. *)
Lemma enemy_made_store (st st' : ref -> Pokemon) (draws : nat -> nat)
      (name : string) (lives : Z) (first : nat) (e : Enemy) :
  (forall r, (r < first + TEAM_LIMIT)%nat -> st' r = st r) ->
  enemy_made st draws name lives first e ->
  enemy_made st' draws name lives first e.
Proof.
  intros Hst (H1 & H2 & H3 & H4 & H5 & H6).
  repeat (split; [assumption|]).
  intros j Hj. rewrite Hst by lia. apply H6. exact Hj.
Qed.

(** One enemy is made and joins the queue. *)
Lemma generate_enemy_run (draws : nat -> nat -> nat) (lives : nat -> Z)
      (i : nat) (s : Session) (q : TrainerQueue) :
  enemy_teams (tower s) = Some q ->
  (length (enemies q) < enemies_capacity q)%nat ->
  (forall j, (j < TEAM_LIMIT)%nat -> (draws i j < length POKE_LIST)%nat) ->
  exists s' e,
    generate_enemy draws lives i s = Done (S i) s'
    /\ tower s'
       = mkTower (my_trainer (tower s))
           (Some (mkTrainerQueue (enemies_capacity q) (enemies q ++ [e])))
           (enemy_lives (tower s) + lives i)%Z
           (player_lives (tower s)) (enemies_defeated_count (tower s))
    /\ enemy_made (store (world s')) (draws i)
         (String.append "Enemy " (str_nat i)) (lives i)
         (next_ref (world s)) e
    /\ next_ref (world s') = (next_ref (world s) + TEAM_LIMIT)%nat
    /\ (forall r, (r < next_ref (world s))%nat ->
          store (world s') r = store (world s) r)
    /\ get_trainer Side1 (world s') = get_trainer Side1 (world s)
    /\ notes s' = notes s
    /\ typed s' = typed s
    /\ stdout (world s') = stdout (world s).
Proof.
  intros Hq Hlen Hdraws.
  set (name := String.append "Enemy " (str_nat i)).
  set (wa := set_trainer Side2 (new_trainer name) (world s)).
  assert (Hta : team (get_team Side2 (world (with_world wa s)))
                = TArrayR (repeat None TEAM_LIMIT)) by reflexivity.
  destruct (pick_team_random_run Side2 (draws i) (fun _ => EmptyString) O
              (with_world wa s) (repeat None TEAM_LIMIT) Hta eq_refl Hdraws)
    as (wb & Hrunb & Tb & Cb & Sb & _ & Ob & Nb & Stb & Frb & Orb & Nameb).
  cbn [world with_world other_side] in Tb, Sb, Ob, Nb, Stb, Frb, Orb, Nameb.
  rewrite with_world_twice in Hrunb.
  change (next_ref wa) with (next_ref (world s)) in Tb, Sb, Nb, Frb, Orb.
  change (store wa) with (store (world s)) in Frb.
  fold (fresh_team (next_ref (world s))) in Tb, Orb.
  pose proof (assemble_team_rotate_run Side2 None wb _ Tb) as Hasm.
  rewrite Cb in Hasm.
  rewrite firstn_all2 in Hasm by (rewrite length_fresh_team; lia).
  specialize (Hasm ltac:(rewrite length_fresh_team; lia)).
  set (adt := TCircularQueue
                (mkQueue (Nat.max 1 TEAM_LIMIT)
                         (fresh_team (next_ref (world s))))) in *.
  set (wc := assembled_as Side2 adt None wb) in *.
  destruct (get_team_assembled_as Side2 adt None wb)
    as (A1 & A2 & A3 & A4 & A5).
  fold wc in A1, A2, A3, A4, A5. cbn [other_side] in A3.
  assert (A6 : next_ref wc = next_ref wb) by (destruct wb; reflexivity).
  assert (A7 : pokedex (get_trainer Side2 wc) = pokedex (get_trainer Side2 wb))
    by (destruct wb; reflexivity).
  assert (A8 : trainer_name (get_trainer Side2 wc)
               = trainer_name (get_trainer Side2 wb))
    by (destruct wb; reflexivity).
  assert (A9 : original_team (get_team Side2 wc)
               = original_team (get_team Side2 wb))
    by (destruct wb; reflexivity).
  set (e := mkEnemy (get_trainer Side2 wc) (lives i)).
  exists (mkSession wc
            (mkTower (my_trainer (tower s))
               (Some (mkTrainerQueue (enemies_capacity q)
                                     (enemies q ++ [e])))
               (enemy_lives (tower s) + lives i)%Z
               (player_lives (tower s)) (enemies_defeated_count (tower s)))
            (notes s) (typed s)), e.
  split.
  { unfold generate_enemy. fold name.
    unfold tbind at 1. unfold lift at 1, modify at 1. fold wa.
    unfold tbind at 1. rewrite Hrunb.
    unfold tbind at 1. unfold lift at 1. cbn [world with_world].
    rewrite Hasm. fold wc.
    unfold tbind at 1. unfold lift at 1, gets at 1.
    cbn [world with_world]. fold e.
    unfold tbind at 1. unfold enemies_append, tbind, tgets.
    cbn [tower with_world]. rewrite Hq.
    replace (length (enemies q) <? enemies_capacity q)%nat with true
      by (symmetry; apply Nat.ltb_lt; exact Hlen).
    reflexivity. }
  cbn [tower world notes typed].
  split; [reflexivity|].
  split.
  { unfold enemy_made, e. cbn [enemy_trainer life].
    fold (get_team Side2 wc).
    split; [rewrite A8, Nameb; reflexivity|].
    split; [reflexivity|].
    split; [exact A1|].
    split; [rewrite A2; exact Cb|].
    split; [rewrite A9; exact Orb|].
    intros j Hj. rewrite A4, A7.
    destruct (Sb j Hj) as [Hclass Hreg].
    split; [exact Hclass|exact Hreg]. }
  split; [rewrite A6; exact Nb|].
  split; [intros r Hr; rewrite A4; apply Frb; exact Hr|].
  split; [rewrite A3, Ob; reflexivity|].
  split; [reflexivity|]. split; [reflexivity|].
  rewrite A5, Stb. reflexivity.
Qed.

Lemma generate_enemies_loop (draws : nat -> nat -> nat) (lives : nat -> Z) :
  forall (k i : nat) (s : Session) (q : TrainerQueue),
    enemy_teams (tower s) = Some q ->
    (length (enemies q) + k <= enemies_capacity q)%nat ->
    (forall n j, (i <= n < i + k)%nat -> (j < TEAM_LIMIT)%nat ->
                 (draws n j < length POKE_LIST)%nat) ->
    exists s' es,
      tfor_range k (generate_enemy draws lives) i s = Done (i + k)%nat s'
      /\ tower s'
         = mkTower (my_trainer (tower s))
             (Some (mkTrainerQueue (enemies_capacity q) (enemies q ++ es)))
             (enemy_lives (tower s)
              + fold_right (fun n total => (lives n + total)%Z) 0%Z
                           (seq i k))%Z
             (player_lives (tower s)) (enemies_defeated_count (tower s))
      /\ map life es = map lives (seq i k)
      /\ length es = k
      /\ (forall j, (j < k)%nat ->
            exists e,
              nth_error es j = Some e
              /\ enemy_made (store (world s')) (draws (i + j)%nat)
                   (String.append "Enemy " (str_nat (i + j)))
                   (lives (i + j)%nat)
                   (next_ref (world s) + j * TEAM_LIMIT)%nat e)
      /\ next_ref (world s') = (next_ref (world s) + k * TEAM_LIMIT)%nat
      /\ (forall r, (r < next_ref (world s))%nat ->
            store (world s') r = store (world s) r)
      /\ get_trainer Side1 (world s') = get_trainer Side1 (world s)
      /\ notes s' = notes s
      /\ typed s' = typed s
      /\ stdout (world s') = stdout (world s).
Proof.
  induction k as [|k IH]; intros i s q Hq Hcap Hdraws.
  - exists s, []. cbn [tfor_range tret seq map fold_right].
    rewrite Nat.add_0_r, app_nil_r, Z.add_0_r.
    split; [reflexivity|].
    split; [destruct (tower s), q; cbn in Hq |- *; rewrite Hq; reflexivity|].
    split; [reflexivity|]. split; [reflexivity|].
    split; [intros j Hj; lia|].
    split; [cbn [Nat.mul]; lia|].
    repeat split.
  - destruct (generate_enemy_run draws lives i s q Hq ltac:(lia))
      as (s1 & e & Hrun1 & Ht1 & Hm1 & Hn1 & Hf1 & G1 & No1 & Ty1 & St1).
    { intros j Hj. apply Hdraws; [lia|exact Hj]. }
    destruct (IH (S i) s1
                (mkTrainerQueue (enemies_capacity q) (enemies q ++ [e])))
      as (s' & es & Hrun & Ht & Hl & Hlen & Hm & Hn & Hf & G & No & Ty & St).
    { rewrite Ht1. reflexivity. }
    { cbn [enemies enemies_capacity]. rewrite length_app. cbn [length]. lia. }
    { intros n j Hn' Hj. apply Hdraws; [lia|exact Hj]. }
    exists s', (e :: es). split.
    { cbn [tfor_range]. unfold tbind. rewrite Hrun1.
      replace (i + S k)%nat with (S i + k)%nat by lia. exact Hrun. }
    split.
    { rewrite Ht, Ht1.
      cbn [my_trainer enemy_lives player_lives enemies_defeated_count
           enemies enemies_capacity seq fold_right].
      rewrite <- app_assoc. cbn [app]. f_equal. lia. }
    cbn [seq map length].
    split.
    { destruct Hm1 as (_ & Hl1 & _). rewrite Hl1, Hl. reflexivity. }
    split; [rewrite Hlen; reflexivity|].
    split.
    { intros j Hj. destruct j as [|j].
      - exists e. split; [reflexivity|].
        cbn [Nat.mul]. rewrite !Nat.add_0_r.
        apply (enemy_made_store (store (world s1))); [|exact Hm1].
        intros r Hr. apply Hf. rewrite Hn1. exact Hr.
      - destruct (Hm j ltac:(lia)) as (e' & He' & Hmade).
        exists e'. split; [exact He'|].
        replace (i + S j)%nat with (S i + j)%nat by lia.
        replace (next_ref (world s) + S j * TEAM_LIMIT)%nat
          with (next_ref (world s1) + j * TEAM_LIMIT)%nat
          by (rewrite Hn1; cbn [Nat.mul]; lia).
        exact Hmade. }
    split; [rewrite Hn, Hn1; cbn [Nat.mul]; lia|].
    split.
    { intros r Hr. rewrite Hf by (rewrite Hn1; lia). apply Hf1. exact Hr. }
    split; [rewrite G; exact G1|].
    split; [rewrite No; exact No1|].
    split; [rewrite Ty; exact Ty1|].
    rewrite St. exact St1.
Qed.

(** X25.  [generate_enemy_trainers], with draws inside the catalogue,
    returns with a new queue of [num_teams] enemies.  Enemy [i] is
    named Enemy i and has the lives drawn for it; its team is a queue
    of six objects created for it, after all those of the enemies
    before it, in the order drawn, each an instance of the class drawn;
    and its pokedex holds the type of each of the six.  The objects
    that existed before are as they were.  [enemy_lives] is not reset:
    the lives drawn are added to what it was, so the count is that of
    the new queue only on a tower whose count was 0.  The player's
    trainer, the player's lives and the output are untouched. *)
Theorem generate_enemy_trainers_queue (num_teams : Z)
        (draws : nat -> nat -> nat) (lives : nat -> Z) (s : Session) :
  (forall n j, (n < Z.to_nat num_teams)%nat -> (j < TEAM_LIMIT)%nat ->
               (draws n j < length POKE_LIST)%nat) ->
  exists s' es,
    generate_enemy_trainers num_teams draws lives s = Done tt s'
    /\ tower s'
       = mkTower (my_trainer (tower s))
           (Some (mkTrainerQueue (Nat.max 1 (Z.to_nat num_teams)) es))
           (enemy_lives (tower s)
            + lives_drawn lives (Z.to_nat num_teams))%Z
           (player_lives (tower s)) (enemies_defeated_count (tower s))
    /\ length es = Z.to_nat num_teams
    /\ (forall i, (i < Z.to_nat num_teams)%nat ->
          exists e,
            nth_error es i = Some e
            /\ enemy_made (store (world s')) (draws i)
                 (String.append "Enemy " (str_nat i)) (lives i)
                 (next_ref (world s) + i * TEAM_LIMIT)%nat e)
    /\ next_ref (world s')
       = (next_ref (world s) + Z.to_nat num_teams * TEAM_LIMIT)%nat
    /\ (forall r, (r < next_ref (world s))%nat ->
          store (world s') r = store (world s) r)
    /\ (enemy_lives (tower s) = 0%Z ->
        (forall n, (n < Z.to_nat num_teams)%nat -> (0 < lives n)%Z) ->
        tower_consistent (tower s'))
    /\ get_trainer Side1 (world s') = get_trainer Side1 (world s)
    /\ notes s' = notes s
    /\ stdout (world s') = stdout (world s).
Proof.
  intros Hdraws.
  set (n := Z.to_nat num_teams) in *.
  set (s0 := with_tower
               (mkTower (my_trainer (tower s))
                  (Some (mkTrainerQueue (Nat.max 1 n) []))
                  (enemy_lives (tower s)) (player_lives (tower s))
                  (enemies_defeated_count (tower s))) s).
  destruct (generate_enemies_loop draws lives n 0%nat s0
              (mkTrainerQueue (Nat.max 1 n) []) eq_refl)
    as (s' & es & Hrun & Ht & Hl & Hlen & Hm & Hn & Hf & G & No & Ty & St).
  { cbn [enemies enemies_capacity length]. lia. }
  { intros m j Hm Hj. apply Hdraws; [lia|exact Hj]. }
  unfold s0 in Ht, Hm, Hn, Hf, G, No, St.
  cbn [enemies enemies_capacity app tower with_tower my_trainer enemy_lives
       player_lives enemies_defeated_count world notes Nat.add]
    in Ht, Hm, Hn, Hf, G, No, St.
  exists s', es. split.
  { unfold generate_enemy_trainers. fold n.
    unfold tbind at 1. unfold tmodify at 1. fold s0.
    unfold tbind at 1.
    match goal with
    | |- match tfor_range _ ?body _ _ with _ => _ end = _ =>
        change body with (generate_enemy draws lives)
    end.
    rewrite Hrun. reflexivity. }
  split; [exact Ht|]. split; [exact Hlen|]. split; [exact Hm|].
  split; [exact Hn|]. split; [exact Hf|].
  split.
  { intros H0 Hpos. rewrite Ht. unfold tower_consistent.
    cbn [enemy_teams enemy_lives].
    eexists. split; [reflexivity|]. cbn [enemies enemies_capacity].
    split; [|split].
    - unfold lives_in_queue, lives_drawn. cbn [enemies]. fold n.
      assert (Hsum : forall (l : list Enemy),
                fold_right (fun e total => (life e + total)%Z) 0%Z l
                = fold_right Z.add 0%Z (map life l))
        by (induction l as [|x l IHl]; cbn [map fold_right];
            [reflexivity|rewrite IHl; reflexivity]).
      assert (Hsum' : forall (l : list nat),
                fold_right (fun m total => (lives m + total)%Z) 0%Z l
                = fold_right Z.add 0%Z (map lives l))
        by (induction l as [|x l IHl]; cbn [map fold_right];
            [reflexivity|rewrite IHl; reflexivity]).
      rewrite Hsum, Hl, <- Hsum', H0. lia.
    - apply Forall_forall. intros e He.
      apply In_nth_error in He. destruct He as [m Hm'].
      assert (Hm'' : nth_error (map life es) m = Some (life e))
        by (rewrite nth_error_map, Hm'; reflexivity).
      rewrite Hl, nth_error_map, nth_error_seq in Hm''.
      destruct (m <? n)%nat eqn:Emn; [|discriminate].
      cbn in Hm''. injection Hm'' as <-. apply Hpos.
      apply Nat.ltb_lt. exact Emn.
    - rewrite Hlen. apply Nat.le_max_r. }
  split; [exact G|]. split; [exact No|exact St].
Qed.


(* ------------------------------------------------------------------ *)
(** ** Choosing a team by hand *)

Lemma tfor_range_app {L} (body : L -> T L) :
  forall (j k : nat) (locals : L) (s : Session),
    tfor_range (j + k) body locals s
    = tbind (tfor_range j body locals) (tfor_range k body) s.
Proof.
  induction j as [|j IH]; intros k locals s.
  - reflexivity.
  - cbn [tfor_range Nat.add]. unfold tbind.
    destruct (body locals s) as [l' s1|e s1|]; [|reflexivity..].
    rewrite IH. reflexivity.
Qed.

(** Answers that are refused are asked again: after [k] of them the
    loop is where it started, [k] prompts and [k] lines later. *)
Lemma ask_team_size_skip (keyboard : nat -> string) :
  forall (k asks : nat) (num : string) (s : Session),
    (forall j, (j < k)%nat ->
       refused_size (match j with
                     | O => num
                     | S j' => keyboard (typed s + j')%nat
                     end)) ->
    ask_team_size keyboard (k + asks) num s
    = ask_team_size keyboard asks
        (match k with
         | O => num
         | S k' => keyboard (typed s + k')%nat
         end)
        (mkSession (world s) (tower s)
           (notes s ++ repeat (length (stdout (world s)), AskTeamSizeAgain) k)
           (typed s + k)%nat).
Proof.
  induction k as [|k IH]; intros asks num s Hrefused.
  - cbn [repeat Nat.add]. rewrite app_nil_r, Nat.add_0_r.
    destruct s; reflexivity.
  - pose proof (Hrefused 0%nat ltac:(lia)) as H0. cbn beta iota in H0.
    set (s1 := mkSession (world s) (tower s)
                 (notes s ++ [(length (stdout (world s)), AskTeamSizeAgain)])
                 (S (typed s))).
    assert (Hstep : ask_team_size keyboard (S k + asks) num s
                    = ask_team_size keyboard (k + asks)
                        (keyboard (typed s)) s1).
    { cbn [ask_team_size Nat.add].
      destruct H0 as [Hd|(m & Hi & Hm)].
      - rewrite Hd. reflexivity.
      - destruct (str_isdigit num); [|reflexivity]. cbn [negb].
        unfold tbind at 1. unfold tbind at 1.
        unfold lift at 1, lift_exn at 1. rewrite Hi. cbn [ret].
        destruct (m <? 1)%Z eqn:E1; [destruct s; reflexivity|].
        unfold tbind at 1. unfold tbind at 1.
        unfold lift at 1, lift_exn at 1. cbn [ret world with_world tret].
        replace (Z.of_nat TEAM_LIMIT <? m)%Z with true
          by (symmetry; apply Z.ltb_lt; apply Z.ltb_ge in E1; lia).
        destruct s; reflexivity. }
    rewrite Hstep, IH.
    + subst s1. cbn [world tower notes typed].
      rewrite <- app_assoc. cbn [app repeat].
      replace (S (typed s) + k)%nat with (typed s + S k)%nat by lia.
      f_equal. destruct k as [|k]; f_equal; lia.
    + intros j Hj. specialize (Hrefused (S j) ltac:(lia)).
      cbn beta iota in Hrefused. cbn [typed s1].
      destruct j as [|j]; [rewrite Nat.add_0_r in Hrefused; exact Hrefused|].
      replace (S (typed s) + j)%nat with (typed s + S j)%nat by lia.
      exact Hrefused.
Qed.

Lemma ask_team_size_accepts (keyboard : nat -> string) (asks : nat)
      (num : string) (s : Session) (n : nat) :
  accepted_size num n ->
  ask_team_size keyboard (S asks) num s = Done num s.
Proof.
  intros (Hd & Hi & Hn).
  cbn [ask_team_size]. rewrite Hd. cbn [negb].
  unfold tbind, lift, lift_exn. rewrite Hi. cbn [ret].
  replace (Z.of_nat n <? 1)%Z with false by (symmetry; apply Z.ltb_ge; lia).
  cbn [world with_world tret].
  replace (Z.of_nat TEAM_LIMIT <? Z.of_nat n)%Z with false
    by (symmetry; apply Z.ltb_ge; lia).
  destruct s; reflexivity.
Qed.

Lemma ask_team_size_raises (keyboard : nat -> string) (asks : nat)
      (num : string) (s : Session) (e : exn) :
  str_isdigit num = true ->
  int_of_str num = inl e ->
  ask_team_size keyboard (S asks) num s = Failed e s.
Proof.
  intros Hd Hi.
  cbn [ask_team_size]. rewrite Hd. cbn [negb].
  unfold tbind, lift, lift_exn. rewrite Hi.
  destruct s; reflexivity.
Qed.

(** The session of [choose_manually] when the loop over the names
    starts: the count of the team is 0, the size was asked once and
    [k] times again. *)
Lemma choose_manually_asked (self : Side) (keyboard : nat -> string)
      (k asks : nat) (s : Session) :
  (forall j, (j < k)%nat -> refused_size (keyboard (typed s + j)%nat)) ->
  choose_manually self keyboard (k + asks) s
  = (num <- ask_team_size keyboard asks (keyboard (typed s + k)%nat) ;;
     num <- lift (lift_exn (int_of_str num)) ;;
     tfor_range (Z.to_nat num) (name_pokemon self keyboard) O ;;
     t <- lift (gets (get_team self)) ;;
     match team t with
     | TArrayR array =>
         lift (modify_team self
                 (fun t => mkPokeTeam (team t) (team_count t)
                             (special_called t) (criterion t) array))
     | _ => traise TypeError
     end)%session
      (mkSession
         (set_team self
            (mkPokeTeam (team (get_team self (world s))) 0
                        (special_called (get_team self (world s)))
                        (criterion (get_team self (world s)))
                        (original_team (get_team self (world s))))
            (world s))
         (tower s)
         (notes s
          ++ (length (stdout (world s)), AskTeamSize)
             :: repeat (length (stdout (world s)), AskTeamSizeAgain) k)
         (typed s + k + 1)%nat).
Proof.
  intros Hrefused.
  unfold choose_manually.
  unfold tbind at 1. unfold lift at 1, modify_team at 1, modify at 1.
  unfold tbind at 1. unfold input at 1.
  unfold tbind at 1. unfold say at 1, tmodify at 1.
  unfold tbind at 1. unfold tgets at 1.
  unfold tbind at 1. unfold tmodify at 1. unfold tret at 1.
  cbn [world tower notes typed with_world].
  unfold tbind at 1. unfold tbind at 3.
  rewrite ask_team_size_skip.
  - cbn [world tower notes typed].
    assert (Hstdout : forall t w, stdout (set_team self t w) = stdout w)
      by (intros t w; destruct self; reflexivity).
    rewrite Hstdout, <- app_assoc. cbn [app].
    replace (S (typed s) + k)%nat with (typed s + k + 1)%nat by lia.
    replace (match k with
             | O => keyboard (typed s)
             | S k' => keyboard (S (typed s) + k')%nat
             end) with (keyboard (typed s + k)%nat)
      by (destruct k as [|k']; f_equal; lia).
    reflexivity.
  - intros j Hj. cbn [typed].
    specialize (Hrefused j Hj).
    replace (match j with
             | O => keyboard (typed s)
             | S j' => keyboard (S (typed s) + j')%nat
             end) with (keyboard (typed s + j)%nat)
      by (destruct j as [|j']; f_equal; lia).
    exact Hrefused.
Qed.

(** One name that is known: an object of its class is created and put
    into slot [i]. *)
Lemma name_pokemon_run (self : Side) (keyboard : nat -> string) (i : nat)
      (s : Session) (array : list pyobj) (poke : Pokemon) :
  team (get_team self (world s)) = TArrayR array ->
  (i < length array)%nat ->
  class_named (keyboard (typed s)) = Some poke ->
  exists w1,
    name_pokemon self keyboard i s
    = Done (S i)
        (mkSession w1 (tower s)
           (notes s ++ [(length (stdout (world s)),
                         AskPokemonName (Z.of_nat i + 1))])
           (S (typed s)))
    /\ team (get_team self w1)
       = TArrayR (list_set array i (Some (next_ref (world s))))
    /\ team_count (get_team self w1)
       = (team_count (get_team self (world s)) + 1)%nat
    /\ original_team (get_team self w1)
       = original_team (get_team self (world s))
    /\ next_ref w1 = S (next_ref (world s))
    /\ store w1 (next_ref (world s)) = poke
    /\ chosen_within self (world s) w1.
Proof.
  intros Hteam Hi Hfound.
  destruct s as [w t ns ty]. cbn [world tower notes typed] in *.
  unfold name_pokemon.
  unfold tbind at 1. unfold input at 1.
  unfold tbind at 1. unfold say at 1, tmodify at 1.
  unfold tbind at 1. unfold tgets at 1.
  unfold tbind at 1. unfold tmodify at 1. unfold tret at 1.
  cbn [world tower notes typed]. rewrite Hfound.
  unfold tbind at 1. unfold lift at 1, alloc at 1.
  cbn [world with_world tower notes typed].
  unfold tbind at 1. unfold lift at 1, team_setitem at 1.
  unfold bind at 1. unfold gets at 1.
  cbn [world with_world tower notes typed].
  replace (team (get_team self
                   (mkWorld (update_store (next_ref w) poke (store w))
                            (S (next_ref w)) (trainer_1 w) (trainer_2 w)
                            (stdout w))))
    with (TArrayR array) by (rewrite <- Hteam; destruct self; reflexivity).
  unfold array_setitem.
  replace ((Z.of_nat i <? 0) || (Z.of_nat (length array) <=? Z.of_nat i))%Z
    with false
    by (symmetry; apply orb_false_iff; rewrite Z.ltb_ge, Z.leb_gt; lia).
  rewrite Nat2Z.id. cbn [lift_exn]. unfold bind at 1. cbn [ret].
  rewrite bind_team_run.
  unfold tbind at 1. unfold lift at 1, modify_team at 1, modify at 1.
  cbn [world with_world tower notes typed tret].
  eexists. split; [reflexivity|].
  split; [destruct self; reflexivity|].
  split; [destruct self; reflexivity|].
  split; [destruct self; reflexivity|].
  split; [destruct self; reflexivity|].
  split; [destruct self; cbn; apply update_store_same|].
  unfold chosen_within.
  split; [destruct self; reflexivity|].
  split; [destruct self; reflexivity|].
  split; [destruct self; reflexivity|].
  split; [destruct self; reflexivity|].
  split; [destruct self; reflexivity|].
  split; [destruct self; reflexivity|].
  intros r Hr.
  destruct self; cbn [store set_team set_trainer put_team];
    apply update_store_other; lia.
Qed.

(** One name that is not known. *)
Lemma name_pokemon_unknown (self : Side) (keyboard : nat -> string) (i : nat)
      (s : Session) :
  class_named (keyboard (typed s)) = None ->
  name_pokemon self keyboard i s
  = Failed (ValueError (String.append "Invalid Pokemon name: '"
                          (String.append (keyboard (typed s)) "'")))
      (mkSession (world s) (tower s)
         (notes s ++ [(length (stdout (world s)),
                       AskPokemonName (Z.of_nat i + 1))])
         (S (typed s))).
Proof.
  intros Hnone.
  unfold name_pokemon, tbind, input, tbind, say, tmodify, tgets, tret.
  cbn [world tower notes typed]. rewrite Hnone. reflexivity.
Qed.

(** [k] names that are known fill the slots [i], ..., [i + k - 1]. *)
Lemma name_pokemon_loop (self : Side) (keyboard : nat -> string) :
  forall (k i : nat) (s : Session) (array : list pyobj),
    team (get_team self (world s)) = TArrayR array ->
    (i + k <= length array)%nat ->
    (forall j, (j < k)%nat ->
       class_named (keyboard (typed s + j)%nat) <> None) ->
    exists w',
      tfor_range k (name_pokemon self keyboard) i s
      = Done (i + k)%nat
          (mkSession w' (tower s)
             (notes s
              ++ map (fun j => (length (stdout (world s)),
                                AskPokemonName (Z.of_nat j + 1)))
                     (seq i k))
             (typed s + k)%nat)
      /\ team (get_team self w')
         = TArrayR (firstn i array ++ map Some (seq (next_ref (world s)) k)
                    ++ skipn (i + k)%nat array)
      /\ team_count (get_team self w')
         = (team_count (get_team self (world s)) + k)%nat
      /\ original_team (get_team self w')
         = original_team (get_team self (world s))
      /\ next_ref w' = (next_ref (world s) + k)%nat
      /\ (forall j, (j < k)%nat ->
            class_named (keyboard (typed s + j)%nat)
            = Some (store w' (next_ref (world s) + j)%nat))
      /\ chosen_within self (world s) w'.
Proof.
  induction k as [|k IH]; intros i s array Hteam Hk Hnames.
  - exists (world s). cbn [tfor_range tret seq map app].
    rewrite !Nat.add_0_r, firstn_skipn, app_nil_r.
    split; [destruct s; reflexivity|]. split; [exact Hteam|].
    split; [reflexivity|]. split; [reflexivity|]. split; [reflexivity|].
    split; [intros j Hj; lia|apply chosen_within_refl].
  - destruct (class_named (keyboard (typed s))) as [poke|] eqn:Hfound;
      [|specialize (Hnames 0%nat ltac:(lia));
        rewrite Nat.add_0_r in Hnames; contradiction].
    destruct (name_pokemon_run self keyboard i s array poke Hteam
                ltac:(lia) Hfound)
      as (w1 & Hrun1 & Ht1 & Hc1 & Ho1 & Hn1 & Hs1 & Hf1).
    set (s1 := mkSession w1 (tower s)
                 (notes s ++ [(length (stdout (world s)),
                               AskPokemonName (Z.of_nat i + 1))])
                 (S (typed s))) in *.
    destruct (IH (S i) s1 _ Ht1) as (w' & Hrun & Ht & Hc & Ho & Hn & Hs & Hf).
    { rewrite list_set_split by lia.
      rewrite length_app, length_firstn. cbn [length].
      rewrite length_skipn. lia. }
    { intros j Hj. cbn [typed s1].
      replace (S (typed s) + j)%nat with (typed s + S j)%nat by lia.
      apply Hnames. lia. }
    cbn [world tower notes typed s1] in Hrun, Ht, Hc, Ho, Hn, Hs, Hf.
    assert (Hout : stdout w1 = stdout (world s))
      by (destruct Hf1 as (_ & _ & _ & _ & _ & Hout & _); exact Hout).
    exists w'. cbn [tfor_range]. unfold tbind. rewrite Hrun1.
    split.
    { rewrite Hrun. rewrite Hout, <- app_assoc. cbn [app seq map].
      replace (S i + k)%nat with (i + S k)%nat by lia.
      replace (S (typed s) + k)%nat with (typed s + S k)%nat by lia.
      reflexivity. }
    replace (i + S k)%nat with (S i + k)%nat by lia.
    split.
    { rewrite Ht, Hn1. f_equal. rewrite list_set_split by lia.
      cbn [seq map].
      assert (Hlen : length (firstn i array) = i)
        by (rewrite length_firstn; lia).
      rewrite firstn_app, Hlen.
      replace (S i - i)%nat with 1%nat by lia.
      rewrite (firstn_all2 (firstn i array)) by (rewrite Hlen; lia).
      cbn [firstn].
      rewrite skipn_app, Hlen.
      rewrite (skipn_all2 (firstn i array)) by (rewrite Hlen; lia).
      replace (S i + k - i)%nat with (S k) by lia.
      rewrite skipn_cons, skipn_skipn. cbn [app].
      replace (k + S i)%nat with (S i + k)%nat by lia.
      rewrite <- app_assoc. reflexivity. }
    split; [rewrite Hc, Hc1; lia|].
    split; [rewrite Ho; exact Ho1|].
    split; [rewrite Hn, Hn1; lia|].
    split.
    { intros j Hj. destruct j as [|j].
      - rewrite !Nat.add_0_r, Hfound. f_equal.
        destruct Hf as (_ & _ & _ & _ & _ & _ & Hold).
        rewrite Hold by lia. symmetry. exact Hs1.
      - replace (typed s + S j)%nat with (S (typed s) + j)%nat by lia.
        rewrite (Hs j) by lia. rewrite Hn1. f_equal. f_equal. lia. }
    apply (chosen_within_trans self (world s) w1 w');
      [lia|exact Hf1|exact Hf].
Qed.


(** The session at the loop over the names, after an answer that is
    taken. *)
Lemma choose_manually_sized (self : Side) (keyboard : nat -> string)
      (k asks n : nat) (s : Session) :
  (k < asks)%nat ->
  (forall j, (j < k)%nat -> refused_size (keyboard (typed s + j)%nat)) ->
  accepted_size (keyboard (typed s + k)%nat) n ->
  choose_manually self keyboard asks s
  = (tfor_range n (name_pokemon self keyboard) O ;;
     t <- lift (gets (get_team self)) ;;
     match team t with
     | TArrayR array =>
         lift (modify_team self
                 (fun t => mkPokeTeam (team t) (team_count t)
                             (special_called t) (criterion t) array))
     | _ => traise TypeError
     end)%session
      (mkSession
         (set_team self
            (mkPokeTeam (team (get_team self (world s))) 0
                        (special_called (get_team self (world s)))
                        (criterion (get_team self (world s)))
                        (original_team (get_team self (world s))))
            (world s))
         (tower s)
         (notes s
          ++ (length (stdout (world s)), AskTeamSize)
             :: repeat (length (stdout (world s)), AskTeamSizeAgain) k)
         (typed s + k + 1)%nat).
Proof.
  intros Hasks Hrefused Haccepted.
  replace asks with (k + S (asks - k - 1))%nat by lia.
  rewrite (choose_manually_asked self keyboard k _ s Hrefused).
  unfold tbind at 1.
  rewrite (ask_team_size_accepts keyboard _ _ _ n Haccepted).
  destruct Haccepted as (_ & Hi & _).
  unfold tbind at 1. unfold lift at 1, lift_exn at 1. rewrite Hi.
  cbn [ret world with_world tower notes typed]. rewrite Nat2Z.id.
  reflexivity.
Qed.

(** X28.  [choose_manually] asks for the size of the team until the
    answer is a number from 1 to 6, then for that many names.  When
    every name is the name of a class of the catalogue, it returns: the
    first [n] slots of the team hold new objects of the classes named,
    in the order named, the other slots are as they were, the team
    counts [n], and [original_team] is the array of the team.  It has
    read [k + 1 + n] lines and written as many prompts, and nothing
    else of the trainers has changed. *)
Theorem choose_manually_picks (self : Side) (keyboard : nat -> string)
        (k asks n : nat) (s : Session) (array : list pyobj) :
  team (get_team self (world s)) = TArrayR array ->
  length array = TEAM_LIMIT ->
  (k < asks)%nat ->
  (forall j, (j < k)%nat -> refused_size (keyboard (typed s + j)%nat)) ->
  accepted_size (keyboard (typed s + k)%nat) n ->
  (forall j, (j < n)%nat ->
     class_named (keyboard (typed s + k + 1 + j)%nat) <> None) ->
  exists w',
    choose_manually self keyboard asks s
    = Done tt
        (mkSession w' (tower s)
           (notes s
            ++ (length (stdout (world s)), AskTeamSize)
               :: repeat (length (stdout (world s)), AskTeamSizeAgain) k
            ++ map (fun j => (length (stdout (world s)),
                              AskPokemonName (Z.of_nat j + 1)))
                   (seq 0 n))
           (typed s + k + 1 + n)%nat)
    /\ team (get_team self w')
       = TArrayR (map Some (seq (next_ref (world s)) n) ++ skipn n array)
    /\ original_team (get_team self w')
       = map Some (seq (next_ref (world s)) n) ++ skipn n array
    /\ team_count (get_team self w') = n
    /\ (forall j, (j < n)%nat ->
          class_named (keyboard (typed s + k + 1 + j)%nat)
          = Some (store w' (next_ref (world s) + j)%nat))
    /\ chosen_within self (world s) w'.
Proof.
  intros Hteam Hlen Hasks Hrefused Haccepted Hnames.
  rewrite (choose_manually_sized self keyboard k asks n s
             Hasks Hrefused Haccepted).
  destruct Haccepted as (_ & _ & Hn).
  set (w0 := set_team self
               (mkPokeTeam (team (get_team self (world s))) 0
                           (special_called (get_team self (world s)))
                           (criterion (get_team self (world s)))
                           (original_team (get_team self (world s))))
               (world s)).
  set (s0 := mkSession w0 (tower s) _ _).
  assert (Hteam0 : team (get_team self (world s0)) = TArrayR array)
    by (rewrite <- Hteam; destruct self; reflexivity).
  destruct (name_pokemon_loop self keyboard n 0%nat s0 array Hteam0)
    as (w1 & Hrun & Ht & Hc & Ho & Hnr & Hs & Hf).
  { rewrite Hlen. lia. }
  { intros j Hj. apply Hnames. exact Hj. }
  cbn [world tower notes typed s0 firstn app Nat.add] in Hrun, Ht, Hc, Ho,
    Hnr, Hs, Hf.
  destruct (set_team_frame self
              (mkPokeTeam (team (get_team self (world s))) 0
                          (special_called (get_team self (world s)))
                          (criterion (get_team self (world s)))
                          (original_team (get_team self (world s))))
              (world s))
    as (A1 & A2 & A3 & A4 & A5 & A6).
  fold w0 in A1, A2, A3, A4, A5, A6.
  assert (T0 : get_team self w0
               = mkPokeTeam (team (get_team self (world s))) 0
                            (special_called (get_team self (world s)))
                            (criterion (get_team self (world s)))
                            (original_team (get_team self (world s))))
    by apply get_team_set_team.
  rewrite A2 in Ht, Hnr, Hs. rewrite A3 in Hrun. rewrite T0 in Hc.
  cbn [team_count Nat.add] in Hc.
  set (final := mkPokeTeam (team (get_team self w1))
                           (team_count (get_team self w1))
                           (special_called (get_team self w1))
                           (criterion (get_team self w1))
                           (map Some (seq (next_ref (world s)) n)
                            ++ skipn n array)).
  destruct (set_team_frame self final w1) as (B1 & B2 & B3 & B4 & B5 & B6).
  assert (Tf : get_team self (set_team self final w1) = final)
    by apply get_team_set_team.
  exists (set_team self final w1).
  split.
  { unfold tbind at 1. rewrite Hrun.
    unfold tbind at 1. unfold lift at 1, gets at 1.
    cbn [world with_world tower notes typed]. unfold final. rewrite Ht.
    unfold lift, modify_team, modify.
    cbn [world with_world tower notes typed].
    rewrite ?Ht, <- app_assoc. cbn [app team]. reflexivity. }
  rewrite Tf. unfold final at 1 2 3. cbn [team original_team team_count].
  split; [exact Ht|]. split; [reflexivity|]. split; [exact Hc|].
  split.
  { intros j Hj. rewrite B1. apply Hs. exact Hj. }
  destruct Hf as (F1 & F2 & F3 & F4 & F5 & F6 & F7).
  unfold chosen_within.
  rewrite B4, B5, B6, B3, B1, Tf. unfold final. cbn [special_called criterion].
  split; [rewrite F1; exact A4|].
  split; [rewrite F2; exact A5|].
  split; [rewrite F3; exact A6|].
  split; [rewrite F4, T0; reflexivity|].
  split; [rewrite F5, T0; reflexivity|].
  split; [rewrite F6; exact A3|].
  intros r Hr. rewrite F7 by (rewrite A2; exact Hr). rewrite A1. reflexivity.
Qed.

(** X29.  A name that is not the name of a class of the catalogue makes
    [choose_manually] raise a [ValueError] that quotes the name.  The
    Pokemon named before it stay in the team, which counts them: the
    team is left partly chosen, and the lines after the name are not
    read. *)
Theorem choose_manually_unknown_name (self : Side) (keyboard : nat -> string)
        (k asks n m : nat) (s : Session) (array : list pyobj) :
  team (get_team self (world s)) = TArrayR array ->
  length array = TEAM_LIMIT ->
  (k < asks)%nat ->
  (forall j, (j < k)%nat -> refused_size (keyboard (typed s + j)%nat)) ->
  accepted_size (keyboard (typed s + k)%nat) n ->
  (m < n)%nat ->
  (forall j, (j < m)%nat ->
     class_named (keyboard (typed s + k + 1 + j)%nat) <> None) ->
  class_named (keyboard (typed s + k + 1 + m)%nat) = None ->
  exists w',
    choose_manually self keyboard asks s
    = Failed (ValueError
                (String.append "Invalid Pokemon name: '"
                   (String.append (keyboard (typed s + k + 1 + m)%nat) "'")))
        (mkSession w' (tower s)
           (notes s
            ++ (length (stdout (world s)), AskTeamSize)
               :: repeat (length (stdout (world s)), AskTeamSizeAgain) k
            ++ map (fun j => (length (stdout (world s)),
                              AskPokemonName (Z.of_nat j + 1)))
                   (seq 0 (S m)))
           (typed s + k + 1 + m + 1)%nat)
    /\ team (get_team self w')
       = TArrayR (map Some (seq (next_ref (world s)) m) ++ skipn m array)
    /\ team_count (get_team self w') = m
    /\ chosen_within self (world s) w'.
Proof.
  intros Hteam Hlen Hasks Hrefused Haccepted Hm Hnames Hnone.
  rewrite (choose_manually_sized self keyboard k asks n s
             Hasks Hrefused Haccepted).
  destruct Haccepted as (_ & _ & Hn).
  set (w0 := set_team self
               (mkPokeTeam (team (get_team self (world s))) 0
                           (special_called (get_team self (world s)))
                           (criterion (get_team self (world s)))
                           (original_team (get_team self (world s))))
               (world s)).
  set (s0 := mkSession w0 (tower s) _ _).
  assert (Hteam0 : team (get_team self (world s0)) = TArrayR array)
    by (rewrite <- Hteam; destruct self; reflexivity).
  destruct (name_pokemon_loop self keyboard m 0%nat s0 array Hteam0)
    as (w1 & Hrun & Ht & Hc & Ho & Hnr & Hs & Hf).
  { rewrite Hlen. lia. }
  { intros j Hj. apply Hnames. exact Hj. }
  cbn [world tower notes typed s0 firstn app Nat.add] in Hrun, Ht, Hc, Ho,
    Hnr, Hs, Hf.
  destruct (set_team_frame self
              (mkPokeTeam (team (get_team self (world s))) 0
                          (special_called (get_team self (world s)))
                          (criterion (get_team self (world s)))
                          (original_team (get_team self (world s))))
              (world s))
    as (A1 & A2 & A3 & A4 & A5 & A6).
  fold w0 in A1, A2, A3, A4, A5, A6.
  assert (T0 : get_team self w0
               = mkPokeTeam (team (get_team self (world s))) 0
                            (special_called (get_team self (world s)))
                            (criterion (get_team self (world s)))
                            (original_team (get_team self (world s))))
    by apply get_team_set_team.
  rewrite A2 in Ht, Hnr, Hs. rewrite A3 in Hrun. rewrite T0 in Hc.
  cbn [team_count Nat.add] in Hc.
  exists w1. split.
  { unfold tbind at 1.
    replace n with (m + S (n - m - 1))%nat by lia.
    rewrite tfor_range_app. unfold tbind at 1. rewrite Hrun.
    cbn [tfor_range]. unfold tbind at 1.
    rewrite name_pokemon_unknown by exact Hnone.
    cbn [world tower notes typed].
    destruct Hf as (_ & _ & _ & _ & _ & F6 & _).
    rewrite F6, A3, seq_S, map_app. cbn [map Nat.add].
    rewrite <- !app_assoc. cbn [app]. rewrite <- ?app_assoc.
    replace (S (typed s + k + 1 + m)) with (typed s + k + 1 + m + 1)%nat
      by lia.
    reflexivity. }
  split; [exact Ht|]. split; [exact Hc|].
  destruct Hf as (F1 & F2 & F3 & F4 & F5 & F6 & F7).
  unfold chosen_within.
  split; [rewrite F1; exact A4|].
  split; [rewrite F2; exact A5|].
  split; [rewrite F3; exact A6|].
  split; [rewrite F4, T0; reflexivity|].
  split; [rewrite F5, T0; reflexivity|].
  split; [rewrite F6; exact A3|].
  intros r Hr. rewrite F7 by (rewrite A2; exact Hr). rewrite A1. reflexivity.
Qed.

(** X30.  The loop that asks for the size tests [num.isdigit()] and
    then calls [int(num)].  An answer that [isdigit] takes and [int]
    does not ends [choose_manually] with the exception of [int]; the
    size is not asked again.  The count of the team is 0 by then and
    its members are as they were. *)
Theorem choose_manually_digit_not_int (self : Side) (keyboard : nat -> string)
        (k asks : nat) (s : Session) (e : exn) :
  (k < asks)%nat ->
  (forall j, (j < k)%nat -> refused_size (keyboard (typed s + j)%nat)) ->
  str_isdigit (keyboard (typed s + k)%nat) = true ->
  int_of_str (keyboard (typed s + k)%nat) = inl e ->
  exists w',
    choose_manually self keyboard asks s
    = Failed e
        (mkSession w' (tower s)
           (notes s
            ++ (length (stdout (world s)), AskTeamSize)
               :: repeat (length (stdout (world s)), AskTeamSizeAgain) k)
           (typed s + k + 1)%nat)
    /\ team (get_team self w') = team (get_team self (world s))
    /\ team_count (get_team self w') = 0%nat
    /\ original_team (get_team self w')
       = original_team (get_team self (world s))
    /\ store w' = store (world s)
    /\ chosen_within self (world s) w'.
Proof.
  intros Hasks Hrefused Hd Hi.
  replace asks with (k + S (asks - k - 1))%nat by lia.
  rewrite (choose_manually_asked self keyboard k _ s Hrefused).
  unfold tbind at 1.
  rewrite (ask_team_size_raises keyboard _ _ _ e Hd Hi).
  destruct (set_team_frame self
              (mkPokeTeam (team (get_team self (world s))) 0
                          (special_called (get_team self (world s)))
                          (criterion (get_team self (world s)))
                          (original_team (get_team self (world s))))
              (world s))
    as (A1 & A2 & A3 & A4 & A5 & A6).
  eexists. split; [reflexivity|].
  rewrite get_team_set_team. cbn [team team_count original_team].
  split; [reflexivity|]. split; [reflexivity|]. split; [reflexivity|].
  split; [exact A1|].
  unfold chosen_within. rewrite get_team_set_team.
  cbn [special_called criterion].
  split; [exact A4|]. split; [exact A5|]. split; [exact A6|].
  split; [reflexivity|]. split; [reflexivity|]. split; [exact A3|].
  intros r _. rewrite A1. reflexivity.
Qed.

End Engine.

(* ------------------------------------------------------------------ *)
(** ** The statements on the sample data *)

(** C10 on Ash's team of one: index 0 is read and nothing changes. *)
Lemma getitem_nondestructive_witness :
  adt_wf (team (get_team Side1 duel))
  /\ (0 <= 0 < Z.of_nat (length (team_order (team (get_team Side1 duel)))))%Z
  /\ exists x : pyobj,
       nth_error (team_order (team (get_team Side1 duel))) (Z.to_nat 0)
       = Some x
       /\ PokeTeam_getitem Side1 0 duel = Ok x duel.
Proof.
  assert (H1 : adt_wf (team (get_team Side1 duel))) by (cbn; lia).
  assert (H2 : (0 <= 0 < Z.of_nat (length (team_order
                                             (team (get_team Side1 duel)))))%Z)
    by (cbn; lia).
  split; [exact H1|]. split; [exact H2|].
  exact (getitem_nondestructive Side1 duel 0 H1 H2).
Defined.

(** The re-sort on a team of two tied Pokemon, sorted in the reversed
    direction. *)
Lemma resort_postcondition_witness :
  team (get_team Side1 tied)
  = TArraySortedList [mkItem 1%nat (KPair (-10) (-1));
                      mkItem 0%nat (KPair (-10) 0)]
  /\ In "health"%string CRITERION_LIST
  /\ exists items',
       assign_team Side1 (Some "health"%string) tied
       = Ok tt (put_team Side1 (TArraySortedList items') tied).
Proof.
  assert (H1 : team (get_team Side1 tied)
               = TArraySortedList [mkItem 1%nat (KPair (-10) (-1));
                                   mkItem 0%nat (KPair (-10) 0)])
    by reflexivity.
  assert (H2 : In "health"%string CRITERION_LIST) by (left; reflexivity).
  split; [exact H1|]. split; [exact H2|].
  destruct (resort_postcondition Side1 tied _ "health"%string H1 H2)
    as [(items' & Hrun & _) _].
  exists items'. exact Hrun.
Defined.

(** The tie rule fails on a tie.  With the reversed direction two tied
    Pokemon swap places at a re-sort: object 1 was in front of object 0
    and ends up behind it. *)
Lemma ties_flip_when_reversed : ~ ties_keep_order Side1 "health" tied.
Proof.
  intros H.
  destruct (assign_team Side1 (Some "health"%string) tied)
    as [[] w'|e w'|] eqn:E; try (vm_compute in E; discriminate).
  assert (Hw : team (get_team Side1 w')
               = TArraySortedList [mkItem 0%nat (KPair (-10) (-1));
                                   mkItem 1%nat (KPair (-10) 0)])
    by (vm_compute in E; injection E as <-; reflexivity).
  specialize (H w' _ _ 1%nat 0%nat E eq_refl Hw (Qeq_refl _)).
  destruct H as (l1 & l2 & l3 & Heq).
  - exists [], [], []. reflexivity.
  - cbn [map value] in Heq.
    pose proof (f_equal (@length ref) Heq) as Hlen.
    rewrite length_app in Hlen. cbn [length] in Hlen.
    rewrite length_app in Hlen. cbn [length] in Hlen.
    destruct l1; [|cbn [length] in Hlen; lia].
    cbn [app] in Heq. discriminate.
Qed.

(** C5, on the code.  A priority team of two Charmanders of equal
    health, sorted in the reversed direction: [special] was called once.
    The second key of [assign_team], which its comment adds to keep the
    original order, is the position times the direction, so that in the
    reversed direction the two swap places at every re-sort.  Object 1
    is in front of object 0; after [assign_team] object 0 is in front;
    after [assign_team] once more object 1 is in front again.  Neither
    the health of the two nor the direction has changed in between. *)
Lemma resort_swaps_ties_each_time :
  let w1 := outcome_world (assign_team Side1 (Some "health"%string) tied)
                          tied in
  let w2 := outcome_world (assign_team Side1 (Some "health"%string) w1) w1 in
  special_called (get_team Side1 tied) = true
  /\ (stat_of "health" (store tied 0%nat)
      == stat_of "health" (store tied 1%nat))%Q
  /\ team_order (team (get_team Side1 tied)) = [Some 1%nat; Some 0%nat]
  /\ assign_team Side1 (Some "health"%string) tied = Ok tt w1
  /\ team_order (team (get_team Side1 w1)) = [Some 0%nat; Some 1%nat]
  /\ special_called (get_team Side1 w1) = true
  /\ (stat_of "health" (store w1 0%nat)
      == stat_of "health" (store w1 1%nat))%Q
  /\ assign_team Side1 (Some "health"%string) w1 = Ok tt w2
  /\ team_order (team (get_team Side1 w2)) = [Some 1%nat; Some 0%nat]
  /\ special_called (get_team Side1 w2) = true.
Proof.
  intros w1 w2.
  split; [reflexivity|].
  split; [vm_compute; reflexivity|].
  split; [reflexivity|].
  split; [vm_compute; reflexivity|].
  split; [vm_compute; reflexivity|].
  split; [vm_compute; reflexivity|].
  split; [vm_compute; reflexivity|].
  split; [vm_compute; reflexivity|].
  split; vm_compute; reflexivity.
Qed.

(** C1 on the duel: Charmander's attack makes Eevee faint. *)
Lemma direct_faint_levels_attacker_witness :
  let w' := outcome_world
              (attack_and_defend unit_table 0%nat 1%nat Side1 Side2 duel)
              duel in
  attack_and_defend unit_table 0%nat 1%nat Side1 Side2 duel = Ok tt w'
  /\ is_alive (store w' 1%nat) = false
  /\ team_order (team (get_team Side2 w')) = []
  /\ level (store w' 0%nat) = (level (store duel 0%nat) + 1)%Z.
Proof.
  intros w'.
  assert (H1 : attack_and_defend unit_table 0%nat 1%nat Side1 Side2 duel
               = Ok tt w') by (vm_compute; reflexivity).
  assert (H2 : is_alive (store w' 1%nat) = false)
    by (vm_compute; reflexivity).
  split; [exact H1|]. split; [exact H2|].
  exact (direct_faint_levels_attacker unit_table 0%nat 1%nat Side1 Side2
           duel w' [] H1 H2 I eq_refl).
Defined.

(** C1, as the specification words it, fails.  Charmander knocks Eevee
    out with a direct attack and goes from level 1 to level 2. *)
Lemma direct_faint_levels_up :
  ~ direct_faint_keeps_level unit_table 0%nat 1%nat Side1 Side2 duel.
Proof.
  unfold direct_faint_keeps_level. intros H.
  destruct (attack_and_defend unit_table 0%nat 1%nat Side1 Side2 duel)
    as [[] w'|e w'|] eqn:E; try (vm_compute in E; discriminate).
  vm_compute in E. injection E as <-.
  specialize (H _ eq_refl eq_refl). vm_compute in H. discriminate.
Qed.

(** C2, on the code.  Two Charmanders of equal speed, each lethal to the
    other, clash: both faint and both are removed from their teams in
    that round, and both go from level 1 to level 2, the second of them
    while fainted. *)
Lemma simultaneous_faint_levels_both :
  let w' := outcome_world (fight unit_table (Some 0%nat) (Some 1%nat) twins)
                          twins in
  fight unit_table (Some 0%nat) (Some 1%nat) twins = Ok tt w'
  /\ (speed (store twins 0%nat) == speed (store twins 1%nat))%Q
  /\ is_alive (store w' 0%nat) = false
  /\ is_alive (store w' 1%nat) = false
  /\ team_len (get_team Side1 w') = 0%nat
  /\ team_len (get_team Side2 w') = 0%nat
  /\ level (store twins 0%nat) = 1%Z
  /\ level (store twins 1%nat) = 1%Z
  /\ level (store w' 0%nat) = 2%Z
  /\ level (store w' 1%nat) = 2%Z.
Proof.
  intros w'.
  split; [vm_compute; reflexivity|].
  split; [vm_compute; reflexivity|].
  split; [vm_compute; reflexivity|].
  split; [vm_compute; reflexivity|].
  split; [vm_compute; reflexivity|].
  split; [vm_compute; reflexivity|].
  split; [vm_compute; reflexivity|].
  split; [vm_compute; reflexivity|].
  split; vm_compute; reflexivity.
Qed.

(** C9 on the duel: Charmander is the faster of the two. *)
Lemma faster_attacks_first_witness :
  ~ (speed (store duel 0%nat) == speed (store duel 1%nat))%Q
  /\ fight unit_table (Some 0%nat) (Some 1%nat) duel
     = match attack_and_defend unit_table 0%nat 1%nat Side1 Side2
                               (clash_start 0%nat 1%nat duel) with
       | Ok _ w1 =>
           if is_alive (store w1 1%nat)
           then (attack_and_defend unit_table 1%nat 0%nat Side2 Side1 ;;
                 after_clash 0%nat 1%nat) w1
           else after_clash 0%nat 1%nat w1
       | Raise e w1 => Raise e w1
       | Timeout => Timeout
       end.
Proof.
  assert (H : ~ (speed (store duel 0%nat) == speed (store duel 1%nat))%Q)
    by (intros E; vm_compute in E; discriminate).
  split; [exact H|].
  exact (faster_attacks_first unit_table 0%nat 1%nat duel H).
Defined.

(** C7 on the duel: Ash wins the set battle within five rounds. *)
Lemma battle_outcome_witness :
  let w' := outcome_world
              (commence_battle unit_table (mkBattle SET None) 5 duel) duel in
  (forall a d, (0 <= unit_table a d)%Q)
  /\ battle_ready duel
  /\ commence_battle unit_table (mkBattle SET None) 5 duel
     = Ok (Some Side1) w'
  /\ team_len (get_team Side1 w') <> 0%nat
  /\ team_len (get_team Side2 w') = 0%nat
  /\ exists enough,
       commence_battle unit_table (mkBattle SET None) enough duel
       <> Timeout.
Proof.
  intros w'.
  assert (Ht : forall a d, (0 <= unit_table a d)%Q)
    by (intros a d; discriminate).
  assert (Hr : battle_ready duel).
  { split.
    - intros s. destruct s; cbn; split; try exact I; lia.
    - intros r. destruct r; discriminate. }
  assert (H : commence_battle unit_table (mkBattle SET None) 5 duel
              = Ok (Some Side1) w') by (vm_compute; reflexivity).
  destruct (battle_outcome unit_table (mkBattle SET None) duel)
    as (Hres & _ & Hend).
  split; [exact Ht|]. split; [exact Hr|]. split; [exact H|].
  split; [exact (proj1 (proj2 (Hres 5%nat (Some Side1) w' H)))|].
  split; [exact (proj2 (proj2 (Hres 5%nat (Some Side1) w' H)))|].
  destruct (Hend Ht Hr) as (enough & Henough & _).
  exists enough. exact Henough.
Defined.

(** C3 on a hurt Charmeleon: its health is Charmander's again, its name
    is not. *)
Lemma regenerate_team_health_only_witness :
  let w' := outcome_world
              (regenerate_team sample_catalogue Side1 ROTATE None veterans)
              veterans in
  regenerate_team sample_catalogue Side1 ROTATE None veterans = Ok tt w'
  /\ In (Some 0%nat) (original_team (get_team Side1 veterans))
  /\ name (store w' 0%nat) = name (store veterans 0%nat)
  /\ health (store w' 0%nat) = health charmander.
Proof.
  intros w'.
  assert (H1 : regenerate_team sample_catalogue Side1 ROTATE None veterans
               = Ok tt w') by (vm_compute; reflexivity).
  assert (H2 : In (Some 0%nat) (original_team (get_team Side1 veterans)))
    by (left; reflexivity).
  split; [exact H1|]. split; [exact H2|].
  destruct (regenerate_team_health_only sample_catalogue Side1 ROTATE None
              veterans w' 0%nat H1 H2) as (_ & Hname & Hhealth).
  split; [exact Hname|].
  apply Hhealth.
  - exists charmander. split; [left; reflexivity|reflexivity].
  - intros p [<-|[<-|[]]] Hline; [reflexivity|discriminate].
Defined.

(** C3, as the specification words it, fails on the name.  A regenerated
    Charmeleon is still called Charmeleon, not Charmander. *)
Lemma regenerate_keeps_evolved_name :
  ~ regeneration_round_trip sample_catalogue Side1 ROTATE None veterans.
Proof.
  unfold regeneration_round_trip. intros H.
  destruct (regenerate_team sample_catalogue Side1 ROTATE None veterans)
    as [[] w'|e w'|] eqn:E; try (vm_compute in E; discriminate).
  vm_compute in E. injection E as <-.
  destruct (H _ 0%nat eq_refl (or_introl eq_refl)) as [_ Hname].
  vm_compute in Hname. discriminate.
Qed.

(** C4, as the specification words it, fails on the stats.  After the
    battle Eevee, still listed in Gary's original team, has the health
    the battle left it. *)
Lemma snapshot_stats_follow_combat :
  ~ snapshot_stats_kept unit_table Side2 (mkBattle SET None) 5 duel.
Proof.
  unfold snapshot_stats_kept. intros H.
  destruct (commence_battle unit_table (mkBattle SET None) 5 duel)
    as [a w'|e w'|] eqn:E; try (vm_compute in E; discriminate).
  vm_compute in E. injection E as _ <-.
  specialize (H _ eq_refl). vm_compute in H. discriminate.
Qed.

(* ------------------------------------------------------------------ *)
(** ** The further properties on the sample data *)

(** X1 on the duel: Charmander becomes Charmeleon. *)
Lemma level_up_evolves_witness :
  exists w',
    level_up 0%nat duel = Ok tt w'
    /\ name (store w' 0%nat) = "Charmeleon"%string
    /\ level (store w' 0%nat) = 2%Z.
Proof.
  destruct (level_up_evolves 0%nat duel 0%nat "Charmeleon"%string
              eq_refl eq_refl) as (w' & Hrun & Hst & _).
  exists w'. split; [exact Hrun|]. rewrite Hst. split; reflexivity.
Defined.

(** X2 on the duel: Eevee has a line of one stage and only gains a
    level. *)
Lemma level_up_last_stage_witness :
  exists w',
    level_up 1%nat duel = Ok tt w'
    /\ store w' 1%nat = with_level 2 eevee.
Proof.
  destruct (level_up_last_stage 1%nat duel (or_intror eq_refl))
    as (w' & Hrun & Hst & _).
  exists w'. split; [exact Hrun|exact Hst].
Defined.

(** X3 on a Pokemon named Pikachu with the line of Eevee. *)
Lemma level_up_unknown_name_witness :
  exists w',
    level_up 1%nat duel_misnamed = Raise (ValueError "is not in list") w'
    /\ level (store w' 1%nat) = 2%Z.
Proof.
  assert (Hne : evolution_line (store duel_misnamed 1%nat) <> [])
    by discriminate.
  destruct (level_up_unknown_name 1%nat duel_misnamed Hne eq_refl)
    as (w' & Hrun & Hst & _).
  exists w'. split; [exact Hrun|]. rewrite Hst. reflexivity.
Defined.

(** X4 on the duel: Charmander is alive before and after evolving. *)
Lemma level_up_keeps_alive_witness :
  exists w',
    level_up 0%nat duel = Ok tt w'
    /\ is_alive (store w' 0%nat) = is_alive (store duel 0%nat).
Proof.
  exists (outcome_world (level_up 0%nat duel) duel).
  assert (H : level_up 0%nat duel
              = Ok tt (outcome_world (level_up 0%nat duel) duel))
    by (vm_compute; reflexivity).
  split; [exact H|].
  exact (level_up_keeps_alive 0%nat duel _ H 0%nat).
Defined.

(** X5 on the late duel: Charmander faints in the chip-damage step, is
    removed, and Eevee gains a level. *)
Lemma deduct_two_outcomes_witness :
  exists w',
    deduct_two 0%nat 1%nat duel_late = Ok tt w'
    /\ level (store w' 1%nat) = 2%Z
    /\ members Side1 w' = []
    /\ members Side2 w' = [Some 1%nat].
Proof.
  assert (Hne : 0%nat <> 1%nat) by discriminate.
  assert (H : deduct_two 0%nat 1%nat duel_late
              = Ok tt (outcome_world (deduct_two 0%nat 1%nat duel_late)
                                     duel_late))
    by (vm_compute; reflexivity).
  exists (outcome_world (deduct_two 0%nat 1%nat duel_late) duel_late).
  split; [exact H|].
  exact (proj2 (deduct_two_outcomes 0%nat 1%nat duel_late _ Hne I I H)).
Defined.

(** X6 on a stack of four: the two in front change places. *)
Lemma special_set_reverses_front_witness :
  exists w',
    special Side1 SET squad_set = Ok tt w'
    /\ members Side1 w' = [Some 1%nat; Some 0%nat; Some 2%nat; Some 3%nat].
Proof.
  destruct (special_set_reverses_front Side1 squad_set 4%nat
              [Some 0%nat; Some 1%nat; Some 2%nat; Some 3%nat]
              eq_refl ltac:(cbn; lia) ltac:(cbn; lia))
    as (w' & Hrun & Hm & _).
  exists w'. split; [exact Hrun|exact Hm].
Defined.

(** X7 on a queue of five: the last two change places. *)
Lemma special_rotate_reverses_back_witness :
  exists w',
    special Side1 ROTATE squad_rotate = Ok tt w'
    /\ members Side1 w'
       = [Some 0%nat; Some 1%nat; Some 2%nat; Some 4%nat; Some 3%nat].
Proof.
  destruct (special_rotate_reverses_back Side1 squad_rotate 5%nat
              [Some 0%nat; Some 1%nat; Some 2%nat; Some 3%nat; Some 4%nat]
              eq_refl ltac:(cbn; lia) eq_refl)
    as (w' & Hrun & Hm & _).
  exists w'. split; [exact Hrun|exact Hm].
Defined.

(** X8 on the queue of five. *)
Lemma special_twice_witness :
  (special Side1 ROTATE ;; special Side1 ROTATE) squad_rotate
  = Ok tt squad_rotate.
Proof.
  apply (special_twice Side1 ROTATE squad_rotate).
  cbn. split; [lia|reflexivity].
Defined.

(** X9 on three recruits: the last one chosen is on top. *)
Lemma assemble_team_set_witness :
  exists w',
    assemble_team Side1 SET None recruits = Ok tt w'
    /\ members Side1 w' = [Some 2%nat; Some 1%nat; Some 0%nat].
Proof.
  eexists. split.
  - apply (assemble_team_set Side1 None recruits
             [Some 0%nat; Some 1%nat; Some 2%nat; None; None; None]
             eq_refl).
    cbn. lia.
  - reflexivity.
Defined.

(** X10 on three recruits: the first one chosen is in front. *)
Lemma assemble_team_rotate_witness :
  exists w',
    assemble_team Side1 ROTATE None recruits = Ok tt w'
    /\ members Side1 w' = [Some 0%nat; Some 1%nat; Some 2%nat].
Proof.
  eexists. split.
  - apply (assemble_team_rotate Side1 None recruits
             [Some 0%nat; Some 1%nat; Some 2%nat; None; None; None]
             eq_refl).
    cbn. lia.
  - reflexivity.
Defined.

(** X11 on three recruits, by health: the list comes out sorted. *)
Lemma assemble_team_optimise_witness :
  exists items,
    assemble_team Side1 OPTIMISE (Some "health"%string) recruits
    = Ok tt (assembled_as Side1 (TArraySortedList items)
               (Some "health"%string) recruits)
    /\ StronglySorted item_le items.
Proof.
  assert (Hslots : forall j, (j < team_count (get_team Side1 recruits))%nat ->
             exists r,
               nth_error [Some 0%nat; Some 1%nat; Some 2%nat; None; None;
                          None] j = Some (Some r)).
  { intros j Hj. cbn in Hj.
    destruct j as [|[|[|j]]]; [eexists; reflexivity ..|lia]. }
  destruct (assemble_team_optimise Side1 "health"%string recruits
              [Some 0%nat; Some 1%nat; Some 2%nat; None; None; None]
              eq_refl ltac:(cbn; lia) Hslots (or_introl eq_refl))
    as (items & Hrun & Hs & _).
  exists items. split; [exact Hrun|exact Hs].
Defined.

(** X12 on three recruits: sorting by name is refused. *)
Lemma assemble_team_unknown_criterion_witness :
  assemble_team Side1 OPTIMISE (Some "name"%string) recruits
  = Raise not_in_criterion_list recruits.
Proof.
  exact (assemble_team_unknown_criterion Side1 (Some "name"%string) recruits
           eq_refl).
Defined.

(** X14 on the queue of five: object 0 goes to the back. *)
Lemma rotate_pokemon_cases_witness :
  exists w',
    rotate_pokemon Side1 squad_rotate = Ok tt w'
    /\ members Side1 w'
       = [Some 1%nat; Some 2%nat; Some 3%nat; Some 4%nat; Some 0%nat].
Proof.
  eexists. split.
  - apply (rotate_pokemon_cases Side1 squad_rotate). cbn. lia.
  - reflexivity.
Defined.

(** X15 for Ash in the duel, with a fresh array and every draw 0: six
    Charmanders are created as objects 2 to 7. *)
Lemma choose_randomly_fills_team_witness :
  let w := put_team Side1 (TArrayR [None; None; None; None; None; None])
                    duel in
  exists w',
    choose_randomly sample_catalogue Side1 (fun _ => 0%nat) w = Ok tt w'
    /\ team (get_team Side1 w')
       = TArrayR [Some 2%nat; Some 3%nat; Some 4%nat; Some 5%nat;
                  Some 6%nat; Some 7%nat]
    /\ store w' 7%nat = charmander.
Proof.
  intros w.
  assert (Hd : forall i, (i < TEAM_LIMIT)%nat ->
                 ((fun _ : nat => 0%nat) i < length sample_catalogue)%nat)
    by (intros i _; cbn; lia).
  destruct (choose_randomly_fills_team sample_catalogue Side1
              (fun _ => 0%nat) w
              [None; None; None; None; None; None] eq_refl eq_refl Hd)
    as (w' & Hrun & Ht & _ & _ & _ & Hs & _).
  exists w'. split; [exact Hrun|]. split; [exact Ht|].
  specialize (Hs 5%nat ltac:(unfold TEAM_LIMIT; lia)).
  cbn in Hs. injection Hs as Hs. symmetry. exact Hs.
Defined.

(** X16 for Ash in the duel, with no class to draw from. *)
Lemma choose_randomly_empty_catalogue_witness :
  exists w',
    choose_randomly [] Side1 (fun _ => 0%nat) duel
    = Raise (ValueError "empty range for randrange()") w'
    /\ team_count (get_team Side1 w') = 0%nat.
Proof.
  eexists. split.
  - apply (choose_randomly_empty_catalogue [] Side1 (fun _ => 0%nat) duel).
    reflexivity.
  - reflexivity.
Defined.

(** X17 on the veterans, whose queue is empty after a lost battle: all
    six are back in the queue, in their original order. *)
Lemma regenerate_team_restores_roster_witness :
  exists w',
    regenerate_team sample_catalogue Side1 ROTATE None veterans = Ok tt w'
    /\ members Side1 veterans = []
    /\ members Side1 w'
       = [Some 0%nat; Some 1%nat; Some 2%nat; Some 3%nat; Some 4%nat;
          Some 5%nat].
Proof.
  assert (Hfull : Forall (fun o : pyobj => o <> None)
                    (original_team (get_team Side1 veterans)))
    by (repeat constructor; discriminate).
  assert (Hn : (team_count (get_team Side1 veterans)
                <= length (original_team (get_team Side1 veterans)))%nat)
    by (cbn; lia).
  assert (Hc : ROTATE = OPTIMISE ->
               exists crit, (None : option string) = Some crit
                            /\ In crit CRITERION_LIST)
    by discriminate.
  destruct (regenerate_team_restores_roster sample_catalogue Side1 ROTATE
              None veterans Hfull Hn Hc) as (w' & Hrun & Hm & _).
  exists w'. split; [exact Hrun|]. split; [reflexivity|exact Hm].
Defined.

(** X19 for Gary in the duel, who has registered one type of fifteen:
    his completion is 0.07. *)
Lemma pokedex_completion_bounds_witness :
  pokedex_in_range (pokedex (get_trainer Side2 duel))
  /\ get_pokedex_completion Side2 duel = Ok (7 # 100) duel
  /\ exists c,
       get_pokedex_completion Side2 duel = Ok c duel /\ (0 <= c <= 1)%Q.
Proof.
  assert (Hr : pokedex_in_range (pokedex (get_trainer Side2 duel)))
    by reflexivity.
  split; [exact Hr|]. split; [reflexivity|].
  destruct (pokedex_completion_bounds Side2 duel Hr)
    as [(c & Hrun & Hb & _) _].
  exists c. split; [exact Hrun|exact Hb].
Defined.

(** X21 on the stack of four: four lines, object 0 first, and the stack
    is as before. *)
Lemma PokeTeam_str_nondestructive_witness :
  PokeTeam_str Side1 squad_set
  = Ok [Some charmander; Some charmander; Some charmander; Some charmander]
       squad_set.
Proof.
  apply (PokeTeam_str_nondestructive Side1 squad_set); cbn; [lia|exact I].
Defined.

(** X22 for Ash in the lobby, every draw the first class of the
    catalogue: he gets six Charmanders and has FIRE in his pokedex. *)
Lemma pick_team_random_witness :
  exists w',
    pick_team sample_catalogue sample_isdigit sample_int Side1 "Random"
              (fun _ => 0%nat) (fun _ => EmptyString) 0%nat lobby
    = Done tt (with_world w' lobby)
    /\ team_count (get_team Side1 w') = TEAM_LIMIT
    /\ has_registered Side1 FIRE w'.
Proof.
  assert (Hd : forall i, (i < TEAM_LIMIT)%nat ->
                 ((fun _ : nat => 0%nat) i < length sample_catalogue)%nat)
    by (intros i _; cbn; lia).
  destruct (pick_team_random sample_catalogue sample_isdigit sample_int
              Side1 (fun _ => 0%nat) (fun _ => EmptyString) 0%nat lobby
              (repeat None TEAM_LIMIT) eq_refl eq_refl Hd)
    as (w' & Hrun & _ & Hc & Hs & _).
  exists w'. split; [exact Hrun|]. split; [exact Hc|].
  destruct (Hs 0%nat ltac:(unfold TEAM_LIMIT; lia)) as [Hp Hr].
  change (next_ref (world lobby) + 0)%nat with 0%nat in Hp, Hr.
  cbn [nth_error sample_catalogue] in Hp. injection Hp as Hp.
  rewrite <- Hp in Hr. exact Hr.
Defined.

(** X23 for Ash in the lobby, asked to pick at a whim. *)
Lemma pick_team_invalid_method_witness :
  pick_team sample_catalogue sample_isdigit sample_int Side1 "Whim"
            (fun _ => 0%nat) (fun _ => EmptyString) 0%nat lobby
  = Failed (ValueError "Invalid method") lobby.
Proof.
  apply pick_team_invalid_method; discriminate.
Defined.

(** X24 in the lobby, for an optimised battle by battle power: team 1
    draws Charmanders and Eevees in turn, team 2 draws Eevees, and both
    come out as lists sorted by battle power. *)
Lemma _create_teams_cases_witness :
  exists s',
    _create_teams sample_catalogue sample_isdigit sample_int
                  (mkBattle OPTIMISE (Some "battle_power"%string))
                  (fun i => Nat.modulo i 2) (fun _ => 1%nat) lobby
    = Done tt s'
    /\ lined_up OPTIMISE (Some "battle_power"%string) (store (world s'))
                (fresh_team 0) (team (get_team Side1 (world s')))
    /\ lined_up OPTIMISE (Some "battle_power"%string) (store (world s'))
                (fresh_team 6) (team (get_team Side2 (world s')))
    /\ store (world s') 0%nat = charmander
    /\ store (world s') 1%nat = eevee.
Proof.
  assert (Hd : forall i, (i < TEAM_LIMIT)%nat ->
                 ((fun i : nat => Nat.modulo i 2) i
                  < length sample_catalogue)%nat
                 /\ ((fun _ : nat => 1%nat) i < length sample_catalogue)%nat).
  { intros i _. split; [|cbn; lia].
    apply (Nat.mod_upper_bound i 2). lia. }
  pose proof (_create_teams_cases sample_catalogue sample_isdigit sample_int
                (mkBattle OPTIMISE (Some "battle_power"%string))
                (fun i => Nat.modulo i 2) (fun _ => 1%nat) lobby
                (repeat None TEAM_LIMIT) (repeat None TEAM_LIMIT)
                eq_refl eq_refl eq_refl eq_refl Hd) as H.
  cbn [battle_criterion battle_mode] in H.
  change (in_CRITERION_LIST (Some "battle_power"%string)) with true in H.
  destruct H as (s' & Hrun & L1 & L2 & K & _).
  exists s'. split; [exact Hrun|]. split; [exact L1|]. split; [exact L2|].
  pose proof (proj1 (K 0%nat ltac:(unfold TEAM_LIMIT; lia))) as K0.
  pose proof (proj1 (K 1%nat ltac:(unfold TEAM_LIMIT; lia))) as K1.
  cbn in K0, K1. injection K0 as K0. injection K1 as K1.
  split; [symmetry; exact K0|symmetry; exact K1].
Defined.

(** X26 in the arena: Ash wins, and of the three lives in play two are
    left. *)
Lemma next_battle_score_witness :
  exists r s',
    next_battle unit_table sample_catalogue 10 arena = Done r s'
    /\ report_result r = 1%Z
    /\ (player_lives (tower s') + enemy_lives (tower s') = 2)%Z.
Proof.
  destruct (next_battle unit_table sample_catalogue 10 arena)
    as [r s'|e s'|] eqn:E; [|vm_compute in E; discriminate ..].
  exists r, s'. split; [reflexivity|].
  destruct (next_battle_score unit_table sample_catalogue 10 arena s' r E)
    as (q & enemy & rest & winner & w1 & _ & _ & _ & _ & _ & _ & Hsum).
  split; [|exact Hsum].
  vm_compute in E. injection E as <- _. reflexivity.
Defined.

(** X27 in the arena: the enemy has two lives and the count says two;
    after the battle it has one and the count says one. *)
Lemma tower_stays_consistent_witness :
  tower_consistent (tower arena)
  /\ exists r s',
       next_battle unit_table sample_catalogue 10 arena = Done r s'
       /\ tower_consistent (tower s').
Proof.
  assert (Hc : tower_consistent (tower arena)).
  { eexists. split; [reflexivity|]. split; [reflexivity|].
    split; [repeat constructor|cbn; lia]. }
  split; [exact Hc|].
  destruct (next_battle unit_table sample_catalogue 10 arena)
    as [r s'|e s'|] eqn:E; [|vm_compute in E; discriminate ..].
  exists r, s'. split; [reflexivity|].
  exact (proj2 (tower_stays_consistent unit_table sample_catalogue 10 arena
                  s' r Hc) E).
Defined.

(** X25 in the lobby: two enemies with two lives each are generated,
    the first with six Charmanders and the second with six Eevees, and
    the tower counts four enemy lives. *)
Lemma generate_enemy_trainers_queue_witness :
  exists s' es,
    generate_enemy_trainers sample_catalogue sample_isdigit sample_int
                            2%Z (fun n _ => n) (fun _ => 2%Z) lobby
    = Done tt s'
    /\ enemy_teams (tower s') = Some (mkTrainerQueue 2%nat es)
    /\ enemy_lives (tower s') = 4%Z
    /\ length es = 2%nat
    /\ (exists e,
          nth_error es 1%nat = Some e
          /\ trainer_name (enemy_trainer e) = "Enemy 1"%string
          /\ life e = 2%Z
          /\ team (trainer_team (enemy_trainer e))
             = TCircularQueue (mkQueue 6%nat (fresh_team 6%nat))
          /\ store (world s') 6%nat = eevee)
    /\ store (world s') 0%nat = charmander
    /\ tower_consistent (tower s').
Proof.
  assert (Hd : forall n j, (n < Z.to_nat 2)%nat -> (j < TEAM_LIMIT)%nat ->
                 ((fun n _ : nat => n) n j < length sample_catalogue)%nat)
    by (intros n j Hn _; cbn in *; lia).
  destruct (generate_enemy_trainers_queue sample_catalogue sample_isdigit
              sample_int 2%Z (fun n _ => n) (fun _ => 2%Z) lobby Hd)
    as (s' & es & Hrun & Ht & Hlen & Hm & _ & _ & Hc & _).
  exists s', es. split; [exact Hrun|].
  split; [rewrite Ht; reflexivity|].
  split; [rewrite Ht; reflexivity|].
  split; [exact Hlen|].
  destruct (Hm 0%nat ltac:(cbn; lia)) as (e0 & _ & _ & _ & _ & _ & _ & K0).
  destruct (Hm 1%nat ltac:(cbn; lia)) as (e1 & He1 & N1 & L1 & T1 & _ & _ & K1).
  pose proof (proj1 (K0 0%nat ltac:(unfold TEAM_LIMIT; lia))) as C0.
  pose proof (proj1 (K1 0%nat ltac:(unfold TEAM_LIMIT; lia))) as C1.
  cbn in C0, C1. injection C0 as C0. injection C1 as C1.
  split.
  { exists e1. split; [exact He1|]. split; [exact N1|].
    split; [exact L1|]. split; [exact T1|]. symmetry. exact C1. }
  split; [symmetry; exact C0|].
  apply Hc; [reflexivity|intros; lia].
Defined.

(** X28 for Ash in the lobby, who answers six, then 2, then names an
    Eevee and a Charmander. *)
Lemma choose_manually_picks_witness :
  exists w',
    choose_manually sample_catalogue sample_isdigit sample_int Side1
                    sample_keyboard 2%nat lobby
    = Done tt
        (mkSession w' new_tower
           [(0%nat, AskTeamSize); (0%nat, AskTeamSizeAgain);
            (0%nat, AskPokemonName 1); (0%nat, AskPokemonName 2)]
           4%nat)
    /\ team (get_team Side1 w')
       = TArrayR [Some 0%nat; Some 1%nat; None; None; None; None]
    /\ team_count (get_team Side1 w') = 2%nat
    /\ store w' 0%nat = eevee
    /\ store w' 1%nat = charmander.
Proof.
  assert (Hrefused : forall j, (j < 1)%nat ->
            refused_size sample_isdigit sample_int
                         (sample_keyboard (typed lobby + j)%nat)).
  { intros j Hj. assert (j = 0%nat) as -> by lia. left. reflexivity. }
  assert (Haccepted : accepted_size sample_isdigit sample_int
                        (sample_keyboard (typed lobby + 1)%nat) 2%nat).
  { split; [reflexivity|]. split; [reflexivity|]. unfold TEAM_LIMIT. lia. }
  assert (Hnames : forall j, (j < 2)%nat ->
            class_named sample_catalogue
                        (sample_keyboard (typed lobby + 1 + 1 + j)%nat)
            <> None).
  { intros [|[|j]] Hj; [discriminate|discriminate|lia]. }
  destruct (choose_manually_picks sample_catalogue sample_isdigit sample_int
              Side1 sample_keyboard 1%nat 2%nat 2%nat lobby
              (repeat None TEAM_LIMIT) eq_refl eq_refl ltac:(lia)
              Hrefused Haccepted Hnames)
    as (w' & Hrun & Ht & _ & Hc & Hs & _).
  exists w'. split; [exact Hrun|]. split; [exact Ht|]. split; [exact Hc|].
  pose proof (Hs 0%nat ltac:(lia)) as H0.
  pose proof (Hs 1%nat ltac:(lia)) as H1.
  cbn in H0, H1. injection H0 as H0. injection H1 as H1.
  split; [symmetry; exact H0|symmetry; exact H1].
Defined.

(** X29 for Ash in the lobby, who asks for two Pokemon and names an
    Eevee and a Pikachu: the Eevee stays in a team of one. *)
Lemma choose_manually_unknown_name_witness :
  exists w',
    choose_manually sample_catalogue sample_isdigit sample_int Side1
                    mistyped_keyboard 1%nat lobby
    = Failed (ValueError "Invalid Pokemon name: 'Pikachu'")
        (mkSession w' new_tower
           [(0%nat, AskTeamSize);
            (0%nat, AskPokemonName 1); (0%nat, AskPokemonName 2)]
           3%nat)
    /\ team (get_team Side1 w')
       = TArrayR [Some 0%nat; None; None; None; None; None]
    /\ team_count (get_team Side1 w') = 1%nat.
Proof.
  assert (Hrefused : forall j, (j < 0)%nat ->
            refused_size sample_isdigit sample_int
                         (mistyped_keyboard (typed lobby + j)%nat))
    by (intros j Hj; lia).
  assert (Haccepted : accepted_size sample_isdigit sample_int
                        (mistyped_keyboard (typed lobby + 0)%nat) 2%nat).
  { split; [reflexivity|]. split; [reflexivity|]. unfold TEAM_LIMIT. lia. }
  assert (Hnames : forall j, (j < 1)%nat ->
            class_named sample_catalogue
                        (mistyped_keyboard (typed lobby + 0 + 1 + j)%nat)
            <> None).
  { intros [|j] Hj; [discriminate|lia]. }
  destruct (choose_manually_unknown_name sample_catalogue sample_isdigit
              sample_int Side1 mistyped_keyboard 0%nat 1%nat 2%nat 1%nat
              lobby (repeat None TEAM_LIMIT) eq_refl eq_refl ltac:(lia)
              Hrefused Haccepted ltac:(lia) Hnames eq_refl)
    as (w' & Hrun & Ht & Hc & _).
  exists w'. split; [exact Hrun|]. split; [exact Ht|exact Hc].
Defined.

(** X30 for Ash in the lobby, who answers with a superscript two. *)
Lemma choose_manually_digit_not_int_witness :
  exists w',
    choose_manually sample_catalogue unicode_isdigit sample_int Side1
                    (fun _ => superscript_two) 1%nat lobby
    = Failed (ValueError "invalid literal for int()")
        (mkSession w' new_tower [(0%nat, AskTeamSize)] 1%nat)
    /\ team_count (get_team Side1 w') = 0%nat.
Proof.
  assert (Hrefused : forall j, (j < 0)%nat ->
            refused_size unicode_isdigit sample_int
                         ((fun _ : nat => superscript_two)
                            (typed lobby + j)%nat))
    by (intros j Hj; lia).
  destruct (choose_manually_digit_not_int sample_catalogue unicode_isdigit
              sample_int Side1 (fun _ => superscript_two) 0%nat 1%nat lobby
              (ValueError "invalid literal for int()") ltac:(lia)
              Hrefused eq_refl eq_refl)
    as (w' & Hrun & _ & Hc & _).
  exists w'. split; [exact Hrun|exact Hc].
Defined.
